(** * Retrieval substrate of the policy analysis system

    A shallow embedding of the passage chunker
    ([Agent/utils/chunking.py]), the multi-query merge
    ([Agent/vector_db.py]), the reranking pass ([utils/reranker.py]),
    the dedup + time-weighting step ([Agent/agents/novelty_agent.py])
    and the merge by document ([agents/enhanced_rag_agent.py]).

    Conventions of the embedding:
    - a Python [str] is a list of Unicode code points ([list N]);
      [len], slicing, [strip], [find]/[rfind] and [join] follow the
      Python semantics, negative slice bounds included;
    - a Python [int] is a [Z];
    - a Python [float] score is an exact rational ([Q]): the formulas
      and comparisons of the code are kept. Where the order of two
      scores hangs on binary64 rounding, the formula is embedded a
      second time over the binary64 numbers ([Binary64]);
    - a candidate dictionary is a record of optional fields; the
      dictionaries that the code mutates in place live in a store that
      maps references to records, the lists hold references. *)

From Stdlib Require Import Strings.String.
From Stdlib Require Import ZArith NArith QArith Lia Lqa List Sorted Decimal Ascii.
From Stdlib Require Import DecimalNat.
From Stdlib Require Floats.PrimFloat.
From stdpp Require Import base option list gmap.

Local Open Scope Z_scope.

(** ** Python strings *)

Module PyStr.

Abbreviation str := (list N).

Definition len (s : str) : Z := Z.of_nat (length s).

(** [str.isspace] on one code point (the white-space table of the
    runtime, also the class [\s] of the regular expressions). *)
Definition isspace (c : N) : bool :=
  (((9 <=? c) && (c <=? 13)) || ((28 <=? c) && (c <=? 32))
   || (c =? 133) || (c =? 160) || (c =? 5760)
   || ((8192 <=? c) && (c <=? 8202))
   || (c =? 8232) || (c =? 8233) || (c =? 8239) || (c =? 8287)
   || (c =? 12288))%N.

Fixpoint lstrip (s : str) : str :=
  match s with
  | c :: s' => if isspace c then lstrip s' else s
  | [] => []
  end.

Definition rstrip (s : str) : str := rev (lstrip (rev s)).

Definition strip (s : str) : str := rstrip (lstrip s).

(** [s[:n]] *)
Definition slice_to (s : str) (n : Z) : str :=
  if n <? 0 then firstn (Z.to_nat (len s + n)) s else firstn (Z.to_nat n) s.

(** [s[n:]] *)
Definition slice_from (s : str) (n : Z) : str :=
  if n <? 0 then skipn (Z.to_nat (len s + n)) s else skipn (Z.to_nat n) s.

Fixpoint startswith (s sub : str) : bool :=
  match sub, s with
  | [], _ => true
  | c :: sub', d :: s' => (c =? d)%N && startswith s' sub'
  | _ :: _, [] => false
  end.

(** [find_from i s sub]: lowest index of [sub] in [s], counted from [i];
    [-1] when absent. *)
Fixpoint find_from (i : Z) (s sub : str) : Z :=
  match s with
  | [] => if startswith [] sub then i else -1
  | _ :: s' => if startswith s sub then i else find_from (i + 1) s' sub
  end.

Definition find (s sub : str) : Z := find_from 0 s sub.

(** [rfind_from i s sub]: highest index of [sub] in [s], counted from [i];
    [-1] when absent. *)
Fixpoint rfind_from (i : Z) (s sub : str) : Z :=
  match s with
  | [] => if startswith [] sub then i else -1
  | _ :: s' =>
      let r := rfind_from (i + 1) s' sub in
      if 0 <=? r then r else if startswith s sub then i else -1
  end.

Definition rfind (s sub : str) : Z := rfind_from 0 s sub.

(** [c in s] for a one-character [c] *)
Definition contains (s : str) (c : N) : bool := existsb (N.eqb c) s.

(** [s.replace(c, by)] for a one-character [c] *)
Fixpoint replace_char (c : N) (by_ : str) (s : str) : str :=
  match s with
  | [] => []
  | d :: s' => (if (d =? c)%N then by_ else [d]) ++ replace_char c by_ s'
  end.

(** [sep.join(parts)] *)
Fixpoint join (sep : str) (parts : list str) : str :=
  match parts with
  | [] => []
  | [p] => p
  | p :: ps => p ++ sep ++ join sep ps
  end.

Definition nonempty (s : str) : bool :=
  match s with [] => false | _ :: _ => true end.

(** Code points of an ASCII literal, to write examples. *)
Fixpoint lit (s : String.string) : str :=
  match s with
  | String.EmptyString => []
  | String.String a s' => N_of_ascii a :: lit s'
  end.

Fixpoint uint_digits (u : Decimal.uint) : str :=
  match u with
  | Nil => []
  | D0 u => 48%N :: uint_digits u
  | D1 u => 49%N :: uint_digits u
  | D2 u => 50%N :: uint_digits u
  | D3 u => 51%N :: uint_digits u
  | D4 u => 52%N :: uint_digits u
  | D5 u => 53%N :: uint_digits u
  | D6 u => 54%N :: uint_digits u
  | D7 u => 55%N :: uint_digits u
  | D8 u => 56%N :: uint_digits u
  | D9 u => 57%N :: uint_digits u
  end.

(** [str(n)] for a natural number *)
Definition str_of_nat (n : nat) : str := uint_digits (Nat.to_uint n).

(** No white space at the start, at the end. *)
Definition starts_solid (s : str) : Prop :=
  match s with c :: _ => isspace c = false | [] => True end.

Definition ends_solid (s : str) : Prop :=
  exists w c, s = w ++ [c] /\ isspace c = false.

End PyStr.

(** ** The chunker ([Agent/utils/chunking.py]) *)

Module Chunking.
Import PyStr.

Inductive chunk_type := Clause | Paragraph.

Record DocumentChunk := {
  chunk_id : str;
  doc_id : str;
  chunk_index : Z;
  chunk_kind : chunk_type;
  content : str;
  title : str;
  timestamp : str;
  industries : str;
  investment_relevance : str;
  report_series : str;
  industry_policy_segments : str
}.

Record PolicyDocumentChunker := {
  chunk_size_target : Z;
  chunk_size_max : Z;
  overlap : Z;
  absolute_max : Z
}.

(** What a constructor call can produce: the object, or a raised
    configuration error. *)
Inductive config_error := ConfigurationError.

(** [PolicyDocumentChunker.__init__]: the four parameters are stored as
    given; the body has no test and no [raise]. *)
Definition __init__ (chunk_size_target chunk_size_max overlap absolute_max : Z)
  : PolicyDocumentChunker + config_error :=
  inl {| chunk_size_target := chunk_size_target;
         chunk_size_max := chunk_size_max;
         overlap := overlap;
         absolute_max := absolute_max |}.

(** The configuration the spec calls usable. *)
Definition usable (t m o a : Z) : Prop := o < t /\ t <= m /\ m <= a.

Definition paragraph_delimiters : list str :=
  [ [10; 10]; [10; 10; 10]; [13; 10; 13; 10] ]%N.

Definition sentence_delimiters : list str :=
  [ [12290]; [65281]; [65311]; [65307] ]%N.

(** One pass of the delimiter loops of [_smart_truncate]: [num/den] is
    the share of [max_length] that has to be kept (0.5, then 0.6). For
    integers below [2^50] the test [pos > max_length * 0.6] on binary64
    agrees with [5 * pos > 3 * max_length]. *)
Definition scan_delimiters (truncated : str) (max_length num den : Z)
    (delims : list str) (best_pos : Z) : Z :=
  fold_left
    (fun best delimiter =>
       let pos := rfind truncated delimiter in
       if (best <? pos) && (num * max_length <? den * pos)
       then pos + len delimiter else best)
    delims best_pos.

Definition _smart_truncate (text : str) (max_length : Z) : str :=
  if len text <=? max_length then text
  else
    let truncated := slice_to text max_length in
    let best_pos := scan_delimiters truncated max_length 1 2 paragraph_delimiters (-1) in
    let best_pos :=
      if best_pos <? 0
      then scan_delimiters truncated max_length 3 5 sentence_delimiters best_pos
      else best_pos in
    if 0 <? best_pos then strip (slice_to text best_pos)
    else
      let space_pos := rfind truncated [32%N] in
      if 4 * max_length <? 5 * space_pos then strip (slice_to text space_pos)
      else strip truncated.

(** The loop of [_extract_overlap_text] over the sentence delimiters. *)
Fixpoint overlap_scan (truncated : str) (target_length : Z) (delims : list str) : str :=
  match delims with
  | [] => strip truncated
  | delimiter :: delims' =>
      let pos := find truncated delimiter in
      if (0 <? pos) && (10 * pos <? 3 * target_length)
      then strip (slice_from truncated (pos + len delimiter))
      else overlap_scan truncated target_length delims'
  end.

Definition _extract_overlap_text (text : str) (target_length : Z) : str :=
  if len text <=? target_length then text
  else
    let start_pos := len text - target_length in
    overlap_scan (slice_from text start_pos) target_length sentence_delimiters.

(** *** Regular expressions of the chunker *)

(** The class [[一二三四五六七八九十]] *)
Definition is_cn_numeral (c : N) : bool :=
  existsb (N.eqb c)
    [19968; 20108; 19977; 22235; 20116; 20845; 19971; 20843; 20061; 21313]%N.

(** The class [[、\.]] *)
Definition is_item_mark (c : N) : bool := ((c =? 12289) || (c =? 46))%N.

(** Length of the longest prefix whose characters satisfy [p]. *)
Fixpoint span (p : N -> bool) (s : str) : nat :=
  match s with
  | c :: s' => if p c then S (span p s') else O
  | [] => O
  end.

Definition char_is (p : N -> bool) (s : str) (i : nat) : bool :=
  match nth_error s i with Some c => p c | None => false end.

(** Inside the white-space run at the head of [s]: the end of its last
    line feed, counted from [i]. *)
Fixpoint last_newline (s : str) (i : nat) (best : option nat) : option nat :=
  match s with
  | c :: s' =>
      if isspace c
      then last_newline s' (S i) (if (c =? 10)%N then Some (S i) else best)
      else best
  | [] => best
  end.

(** Length of the match of [\n\s*\n+] at the head of [s]. *)
Definition blank_match (s : str) : option nat :=
  match s with
  | c :: rest =>
      if (c =? 10)%N
      then match last_newline rest 0 None with
           | Some k => Some (S k)
           | None => None
           end
      else None
  | [] => None
  end.

(** Length of the match of [\n[一二三四五六七八九十]+[、\.]] at the head of [s]. *)
Definition clause_match (s : str) : option nat :=
  match s with
  | c :: rest =>
      let n := span is_cn_numeral rest in
      if (c =? 10)%N && (0 <? n)%nat && char_is is_item_mark rest n
      then Some (S (S n)) else None
  | [] => None
  end.

(** [re.split] for a pattern that matches no empty string: [m] gives the
    length of the match at the head of its argument; with [capture] the
    matched text is kept between the pieces. [skip] counts the characters
    of the current match that are still to be passed, [cur] is the piece
    being read, reversed. *)
Fixpoint re_split (m : str -> option nat) (capture : bool)
    (s : str) (skip : nat) (cur : str) : list str :=
  match s with
  | [] => [rev cur]
  | c :: s' =>
      match skip with
      | S k => re_split m capture s' k cur
      | O =>
          match m s with
          | Some (S k) =>
              rev cur :: (if capture then [firstn (S k) s] else [])
                ++ re_split m capture s' k []
          | _ => re_split m capture s' 0 (c :: cur)
          end
      end
  end.

(** [merged.append(clause_split[i] + clause_split[i + 1])] for
    [i = 0, 2, ...] below [len(clause_split) - 1]. *)
Fixpoint merge_pairs (l : list str) : list str :=
  match l with
  | a :: b :: rest => (a ++ b) :: merge_pairs rest
  | _ => []
  end.

Definition _split_into_paragraphs (content : str) : list str :=
  let paragraphs := re_split blank_match false content 0 [] in
  let paragraphs :=
    if (length paragraphs <? 3)%nat then
      let clause_split := re_split clause_match true content 0 [] in
      if (length paragraphs <? length clause_split)%nat then
        match merge_pairs clause_split with
        | [] => paragraphs
        | merged => merged
        end
      else paragraphs
    else paragraphs in
  map strip
    (List.filter (fun p => nonempty (strip p) && (10 <? len (strip p))) paragraphs).

(** [r'^【.*?】'] after the opening bracket: a closing bracket before any
    line feed. *)
Fixpoint closes_bracket (s : str) : bool :=
  match s with
  | c :: s' =>
      if (c =? 12305)%N then true
      else if (c =? 10)%N then false
      else closes_bracket s'
  | [] => false
  end.

Section Chunker.

(** The class [\d] of the runtime (Unicode decimal digits). *)
Variable isdecimal : N -> bool.

Definition is_section_unit (c : N) : bool :=
  ((c =? 26465) || (c =? 31456) || (c =? 33410))%N.

(** [cls+] followed by one character of [stop] at the head of [s]. *)
Definition run_then (cls stop : N -> bool) (s : str) : bool :=
  let n := span cls s in (0 <? n)%nat && char_is stop s n.

Definition _is_clause_start (paragraph : str) : bool :=
  let s := strip paragraph in
  run_then is_cn_numeral is_item_mark s
  || match s with
     | c :: r => (c =? 65288)%N && run_then is_cn_numeral (N.eqb 65289) r
     | [] => false
     end
  || run_then isdecimal is_item_mark s
  || match s with
     | c :: r => (c =? 40)%N && run_then isdecimal (N.eqb 41) r
     | [] => false
     end
  || match s with
     | c :: r =>
         (c =? 31532)%N
         && run_then (fun d => is_cn_numeral d || isdecimal d) is_section_unit r
     | [] => false
     end
  || match s with
     | c :: r => (c =? 12304)%N && closes_bracket r
     | [] => false
     end.

(** The chunker object. *)
Variable self : PolicyDocumentChunker.

(** The arguments of [chunk_document], metadata already cut
    ([str(title)[:500]] and the like). *)
Variables (doc_id_ title_ timestamp_ industries_ : str).
Variables (investment_relevance_ report_series_ industry_policy_segments_ : str).

Definition new_chunk (chunk_idx : nat) (kind : chunk_type) (chunk_content : str)
  : DocumentChunk :=
  {| chunk_id := doc_id_ ++ lit "_chunk_"%string ++ str_of_nat chunk_idx;
     doc_id := doc_id_;
     chunk_index := Z.of_nat chunk_idx;
     chunk_kind := kind;
     content := chunk_content;
     title := title_;
     timestamp := timestamp_;
     industries := industries_;
     investment_relevance := investment_relevance_;
     report_series := report_series_;
     industry_policy_segments := industry_policy_segments_ |}.

(** The local variables of the paragraph loop. *)
Record loop_state := {
  chunks : list DocumentChunk;
  current_chunk_parts : list str;
  current_chunk_size : Z;
  chunk_idx : nat
}.

(** [chunks.append(DocumentChunk(...)); chunk_idx += 1] *)
Definition append_chunk (st : loop_state) (kind : chunk_type) (chunk_content : str)
  : loop_state :=
  {| chunks := chunks st ++ [new_chunk (chunk_idx st) kind chunk_content];
     current_chunk_parts := current_chunk_parts st;
     current_chunk_size := current_chunk_size st;
     chunk_idx := S (chunk_idx st) |}.

Definition set_buffer (st : loop_state) (parts : list str) (size : Z) : loop_state :=
  {| chunks := chunks st;
     current_chunk_parts := parts;
     current_chunk_size := size;
     chunk_idx := chunk_idx st |}.

(** The truncated join of the buffer. *)
Definition buffer_content (st : loop_state) : str :=
  _smart_truncate (join [10; 10]%N (current_chunk_parts st)) (absolute_max self).

(** Every chunk emitted so far respects [absolute_max]. *)
Definition bounded (st : loop_state) : Prop :=
  Forall (fun c => len (content c) <= absolute_max self) (chunks st).

(** [while len(remaining) > 0: ...] on an over-long paragraph. The loop of
    the source has no bound; [fuel] counts its iterations, and [None] is
    a run that needs more. *)
Fixpoint split_long (fuel : nat) (remaining : str) (st : loop_state)
  : option loop_state :=
  match fuel with
  | O => None
  | S fuel' =>
      if 0 <? len remaining then
        let '(chunk_part, remaining') :=
          if len remaining <=? absolute_max self then (remaining, [])
          else
            let chunk_part := _smart_truncate remaining (absolute_max self) in
            (chunk_part, lstrip (slice_from remaining (len chunk_part))) in
        split_long fuel' remaining'
          (if nonempty chunk_part then append_chunk st Paragraph chunk_part else st)
      else Some st
  end.

(** The seed of the next buffer after a flush. *)
Definition restart_buffer (st : loop_state) (parts : list str) (para : str)
  : loop_state :=
  if (0 <? overlap self) && negb (bool_decide (parts = [])) then
    let last_part := List.last parts [] in
    let overlap_text :=
      if overlap self <? len last_part
      then _extract_overlap_text last_part (overlap self)
      else last_part in
    if nonempty overlap_text
    then set_buffer st [overlap_text; para] (len overlap_text + len para)
    else set_buffer st [para] (len para)
  else set_buffer st [para] (len para).

(** One iteration of [for para in paragraphs]. *)
Definition paragraph_step (fuel : nat) (st : loop_state) (para : str)
  : option loop_state :=
  let para_size := len para in
  if absolute_max self <? para_size then
    let st :=
      if bool_decide (current_chunk_parts st = []) then st
      else set_buffer (append_chunk st Paragraph (buffer_content st)) [] 0 in
    split_long fuel para st
  else
    let is_clause := _is_clause_start para in
    let should_start_new :=
      is_clause
      || (chunk_size_target self <? current_chunk_size st + para_size)
      || ((0 <? current_chunk_size st)
          && (chunk_size_max self <? current_chunk_size st + para_size)) in
    let st :=
      if should_start_new && negb (bool_decide (current_chunk_parts st = [])) then
        let kind :=
          if existsb _is_clause_start (current_chunk_parts st)
          then Clause else Paragraph in
        restart_buffer (append_chunk st kind (buffer_content st))
          (current_chunk_parts st) para
      else
        set_buffer st (current_chunk_parts st ++ [para])
          (current_chunk_size st + para_size) in
    Some (if chunk_size_max self <? current_chunk_size st
          then set_buffer (append_chunk st Paragraph (buffer_content st)) [] 0
          else st).

Fixpoint paragraph_loop (fuel : nat) (st : loop_state) (paragraphs : list str)
  : option loop_state :=
  match paragraphs with
  | [] => Some st
  | para :: rest =>
      match paragraph_step fuel st para with
      | Some st' => paragraph_loop fuel st' rest
      | None => None
      end
  end.

(** The last pass: [if len(chunk.content) > self.absolute_max: ...] *)
Definition final_check (c : DocumentChunk) : DocumentChunk :=
  if absolute_max self <? len (content c) then
    {| chunk_id := chunk_id c;
       doc_id := doc_id c;
       chunk_index := chunk_index c;
       chunk_kind := chunk_kind c;
       content := _smart_truncate (content c) (absolute_max self);
       title := title c;
       timestamp := timestamp c;
       industries := industries c;
       investment_relevance := investment_relevance c;
       report_series := report_series c;
       industry_policy_segments := industry_policy_segments c |}
  else c.

(** The state before the loop, and the flush after it. *)
Definition initial_state : loop_state :=
  {| chunks := []; current_chunk_parts := [];
     current_chunk_size := 0; chunk_idx := 0 |}.

Definition last_flush (st : loop_state) : loop_state :=
  if bool_decide (current_chunk_parts st = []) then st
  else append_chunk st Paragraph (buffer_content st).

Definition chunk_paragraphs (fuel : nat) (paragraphs : list str)
  : option (list DocumentChunk) :=
  match paragraph_loop fuel initial_state paragraphs with
  | Some st => Some (map final_check (chunks (last_flush st)))
  | None => None
  end.

End Chunker.

(** [PolicyDocumentChunker.chunk_document]; [fuel] bounds the iterations
    of the inner [while] loop on one paragraph. *)
Definition chunk_document (isdecimal : N -> bool) (self : PolicyDocumentChunker)
    (fuel : nat)
    (doc_id title content timestamp industries : str)
    (investment_relevance report_series industry_policy_segments : str)
  : option (list DocumentChunk) :=
  let title := slice_to title 500 in
  let timestamp := slice_to timestamp 150 in
  let industries := slice_to industries 500 in
  chunk_paragraphs isdecimal self doc_id title timestamp industries
    investment_relevance report_series industry_policy_segments
    fuel (_split_into_paragraphs content).

(** *** A small document, for the examples *)

(** ASCII digits, a fragment of the class [\d], for the examples. *)
Definition ascii_digit (c : N) : bool := ((48 <=? c) && (c <=? 57))%N.

Definition small_chunker : PolicyDocumentChunker :=
  {| chunk_size_target := 20; chunk_size_max := 30; overlap := 5; absolute_max := 40 |}.

Definition small_text : str :=
  lit "A first paragraph that is clearly longer than forty characters, and goes on."
  ++ [10; 10]%N ++ lit "1. a clause item" ++ [10; 10]%N ++ lit "closing words here".

(** Four paragraphs of 300 characters, and the default sizes of the
    spec's example. *)
Definition four_paragraphs : str :=
  join [10; 10]%N
    [repeat 97%N 300; repeat 98%N 300; repeat 99%N 300; repeat 100%N 300].

Definition example_chunker : PolicyDocumentChunker :=
  {| chunk_size_target := 800; chunk_size_max := 1000; overlap := 150;
     absolute_max := 1200 |}.

End Chunking.

(** ** Python lists and dictionaries *)

Module PyList.

(** [l[:n]] *)
Definition slice_to {A : Type} (l : list A) (n : Z) : list A :=
  if n <? 0 then firstn (Z.to_nat (Z.of_nat (length l) + n)) l
  else firstn (Z.to_nat n) l.

(** [x < y] on scores *)
Definition Qlt_bool (x y : Q) : bool := negb (Qle_bool y x).

(** [list.sort] is stable. [precedes y x] says that [y] sorts strictly
    before [x]; an element is put in front of the first element that does
    not sort strictly before it, so that equal elements keep the order
    they had. *)
Fixpoint insert_sorted {A : Type} (precedes : A -> A -> bool) (x : A) (l : list A)
  : list A :=
  match l with
  | [] => [x]
  | y :: l' =>
      if precedes y x then y :: insert_sorted precedes x l' else x :: l
  end.

Definition stable_sort {A : Type} (precedes : A -> A -> bool) (l : list A) : list A :=
  fold_right (insert_sorted precedes) [] l.

(** [in_order precedes x y]: [x] may stand before [y]. *)
Definition in_order {A : Type} (precedes : A -> A -> bool) (x y : A) : Prop :=
  precedes y x = false.

(** [l.sort(key=key, reverse=True)] with scores as keys *)
Definition sort_desc {A : Type} (key : A -> Q) (l : list A) : list A :=
  stable_sort (fun y x => Qlt_bool (key x) (key y)) l.

(** [l.sort(key=key)] with integers as keys *)
Definition sort_asc {A : Type} (key : A -> Z) (l : list A) : list A :=
  stable_sort (fun y x => key y <? key x) l.

(** [sum(l)] *)
Definition sum (l : list Q) : Q := fold_left Qplus l 0%Q.

(** A [dict]: the keys in the order of their first insertion. *)
Section Dict.

Context {K V : Type} `{EqDecision K}.

Fixpoint dict_get (d : list (K * V)) (k : K) : option V :=
  match d with
  | [] => None
  | (k', v) :: d' => if decide (k' = k) then Some v else dict_get d' k
  end.

(** [d[k] = v]: a known key keeps its place. *)
Fixpoint dict_set (d : list (K * V)) (k : K) (v : V) : list (K * V) :=
  match d with
  | [] => [(k, v)]
  | (k', v') :: d' =>
      if decide (k' = k) then (k', v) :: d' else (k', v') :: dict_set d' k v
  end.

(** [d.values()] *)
Definition dict_values (d : list (K * V)) : list V := map snd d.

(** [{**a, **b}] *)
Definition dict_update (a b : list (K * V)) : list (K * V) :=
  fold_left (fun d kv => dict_set d (fst kv) (snd kv)) b a.

(** [{key(c): c for c in l}] *)
Definition dict_of_list (key : V -> K) (l : list V) : list (K * V) :=
  fold_left (fun d c => dict_set d (key c) c) l [].

(** Entries that sit under their own key. *)
Definition keyed (key : V -> K) (d : list (K * V)) : Prop :=
  forall k v, (k, v) ∈ d -> key v = k.

End Dict.

End PyList.

(** ** Candidate dictionaries *)

Module Cand.
Import PyStr.

(** The values of the text fields: [None] or a string. *)
Inductive pyval := PyNone | PyStr (s : str).

#[global] Instance pyval_eq_dec : EqDecision pyval.
Proof. solve_decision. Defined.

(** [if v:] *)
Definition truthy (v : pyval) : bool :=
  match v with PyNone => false | PyStr s => nonempty s end.

(** A candidate: the keys that the retrieval code reads or writes; an
    absent key is [None] here. Number fields hold numbers when present. *)
Record chunk_dict := {
  chunk_id : option pyval;
  doc_id : option pyval;
  content : option pyval;
  chunk_index : option Z;
  chunk_type : option pyval;
  title : option pyval;
  timestamp : option pyval;
  industries : option pyval;
  investment_relevance : option pyval;
  report_series : option pyval;
  industry_policy_segments : option pyval;
  source : option pyval;
  similarity : option Q;
  matched_by_query_chunk : option Z;
  rerank_score : option Q;
  original_rank : option Z;
  time_bonus : option Q;
  final_score : option Q
}.

(** The dictionary [{}]. *)
Definition empty_dict : chunk_dict :=
  {| chunk_id := None;
     doc_id := None;
     content := None;
     chunk_index := None;
     chunk_type := None;
     title := None;
     timestamp := None;
     industries := None;
     investment_relevance := None;
     report_series := None;
     industry_policy_segments := None;
     source := None;
     similarity := None;
     matched_by_query_chunk := None;
     rerank_score := None;
     original_rank := None;
     time_bonus := None;
     final_score := None |}.

(** [d['similarity'] = v] *)
Definition set_similarity (d : chunk_dict) (v : Q) : chunk_dict :=
  {| chunk_id := chunk_id d;
     doc_id := doc_id d;
     content := content d;
     chunk_index := chunk_index d;
     chunk_type := chunk_type d;
     title := title d;
     timestamp := timestamp d;
     industries := industries d;
     investment_relevance := investment_relevance d;
     report_series := report_series d;
     industry_policy_segments := industry_policy_segments d;
     source := source d;
     similarity := Some v;
     matched_by_query_chunk := matched_by_query_chunk d;
     rerank_score := rerank_score d;
     original_rank := original_rank d;
     time_bonus := time_bonus d;
     final_score := final_score d |}.

(** [d['matched_by_query_chunk'] = v] *)
Definition set_matched_by_query_chunk (d : chunk_dict) (v : Z) : chunk_dict :=
  {| chunk_id := chunk_id d;
     doc_id := doc_id d;
     content := content d;
     chunk_index := chunk_index d;
     chunk_type := chunk_type d;
     title := title d;
     timestamp := timestamp d;
     industries := industries d;
     investment_relevance := investment_relevance d;
     report_series := report_series d;
     industry_policy_segments := industry_policy_segments d;
     source := source d;
     similarity := similarity d;
     matched_by_query_chunk := Some v;
     rerank_score := rerank_score d;
     original_rank := original_rank d;
     time_bonus := time_bonus d;
     final_score := final_score d |}.

(** [d['rerank_score'] = v] *)
Definition set_rerank_score (d : chunk_dict) (v : Q) : chunk_dict :=
  {| chunk_id := chunk_id d;
     doc_id := doc_id d;
     content := content d;
     chunk_index := chunk_index d;
     chunk_type := chunk_type d;
     title := title d;
     timestamp := timestamp d;
     industries := industries d;
     investment_relevance := investment_relevance d;
     report_series := report_series d;
     industry_policy_segments := industry_policy_segments d;
     source := source d;
     similarity := similarity d;
     matched_by_query_chunk := matched_by_query_chunk d;
     rerank_score := Some v;
     original_rank := original_rank d;
     time_bonus := time_bonus d;
     final_score := final_score d |}.

(** [d['original_rank'] = v] *)
Definition set_original_rank (d : chunk_dict) (v : Z) : chunk_dict :=
  {| chunk_id := chunk_id d;
     doc_id := doc_id d;
     content := content d;
     chunk_index := chunk_index d;
     chunk_type := chunk_type d;
     title := title d;
     timestamp := timestamp d;
     industries := industries d;
     investment_relevance := investment_relevance d;
     report_series := report_series d;
     industry_policy_segments := industry_policy_segments d;
     source := source d;
     similarity := similarity d;
     matched_by_query_chunk := matched_by_query_chunk d;
     rerank_score := rerank_score d;
     original_rank := Some v;
     time_bonus := time_bonus d;
     final_score := final_score d |}.

(** [d['time_bonus'] = v] *)
Definition set_time_bonus (d : chunk_dict) (v : Q) : chunk_dict :=
  {| chunk_id := chunk_id d;
     doc_id := doc_id d;
     content := content d;
     chunk_index := chunk_index d;
     chunk_type := chunk_type d;
     title := title d;
     timestamp := timestamp d;
     industries := industries d;
     investment_relevance := investment_relevance d;
     report_series := report_series d;
     industry_policy_segments := industry_policy_segments d;
     source := source d;
     similarity := similarity d;
     matched_by_query_chunk := matched_by_query_chunk d;
     rerank_score := rerank_score d;
     original_rank := original_rank d;
     time_bonus := Some v;
     final_score := final_score d |}.

(** [d['final_score'] = v] *)
Definition set_final_score (d : chunk_dict) (v : Q) : chunk_dict :=
  {| chunk_id := chunk_id d;
     doc_id := doc_id d;
     content := content d;
     chunk_index := chunk_index d;
     chunk_type := chunk_type d;
     title := title d;
     timestamp := timestamp d;
     industries := industries d;
     investment_relevance := investment_relevance d;
     report_series := report_series d;
     industry_policy_segments := industry_policy_segments d;
     source := source d;
     similarity := similarity d;
     matched_by_query_chunk := matched_by_query_chunk d;
     rerank_score := rerank_score d;
     original_rank := original_rank d;
     time_bonus := time_bonus d;
     final_score := Some v |}.

(** [d] without the keys [time_bonus] and [final_score] *)
Definition without_weights (d : chunk_dict) : chunk_dict :=
  {| chunk_id := chunk_id d;
     doc_id := doc_id d;
     content := content d;
     chunk_index := chunk_index d;
     chunk_type := chunk_type d;
     title := title d;
     timestamp := timestamp d;
     industries := industries d;
     investment_relevance := investment_relevance d;
     report_series := report_series d;
     industry_policy_segments := industry_policy_segments d;
     source := source d;
     similarity := similarity d;
     matched_by_query_chunk := matched_by_query_chunk d;
     rerank_score := rerank_score d;
     original_rank := original_rank d;
     time_bonus := None;
     final_score := None |}.

(** [d] without the keys [rerank_score] and [original_rank] *)
Definition without_rerank (d : chunk_dict) : chunk_dict :=
  {| chunk_id := chunk_id d;
     doc_id := doc_id d;
     content := content d;
     chunk_index := chunk_index d;
     chunk_type := chunk_type d;
     title := title d;
     timestamp := timestamp d;
     industries := industries d;
     investment_relevance := investment_relevance d;
     report_series := report_series d;
     industry_policy_segments := industry_policy_segments d;
     source := source d;
     similarity := similarity d;
     matched_by_query_chunk := matched_by_query_chunk d;
     rerank_score := None;
     original_rank := None;
     time_bonus := time_bonus d;
     final_score := final_score d |}.

(** [d.get(k, '')], [d.get(k)] and [d.get(k, 0)] *)
Definition get_str (f : option pyval) : pyval := default (PyStr []) f.
Definition get_none (f : option pyval) : pyval := default PyNone f.
Definition get_num (f : option Q) : Q := default 0%Q f.
Definition get_int (f : option Z) : Z := default 0 f.

(** [d.get('chunk_id')], the key of the merges *)
Definition cid_of (d : chunk_dict) : pyval := get_none (chunk_id d).

(** The dictionaries that are shared with the caller: references into a
    store. *)
Abbreviation store := (gmap nat chunk_dict).

Definition deref (h : store) (r : nat) : chunk_dict := default empty_dict (h !! r).

(** What a call leaves behind: the store, the content of the list object
    that the caller passed, and the returned list. *)
Record outcome := {
  store_after : store;
  list_after : list nat;
  returned : list nat
}.

(** A candidate for the examples: identifiers, title and time stamp as
    ASCII text, a similarity and, perhaps, a rerank score. *)
Definition candidate (cid did ttl ts : string) (idx : Z) (sim : Q) (rr : option Q)
  : chunk_dict :=
  {| chunk_id := Some (PyStr (lit cid));
     doc_id := Some (PyStr (lit did));
     content := Some (PyStr (lit cid));
     chunk_index := Some idx;
     chunk_type := None;
     title := Some (PyStr (lit ttl));
     timestamp := Some (PyStr (lit ts));
     industries := None;
     investment_relevance := None;
     report_series := None;
     industry_policy_segments := None;
     source := None;
     similarity := Some sim;
     matched_by_query_chunk := None;
     rerank_score := rr;
     original_rank := None;
     time_bonus := None;
     final_score := None |}.

End Cand.

(** ** Dedup and time weighting ([Agent/agents/novelty_agent.py]) *)

Module Dedup.
Import PyStr PyList Cand.

(** [0.1 * (1 - days_diff / 365)] and the two other tiers *)
Definition tier_bonus (days_diff : Z) : Q :=
  if days_diff <=? 365 then (0.1 * (1 - inject_Z days_diff / 365))%Q
  else if days_diff <=? 1095
       then (0.03 * (1 - (inject_Z days_diff - 365) / 730))%Q
       else 0%Q.

Section Dedup.

(** [datetime.fromisoformat(s).date()] of the runtime, as a day number;
    [None] when the call raises. *)
Variable fromisoformat : str -> option Z.

(** The date of a candidate's time stamp. *)
Definition doc_date (timestamp : str) : option Z :=
  if contains timestamp 84%N
  then fromisoformat (replace_char 90%N (lit "+00:00") timestamp)
  else fromisoformat timestamp.

(** The [time_bonus] of one candidate; [policy_timestamp] is the day
    number of the reference [datetime], or [None]. *)
Definition time_bonus_of (policy_timestamp : option Z) (chunk : chunk_dict) : Q :=
  match get_str (timestamp chunk), policy_timestamp with
  | PyStr ts, Some policy_date =>
      if nonempty ts then
        match doc_date ts with
        | Some date => tier_bonus (policy_date - date)
        | None => 0%Q
        end
      else 0%Q
  | _, _ => 0%Q
  end.

Definition group_key (chunk : chunk_dict) : pyval * pyval :=
  (get_str (title chunk), get_str (timestamp chunk)).

(** The first loop: [seen] maps a key to the kept candidate. *)
Definition seen_step (h : store) (seen : list (pyval * pyval * nat)) (r : nat)
  : list (pyval * pyval * nat) :=
  let chunk := deref h r in
  let key := group_key chunk in
  let score := get_num (rerank_score chunk) in
  match dict_get seen key with
  | None => dict_set seen key r
  | Some kept =>
      if Qlt_bool (get_num (rerank_score (deref h kept))) score
      then dict_set seen key r else seen
  end.

Definition survivors (h : store) (chunk_results : list nat) : list nat :=
  dict_values (fold_left (seen_step h) chunk_results []).

(** The body of the second loop: the two fields are written into the
    candidate's own dictionary. *)
Definition attach (policy_timestamp : option Z) (h : store) (r : nat) : store :=
  let chunk := deref h r in
  let bonus := time_bonus_of policy_timestamp chunk in
  let chunk := set_time_bonus chunk bonus in
  <[ r := set_final_score chunk (get_num (rerank_score chunk) + bonus)%Q ]> h.

(** The dictionary of a kept candidate after the second loop. *)
Definition attached (policy_timestamp : option Z) (d : chunk_dict) : chunk_dict :=
  set_final_score (set_time_bonus d (time_bonus_of policy_timestamp d))
    (get_num (rerank_score d) + time_bonus_of policy_timestamp d)%Q.

(** The key and the score that the first loop reads. *)
Definition key_at (h : store) (r : nat) : pyval * pyval := group_key (deref h r).
Definition score_at (h : store) (r : nat) : Q := get_num (rerank_score (deref h r)).

(** What the first loop keeps true of [seen], the candidates [l] read:
    one entry per key, every entry an input candidate under its own key,
    and every input candidate at most as good as the entry of its key. *)
Definition seen_inv (h : store) (l : list nat) (seen : list (pyval * pyval * nat)) : Prop :=
  NoDup (map fst seen)
  /\ (forall k r, (k, r) ∈ seen -> r ∈ l /\ key_at h r = k)
  /\ (forall r', r' ∈ l ->
        exists r, dict_get seen (key_at h r') = Some r
                  /\ (score_at h r' <= score_at h r)%Q).

Definition _deduplicate_chunks (h : store) (chunk_results : list nat)
    (policy_timestamp : option Z) (top_k : Z) : outcome :=
  let results := survivors h chunk_results in
  let h := fold_left (attach policy_timestamp) results h in
  let results := sort_desc (fun r => get_num (final_score (deref h r))) results in
  {| store_after := h;
     list_after := chunk_results;
     returned := slice_to results top_k |}.

End Dedup.

(** A fragment of [datetime.fromisoformat] for the examples: the day
    number of [YYYY-MM-DD], whatever follows the tenth character. *)
Definition digit_val (c : N) : option Z :=
  if ((48 <=? c) && (c <=? 57))%N then Some (Z.of_N c - 48) else None.

Fixpoint number_of (s : str) (acc : Z) : option Z :=
  match s with
  | [] => Some acc
  | c :: s' =>
      match digit_val c with
      | Some d => number_of s' (10 * acc + d)
      | None => None
      end
  end.

(** Days since 1970-01-01 of a date of the proleptic Gregorian calendar. *)
Definition days_from_civil (y m d : Z) : Z :=
  let y := if m <=? 2 then y - 1 else y in
  let era := y / 400 in
  let yoe := y - era * 400 in
  let doy := (153 * (if 2 <? m then m - 3 else m + 9) + 2) / 5 + d - 1 in
  let doe := yoe * 365 + yoe / 4 - yoe / 100 + doy in
  era * 146097 + doe - 719468.

Definition iso_date (s : str) : option Z :=
  match s with
  | y1 :: y2 :: y3 :: y4 :: d1 :: m1 :: m2 :: d2 :: a1 :: a2 :: _ =>
      if ((d1 =? 45) && (d2 =? 45))%N then
        match number_of [y1; y2; y3; y4] 0, number_of [m1; m2] 0, number_of [a1; a2] 0 with
        | Some y, Some m, Some d =>
            if (1 <=? m) && (m <=? 12) && (1 <=? d) && (d <=? 31)
            then Some (days_from_civil y m d) else None
        | _, _, _ => None
        end
      else None
  | _ => None
  end.

(** *** Stores for the examples *)

(** Two documents with the same rerank score, 365 and 366 days before
    2025-01-01. *)
Definition boundary_store : store :=
  <[ 0%nat := candidate "a0" "a" "A" "2024-01-02" 0 0.5 (Some 10%Q) ]>
    (<[ 1%nat := candidate "b0" "b" "B" "2024-01-01" 0 0.5 (Some 10%Q) ]> ∅).

(** Two passages of one document, without rerank scores. *)
Definition unranked_store : store :=
  <[ 0%nat := candidate "a0" "a" "A" "2024-06-01" 0 0.5 None ]>
    (<[ 1%nat := candidate "a1" "a" "A" "2024-06-01" 1 0.9 None ]> ∅).

(** Three documents. *)
Definition three_store : store :=
  <[ 0%nat := candidate "a0" "a" "A" "2024-06-01" 0 0.5 (Some 3%Q) ]>
    (<[ 1%nat := candidate "b0" "b" "B" "2024-06-01" 0 0.5 (Some 2%Q) ]>
       (<[ 2%nat := candidate "c0" "c" "C" "2024-06-01" 0 0.5 (Some 1%Q) ]> ∅)).

(** The example of the spec: the same rerank score, 30 and 400 days
    before 2025-01-01. *)
Definition spec_store : store :=
  <[ 0%nat := candidate "a0" "a" "A" "2023-11-28" 0 0.5 (Some 10%Q) ]>
    (<[ 1%nat := candidate "b0" "b" "B" "2024-12-02" 0 0.5 (Some 10%Q) ]> ∅).

End Dedup.

(** ** The reranking pass ([utils/reranker.py]) *)

Module Reranker.
Import PyStr PyList Cand.

(** The reranker object: [enabled], and the cross-encoder behind
    [self.model.predict], which gives one score per pair or raises
    ([None]). *)
Record BCEReranker := {
  enabled : bool;
  predict : list (str * str) -> option (list Q)
}.

(** [for i, result in enumerate(results): result['rerank_score'] = 0.0;
    result['original_rank'] = i + 1] *)
Fixpoint assign_default (h : store) (results : list nat) (i : Z) : store :=
  match results with
  | [] => h
  | r :: rest =>
      let d := set_original_rank (set_rerank_score (deref h r) 0%Q) (i + 1) in
      assign_default (<[ r := d ]> h) rest (i + 1)
  end.

(** [r.get('content', '')[:passage_max_length]] for every candidate; a
    content of [None] raises. *)
Fixpoint build_pairs (h : store) (query : str) (results : list nat)
    (passage_max_length : Z) : option (list (str * str)) :=
  match results with
  | [] => Some []
  | r :: rest =>
      match get_str (content (deref h r)) with
      | PyStr passage =>
          match build_pairs h query rest passage_max_length with
          | Some pairs => Some ((query, PyStr.slice_to passage passage_max_length) :: pairs)
          | None => None
          end
      | PyNone => None
      end
  end.

(** [for i, result in enumerate(results): result['rerank_score'] =
    float(scores[i]); result['original_rank'] = i + 1]; the flag is
    [false] when [scores[i]] is out of range, with the store as the
    loop left it. *)
Fixpoint assign_scores (h : store) (results : list nat) (i : nat) (scores : list Q)
  : store * bool :=
  match results with
  | [] => (h, true)
  | r :: rest =>
      match nth_error scores i with
      | Some s =>
          let d := set_original_rank (set_rerank_score (deref h r) s) (Z.of_nat i + 1) in
          assign_scores (<[ r := d ]> h) rest (S i) scores
      | None => (h, false)
      end
  end.

(** The handler: the two fields are filled in where they are missing. *)
Fixpoint assign_missing (h : store) (results : list nat) (i : Z) : store :=
  match results with
  | [] => h
  | r :: rest =>
      let d := deref h r in
      let d := match rerank_score d with None => set_rerank_score d 0%Q | Some _ => d end in
      let d := match original_rank d with None => set_original_rank d (i + 1) | Some _ => d end in
      assign_missing (<[ r := d ]> h) rest (i + 1)
  end.

(** [BCEReranker.rerank]; [None] is an exception that leaves the call. *)
Definition rerank (self : BCEReranker) (h : store) (query : str) (results : list nat)
    (top_k query_max_length passage_max_length : Z) : option outcome :=
  if negb (enabled self) then
    Some {| store_after := assign_default h results 0;
            list_after := results;
            returned := slice_to results top_k |}
  else if bool_decide (results = []) then
    Some {| store_after := h; list_after := results; returned := [] |}
  else
    let query := PyStr.slice_to query query_max_length in
    match build_pairs h query results passage_max_length with
    | None => None
    | Some pairs =>
        let failed h :=
          Some {| store_after := assign_missing h results 0;
                  list_after := results;
                  returned := slice_to results top_k |} in
        match predict self pairs with
        | None => failed h
        | Some scores =>
            match assign_scores h results 0 scores with
            | (h, false) => failed h
            | (h, true) =>
                let sorted :=
                  sort_desc (fun r => get_num (rerank_score (deref h r))) results in
                Some {| store_after := h;
                        list_after := sorted;
                        returned := slice_to sorted top_k |}
            end
        end
    end.

(** What every loop of [rerank] respects: dictionaries outside [results]
    stay as they are, and inside only the two rerank fields move. *)
Definition frame (results : list nat) (h h' : store) : Prop :=
  (forall r, r ∉ results -> h' !! r = h !! r)
  /\ (forall r, without_rerank (deref h' r) = without_rerank (deref h r)).

(** A reranker for the examples: the score of a passage is its length. *)
Definition length_reranker : BCEReranker :=
  {| enabled := true;
     predict := fun pairs => Some (map (fun p => inject_Z (len (snd p))) pairs) |}.

(** Two candidates whose contents have one and two characters. *)
Definition two_store : store :=
  <[ 0%nat := candidate "a" "d" "A" "2024-06-01" 0 0.5 None ]>
    (<[ 1%nat := candidate "bb" "d" "A" "2024-06-01" 1 0.4 None ]> ∅).

End Reranker.

(** ** Multi-query search ([Agent/vector_db.py]) *)

Module MultiQuery.
Import PyStr PyList Cand.

(** One hit of the passage store: the stored fields ([hit.entity.get])
    and the distance. *)
Record hit := {
  entity_chunk_id : pyval;
  entity_doc_id : pyval;
  entity_content : pyval;
  entity_chunk_index : option Z;
  entity_chunk_type : pyval;
  entity_title : pyval;
  entity_timestamp : pyval;
  entity_industries : pyval;
  entity_investment_relevance : pyval;
  entity_report_series : pyval;
  entity_industry_policy_segments : pyval;
  distance : Q
}.

(** [max(0.0, min(1.0, 1.0 - (l2_distance ** 2) / 2.0))] *)
Definition similarity_of (h : hit) : Q :=
  let cosine_similarity := (1 - (distance h * distance h) / 2)%Q in
  let m := if Qlt_bool cosine_similarity 1 then cosine_similarity else 1%Q in
  if Qlt_bool 0 m then m else 0%Q.

(** [exclude_doc_id and doc_id == exclude_doc_id] *)
Definition excluded (exclude_doc_id : pyval) (h : hit) : bool :=
  truthy exclude_doc_id && bool_decide (entity_doc_id h = exclude_doc_id).

Definition new_result (h : hit) (i : Z) : chunk_dict :=
  {| chunk_id := Some (entity_chunk_id h);
     doc_id := Some (entity_doc_id h);
     content := Some (entity_content h);
     chunk_index := entity_chunk_index h;
     chunk_type := Some (entity_chunk_type h);
     title := Some (entity_title h);
     timestamp := Some (entity_timestamp h);
     industries := Some (entity_industries h);
     investment_relevance := Some (entity_investment_relevance h);
     report_series := Some (entity_report_series h);
     industry_policy_segments := Some (entity_industry_policy_segments h);
     source := None;
     similarity := Some (similarity_of h);
     matched_by_query_chunk := Some i;
     rerank_score := None;
     original_rank := None;
     time_bonus := None;
     final_score := None |}.

(** [for existing in all_results: if existing['chunk_id'] == chunk_id and
    similarity > existing['similarity']: ...; break] *)
Fixpoint raise_similarity (all_results : list chunk_dict) (cid : pyval)
    (sim : Q) (i : Z) : list chunk_dict :=
  match all_results with
  | [] => []
  | existing :: rest =>
      if bool_decide (get_none (chunk_id existing) = cid)
         && Qlt_bool (get_num (similarity existing)) sim
      then set_matched_by_query_chunk (set_similarity existing sim) i :: rest
      else existing :: raise_similarity rest cid sim i
  end.

(** The local variables of the merge: [all_results] and [chunk_id_set]. *)
Definition merge_state : Type := list chunk_dict * list pyval.

Definition merge_hit (exclude_doc_id : pyval) (i : Z) (st : merge_state) (h : hit)
  : merge_state :=
  let '(all_results, chunk_id_set) := st in
  if excluded exclude_doc_id h then st
  else
    let cid := entity_chunk_id h in
    if bool_decide (cid ∈ chunk_id_set)
    then (raise_similarity all_results cid (similarity_of h) i, chunk_id_set)
    else (all_results ++ [new_result h i], cid :: chunk_id_set).

(** [for i, query_embedding in enumerate(query_embeddings)]: [searches]
    holds, for each query fragment, what the store returned. *)
Fixpoint merge_fragments (exclude_doc_id : pyval) (i : Z)
    (searches : list (list (list hit))) (st : merge_state) : merge_state :=
  match searches with
  | [] => st
  | results :: rest =>
      merge_fragments exclude_doc_id (i + 1) rest
        (fold_left (merge_hit exclude_doc_id i) (concat results) st)
  end.

Definition merged_results (exclude_doc_id : pyval) (searches : list (list (list hit)))
  : list chunk_dict :=
  sort_desc (fun d => get_num (similarity d))
    (fst (merge_fragments exclude_doc_id 0 searches ([], []))).

(** The fresh dictionaries of [all_results] as a store, for the call of
    the reranker. *)
Definition store_of (l : list chunk_dict) : store := map_seq 0 l.

(** [search_chunks_multi_query]: [searches] stands for the encoder and
    the store, [get_reranker] for the reranker singleton ([None] when
    getting it raises); [final_top_k] is [None] or an integer. *)
Definition search_chunks_multi_query (enable_chunking : bool)
    (get_reranker : option Reranker.BCEReranker)
    (query_chunks : list str) (searches : list (list (list hit)))
    (exclude_doc_id : pyval) (use_reranker : bool) (final_top_k : option Z)
  : list chunk_dict :=
  if negb enable_chunking then []
  else if bool_decide (query_chunks = []) then []
  else
    let all_results := merged_results exclude_doc_id searches in
    let k := default 0 final_top_k in
    if use_reranker && negb (k =? 0) && (k <? Z.of_nat (length all_results)) then
      let full_query := join [10%N] query_chunks in
      let h := store_of all_results in
      let refs := seq 0 (length all_results) in
      match
        match get_reranker with
        | Some reranker => Reranker.rerank reranker h full_query refs k 512 512
        | None => None
        end
      with
      | Some out => map (deref (store_after out)) (returned out)
      | None => slice_to all_results k
      end
    else if negb (k =? 0) then slice_to all_results k
    else all_results.

(** *** What the merge is to achieve *)

(** The hits in the order of the loops, each with the index of its query
    fragment. *)
Fixpoint indexed_hits (i : nat) (searches : list (list (list hit))) : list (nat * hit) :=
  match searches with
  | [] => []
  | results :: rest => map (pair i) (concat results) ++ indexed_hits (S i) rest
  end.

(** [found searches i h]: fragment [i] produced the hit [h]. *)
Definition found (searches : list (list (list hit))) (i : nat) (h : hit) : Prop :=
  (i, h) ∈ indexed_hits 0 searches.

(** [d] stands for a hit of fragment [matched_by_query_chunk] that was not
    excluded, with the chunk id and the similarity of that hit, and no
    hit of that chunk that was not excluded is more similar. *)
Definition best_of (exclude_doc_id : pyval) (searches : list (list (list hit)))
    (d : chunk_dict) : Prop :=
  exists i h,
    found searches i h
    /\ excluded exclude_doc_id h = false
    /\ entity_chunk_id h = cid_of d
    /\ similarity d = Some (similarity_of h)
    /\ matched_by_query_chunk d = Some (Z.of_nat i)
    /\ forall j h',
         found searches j h' -> excluded exclude_doc_id h' = false ->
         entity_chunk_id h' = entity_chunk_id h ->
         (similarity_of h' <= similarity_of h)%Q.

(** What the loops keep true of [all_results] and [chunk_id_set], the
    hits [seen] read. *)
Definition merge_inv (exclude_doc_id : pyval) (seen : list (nat * hit))
    (st : merge_state) : Prop :=
  NoDup (map cid_of (fst st))
  /\ (forall cid, cid ∈ snd st <-> cid ∈ map cid_of (fst st))
  /\ (forall d, d ∈ fst st ->
        exists i h, (i, h) ∈ seen /\ excluded exclude_doc_id h = false
                    /\ entity_chunk_id h = cid_of d
                    /\ similarity d = Some (similarity_of h)
                    /\ matched_by_query_chunk d = Some (Z.of_nat i))
  /\ (forall i h, (i, h) ∈ seen -> excluded exclude_doc_id h = false ->
        exists d, d ∈ fst st /\ cid_of d = entity_chunk_id h
                  /\ (similarity_of h <= get_num (similarity d))%Q).

(** Two fragments that both find the chunk [c1]. *)
Definition example_hit (cid did : string) (dist : Q) : hit :=
  {| entity_chunk_id := PyStr (lit cid);
     entity_doc_id := PyStr (lit did);
     entity_content := PyStr (lit cid);
     entity_chunk_index := Some 0;
     entity_chunk_type := PyStr (lit "paragraph");
     entity_title := PyStr (lit did);
     entity_timestamp := PyStr (lit "2024-06-01");
     entity_industries := PyNone;
     entity_investment_relevance := PyNone;
     entity_report_series := PyNone;
     entity_industry_policy_segments := PyNone;
     distance := dist |}.

Definition example_searches : list (list (list hit)) :=
  [ [ [ example_hit "c1" "d1" 1; example_hit "c2" "d1" 0.5 ] ];
    [ [ example_hit "c1" "d1" 0.2; example_hit "c3" "d2" 0.8 ] ] ].

End MultiQuery.

(** ** Merge by document ([agents/enhanced_rag_agent.py]) *)

Module Merge.
Import PyStr PyList Cand.

(** A consolidated document result. *)
Record merged_doc := {
  m_doc_id : pyval;
  m_title : pyval;
  m_timestamp : pyval;
  m_industries : pyval;
  m_investment_relevance : pyval;
  m_report_series : pyval;
  m_content : pyval;
  chunk_count : Z;
  avg_similarity : Q;
  m_similarity : Q;
  chunks : list chunk_dict
}.

(** [doc_id and str(doc_id).strip()] *)
Definition usable_doc_id (v : pyval) : option str :=
  match v with
  | PyStr s => if nonempty s && nonempty (strip s) then Some s else None
  | PyNone => None
  end.

(** The first loop: [docs_by_id] and [chunks_without_doc_id]. *)
Definition group_step (st : list (str * list chunk_dict) * list chunk_dict)
    (chunk : chunk_dict) : list (str * list chunk_dict) * list chunk_dict :=
  let '(docs_by_id, chunks_without_doc_id) := st in
  match usable_doc_id (get_none (doc_id chunk)) with
  | Some id =>
      (dict_set docs_by_id id (default [] (dict_get docs_by_id id) ++ [chunk]),
       chunks_without_doc_id)
  | None => (docs_by_id, chunks_without_doc_id ++ [chunk])
  end.

(** [unique_chunks]: one candidate per [chunk_id], the more similar one. *)
Definition unique_step (unique_chunks : list (pyval * chunk_dict)) (chunk : chunk_dict)
  : list (pyval * chunk_dict) :=
  let cid := get_none (chunk_id chunk) in
  match dict_get unique_chunks cid with
  | None => dict_set unique_chunks cid chunk
  | Some kept =>
      if Qlt_bool (get_num (similarity kept)) (get_num (similarity chunk))
      then dict_set unique_chunks cid chunk else unique_chunks
  end.

(** The contents in order, each followed by a blank line. *)
Definition concat_content (l : list chunk_dict) : str :=
  fold_left
    (fun merged_content chunk =>
       match get_str (content chunk) with
       | PyStr s => if nonempty s then merged_content ++ s ++ [10; 10]%N else merged_content
       | PyNone => merged_content
       end)
    l [].

(** [sum(similarities) / len(similarities) if similarities else 0], over
    the rationals. The binary64 quotient ([Binary64.mean_b64]) can lie
    outside the similarities it is taken of. *)
Definition mean_similarity (l : list chunk_dict) : Q :=
  match l with
  | [] => 0%Q
  | _ => (sum (map (fun c => get_num (similarity c)) l) / inject_Z (Z.of_nat (length l)))%Q
  end.

Definition merge_group (id : str) (doc_chunks : list chunk_dict) : merged_doc :=
  let doc_chunks :=
    sort_asc (fun c => get_int (chunk_index c))
      (dict_values (fold_left unique_step doc_chunks [])) in
  let avg := mean_similarity doc_chunks in
  let first_chunk := hd empty_dict doc_chunks in
  {| m_doc_id := PyStr id;
     m_title := get_str (title first_chunk);
     m_timestamp := get_str (timestamp first_chunk);
     m_industries := get_str (industries first_chunk);
     m_investment_relevance := get_str (investment_relevance first_chunk);
     m_report_series := default (PyStr (lit "N/A")) (report_series first_chunk);
     m_content := PyStr (strip (concat_content doc_chunks));
     chunk_count := Z.of_nat (length doc_chunks);
     avg_similarity := avg;
     m_similarity := avg;
     chunks := doc_chunks |}.

(** A candidate without a usable [doc_id], as a result of its own. *)
Definition singleton_doc (chunk : chunk_dict) : merged_doc :=
  {| m_doc_id := get_str (chunk_id chunk);
     m_title := get_str (title chunk);
     m_timestamp := get_str (timestamp chunk);
     m_industries := get_str (industries chunk);
     m_investment_relevance := get_str (investment_relevance chunk);
     m_report_series := default (PyStr (lit "N/A")) (report_series chunk);
     m_content := get_str (content chunk);
     chunk_count := 1;
     avg_similarity := get_num (similarity chunk);
     m_similarity := get_num (similarity chunk);
     chunks := [chunk] |}.

(** [merged_docs] before the second pass, sorted. *)
Definition first_pass (input : list chunk_dict) : list merged_doc :=
  let '(docs_by_id, chunks_without_doc_id) := fold_left group_step input ([], []) in
  sort_desc avg_similarity
    (map (fun g => merge_group (fst g) (snd g)) docs_by_id
     ++ map singleton_doc chunks_without_doc_id).

(** The [else] branch of the second pass: two results with the same
    [doc_id]. *)
Definition combine (id : str) (existing doc : merged_doc) : merged_doc :=
  let key c := get_none (chunk_id c) in
  let all_chunks :=
    dict_values
      (dict_update (dict_of_list key (chunks existing)) (dict_of_list key (chunks doc))) in
  let new_avg := mean_similarity all_chunks in
  {| m_doc_id := PyStr id;
     m_title := m_title existing;
     m_timestamp := m_timestamp existing;
     m_industries := m_industries existing;
     m_investment_relevance := m_investment_relevance existing;
     m_report_series := m_report_series existing;
     m_content :=
       PyStr (strip (concat_content (sort_asc (fun c => get_int (chunk_index c)) all_chunks)));
     chunk_count := Z.of_nat (length all_chunks);
     avg_similarity := new_avg;
     m_similarity := new_avg;
     chunks := all_chunks |}.

(** One iteration of the second pass; [None] is the [AttributeError] of
    [None.strip()]. *)
Definition dedup_step (unique_docs : list (str * merged_doc)) (doc : merged_doc)
  : option (list (str * merged_doc)) :=
  match m_doc_id doc with
  | PyNone => None
  | PyStr s =>
      let id := strip s in
      if nonempty id then
        match dict_get unique_docs id with
        | None => Some (dict_set unique_docs id doc)
        | Some existing => Some (dict_set unique_docs id (combine id existing doc))
        end
      else Some unique_docs
  end.

Fixpoint second_pass (unique_docs : list (str * merged_doc)) (merged_docs : list merged_doc)
  : option (list (str * merged_doc)) :=
  match merged_docs with
  | [] => Some unique_docs
  | doc :: rest =>
      match dedup_step unique_docs doc with
      | Some unique_docs => second_pass unique_docs rest
      | None => None
      end
  end.

(** [merge_chunks_by_doc_id]; [None] when the call raises. *)
Definition merge_chunks_by_doc_id (input : list chunk_dict) : option (list merged_doc) :=
  match input with
  | [] => Some []
  | _ =>
      match second_pass [] (first_pass input) with
      | Some unique_docs => Some (sort_desc avg_similarity (dict_values unique_docs))
      | None => None
      end
  end.

(** The members of all groups together. *)
Definition total_members (docs : list merged_doc) : nat :=
  length (concat (map chunks docs)).

(** [doc.get('doc_id', '').strip()], the key of the second pass. *)
Definition strip_id (m : merged_doc) : str :=
  match m_doc_id m with PyStr s => strip s | PyNone => [] end.

(** A result whose score and count are those of its members. *)
Definition consistent (m : merged_doc) : Prop :=
  (avg_similarity m == mean_similarity (chunks m))%Q
  /\ chunk_count m = Z.of_nat (length (chunks m)).

(** A candidate that the second pass neither drops nor fails on: it has
    a usable [doc_id], or its [chunk_id] is a string that is not blank. *)
Definition placeable (c : chunk_dict) : Prop :=
  usable_doc_id (get_none (doc_id c)) = None ->
  exists s, get_str (chunk_id c) = PyStr s /\ strip s <> [].

(** [m] has a member with the chunk id of [c]. *)
Definition covers (m : merged_doc) (c : chunk_dict) : Prop :=
  exists c', c' ∈ chunks m /\ cid_of c' = cid_of c.

(** How many of the results [seen] have the stripped id [k]. *)
Definition count_id (k : str) (seen : list merged_doc) : nat :=
  length (List.filter (fun d => bool_decide (strip_id d = k)) seen).

(** What the second pass keeps true of [unique_docs], the results [seen]
    read: one entry per stripped id; every entry consistent; every
    result read with an id that is not blank has the entry of its id
    cover its members; the members of an entry come from results read
    with that id; and an entry is a result as it was read unless two
    results with its id were read. *)
Definition pass_inv (seen : list merged_doc) (unique_docs : list (str * merged_doc))
  : Prop :=
  NoDup (map fst unique_docs)
  /\ (forall k m, (k, m) ∈ unique_docs -> strip_id m = k /\ k <> [] /\ consistent m)
  /\ (forall doc, doc ∈ seen -> strip_id doc <> [] ->
        exists m, dict_get unique_docs (strip_id doc) = Some m
                  /\ forall c, c ∈ chunks doc -> covers m c)
  /\ (forall k m c, (k, m) ∈ unique_docs -> c ∈ chunks m ->
        exists doc, doc ∈ seen /\ strip_id doc = k /\ c ∈ chunks doc)
  /\ (forall k m, (k, m) ∈ unique_docs -> m ∈ seen \/ (2 <= count_id k seen)%nat).




(** *** Candidates for the examples *)

(** Two hits on one passage, and a passage of another document. *)
Definition repeated_input : list chunk_dict :=
  [ candidate "c1" "doc_1" "T" "2024-06-01" 0 0.9 None;
    candidate "c1" "doc_1" "T" "2024-06-01" 0 0.7 None;
    candidate "c2" "doc_2" "U" "2024-06-01" 0 0.5 None ].

(** A passage without [doc_id] whose [chunk_id] is the [doc_id] of the
    other two. *)
Definition colliding_input : list chunk_dict :=
  [ candidate "c1" "doc_1" "T" "2024-06-01" 0 0.9 None;
    candidate "c2" "doc_1" "T" "2024-06-01" 1 0.3 None;
    candidate "doc_1" "" "T" "2024-06-01" 2 0.6 None ].


(** The example of the spec: five passages of one document. *)
Definition spec_input : list chunk_dict :=
  [ candidate "p2" "doc_1" "T" "2024-06-01" 2 0.5 None;
    candidate "p0" "doc_1" "T" "2024-06-01" 0 0.9 None;
    candidate "p4" "doc_1" "T" "2024-06-01" 4 0.3 None;
    candidate "p1" "doc_1" "T" "2024-06-01" 1 0.7 None;
    candidate "p3" "doc_1" "T" "2024-06-01" 3 0.6 None ].

End Merge.

(** ** The chunker: what its loops keep, and the batch entry point
    ([Agent/utils/chunking.py]) *)

Module ChunkBatch.
Import PyStr PyList Chunking.

(** [p] is a contiguous piece of [s]. *)
Definition factor (p s : str) : Prop := exists pre post, s = pre ++ p ++ post.

(** A text that is not empty and has no white space at either end. *)
Definition solid (s : str) : Prop := starts_solid s /\ ends_solid s.

Section Invariants.

Variables (doc_id_ title_ timestamp_ industries_ : str).
Variables (investment_relevance_ report_series_ industry_policy_segments_ : str).

(** The chunk at position [i] was built by the [i]-th constructor call:
    its index, its identifier and its metadata are those of
    [new_chunk]. *)
Definition numbered (l : list DocumentChunk) : Prop :=
  forall i c, l !! i = Some c ->
    c = new_chunk doc_id_ title_ timestamp_ industries_
          investment_relevance_ report_series_ industry_policy_segments_
          i (chunk_kind c) (content c).

(** What the paragraph loop keeps true of its variables: [chunk_idx]
    counts the chunks, which are numbered in order. *)
Definition counted (st : loop_state) : Prop :=
  chunk_idx st = length (chunks st) /\ numbered (chunks st).

(** The buffered pieces and the emitted contents are solid. *)
Definition solid_state (st : loop_state) : Prop :=
  Forall solid (current_chunk_parts st)
  /\ Forall (fun c => solid (content c)) (chunks st).

End Invariants.

(** One document of a batch: the keys ['doc_id'], ['title'] and
    ['content'] of the dictionary, [None] for an absent key. *)
Record document := {
  doc_id_key : option str;
  title_key : option str;
  content_key : option str
}.

(** How a call ends: with a value, with the [KeyError] of a subscript,
    or short of fuel for the chunker's inner loop. *)
Inductive run (A : Type) :=
  | Returned (a : A)
  | KeyError
  | OutOfFuel.
Arguments Returned {A} a.
Arguments KeyError {A}.
Arguments OutOfFuel {A}.

(** [PolicyDocumentChunker()] *)
Definition default_chunker : PolicyDocumentChunker :=
  {| chunk_size_target := 800; chunk_size_max := 1000; overlap := 150;
     absolute_max := 1200 |}.

(** [for doc in documents: ...; result[doc['doc_id']] = chunks] *)
Fixpoint batch_loop (isdecimal : N -> bool) (chunker : PolicyDocumentChunker)
    (fuel : nat) (documents : list document)
    (result : list (str * list DocumentChunk))
  : run (list (str * list DocumentChunk)) :=
  match documents with
  | [] => Returned result
  | doc :: rest =>
      match doc_id_key doc, title_key doc, content_key doc with
      | Some doc_id, Some title, Some content =>
          match chunk_document isdecimal chunker fuel doc_id title content
                  [] [] [] [] [] with
          | Some chunks =>
              batch_loop isdecimal chunker fuel rest (dict_set result doc_id chunks)
          | None => OutOfFuel
          end
      | _, _, _ => KeyError
      end
  end.

(** [chunk_documents_batch]; [chunker] is [None] or a chunker. *)
Definition chunk_documents_batch (isdecimal : N -> bool) (fuel : nat)
    (documents : list document) (chunker : option PolicyDocumentChunker)
  : run (list (str * list DocumentChunk)) :=
  batch_loop isdecimal (default default_chunker chunker) fuel documents [].

(** A document with its three keys. *)
Definition complete (doc : document) : Prop :=
  is_Some (doc_id_key doc) /\ is_Some (title_key doc) /\ is_Some (content_key doc).

(** Fuel that is enough for every paragraph of every document. *)
Definition enough (fuel : nat) (documents : list document) : Prop :=
  Forall (fun doc => forall content, content_key doc = Some content ->
            Forall (fun p => (length p < fuel)%nat) (_split_into_paragraphs content))
    documents.

End ChunkBatch.

(** ** The scores as binary64 computes them
    ([Agent/agents/novelty_agent.py], [agents/enhanced_rag_agent.py]) *)

(** The scores of the program are Python floats. The bonus formulas and
    the mean of the similarities are embedded a second time over the
    binary64 numbers of the kernel, to decide what rounding does to the
    order of two scores. *)
Module Binary64.

(** [float(n)] for an integer that binary64 holds exactly (below 2^53 in
    absolute value, as every difference of two dates is). *)
Fixpoint float_of_pos (p : positive) : PrimFloat.float :=
  match p with
  | xH => PrimFloat.one
  | xO q => PrimFloat.mul PrimFloat.two (float_of_pos q)
  | xI q => PrimFloat.add (PrimFloat.mul PrimFloat.two (float_of_pos q)) PrimFloat.one
  end.

Definition float_of_Z (z : Z) : PrimFloat.float :=
  match z with
  | Z0 => PrimFloat.zero
  | Zpos p => float_of_pos p
  | Zneg p => PrimFloat.opp (float_of_pos p)
  end.

(** [a / b] on two such integers: the quotient, rounded once. *)
Definition truediv (a b : Z) : PrimFloat.float := PrimFloat.div (float_of_Z a) (float_of_Z b).

(** The literals [0.1] and [0.03]: the binary64 numbers nearest to 1/10
    and to 3/100. *)
Definition lit_0_1 : PrimFloat.float := truediv 1 10.
Definition lit_0_03 : PrimFloat.float := truediv 3 100.

(** [0.1 * (1 - days_diff / 365)], [0.03 * (1 - (days_diff - 365) / 730)]
    and [0.0], each operation rounded as the program rounds it. *)
Definition tier_bonus_b64 (days_diff : Z) : PrimFloat.float :=
  if days_diff <=? 365 then
    PrimFloat.mul lit_0_1 (PrimFloat.sub PrimFloat.one (truediv days_diff 365))
  else if days_diff <=? 1095 then
    PrimFloat.mul lit_0_03
      (PrimFloat.sub PrimFloat.one (truediv (days_diff - 365) 730))
  else PrimFloat.zero.

(** The bonuses of the days [first], [first + 1], ..., each with its
    day. *)
Definition bonus_table (first : nat) (days : nat) : list (Z * PrimFloat.float) :=
  map (fun n => (Z.of_nat n, tier_bonus_b64 (Z.of_nat n))) (seq first days).

(** No bonus of the table is below that of a later day. *)
Definition decreasing (t : list (Z * PrimFloat.float)) : bool :=
  forallb
    (fun a =>
       forallb (fun b => implb (fst a <=? fst b) (PrimFloat.leb (snd b) (snd a))) t)
    t.

(** No bonus of the second table is above that of a day of the first
    table whose exact bonus, in the first tier, is larger than the exact
    bonus of the second tier. *)
Definition apart (t1 t2 : list (Z * PrimFloat.float)) : bool :=
  forallb
    (fun a =>
       forallb
         (fun b =>
            implb (20 * fst a <? 3 * fst b + 4015) (PrimFloat.leb (snd b) (snd a)))
         t2)
    t1.

Definition not_negative (t : list (Z * PrimFloat.float)) : bool :=
  forallb (fun a => PrimFloat.leb PrimFloat.zero (snd a)) t.

(** The literal [0.7]. *)
Definition lit_0_7 : PrimFloat.float := truediv 7 10.

(** [sum(similarities) / len(similarities) if similarities else 0] of
    [merge_chunks_by_doc_id]: the sum is taken from the left. *)
Definition mean_b64 (similarities : list PrimFloat.float) : PrimFloat.float :=
  match similarities with
  | [] => PrimFloat.zero
  | _ =>
      PrimFloat.div (fold_left PrimFloat.add similarities PrimFloat.zero)
        (float_of_Z (Z.of_nat (length similarities)))
  end.

End Binary64.

(** ** Byte limits of the store ([Agent/vector_db.py]) *)

Module Utf8.
Import PyStr.

(** A byte string: a list of numbers below 256. *)
Abbreviation bytes := (list N).

(** [chr(c).encode('utf-8')]: one to four bytes. A surrogate has no
    encoding ([None] is the [UnicodeEncodeError]), and no character of a
    [str] lies beyond U+10FFFF. *)
Definition encode_char (c : N) : option bytes :=
  (if c <? 128 then Some [c]
   else if c <? 2048 then Some [192 + c / 64; 128 + c mod 64]
   else if (55296 <=? c) && (c <=? 57343) then None
   else if c <? 65536
        then Some [224 + c / 4096; 128 + (c / 64) mod 64; 128 + c mod 64]
   else if c <=? 1114111
        then Some [240 + c / 262144; 128 + (c / 4096) mod 64;
                   128 + (c / 64) mod 64; 128 + c mod 64]
   else None)%N.

(** [s.encode("utf-8")] *)
Fixpoint encode (s : str) : option bytes :=
  match s with
  | [] => Some []
  | c :: s' =>
      match encode_char c, encode s' with
      | Some b, Some bs => Some (b ++ bs)
      | _, _ => None
      end
  end.

(** The strict decoder reads byte by byte: between two characters it is
    at [Start]; inside a character it waits for a continuation byte
    between [lo] and [hi], after which [more] further bytes are due. The
    ranges are those of the well-formed sequences: no overlong form, no
    surrogate, nothing beyond U+10FFFF. *)
Inductive decoder_state :=
  | Start
  | Inside (more : nat) (acc lo hi : N).

(** One byte: the next state and, at the end of a character, its code
    point; [None] is the [UnicodeDecodeError]. *)
Definition decode_step (st : decoder_state) (b : N)
  : option (decoder_state * option N) :=
  (match st with
   | Start =>
       if b <=? 127 then Some (Start, Some b)
       else if (194 <=? b) && (b <=? 223) then Some (Inside 0 (b - 192) 128 191, None)
       else if b =? 224 then Some (Inside 1 0 160 191, None)
       else if ((225 <=? b) && (b <=? 236)) || (b =? 238) || (b =? 239)
            then Some (Inside 1 (b - 224) 128 191, None)
       else if b =? 237 then Some (Inside 1 13 128 159, None)
       else if b =? 240 then Some (Inside 2 0 144 191, None)
       else if (241 <=? b) && (b <=? 243) then Some (Inside 2 (b - 240) 128 191, None)
       else if b =? 244 then Some (Inside 2 4 128 143, None)
       else None
   | Inside more acc lo hi =>
       if (lo <=? b) && (b <=? hi) then
         let acc := acc * 64 + (b - 128) in
         match more with
         | O => Some (Start, Some acc)
         | S more' => Some (Inside more' acc 128 191, None)
         end
       else None
   end)%N.

(** The characters of [bs], read from state [st]; a byte string that
    stops inside a character does not decode. *)
Fixpoint decode_from (st : decoder_state) (bs : bytes) : option str :=
  match bs with
  | [] => match st with Start => Some [] | Inside _ _ _ _ => None end
  | b :: bs' =>
      match decode_step st b with
      | Some (st', out) =>
          match decode_from st' bs' with
          | Some s => Some (match out with Some c => c :: s | None => s end)
          | None => None
          end
      | None => None
      end
  end.

(** [bs.decode("utf-8")] *)
Definition decode (bs : bytes) : option str := decode_from Start bs.

(** [while cut > 0: try: return b[:cut].decode("utf-8") except
    UnicodeDecodeError: cut -= 1], then [return ""]. *)
Fixpoint cut_loop (b : bytes) (cut : nat) : str :=
  match cut with
  | O => []
  | S cut' =>
      match decode (firstn cut b) with
      | Some s => s
      | None => cut_loop b cut'
      end
  end.

(** [_truncate_utf8], the helper of [_add_chunk_level]; [value] is
    [None] or a string, and the result [None] stands for the
    [UnicodeEncodeError] of [s.encode]. *)
Definition _truncate_utf8 (value : option str) (max_bytes : Z) : option str :=
  let s := default [] value in
  match encode s with
  | None => None
  | Some b =>
      if len b <=? max_bytes then Some s
      else Some (cut_loop b (Z.to_nat max_bytes))
  end.

End Utf8.

(** ** Single-query search and the retrieval agent
    ([Agent/vector_db.py], [agents/enhanced_rag_agent.py]) *)

Module Retrieval.
Import PyStr PyList Cand Reranker MultiQuery Dedup Merge.

(** The stored fields of a result are those of the hit [h]. *)
Definition stored_fields (d : chunk_dict) (h : hit) : Prop :=
  chunk_id d = Some (entity_chunk_id h)
  /\ doc_id d = Some (entity_doc_id h)
  /\ content d = Some (entity_content h)
  /\ chunk_index d = entity_chunk_index h
  /\ chunk_type d = Some (entity_chunk_type h)
  /\ title d = Some (entity_title h)
  /\ timestamp d = Some (entity_timestamp h)
  /\ industries d = Some (entity_industries h).

(** What the merge of [search_chunks_multi_query] keeps true of
    [all_results], the hits [seen] read: the stored fields of every
    entry are those of a hit that was read and not excluded. *)
Definition fields_inv (exclude_doc_id : pyval) (seen : list (nat * hit))
    (st : merge_state) : Prop :=
  forall d, d ∈ fst st ->
    exists i h, (i, h) ∈ seen /\ excluded exclude_doc_id h = false
                /\ stored_fields d h.

(** A score between 0 and 1. *)
Definition unit_score (q : Q) : Prop := (0 <= q <= 1)%Q.

(** The [exclude_timestamp] argument of [search_chunks]: [None], a
    [datetime] (here the day number of its date) or a string. *)
Inductive timestamp_arg :=
  | NoTimestamp
  | Datetime (day : Z)
  | Text (s : str).

Section SearchChunks.

(** [datetime.fromisoformat(s).date()] as a day number; [None] when the
    call raises. *)
Variable fromisoformat : str -> option Z.

(** [exclude_timestamp_date]: set when both [exclude_title] and
    [exclude_timestamp] are given and the time stamp can be read. *)
Definition exclude_date (exclude_title : pyval) (exclude_timestamp : timestamp_arg)
  : option Z :=
  if truthy exclude_title then
    match exclude_timestamp with
    | NoTimestamp => None
    | Datetime day => Some day
    | Text s => if nonempty s then doc_date fromisoformat s else None
    end
  else None.

(** The hit is the excluded policy itself: the same title and the same
    date. A hit whose time stamp is empty or cannot be read is kept. *)
Definition same_policy (exclude_title : pyval) (exclude_timestamp_date : option Z)
    (h : hit) : bool :=
  match exclude_timestamp_date with
  | Some day =>
      truthy exclude_title
      && bool_decide (entity_title h = exclude_title)
      && match entity_timestamp h with
         | PyStr ts =>
             nonempty ts
             && match doc_date fromisoformat ts with
                | Some hit_date => hit_date =? day
                | None => false
                end
         | PyNone => false
         end
  | None => false
  end.

(** The dictionary that [search_chunks] builds for a hit. *)
Definition formatted_hit (h : hit) : chunk_dict :=
  {| chunk_id := Some (entity_chunk_id h);
     doc_id := Some (entity_doc_id h);
     content := Some (entity_content h);
     chunk_index := entity_chunk_index h;
     chunk_type := Some (entity_chunk_type h);
     title := Some (entity_title h);
     timestamp := Some (entity_timestamp h);
     industries := Some (entity_industries h);
     investment_relevance := None;
     report_series := None;
     industry_policy_segments := None;
     source := None;
     similarity := Some (similarity_of h);
     matched_by_query_chunk := None;
     rerank_score := None;
     original_rank := None;
     time_bonus := None;
     final_score := None |}.

(** The hits that the two [continue] statements let through. *)
Definition kept_hit (exclude_doc_id exclude_title : pyval)
    (exclude_timestamp_date : option Z) (h : hit) : bool :=
  negb (excluded exclude_doc_id h)
  && negb (same_policy exclude_title exclude_timestamp_date h).

(** [search_chunks]: [results] is what the store answered (the time
    window is part of the question put to the store); [get_reranker]
    is the reranker singleton, [None] when getting it raises. *)
Definition search_chunks (enable_chunking : bool)
    (get_reranker : option BCEReranker)
    (query_text : str) (results : list (list hit))
    (top_k : Z) (rerank_top_k : option Z)
    (exclude_doc_id exclude_title : pyval) (exclude_timestamp : timestamp_arg)
    (use_reranker : bool) : list chunk_dict :=
  if negb enable_chunking then []
  else
    let rerank_top_k := default top_k rerank_top_k in
    let final_top_k := if use_reranker then rerank_top_k else top_k in
    let exclude_timestamp_date := exclude_date exclude_title exclude_timestamp in
    let formatted_results :=
      map formatted_hit
        (List.filter (kept_hit exclude_doc_id exclude_title exclude_timestamp_date)
           (concat results)) in
    if use_reranker && (final_top_k <? Z.of_nat (length formatted_results)) then
      let h := store_of formatted_results in
      let refs := seq 0 (length formatted_results) in
      match
        match get_reranker with
        | Some reranker => rerank reranker h query_text refs final_top_k 512 512
        | None => None
        end
      with
      | Some out => map (deref (store_after out)) (returned out)
      | None => slice_to formatted_results final_top_k
      end
    else slice_to formatted_results final_top_k.

End SearchChunks.

(** *** The retrieval agent *)

(** The vector database as the agent uses it: the switch
    [enable_chunking]; the answer of the store to a query text with a
    limit, [None] when the encoder or the store raises; and the
    reranker singleton. *)
Record MilvusVectorDatabase := {
  enable_chunking : bool;
  collection_search : str -> Z -> option (list (list hit));
  get_reranker : option BCEReranker
}.

(** The answers of the store to the query fragments, one after the
    other; [None] as soon as one of the searches raises. *)
Fixpoint search_all (vector_db : MilvusVectorDatabase) (query_chunks : list str)
    (limit : Z) : option (list (list (list hit))) :=
  match query_chunks with
  | [] => Some []
  | q :: rest =>
      match collection_search vector_db q limit, search_all vector_db rest limit with
      | Some results, Some searches => Some (results :: searches)
      | _, _ => None
      end
  end.

(** [if exclude_doc_id and result.get('doc_id') == exclude_doc_id] *)
Definition is_excluded (exclude_doc_id : pyval) (result : chunk_dict) : bool :=
  truthy exclude_doc_id && bool_decide (get_none (doc_id result) = exclude_doc_id).

(** The dictionary that [search_chunks_by_similarity] builds for a
    result. [result.get('chunk_index', 0)] reads the INT64 field of the
    schema: an integer, or 0 for a result without the key. A [None]
    under the key, which the later sort by [chunk_index] cannot
    compare, is not a value of this embedding. *)
Definition format_result (fine_grained : bool) (result : chunk_dict) : chunk_dict :=
  {| chunk_id := Some (get_none (chunk_id result));
     doc_id := Some (get_none (doc_id result));
     content := Some (get_str (content result));
     chunk_index := Some (get_int (chunk_index result));
     chunk_type := None;
     title := Some (get_str (title result));
     timestamp := Some (get_str (timestamp result));
     industries := Some (get_str (industries result));
     investment_relevance := Some (get_str (investment_relevance result));
     report_series := Some (default (PyStr (lit "N/A")) (report_series result));
     industry_policy_segments := None;
     source :=
       Some (PyStr (if fine_grained then lit "chunk_similarity_fine_grained"
                    else lit "chunk_similarity"));
     similarity := Some (get_num (similarity result));
     matched_by_query_chunk := None;
     rerank_score := None;
     original_rank := None;
     time_bonus := None;
     final_score := None |}.

Section Agent.

Variable fromisoformat : str -> option Z.
Variable vector_db : MilvusVectorDatabase.

(** What the database returns to the agent: the multi-query search for
    a list of fragments that is not empty, the single-query search
    otherwise. A disabled chunk search asks the store nothing. *)
Definition database_results (query_text : option str) (query_chunks : list str)
    (top_k : Z) (exclude_doc_id : pyval) (use_reranker : bool)
  : option (list chunk_dict) :=
  if negb (enable_chunking vector_db) then Some []
  else
    match query_chunks with
    | _ :: _ =>
        match search_all vector_db query_chunks top_k with
        | Some searches =>
            Some (search_chunks_multi_query true (get_reranker vector_db)
                    query_chunks searches exclude_doc_id use_reranker
                    (Some (top_k * 2)))
        | None => None
        end
    | [] =>
        let query_text := default [] query_text in
        match collection_search vector_db query_text top_k with
        | Some results =>
            Some (search_chunks fromisoformat true (get_reranker vector_db)
                    query_text results top_k None exclude_doc_id PyNone NoTimestamp
                    use_reranker)
        | None => None
        end
    end.

(** [search_chunks_by_similarity]; [query_chunks] is [None] or a list,
    here the empty list for [None]. *)
Definition search_chunks_by_similarity (query_text : option str)
    (query_chunks : list str) (top_k : Z) (exclude_doc_id : pyval)
    (use_reranker : bool) : option (list chunk_dict) :=
  match database_results query_text query_chunks top_k exclude_doc_id use_reranker with
  | Some results =>
      Some (map (format_result (bool_decide (query_chunks <> [])))
              (List.filter (fun result => negb (is_excluded exclude_doc_id result))
                 results))
  | None => None
  end.

(** [search_enhanced]; [None] when the search or
    [merge_chunks_by_doc_id] raises. *)
Definition search_enhanced (query_text : option str) (query_chunks : list str)
    (top_k : Z) (exclude_doc_id : pyval) (use_reranker : bool)
  : option (list merged_doc) :=
  match search_chunks_by_similarity query_text query_chunks (top_k * 2)
          exclude_doc_id use_reranker with
  | None => None
  | Some rag_results =>
      match merge_chunks_by_doc_id rag_results with
      | None => None
      | Some merged_docs =>
          let merged_docs :=
            if truthy exclude_doc_id
            then List.filter
                   (fun doc => negb (bool_decide (m_doc_id doc = exclude_doc_id)))
                   merged_docs
            else merged_docs in
          Some (slice_to merged_docs top_k)
      end
  end.

(** The argument of [process]: a string, a list of query chunks, or
    something else with its [str()]. *)
Inductive input_data :=
  | InputText (s : str)
  | InputChunks (l : list str)
  | InputOther (repr : str).

(** [process]: the search with the defaults of [search_enhanced]. *)
Definition process (input : input_data) : option (list merged_doc) :=
  match input with
  | InputText s => search_enhanced (Some s) [] 10 PyNone true
  | InputChunks l => search_enhanced None l 10 PyNone true
  | InputOther repr => search_enhanced (Some repr) [] 10 PyNone true
  end.

End Agent.

(** A store for the examples: three passages of two documents, whatever
    the query; it is searched with a limit. *)
Definition example_db : MilvusVectorDatabase :=
  {| enable_chunking := true;
     collection_search := fun _ limit =>
       Some [ slice_to [ example_hit "c1" "d1" 1; example_hit "c2" "d1" 0.5;
                         example_hit "c3" "d2" 0.8 ] limit ];
     get_reranker := Some length_reranker |}.

End Retrieval.

(** ** The search of the novelty agent ([Agent/agents/novelty_agent.py]) *)

(** What the searches read of a [PolicySegment]: [doc_id], [content],
    [title], and [timestamp], a [datetime], here the day number of its
    date. *)
Module PolicySegment.
Import PyStr.

Record t := {
  doc_id : str;
  content : str;
  title : str;
  timestamp : Z
}.

End PolicySegment.

(** The dimension dictionary: the keys ['dimension'] and ['content'],
    strings when present. *)
Module Dimension.
Import PyStr.

Record t := {
  dimension : option str;
  content : option str
}.

End Dimension.

Module Novelty.
Import PyStr PyList Cand Reranker MultiQuery Dedup Retrieval.

Section Novelty.

Variable fromisoformat : str -> option Z.

(** [self.vector_db], [None] when it is not set. *)
Variable vector_db : option MilvusVectorDatabase.

(** The answer of the store to a query text with a limit, asked with the
    time window of the call as filter expression; [None] when the
    encoder or the store raises. *)
Variable search_within_window : str -> Z -> option (list (list hit)).

(** [self.vector_db.search_chunks(query_text, top_k=300,
    rerank_top_k=50, exclude_doc_id=segment.doc_id, ...)]; [None] when
    the call raises. *)
Definition dimension_hits (db : MilvusVectorDatabase) (segment : PolicySegment.t)
    (query_text : str) : option (list chunk_dict) :=
  if negb (enable_chunking db) then Some []
  else
    match search_within_window query_text 300 with
    | Some results =>
        Some (search_chunks fromisoformat true (get_reranker db) query_text results
                300 (Some 50)
                (PyStr (PolicySegment.doc_id segment))
                (PyStr (PolicySegment.title segment))
                (Datetime (PolicySegment.timestamp segment)) true)
    | None => None
    end.

(** [_search_by_dimension]: the candidates of the search are deduplicated
    and weighted in place; an exception on the way gives the empty
    list. *)
Definition _search_by_dimension (segment : PolicySegment.t) (topic : str)
    (dimension : Dimension.t) (top_k : Z) : list chunk_dict :=
  match vector_db with
  | None => []
  | Some db =>
      let dim_name := default [] (Dimension.dimension dimension) in
      let dim_content := default [] (Dimension.content dimension) in
      let query_text := topic ++ lit " " ++ dim_name ++ lit ": " ++ dim_content in
      match dimension_hits db segment query_text with
      | Some chunk_results =>
          let out :=
            _deduplicate_chunks fromisoformat (store_of chunk_results)
              (seq 0 (length chunk_results))
              (Some (PolicySegment.timestamp segment)) top_k in
          map (deref (store_after out)) (returned out)
      | None => []
      end
  end.

End Novelty.

(** A policy for the examples: the document [d2] of the example store,
    dated 2025-01-01. *)
Definition example_segment : PolicySegment.t :=
  {| PolicySegment.doc_id := lit "d2";
     PolicySegment.content := lit "text of the policy";
     PolicySegment.title := lit "d2";
     PolicySegment.timestamp := 20089 |}.

Definition example_dimension : Dimension.t :=
  {| Dimension.dimension := Some (lit "scope"); Dimension.content := Some (lit "text") |}.

End Novelty.

(** ** The stored fields of a chunk ([Agent/vector_db.py], [_add_chunk_level]) *)

Module Ingest.
Import PyStr Utf8.

(** [max(len(str(field[i])) for i in range(len(field)))]; [None] for the
    [ValueError] of [max] on an empty sequence. *)
Definition longest (field : list str) : option Z :=
  match field with
  | [] => None
  | item :: rest => Some (fold_left Z.max (map len rest) (len item))
  end.

(** The check by characters: [if current_max > max_len], every item with
    more than [max_len] characters becomes [old_val[:max_len]]. *)
Definition char_pass (field : list str) (max_len : Z) : list str :=
  let current_max := default 0 (longest field) in
  if max_len <? current_max
  then map (fun item => if max_len <? len item then slice_to item max_len else item) field
  else field.

(** The check by bytes: the lengths are taken first, then every item
    whose encoding is longer than [max_allowed] goes through
    [_truncate_utf8]. *)
Fixpoint byte_loop (field_data : list str) (lengths : list Z) (max_allowed : Z)
  : option (list str) :=
  match field_data, lengths with
  | item :: rest, length :: lengths' =>
      if max_allowed <? length then
        match _truncate_utf8 (Some item) max_allowed, byte_loop rest lengths' max_allowed with
        | Some s, Some rest' => Some (s :: rest')
        | _, _ => None
        end
      else option_map (cons item) (byte_loop rest lengths' max_allowed)
  | _, _ => Some field_data
  end.

Definition byte_pass (field_data : list str) (max_allowed : Z) : option (list str) :=
  match mapM (fun item => option_map len (encode item)) field_data with
  | Some lengths => byte_loop field_data lengths max_allowed
  | None => None
  end.

(** One VARCHAR column of [entities] as it is inserted: built with
    [_truncate_utf8], checked by characters, checked by bytes. The
    result is [None] when a value cannot be encoded, and for a column
    without chunk, where the [max] of the checks raises. *)
Definition varchar_field (values : list (option str)) (max_bytes : Z)
  : option (list str) :=
  match mapM (fun value => _truncate_utf8 value max_bytes) values with
  | Some field =>
      let field := char_pass field max_bytes in
      match longest field with
      | Some _ => byte_pass field max_bytes
      | None => None
      end
  | None => None
  end.

Definition MAX_CHUNK_LEN : Z := 450.

(** [if len(chunk.content) > MAX_CHUNK_LEN: chunk.content =
    chunk.content[:MAX_CHUNK_LEN]] *)
Definition limited_content (content : str) : str :=
  if MAX_CHUNK_LEN <? len content then slice_to content MAX_CHUNK_LEN else content.

(** [chunk_texts[i] = chunk.content[:MAX_CHUNK_LEN]], the text whose
    embedding is stored *)
Definition chunk_text (content : str) : str :=
  slice_to (limited_content content) MAX_CHUNK_LEN.

(** The [content] column for the chunks with these contents. *)
Definition content_field (contents : list str) : option (list str) :=
  varchar_field (map (fun content => Some (limited_content content)) contents) 450.

(** What a stored value is to the value of the chunk: a prefix with whole
    characters that fits the limit, the value itself when that fits. *)
Definition cut_to (max_bytes : Z) (value s : str) : Prop :=
  exists k b bs,
    encode value = Some b
    /\ s = firstn k value
    /\ encode s = Some bs /\ len bs <= max_bytes
    /\ (len b <= max_bytes -> s = value)
    /\ (max_bytes < len b -> len s < len value).

(** *** The insertion in batches *)

Definition CHUNK_INSERT_BATCH : Z := 500.

(** [range(0, total_chunks, CHUNK_INSERT_BATCH)] *)
Definition batch_starts (total_chunks : Z) : list Z :=
  map (fun j => Z.of_nat j * CHUNK_INSERT_BATCH)
    (seq 0 (Z.to_nat ((total_chunks + CHUNK_INSERT_BATCH - 1) / CHUNK_INSERT_BATCH))).

(** [column[i:end_idx]] for two indices that are not negative *)
Definition slice_between {A : Type} (column : list A) (i end_idx : Z) : list A :=
  skipn (Z.to_nat i) (firstn (Z.to_nat end_idx) column).

Section Insert.

(** The values of the columns, whatever their types. *)
Variable cell : Type.

(** [self.chunk_collection.insert(batch_entities)]; [false] when it
    raises. *)
Variable insert : list (list cell) -> bool.

(** The loop over the batches: [inserted] lists the batches that the
    collection accepted so far; the flag is [false] when an insertion
    raised, which ends the call. *)
Fixpoint insert_loop (entities : list (list cell)) (total_chunks : Z) (starts : list Z)
    (inserted : list (list (list cell))) : list (list (list cell)) * bool :=
  match starts with
  | [] => (inserted, true)
  | i :: starts' =>
      let end_idx := Z.min (i + CHUNK_INSERT_BATCH) total_chunks in
      let batch_entities := map (fun column => slice_between column i end_idx) entities in
      if insert batch_entities
      then insert_loop entities total_chunks starts' (inserted ++ [batch_entities])
      else (inserted, false)
  end.

(** [total_chunks = len(entities[0])] and the loop; [None] for the
    [IndexError] of [entities[0]]. *)
Definition insert_batches (entities : list (list cell))
  : option (list (list (list cell)) * bool) :=
  match entities with
  | [] => None
  | column :: _ =>
      let total_chunks := Z.of_nat (length column) in
      Some (insert_loop entities total_chunks (batch_starts total_chunks) [])
  end.

(** What the collection holds of column [c] after these batches. *)
Definition column_of (c : nat) (inserted : list (list (list cell))) : list cell :=
  concat (map (fun batch_entities => default [] (batch_entities !! c)) inserted).

End Insert.

End Ingest.

(** ** The full text of a stored document ([Agent/vector_db.py]) *)

(** A row that the collection returns for the output fields [chunk_id],
    [content] and [chunk_index]. *)
Module Row.
Import PyStr Cand.

Record t := {
  chunk_id : option pyval;
  content : option pyval;
  chunk_index : option Z
}.

End Row.

Module FullContent.
Import PyStr PyList Cand.

(** [f'doc_id == "{doc_id}"'] and [f'title == "{title}" && timestamp ==
    "{timestamp}"']; the quotation mark is the character 34. *)
Definition quoted (s : str) : str := [34%N] ++ s ++ [34%N].

Definition doc_id_expr (doc_id : str) : str := lit "doc_id == " ++ quoted doc_id.

Definition title_timestamp_expr (title timestamp : str) : str :=
  lit "title == " ++ quoted title ++ lit " && timestamp == " ++ quoted timestamp.

(** [f"{value}"] *)
Definition formatted (value : pyval) : str :=
  match value with PyStr s => s | PyNone => lit "None" end.

(** [r.get('content', '') for r in results if r.get('content')] *)
Definition content_of (r : Row.t) : option str :=
  match Row.content r with
  | Some (PyStr s) => if nonempty s then Some s else None
  | _ => None
  end.

(** The rows sorted by [chunk_index], and their contents joined. *)
Definition joined_contents (results : list Row.t) : str :=
  let results := sort_asc (fun x => get_int (Row.chunk_index x)) results in
  let contents := omap content_of results in
  join [10%N; 10%N] contents.

Section FullContent.

(** [self.chunk_collection.query(expr=expr, output_fields=[...],
    limit=100)]; [None] when it raises. *)
Variable query : str -> option (list Row.t).

(** [get_full_document_content]; an argument is [None] or a string. *)
Definition get_full_document_content (doc_id title timestamp : pyval) : str :=
  if negb (truthy doc_id) && negb (truthy title && truthy timestamp) then []
  else
    let expr :=
      if truthy doc_id then doc_id_expr (formatted doc_id)
      else title_timestamp_expr (formatted title) (formatted timestamp) in
    match query expr with
    | Some [] => []
    | Some results => joined_contents results
    | None => []
    end.

(** [get_documents_full_content]: the first loop over [doc_ids], then
    the loop over the pairs; a content that is empty leaves no entry. *)
Definition add_content (result : list (str * str)) (key content : str)
  : list (str * str) :=
  if nonempty content then dict_set result key content else result.

Definition get_documents_full_content (doc_ids : list str)
    (title_timestamp_pairs : list (str * str)) : list (str * str) :=
  let result :=
    fold_left
      (fun result doc_id =>
         add_content result doc_id
           (get_full_document_content (PyStr doc_id) PyNone PyNone))
      doc_ids [] in
  fold_left
    (fun result pair =>
       add_content result (fst pair ++ lit "|" ++ snd pair)
         (get_full_document_content PyNone (PyStr (fst pair)) (PyStr (snd pair))))
    title_timestamp_pairs result.

End FullContent.

(** Two answers of the collection with the same rows, whose indices are
    pairwise different. *)
Definition same_rows (answer answer' : option (list Row.t)) : Prop :=
  match answer, answer' with
  | Some results, Some results' =>
      results ≡ₚ results'
      /\ NoDup (map (fun x => get_int (Row.chunk_index x)) results)
  | None, None => True
  | _, _ => False
  end.

(** Three rows of a document, not in the order of their indices. *)
Definition example_row (index : Z) (text : string) : Row.t :=
  {| Row.chunk_id := None;
     Row.content := Some (PyStr (lit text));
     Row.chunk_index := Some index |}.

Definition example_rows : list Row.t :=
  [example_row 2 "c"; example_row 0 "a"; example_row 1 "b"].

End FullContent.

(** ** The document-level searches ([Agent/vector_db.py]) *)

Module DocSearch.
Import PyStr PyList Cand MultiQuery.

(** A result of the document-level searches; [search_by_doc] sets no
    ['score']. *)
Record similar_doc := {
  doc_id : pyval;
  title : pyval;
  timestamp : pyval;
  industries : pyval;
  doc_distance : Q;
  similarity : option Q;
  score : option Q
}.

(** How a call ends: it returns a list, it returns [None] because the
    end of the function body is reached, or it raises. *)
Inductive ending :=
  | ReturnsList (similar_docs : list similar_doc)
  | ReturnsNone
  | Raises.

(** The markers of the first article: ['第一条', '一、', '（一）', '1.',
    '总则', '第一章'] *)
Definition markers : list str :=
  [ [31532; 19968; 26465]; [19968; 12289]; [65288; 19968; 65289]; [49; 46];
    [24635; 21017]; [31532; 19968; 31456] ]%N.

(** [for marker in markers: pos = content.find(marker); if pos > 0 and
    pos < 500: start_pos = pos; break] *)
Fixpoint marker_loop (content : str) (markers : list str) (start_pos : Z) : Z :=
  match markers with
  | [] => start_pos
  | marker :: rest =>
      let pos := find content marker in
      if (0 <? pos) && (pos <? 500) then pos else marker_loop content rest start_pos
  end.

(** The query text of a segment: three times the title, a blank line,
    and [content[start_pos:start_pos+1000]]. *)
Definition segment_query_text (segment : PolicySegment.t) : str :=
  let title := PolicySegment.title segment in
  let title_part := title ++ [10%N] ++ title ++ [10%N] ++ title in
  let content := PolicySegment.content segment in
  let start_pos := marker_loop content markers 200 in
  let content_part := slice_to (slice_from content start_pos) 1000 in
  title_part ++ [10%N; 10%N] ++ content_part.

(** [where_filter]: the values under ['timestamp_after'] and
    ['timestamp_before'], where present. *)
Definition filter_expr (where_filter : option str * option str) : option str :=
  let quoted s := [34%N] ++ s ++ [34%N] in
  let after :=
    match fst where_filter with
    | Some ts => [lit "timestamp >= " ++ quoted ts]
    | None => []
    end in
  let before :=
    match snd where_filter with
    | Some ts => [lit "timestamp <= " ++ quoted ts]
    | None => []
    end in
  match after ++ before with
  | [] => None
  | filter_parts => Some (join (lit " && ") filter_parts)
  end.

Section DocSearch.

(** The embeddings, whatever they are. *)
Variable embedding : Type.

(** [self.model.encode([query_text], ...)[0]]; [None] when it raises. *)
Variable encode_query : str -> option embedding.

(** [self.collection.query(expr=f'doc_id == "{doc_id}"',
    output_fields=["embedding"])]: the embeddings of the rows; [None]
    when it raises. *)
Variable collection_query : str -> option (list embedding).

(** [self.collection.search(data=[query_embedding], limit=limit,
    expr=expr, ...)]; [None] when it raises. *)
Variable collection_search : embedding -> Z -> option str -> option (list (list hit)).

(** The dictionary that [search_similar] builds for a hit. *)
Definition similar_of (h : hit) : similar_doc :=
  {| doc_id := entity_doc_id h;
     title := entity_title h;
     timestamp := entity_timestamp h;
     industries := entity_industries h;
     doc_distance := distance h;
     similarity := Some (similarity_of h);
     score := Some (similarity_of h) |}.

(** The loop of [search_similar] over [results[0]]: the [return]
    statement stands in the body of the loop, behind the [append]. *)
Definition similar_loop (hits : list hit) (similar_docs : list similar_doc) : ending :=
  match hits with
  | [] => ReturnsNone
  | h :: _ => ReturnsList (similar_docs ++ [similar_of h])
  end.

(** [search_similar]; [query_text] is [None] or a string. *)
Definition search_similar (query_text : option str) (query_segment : option PolicySegment.t)
    (top_k : Z) (where_filter : option str * option str) : ending :=
  let query_text :=
    match query_segment with
    | Some segment => segment_query_text segment
    | None => default [] query_text
    end in
  if negb (nonempty query_text) then ReturnsList []
  else
    match encode_query query_text with
    | None => Raises
    | Some query_embedding =>
        match collection_search query_embedding top_k (filter_expr where_filter) with
        | None => Raises
        | Some [] => Raises
        | Some (hits :: _) => similar_loop hits []
        end
    end.

(** The dictionary that [search_by_doc] builds for a hit, with
    [1 / (1 + hit.distance)] as similarity. *)
Definition by_doc_of (h : hit) : similar_doc :=
  {| doc_id := entity_doc_id h;
     title := entity_title h;
     timestamp := entity_timestamp h;
     industries := entity_industries h;
     doc_distance := distance h;
     similarity := Some (1 / (1 + distance h))%Q;
     score := None |}.

(** The loop of [search_by_doc]: a hit on the document itself is
    skipped; for the first other hit the dictionary is appended and
    [similar_docs[:top_k]] returned, the division raising for the
    distance -1. *)
Fixpoint by_doc_loop (doc_id_ : str) (top_k : Z) (exclude_self : bool) (hits : list hit)
    (similar_docs : list similar_doc) : ending :=
  match hits with
  | [] => ReturnsNone
  | h :: rest =>
      if exclude_self && bool_decide (entity_doc_id h = PyStr doc_id_)
      then by_doc_loop doc_id_ top_k exclude_self rest similar_docs
      else if Qeq_bool (1 + distance h) 0 then Raises
      else ReturnsList (PyList.slice_to (similar_docs ++ [by_doc_of h]) top_k)
  end.

(** [search_by_doc] *)
Definition search_by_doc (doc_id_ : str) (top_k : Z) (exclude_self : bool) : ending :=
  match collection_query (lit "doc_id == " ++ [34%N] ++ doc_id_ ++ [34%N]) with
  | None => Raises
  | Some [] => ReturnsList []
  | Some (query_embedding :: _) =>
      match
        collection_search query_embedding (top_k + (if exclude_self then 1 else 0)) None
      with
      | None => Raises
      | Some [] => Raises
      | Some (hits :: _) => by_doc_loop doc_id_ top_k exclude_self hits []
      end
  end.

End DocSearch.

(** A collection for the examples: three hits whatever the question, the
    two nearest on the document [d1]. *)
Definition example_encoder (query_text : str) : option unit := Some tt.

Definition example_collection (query_embedding : unit) (limit : Z) (expr : option str)
  : option (list (list hit)) :=
  Some [ [ example_hit "c2" "d1" 0.5; example_hit "c1" "d1" 1; example_hit "c3" "d2" 1.2 ] ].

End DocSearch.

(** * Properties *)

(** ** The chunker *)

Module ChunkingSpec.
Import PyStr Chunking.

Lemma length_lstrip (s : str) : (length (lstrip s) <= length s)%nat.
Proof. induction s as [|c s IH]; simpl; [lia|]. destruct (isspace c); simpl; lia. Qed.

Lemma length_rstrip (s : str) : (length (rstrip s) <= length s)%nat.
Proof.
  unfold rstrip. rewrite length_rev.
  pose proof (length_lstrip (rev s)) as H. rewrite length_rev in H. exact H.
Qed.

Lemma length_strip (s : str) : (length (strip s) <= length s)%nat.
Proof.
  unfold strip. pose proof (length_rstrip (lstrip s)). pose proof (length_lstrip s). lia.
Qed.

Lemma len_strip (s : str) : len (strip s) <= len s.
Proof. unfold len. pose proof (length_strip s). lia. Qed.

Lemma startswith_length (s sub : str) :
  startswith s sub = true -> (length sub <= length s)%nat.
Proof.
  revert s. induction sub as [|c sub IH]; intros [|d s]; simpl; try lia; try discriminate.
  intros H. apply andb_prop in H as [_ H]. apply IH in H. lia.
Qed.

(** A found position leaves room for the whole needle. *)
Lemma rfind_from_bound (s sub : str) (i : Z) :
  let r := rfind_from i s sub in
  r = -1 \/ (i <= r /\ r + len sub <= i + len s).
Proof.
  revert i. induction s as [|c s IH]; intros i; cbn [rfind_from].
  - destruct sub; simpl; [right; unfold len; simpl; lia | left; reflexivity].
  - specialize (IH (i + 1)). cbn zeta in IH.
    destruct (0 <=? rfind_from (i + 1) s sub) eqn:E.
    + right. destruct IH as [IH|IH]; [lia|]. unfold len in *. simpl length. lia.
    + destruct (startswith (c :: s) sub) eqn:F; [|left; reflexivity].
      right. apply startswith_length in F. unfold len. lia.
Qed.

Lemma rfind_bound (s sub : str) :
  rfind s sub = -1 \/ (0 <= rfind s sub /\ rfind s sub + len sub <= len s).
Proof. apply (rfind_from_bound s sub 0). Qed.

Lemma len_nonneg (s : str) : 0 <= len s.
Proof. unfold len. lia. Qed.

Lemma len_slice_to_le (s : str) (n : Z) : len (slice_to s n) <= len s.
Proof.
  unfold slice_to, len. destruct (n <? 0); rewrite length_firstn; lia.
Qed.

Lemma len_slice_to_pos (s : str) (n : Z) : 0 <= n -> len (slice_to s n) <= n.
Proof.
  intros Hn. unfold slice_to, len. destruct (n <? 0) eqn:E; [lia|].
  rewrite length_firstn. lia.
Qed.

Lemma len_slice_to_lt (s : str) (n : Z) : n < len s -> s <> [] -> len (slice_to s n) < len s.
Proof.
  intros Hn Hs. unfold slice_to, len in *. destruct s; [congruence|].
  destruct (n <? 0) eqn:E; rewrite length_firstn; simpl length in *; lia.
Qed.

Lemma scan_delimiters_bound (truncated : str) (M num den : Z) (ds : list str) (b : Z) :
  -1 <= b <= len truncated ->
  -1 <= scan_delimiters truncated M num den ds b <= len truncated.
Proof.
  unfold scan_delimiters. revert b. induction ds as [|d ds IH]; intros b Hb; simpl; [exact Hb|].
  apply IH. destruct (_ && _) eqn:E; [|exact Hb].
  apply andb_prop in E as [E _]. apply Z.ltb_lt in E.
  destruct (rfind_bound truncated d) as [H|H]; pose proof (len_nonneg d); lia.
Qed.


(** *** White space at the two ends *)

Lemma lstrip_starts_solid (s : str) : starts_solid (lstrip s).
Proof.
  induction s as [|c s IH]; simpl; [exact I|].
  destruct (isspace c) eqn:E; [exact IH | exact E].
Qed.

Lemma lstrip_snoc (w : str) (c : N) :
  isspace c = false -> lstrip (w ++ [c]) = lstrip w ++ [c].
Proof.
  intros Hc. induction w as [|d w IH]; simpl; [now rewrite Hc|].
  destruct (isspace d); [exact IH | reflexivity].
Qed.

Lemma rstrip_cons (c : N) (u : str) :
  isspace c = false -> rstrip (c :: u) = c :: rstrip u.
Proof.
  intros Hc. unfold rstrip. simpl rev. rewrite lstrip_snoc by exact Hc.
  now rewrite rev_app_distr.
Qed.

Lemma strip_cons (c : N) (u : str) :
  isspace c = false -> strip (c :: u) = c :: rstrip u.
Proof. intros Hc. unfold strip. simpl. rewrite Hc. now apply rstrip_cons. Qed.

Lemma strip_solid (p : str) :
  strip p <> [] -> starts_solid (strip p) /\ ends_solid (strip p).
Proof.
  intros Hne. split.
  - unfold strip in *. pose proof (lstrip_starts_solid p) as Hs.
    destruct (lstrip p) as [|d u]; [now elim Hne|].
    simpl in Hs. rewrite rstrip_cons by exact Hs. exact Hs.
  - unfold strip, rstrip in *.
    pose proof (lstrip_starts_solid (rev (lstrip p))) as Hs.
    destruct (lstrip (rev (lstrip p))) as [|c t]; [now elim Hne|].
    simpl in Hs. exists (rev t), c. split; [reflexivity | exact Hs].
Qed.

Lemma lstrip_solid (s : str) : starts_solid s -> lstrip s = s.
Proof. destruct s as [|c s]; simpl; [reflexivity|]. now intros ->. Qed.

Lemma rstrip_solid (s : str) : ends_solid s -> rstrip s = s.
Proof.
  intros (w & c & -> & Hc). unfold rstrip. rewrite rev_app_distr. simpl.
  rewrite Hc. simpl. now rewrite rev_involutive.
Qed.

(** Stripping twice is stripping once. *)
Lemma strip_idem (s : str) : strip (strip s) = strip s.
Proof.
  destruct (strip s) as [|c t] eqn:E; [reflexivity|]. rewrite <- E.
  destruct (strip_solid s) as [Hs He]; [now rewrite E|].
  unfold strip at 1. rewrite lstrip_solid by exact Hs. now apply rstrip_solid.
Qed.

Lemma ends_solid_suffix (s : str) (k : nat) :
  ends_solid s -> (k < length s)%nat -> ends_solid (lstrip (skipn k s)).
Proof.
  intros (w & c & -> & Hc) Hk. rewrite length_app in Hk. simpl in Hk.
  rewrite skipn_app. replace (k - length w)%nat with O by lia. simpl skipn.
  rewrite lstrip_snoc by exact Hc. now exists (lstrip (skipn k w)), c.
Qed.

Lemma ends_solid_nonempty (s : str) : ends_solid s -> s <> [].
Proof. intros (w & c & -> & _). now destruct w. Qed.

(** *** [_smart_truncate] *)

Lemma smart_truncate_le (text : str) (M : Z) :
  0 <= M -> len (_smart_truncate text M) <= M.
Proof.
  intros HM. unfold _smart_truncate.
  destruct (len text <=? M) eqn:E; [apply Z.leb_le in E; exact E|].
  apply Z.leb_gt in E.
  set (truncated := slice_to text M).
  assert (Ht : len truncated <= M) by (apply len_slice_to_pos; exact HM).
  pose proof (len_nonneg truncated) as Ht0.
  set (b1 := scan_delimiters truncated M 1 2 paragraph_delimiters (-1)).
  assert (Hb1 : -1 <= b1 <= len truncated)
    by (apply scan_delimiters_bound; lia).
  set (b2 := if b1 <? 0 then _ else b1).
  assert (Hb2 : -1 <= b2 <= len truncated).
  { subst b2. destruct (b1 <? 0); [|exact Hb1]. apply scan_delimiters_bound. exact Hb1. }
  destruct (0 <? b2) eqn:F.
  - apply Z.ltb_lt in F. pose proof (len_strip (slice_to text b2)).
    pose proof (len_slice_to_pos text b2). lia.
  - destruct (4 * M <? 5 * rfind truncated [32%N]) eqn:G.
    + apply Z.ltb_lt in G. set (sp := rfind truncated [32%N]) in *.
      pose proof (len_strip (slice_to text sp)).
      pose proof (len_slice_to_pos text sp).
      pose proof (len_nonneg [32%N]).
      destruct (rfind_bound truncated [32%N]) as [Hr|Hr]; fold sp in Hr; lia.
    + pose proof (len_strip truncated). lia.
Qed.

Lemma smart_truncate_lt (text : str) (M : Z) :
  M < len text -> text <> [] -> len (_smart_truncate text M) < len text.
Proof.
  intros HM Hne. unfold _smart_truncate.
  destruct (len text <=? M) eqn:E; [apply Z.leb_le in E; lia|]. clear E.
  set (truncated := slice_to text M).
  assert (Ht : len truncated < len text) by (apply len_slice_to_lt; assumption).
  pose proof (len_nonneg truncated) as Ht0.
  set (b1 := scan_delimiters truncated M 1 2 paragraph_delimiters (-1)).
  assert (Hb1 : -1 <= b1 <= len truncated)
    by (apply scan_delimiters_bound; lia).
  set (b2 := if b1 <? 0 then _ else b1).
  assert (Hb2 : -1 <= b2 <= len truncated).
  { subst b2. destruct (b1 <? 0); [|exact Hb1]. apply scan_delimiters_bound. exact Hb1. }
  destruct (0 <? b2) eqn:F.
  - apply Z.ltb_lt in F. pose proof (len_strip (slice_to text b2)).
    pose proof (len_slice_to_pos text b2). lia.
  - destruct (4 * M <? 5 * rfind truncated [32%N]) eqn:G.
    + set (sp := rfind truncated [32%N]) in *.
      pose proof (len_strip (slice_to text sp)).
      assert (sp < len text).
      { pose proof (len_nonneg [32%N]).
        destruct (rfind_bound truncated [32%N]) as [Hr|Hr]; fold sp in Hr; lia. }
      pose proof (len_slice_to_lt text sp ltac:(lia) Hne). lia.
    + pose proof (len_strip truncated). lia.
Qed.

Lemma strip_slice_nonempty (text : str) (n : Z) :
  0 < n -> text <> [] -> starts_solid text -> strip (slice_to text n) <> [].
Proof.
  intros Hn Hne Hs. destruct text as [|c t]; [congruence|]. simpl in Hs.
  unfold slice_to. destruct (n <? 0) eqn:E; [lia|].
  destruct (Z.to_nat n) as [|k] eqn:K; [lia|]. simpl firstn.
  rewrite strip_cons by exact Hs. discriminate.
Qed.

Lemma smart_truncate_nonempty (text : str) (M : Z) :
  0 < M -> M < len text -> starts_solid text -> _smart_truncate text M <> [].
Proof.
  intros HM Hlen Hs.
  assert (Hne : text <> []) by (intros ->; unfold len in Hlen; simpl in Hlen; lia).
  unfold _smart_truncate.
  destruct (len text <=? M) eqn:E; [apply Z.leb_le in E; lia|]. clear E.
  set (truncated := slice_to text M).
  set (b2 := if _ <? 0 then _ else _).
  destruct (0 <? b2) eqn:F.
  - apply Z.ltb_lt in F. now apply strip_slice_nonempty.
  - destruct (4 * M <? 5 * rfind truncated [32%N]) eqn:G.
    + apply Z.ltb_lt in G. apply strip_slice_nonempty; [lia | assumption..].
    + now apply strip_slice_nonempty.
Qed.


(** *** The loops of [chunk_document] *)

Section Loops.

Variable isdecimal : N -> bool.
Variable self : PolicyDocumentChunker.
Variables (doc_id_ title_ timestamp_ industries_ : str).
Variables (investment_relevance_ report_series_ industry_policy_segments_ : str).

Local Abbreviation split_long :=
  (split_long self doc_id_ title_ timestamp_ industries_
     investment_relevance_ report_series_ industry_policy_segments_).
Local Abbreviation paragraph_step :=
  (paragraph_step isdecimal self doc_id_ title_ timestamp_ industries_
     investment_relevance_ report_series_ industry_policy_segments_).
Local Abbreviation paragraph_loop :=
  (paragraph_loop isdecimal self doc_id_ title_ timestamp_ industries_
     investment_relevance_ report_series_ industry_policy_segments_).
Local Abbreviation chunk_paragraphs :=
  (chunk_paragraphs isdecimal self doc_id_ title_ timestamp_ industries_
     investment_relevance_ report_series_ industry_policy_segments_).

(** With a negative [absolute_max] the inner loop never empties
    [remaining]: no amount of fuel is enough. *)
Lemma split_long_diverges (fuel : nat) (remaining : str) (st : loop_state) :
  absolute_max self < 0 -> ends_solid remaining ->
  split_long fuel remaining st = None.
Proof.
  intros HM. revert remaining st.
  induction fuel as [|fuel IH]; intros remaining st Hs; [reflexivity|].
  pose proof (ends_solid_nonempty _ Hs) as Hne.
  pose proof (len_nonneg remaining) as H0.
  cbn [Chunking.split_long].
  assert (Hpos : 0 < len remaining).
  { destruct remaining; [congruence|]. unfold len. simpl. lia. }
  apply Z.ltb_lt in Hpos as ->.
  destruct (len remaining <=? absolute_max self) eqn:E; [apply Z.leb_le in E; lia|].
  apply IH. unfold slice_from.
  pose proof (smart_truncate_lt remaining (absolute_max self) ltac:(lia) Hne) as Hlt.
  pose proof (len_nonneg (_smart_truncate remaining (absolute_max self))) as Hp.
  destruct (_ <? 0) eqn:F; [apply Z.ltb_lt in F; lia|].
  apply ends_solid_suffix; [exact Hs|]. unfold len in *. lia.
Qed.

(** With a positive [absolute_max] every iteration on a paragraph that
    starts with a visible character shortens [remaining]. *)
Lemma split_long_total (fuel : nat) (remaining : str) (st : loop_state) :
  0 < absolute_max self -> starts_solid remaining ->
  (length remaining < fuel)%nat ->
  is_Some (split_long fuel remaining st).
Proof.
  intros HM. revert remaining st.
  induction fuel as [|fuel IH]; intros remaining st Hs Hf; [lia|].
  cbn [Chunking.split_long].
  destruct (0 <? len remaining) eqn:Hpos; [|eauto].
  apply Z.ltb_lt in Hpos.
  destruct (len remaining <=? absolute_max self) eqn:E.
  - apply IH; [exact I|]. unfold len in Hpos. simpl. lia.
  - apply Z.leb_gt in E.
    pose proof (smart_truncate_nonempty remaining _ HM E Hs) as Hne.
    apply IH; [apply lstrip_starts_solid|].
    pose proof (length_lstrip
      (slice_from remaining (len (_smart_truncate remaining (absolute_max self))))) as Hl.
    unfold slice_from in *.
    pose proof (len_nonneg (_smart_truncate remaining (absolute_max self))) as Hp.
    destruct (_ <? 0) eqn:F; [apply Z.ltb_lt in F; lia|].
    rewrite length_skipn in Hl.
    destruct (_smart_truncate remaining (absolute_max self)) as [|c t]; [congruence|].
    unfold len in *. simpl length in *. lia.
Qed.

Lemma paragraph_loop_total (fuel : nat) (paragraphs : list str) (st : loop_state) :
  0 < absolute_max self ->
  Forall (fun p => starts_solid p /\ (length p < fuel)%nat) paragraphs ->
  is_Some (paragraph_loop fuel st paragraphs).
Proof.
  intros HM Hall. revert st.
  induction Hall as [|p ps [Hs Hf] _ IH]; intros st; simpl; [eauto|].
  assert (Hstep : is_Some (paragraph_step fuel st p)).
  { unfold Chunking.paragraph_step.
    destruct (absolute_max self <? len p); [|eauto].
    now apply split_long_total. }
  destruct Hstep as [st' ->]. apply IH.
Qed.

Lemma paragraph_loop_diverges (fuel : nat) (p : str) (ps : list str) :
  absolute_max self < 0 -> ends_solid p ->
  paragraph_loop fuel
    initial_state (p :: ps) = None.
Proof.
  intros HM Hs. simpl. unfold Chunking.paragraph_step.
  pose proof (len_nonneg p).
  destruct (absolute_max self <? len p) eqn:E; [|apply Z.ltb_ge in E; lia].
  simpl. now rewrite split_long_diverges.
Qed.

Lemma final_check_le (c : DocumentChunk) :
  0 <= absolute_max self -> len (content (final_check self c)) <= absolute_max self.
Proof.
  intros HM. unfold final_check.
  destruct (absolute_max self <? len (content c)) eqn:E; simpl.
  - now apply smart_truncate_le.
  - now apply Z.ltb_ge in E.
Qed.

(** On a configuration with [absolute_max >= 0] every chunk is within
    the bound when it is emitted: the last pass finds no chunk to cut. *)
Lemma append_chunk_bounded (st : loop_state) (kind : chunk_type) (text : str) :
  bounded self st -> len text <= absolute_max self ->
  bounded self (append_chunk doc_id_ title_ timestamp_ industries_
                  investment_relevance_ report_series_ industry_policy_segments_
                  st kind text).
Proof.
  intros Hb Hl. unfold bounded in *. simpl. apply Forall_app. split; [exact Hb|].
  constructor; [exact Hl | constructor].
Qed.

Lemma split_long_bounded (fuel : nat) (remaining : str) (st st' : loop_state) :
  0 <= absolute_max self -> bounded self st ->
  split_long fuel remaining st = Some st' -> bounded self st'.
Proof.
  intros HM. revert remaining st.
  induction fuel as [|fuel IH]; intros remaining st Hb; [discriminate|].
  cbn [Chunking.split_long]. destruct (0 <? len remaining); [|now intros [= <-]].
  destruct (len remaining <=? absolute_max self) eqn:E.
  - apply Z.leb_le in E. apply IH.
    destruct (nonempty remaining); [now apply append_chunk_bounded | exact Hb].
  - apply IH. destruct (nonempty _); [|exact Hb].
    apply append_chunk_bounded; [exact Hb | now apply smart_truncate_le].
Qed.

Lemma paragraph_step_bounded (fuel : nat) (para : str) (st st' : loop_state) :
  0 <= absolute_max self -> bounded self st ->
  paragraph_step fuel st para = Some st' -> bounded self st'.
Proof.
  intros HM Hb. unfold Chunking.paragraph_step.
  assert (Hflush : forall s kind, bounded self s ->
            bounded self (append_chunk doc_id_ title_ timestamp_ industries_
                            investment_relevance_ report_series_ industry_policy_segments_
                            s kind (buffer_content self s))).
  { intros s kind Hs. apply append_chunk_bounded; [exact Hs|].
    unfold buffer_content. now apply smart_truncate_le. }
  destruct (absolute_max self <? len para).
  - apply split_long_bounded; [exact HM|].
    destruct (bool_decide (current_chunk_parts st = [])); [exact Hb|].
    exact (Hflush st Paragraph Hb).
  - intros [= <-].
    set (s1 := if (_ && negb (bool_decide (current_chunk_parts st = [])))%bool
               then restart_buffer self _ _ para else set_buffer st _ _).
    assert (Hs : bounded self s1).
    { subst s1. destruct (_ && negb (bool_decide (current_chunk_parts st = []))).
      - unfold restart_buffer.
        destruct (_ && _); [destruct (nonempty _)|]; exact (Hflush _ _ Hb).
      - exact Hb. }
    clearbody s1.
    destruct (chunk_size_max self <? current_chunk_size s1);
      [exact (Hflush _ Paragraph Hs) | exact Hs].
Qed.

Lemma paragraph_loop_bounded (fuel : nat) (paragraphs : list str) (st st' : loop_state) :
  0 <= absolute_max self -> bounded self st ->
  paragraph_loop fuel st paragraphs = Some st' -> bounded self st'.
Proof.
  intros HM. revert st. induction paragraphs as [|p ps IH]; intros st Hb; simpl.
  - now intros [= <-].
  - destruct (paragraph_step fuel st p) as [st1|] eqn:E; [|discriminate].
    apply IH. now apply (paragraph_step_bounded fuel p st).
Qed.

Lemma final_check_defensive (fuel : nat) (paragraphs : list str) (st : loop_state) :
  0 <= absolute_max self ->
  paragraph_loop fuel initial_state paragraphs = Some st ->
  chunk_paragraphs fuel paragraphs
  = Some (chunks (last_flush self doc_id_ title_ timestamp_ industries_
                    investment_relevance_ report_series_ industry_policy_segments_ st)).
Proof.
  intros HM Hrun. unfold Chunking.chunk_paragraphs. rewrite Hrun. f_equal.
  assert (Hb : bounded self st).
  { apply (paragraph_loop_bounded fuel paragraphs initial_state st HM);
      [constructor | exact Hrun]. }
  assert (Hf : bounded self
                 (last_flush self doc_id_ title_ timestamp_ industries_
                    investment_relevance_ report_series_ industry_policy_segments_ st)).
  { unfold last_flush. destruct (bool_decide _); [exact Hb|].
    apply append_chunk_bounded; [exact Hb|]. unfold buffer_content.
    now apply smart_truncate_le. }
  unfold bounded in Hf. induction Hf as [|c l Hc _ IH]; simpl; [reflexivity|].
  rewrite IH. f_equal. unfold final_check.
  destruct (absolute_max self <? len (content c)) eqn:E; [|reflexivity].
  apply Z.ltb_lt in E. lia.
Qed.

End Loops.

Lemma split_paragraphs_solid (text : str) :
  Forall (fun p => starts_solid p /\ ends_solid p) (_split_into_paragraphs text).
Proof.
  unfold _split_into_paragraphs.
  cbv zeta.
  match goal with |- Forall _ (map strip (List.filter _ ?l)) => generalize l end.
  intros ps.
  apply List.Forall_forall. intros p Hp.
  apply in_map_iff in Hp as (q & <- & Hq).
  apply filter_In in Hq as [_ Hq]. apply andb_prop in Hq as [Hq _].
  apply strip_solid. intros E. now rewrite E in Hq.
Qed.


(** C1. Every chunk returned by [chunk_document] has a content of at most
    [absolute_max] characters, whatever the configuration and the
    document; and for a positive [absolute_max] the call does return. *)
Theorem chunk_length_invariant (isdecimal : N -> bool) (self : PolicyDocumentChunker)
    (doc_id title text timestamp industries : str)
    (investment_relevance report_series industry_policy_segments : str) :
  (forall fuel cs,
      chunk_document isdecimal self fuel doc_id title text timestamp industries
        investment_relevance report_series industry_policy_segments = Some cs ->
      Forall (fun c => len (content c) <= absolute_max self) cs)
  /\ (0 < absolute_max self ->
      exists fuel cs,
        chunk_document isdecimal self fuel doc_id title text timestamp industries
          investment_relevance report_series industry_policy_segments = Some cs).
Proof.
  unfold chunk_document, chunk_paragraphs.
  pose proof (split_paragraphs_solid text) as Hsolid.
  split.
  - intros fuel cs Hrun.
    destruct (Z.neg_nonneg_cases (absolute_max self)) as [Hneg|Hpos].
    + destruct (_split_into_paragraphs text) as [|p ps].
      * simpl in Hrun. injection Hrun as <-. constructor.
      * apply Forall_inv in Hsolid as [_ Hp].
        rewrite paragraph_loop_diverges in Hrun by assumption. discriminate.
    + destruct (paragraph_loop _ _ _ _ _ _ _ _ _ _ _ _) as [st|]; [|discriminate].
      injection Hrun as <-. apply List.Forall_forall. intros c Hc.
      apply in_map_iff in Hc as (c0 & <- & _). now apply final_check_le.
  - intros HM.
    set (ps := _split_into_paragraphs text) in *.
    exists (S (list_max (map (@length N) ps))).
    assert (Hall : Forall (fun p => starts_solid p
                          /\ (length p < S (list_max (map (@length N) ps)))%nat) ps).
    { apply List.Forall_forall. intros p Hp. split.
      - rewrite List.Forall_forall in Hsolid. now apply Hsolid.
      - pose proof (proj1 (list_max_le (map (@length N) ps) _) (le_n _)) as Hmax.
        rewrite List.Forall_forall in Hmax.
        specialize (Hmax (length p) (in_map _ _ _ Hp)). lia. }
    destruct (paragraph_loop_total isdecimal self doc_id (slice_to title 500)
                (slice_to timestamp 150) (slice_to industries 500)
                investment_relevance report_series industry_policy_segments
                _ ps initial_state HM Hall)
      as [st ->].
    eauto.
Qed.

Lemma chunk_length_invariant_witness :
  exists cs,
    chunk_document ascii_digit small_chunker 100 (lit "doc") (lit "t") small_text
      [] [] [] [] [] = Some cs
    /\ length cs = 5%nat
    /\ Forall (fun c => len (content c) <= 40) cs.
Proof.
  eexists. split; [vm_compute; reflexivity|]. split; [reflexivity|].
  apply (proj1 (chunk_length_invariant ascii_digit small_chunker (lit "doc") (lit "t")
                  small_text [] [] [] [] []) 100%nat).
  vm_compute. reflexivity.
Defined.

(** The example of the spec: four paragraphs of 300 characters give two
    chunks, the second one starting with 150 characters of overlap. *)
Example four_paragraphs_two_chunks :
  option_map (map (fun c => (chunk_index c, len (content c))))
    (chunk_document ascii_digit example_chunker 1 (lit "d") [] four_paragraphs
       [] [] [] [] [])
  = Some [(0, 602); (1, 754)].
Proof. vm_compute. reflexivity. Qed.

(** C8, as the code has it. The constructor stores its four parameters
    and raises for no combination of them, usable or not. *)
Theorem init_accepts_every_configuration (t m o a : Z) :
  __init__ t m o a
  = inl {| chunk_size_target := t; chunk_size_max := m;
           overlap := o; absolute_max := a |}.
Proof. reflexivity. Qed.

(** C8, as the spec has it, fails: an overlap of 900 with a target size
    of 800 is accepted. *)
Lemma init_rejects_unusable_counterexample :
  ~ (forall t m o a, ~ usable t m o a -> exists e, __init__ t m o a = inr e).
Proof.
  intros H. destruct (H 800 1000 900 1200) as [e He].
  - unfold usable. lia.
  - discriminate He.
Qed.

End ChunkingSpec.

(** ** Lists and dictionaries *)

Module PyListFacts.
Import PyList.

Lemma Qlt_bool_lt (x y : Q) : Qlt_bool x y = true <-> (x < y)%Q.
Proof.
  unfold Qlt_bool. rewrite negb_true_iff, <- not_true_iff_false, Qle_bool_iff.
  split; [apply Qnot_le_lt | apply Qlt_not_le].
Qed.

Lemma Qlt_bool_ge (x y : Q) : Qlt_bool x y = false <-> (y <= x)%Q.
Proof.
  unfold Qlt_bool. rewrite negb_false_iff. apply Qle_bool_iff.
Qed.

Lemma slice_to_nonneg {A : Type} (l : list A) (n : Z) :
  0 <= n -> slice_to l n = firstn (Z.to_nat n) l.
Proof. intros Hn. unfold slice_to. destruct (n <? 0) eqn:E; [lia | reflexivity]. Qed.

Lemma slice_to_sublist {A : Type} (l : list A) (n : Z) : sublist (slice_to l n) l.
Proof. unfold slice_to. destruct (n <? 0); apply sublist_take. Qed.

Lemma slice_to_idem {A : Type} (l : list A) (n : Z) :
  0 <= n -> slice_to (slice_to l n) n = slice_to l n.
Proof.
  intros Hn. rewrite !slice_to_nonneg by exact Hn.
  apply firstn_all2. rewrite length_firstn. lia.
Qed.

Section Sorting.

Context {A : Type} (precedes : A -> A -> bool).

Lemma insert_sorted_perm (x : A) (l : list A) :
  insert_sorted precedes x l ≡ₚ x :: l.
Proof.
  induction l as [|y l IH]; simpl; [reflexivity|].
  destruct (precedes y x); [|reflexivity].
  rewrite IH. apply perm_swap.
Qed.

Lemma stable_sort_perm (l : list A) : stable_sort precedes l ≡ₚ l.
Proof.
  induction l as [|x l IH]; simpl; [reflexivity|].
  rewrite insert_sorted_perm. now rewrite IH.
Qed.

Lemma stable_sort_length (l : list A) : length (stable_sort precedes l) = length l.
Proof. apply Permutation_length, stable_sort_perm. Qed.

(** A list that is in order is left as it is. *)
Lemma stable_sort_sorted (l : list A) :
  Sorted (in_order precedes) l -> stable_sort precedes l = l.
Proof.
  induction 1 as [|x l Hl IH Hhd]; simpl; [reflexivity|].
  rewrite IH. destruct Hhd as [|y l' Hxy]; simpl; [reflexivity|].
  unfold in_order in Hxy. now rewrite Hxy.
Qed.

Hypothesis precedes_asym : forall x y, precedes x y = true -> precedes y x = false.

Lemma insert_sorted_Sorted (x : A) (l : list A) :
  Sorted (in_order precedes) l -> Sorted (in_order precedes) (insert_sorted precedes x l).
Proof.
  induction 1 as [|y l Hl IH Hhd]; simpl; [repeat constructor|].
  destruct (precedes y x) eqn:E.
  - constructor; [exact IH|].
    destruct Hhd as [|z l' Hyz]; simpl.
    + constructor. now apply precedes_asym.
    + destruct (precedes z x); constructor; [exact Hyz | now apply precedes_asym].
  - constructor; [now constructor | now constructor].
Qed.

Lemma stable_sort_Sorted (l : list A) : Sorted (in_order precedes) (stable_sort precedes l).
Proof.
  induction l as [|x l IH]; simpl; [constructor|]. now apply insert_sorted_Sorted.
Qed.

Lemma Sorted_firstn (n : nat) (l : list A) :
  Sorted (in_order precedes) l -> Sorted (in_order precedes) (firstn n l).
Proof.
  intros H. revert n. induction H as [|x l Hl IH Hhd]; intros [|n]; simpl; try constructor.
  - apply IH.
  - destruct Hhd as [|y l' Hxy]; destruct n; simpl; now constructor.
Qed.

End Sorting.

Lemma Sorted_slice_to {A : Type} (precedes : A -> A -> bool) (l : list A) (n : Z) :
  Sorted (in_order precedes) l -> Sorted (in_order precedes) (slice_to l n).
Proof. intros H. unfold slice_to. destruct (n <? 0); now apply Sorted_firstn. Qed.

Lemma sort_desc_asym {A : Type} (key : A -> Q) (x y : A) :
  Qlt_bool (key y) (key x) = true -> Qlt_bool (key x) (key y) = false.
Proof. rewrite Qlt_bool_lt, Qlt_bool_ge. apply Qlt_le_weak. Qed.

Lemma sort_desc_ext {A : Type} (key key' : A -> Q) (l : list A) :
  (forall x, x ∈ l -> key x = key' x) -> sort_desc key l = sort_desc key' l.
Proof.
  unfold sort_desc. induction l as [|x l IH]; intros Hk; simpl; [reflexivity|].
  rewrite IH by (intros y Hy; apply Hk; now right).
  assert (Hperm := stable_sort_perm (fun y x0 => Qlt_bool (key' x0) (key' y)) l).
  assert (Hall : forall y, y ∈ stable_sort (fun y x0 => Qlt_bool (key' x0) (key' y)) l ->
                           key y = key' y).
  { intros y Hy. apply Hk. right. now rewrite <- Hperm. }
  revert Hall. generalize (stable_sort (fun y x0 => Qlt_bool (key' x0) (key' y)) l).
  intros s Hs. induction s as [|y s IHs]; simpl; [reflexivity|].
  rewrite (Hk x) by now left. rewrite (Hs y) by now left.
  destruct (Qlt_bool (key' x) (key' y)); [|reflexivity].
  f_equal. apply IHs. intros z Hz. apply Hs. now right.
Qed.

Section DictFacts.

Context {K V : Type} `{EqDecision K}.

Lemma dict_get_Some_in (d : list (K * V)) (k : K) (v : V) :
  dict_get d k = Some v -> (k, v) ∈ d.
Proof.
  induction d as [|[k' v'] d IH]; simpl; [discriminate|].
  destruct (decide (k' = k)) as [->|Hne].
  - intros [= ->]. now left.
  - intros H. right. now apply IH.
Qed.

Lemma dict_get_None (d : list (K * V)) (k : K) :
  dict_get d k = None <-> k ∉ map fst d.
Proof.
  induction d as [|[k' v'] d IH]; simpl.
  - split; [intros _; apply not_elem_of_nil | reflexivity].
  - rewrite not_elem_of_cons. destruct (decide (k' = k)) as [->|Hne].
    + split; [discriminate | intros [H _]; now elim H].
    + rewrite IH. split; [intros H; split; [congruence | exact H] | intros [_ H]; exact H].
Qed.

(** Setting a new key appends it. *)
Lemma dict_set_new (d : list (K * V)) (k : K) (v : V) :
  dict_get d k = None -> dict_set d k v = d ++ [(k, v)].
Proof.
  induction d as [|[k' v'] d IH]; simpl; [reflexivity|].
  destruct (decide (k' = k)); [discriminate|]. intros H. now rewrite IH.
Qed.

Lemma dict_set_keys_known (d : list (K * V)) (k : K) (v : V) :
  k ∈ map fst d -> map fst (dict_set d k v) = map fst d.
Proof.
  induction d as [|[k' v'] d IH]; simpl; [intros H; now apply elem_of_nil in H|].
  destruct (decide (k' = k)) as [->|Hne]; [reflexivity|].
  intros H. apply elem_of_cons in H as [H|H]; [congruence|]. simpl. now rewrite IH.
Qed.

Lemma dict_get_set (d : list (K * V)) (k k' : K) (v : V) :
  dict_get (dict_set d k v) k' = if decide (k = k') then Some v else dict_get d k'.
Proof.
  induction d as [|[k0 v0] d IH]; simpl.
  - destruct (decide (k = k')); reflexivity.
  - destruct (decide (k0 = k)) as [->|Hne]; simpl.
    + destruct (decide (k = k')); reflexivity.
    + destruct (decide (k0 = k')) as [->|Hne'].
      * destruct (decide (k = k')); [congruence | reflexivity].
      * exact IH.
Qed.

Lemma dict_set_length (d : list (K * V)) (k : K) (v : V) :
  length (dict_set d k v)
  = match dict_get d k with Some _ => length d | None => S (length d) end.
Proof.
  induction d as [|[k0 v0] d IH]; simpl; [reflexivity|].
  destruct (decide (k0 = k)); simpl; [reflexivity|].
  rewrite IH. now destruct (dict_get d k).
Qed.

Lemma dict_set_NoDup (d : list (K * V)) (k : K) (v : V) :
  NoDup (map fst d) -> NoDup (map fst (dict_set d k v)).
Proof.
  intros Hnd. destruct (dict_get d k) eqn:E.
  - rewrite dict_set_keys_known; [exact Hnd|].
    apply dict_get_Some_in in E. apply list_elem_of_fmap. now exists (k, v0).
  - rewrite dict_set_new by exact E. rewrite map_app. simpl.
    apply NoDup_app. split; [exact Hnd|]. split; [|apply NoDup_singleton].
    intros x Hx Hx'. apply list_elem_of_singleton in Hx' as ->.
    now apply dict_get_None in E.
Qed.

(** What [dict_set] does to the entries. *)
Lemma elem_of_dict_set (d : list (K * V)) (k : K) (v : V) (kv : K * V) :
  kv ∈ dict_set d k v -> kv = (k, v) \/ kv ∈ d.
Proof.
  induction d as [|[k0 v0] d IH]; simpl.
  - intros H. apply list_elem_of_singleton in H. now left.
  - destruct (decide (k0 = k)) as [->|Hne]; intros H; apply elem_of_cons in H as [H|H].
    + now left.
    + right. now right.
    + right. subst kv. now left.
    + destruct (IH H) as [Hkv|Hkv]; [now left | right; now right].
Qed.

Lemma dict_get_Some_key (d : list (K * V)) (k : K) (v : V) :
  dict_get d k = Some v -> k ∈ map fst d.
Proof.
  intros H. apply dict_get_Some_in in H. apply list_elem_of_fmap. now exists (k, v).
Qed.

Lemma dict_get_is_Some (d : list (K * V)) (k : K) :
  is_Some (dict_get d k) <-> k ∈ map fst d.
Proof.
  split.
  - intros [v Hv]. now apply dict_get_Some_key in Hv.
  - intros Hin. destruct (dict_get d k) eqn:E; [eauto|].
    now apply dict_get_None in E.
Qed.

Lemma dict_set_keys_new (d : list (K * V)) (k : K) (v : V) :
  k ∉ map fst d -> map fst (dict_set d k v) = map fst d ++ [k].
Proof.
  intros H. apply dict_get_None in H. rewrite dict_set_new by exact H.
  now rewrite map_app.
Qed.

(** The keys after [d[k] = v], as a set. *)
Lemma elem_of_dict_set_keys (d : list (K * V)) (k k' : K) (v : V) :
  k' ∈ map fst (dict_set d k v) <-> k' = k \/ k' ∈ map fst d.
Proof.
  rewrite <- !dict_get_is_Some, dict_get_set.
  destruct (decide (k = k')) as [->|Hne].
  - split; [now left | eauto].
  - split; [now right | intros [->|H]; [congruence | exact H]].
Qed.

(** The values of a dictionary whose entry for [k] is replaced. *)
Lemma dict_set_values_known (d : list (K * V)) (k : K) (old new : V) :
  dict_get d k = Some old ->
  exists l1 l2, dict_values d = l1 ++ old :: l2
                /\ dict_values (dict_set d k new) = l1 ++ new :: l2.
Proof.
  induction d as [|[k0 v0] d IH]; simpl; [discriminate|].
  destruct (decide (k0 = k)) as [->|Hne].
  - intros [= ->]. now exists [], (dict_values d).
  - intros H. destruct (IH H) as (l1 & l2 & H1 & H2).
    exists (v0 :: l1), l2. simpl. unfold dict_values in *. simpl. now rewrite H1, H2.
Qed.

Lemma dict_set_values_new (d : list (K * V)) (k : K) (v : V) :
  dict_get d k = None -> dict_values (dict_set d k v) = dict_values d ++ [v].
Proof.
  intros H. rewrite dict_set_new by exact H. unfold dict_values. now rewrite map_app.
Qed.

Lemma dict_update_length (a b : list (K * V)) :
  (length (dict_update a b) <= length a + length b)%nat.
Proof.
  unfold dict_update. revert a. induction b as [|[k v] b IH]; intros a; simpl; [lia|].
  specialize (IH (dict_set a k v)). rewrite dict_set_length in IH.
  destruct (dict_get a k); lia.
Qed.

Lemma dict_of_list_length (key : V -> K) (l : list V) :
  (length (dict_of_list key l) <= length l)%nat.
Proof.
  unfold dict_of_list. change (length l) with (length (@nil (K * V)) + length l)%nat.
  generalize (@nil (K * V)). induction l as [|c l IH]; intros d; simpl; [lia|].
  specialize (IH (dict_set d (key c) c)). rewrite dict_set_length in IH.
  destruct (dict_get d (key c)); lia.
Qed.

(** Disjoint keys: the update appends. *)
Lemma dict_update_fresh (a b : list (K * V)) :
  NoDup (map fst b) -> (forall k, k ∈ map fst b -> k ∉ map fst a) ->
  dict_update a b = a ++ b.
Proof.
  unfold dict_update. revert a. induction b as [|[k v] b IH]; intros a Hnd Hdis; simpl.
  - now rewrite app_nil_r.
  - simpl in Hnd. apply NoDup_cons in Hnd as [Hk Hnd].
    rewrite dict_set_new by (apply dict_get_None, Hdis; now left).
    rewrite IH; [now rewrite <- app_assoc | exact Hnd |].
    intros k' Hk' Hin. rewrite map_app in Hin. apply elem_of_app in Hin as [Hin|Hin].
    + revert Hin. apply Hdis. now right.
    + apply list_elem_of_singleton in Hin. simpl in Hin. now subst k'.
Qed.

Lemma fold_dict_of_list_fresh (key : V -> K) (l : list V) (d : list (K * V)) :
  NoDup (map key l) -> (forall c, c ∈ l -> key c ∉ map fst d) ->
  fold_left (fun d c => dict_set d (key c) c) l d = d ++ map (fun c => (key c, c)) l.
Proof.
  revert d. induction l as [|c l IH]; intros d Hnd Hdis; simpl.
  - now rewrite app_nil_r.
  - apply NoDup_cons in Hnd as [Hc Hnd].
    rewrite dict_set_new by (apply dict_get_None, Hdis; now left).
    rewrite IH; [now rewrite <- app_assoc | exact Hnd |].
    intros c' Hc' Hin. rewrite map_app in Hin. apply elem_of_app in Hin as [Hin|Hin].
    + revert Hin. apply Hdis. now right.
    + apply list_elem_of_singleton in Hin. simpl in Hin. elim Hc. rewrite <- Hin.
      now apply list_elem_of_fmap_2.
Qed.

Lemma dict_of_list_fresh (key : V -> K) (l : list V) :
  NoDup (map key l) -> dict_of_list key l = map (fun c => (key c, c)) l.
Proof.
  intros Hnd. unfold dict_of_list. rewrite fold_dict_of_list_fresh; [reflexivity | exact Hnd |].
  intros c _ H. now apply elem_of_nil in H.
Qed.

(** The keys of [{key(c): c for c in l}] and of [{**a, **b}], as sets. *)
Lemma fold_dict_of_list_keys (key : V -> K) (l : list V) (d : list (K * V)) (k : K) :
  k ∈ map fst (fold_left (fun d c => dict_set d (key c) c) l d)
  <-> k ∈ map fst d \/ k ∈ map key l.
Proof.
  revert d. induction l as [|c l IH]; intros d; simpl.
  - split; [now left | intros [H|H]; [exact H | now apply elem_of_nil in H]].
  - rewrite IH, elem_of_dict_set_keys, elem_of_cons. tauto.
Qed.

Lemma dict_of_list_keys (key : V -> K) (l : list V) (k : K) :
  k ∈ map fst (dict_of_list key l) <-> k ∈ map key l.
Proof.
  unfold dict_of_list. rewrite fold_dict_of_list_keys. simpl. rewrite elem_of_nil. tauto.
Qed.

Lemma dict_update_keys (a b : list (K * V)) (k : K) :
  k ∈ map fst (dict_update a b) <-> k ∈ map fst a \/ k ∈ map fst b.
Proof.
  unfold dict_update. revert a. induction b as [|[k0 v0] b IH]; intros a; simpl.
  - split; [now left | intros [H|H]; [exact H | now apply elem_of_nil in H]].
  - rewrite IH, elem_of_dict_set_keys, elem_of_cons. simpl. tauto.
Qed.

Lemma elem_of_fold_dict_of_list (key : V -> K) (l : list V) (d : list (K * V))
    (k : K) (v : V) :
  (k, v) ∈ fold_left (fun d c => dict_set d (key c) c) l d -> (k, v) ∈ d \/ v ∈ l.
Proof.
  revert d. induction l as [|c l IH]; intros d H; simpl in H; [now left|].
  apply IH in H as [H|H]; [|right; now right].
  apply elem_of_dict_set in H as [[= -> ->]|H]; [right; now left | now left].
Qed.

Lemma elem_of_dict_of_list (key : V -> K) (l : list V) (k : K) (v : V) :
  (k, v) ∈ dict_of_list key l -> v ∈ l.
Proof.
  intros H. apply elem_of_fold_dict_of_list in H as [H|H]; [|exact H].
  now apply elem_of_nil in H.
Qed.

Lemma elem_of_dict_update (a b : list (K * V)) (kv : K * V) :
  kv ∈ dict_update a b -> kv ∈ a \/ kv ∈ b.
Proof.
  unfold dict_update. revert a. induction b as [|[k v] b IH]; intros a; simpl.
  - now left.
  - intros H. apply IH in H as [H|H]; [|right; now right].
    apply elem_of_dict_set in H as [->|H]; [right; now left | now left].
Qed.

Lemma keyed_dict_set (key : V -> K) (d : list (K * V)) (v : V) :
  keyed key d -> keyed key (dict_set d (key v) v).
Proof.
  intros Hd k' v' Hin. apply elem_of_dict_set in Hin as [[= -> ->]|Hin]; [reflexivity|].
  now apply Hd.
Qed.

Lemma keyed_dict_of_list (key : V -> K) (l : list V) : keyed key (dict_of_list key l).
Proof.
  unfold dict_of_list.
  assert (H0 : keyed key []) by (intros k v H; now apply elem_of_nil in H).
  revert H0. generalize (@nil (K * V)).
  induction l as [|c l IH]; intros d Hd; simpl; [exact Hd|].
  apply IH. now apply keyed_dict_set.
Qed.

Lemma keyed_dict_update (key : V -> K) (a b : list (K * V)) :
  keyed key a -> keyed key b -> keyed key (dict_update a b).
Proof.
  unfold dict_update. revert a. induction b as [|[k v] b IH]; intros a Ha Hb; simpl;
    [exact Ha|].
  apply IH.
  - rewrite <- (Hb k v) by now left. now apply keyed_dict_set.
  - intros k' v' Hin. apply Hb. now right.
Qed.

Lemma keyed_values (key : V -> K) (d : list (K * V)) :
  keyed key d -> map key (dict_values d) = map fst d.
Proof.
  intros Hd. unfold dict_values. rewrite map_map. apply map_ext_in.
  intros [k v] Hin. simpl. apply Hd. now apply list_elem_of_In.
Qed.

End DictFacts.

End PyListFacts.

(** ** The time bonus on binary64 *)

Module Binary64Facts.
Import Binary64.

Lemma bonus_table_In (first days : nat) (d : Z) :
  Z.of_nat first <= d < Z.of_nat first + Z.of_nat days ->
  In (d, tier_bonus_b64 d) (bonus_table first days).
Proof.
  intros Hd. unfold bonus_table.
  apply in_map_iff. exists (Z.to_nat d). rewrite Z2Nat.id by lia.
  split; [reflexivity|]. apply in_seq. lia.
Qed.

Lemma decreasing_In (t : list (Z * PrimFloat.float)) (da db : Z) (xa xb : PrimFloat.float) :
  decreasing t = true -> In (da, xa) t -> In (db, xb) t -> da <= db ->
  PrimFloat.leb xb xa = true.
Proof.
  intros Hok Ha Hb Hle. unfold decreasing in Hok. rewrite forallb_forall in Hok.
  specialize (Hok _ Ha). rewrite forallb_forall in Hok. specialize (Hok _ Hb).
  cbn [fst snd] in Hok. apply Z.leb_le in Hle. rewrite Hle in Hok. exact Hok.
Qed.

Lemma apart_In (t1 t2 : list (Z * PrimFloat.float)) (da db : Z) (xa xb : PrimFloat.float) :
  apart t1 t2 = true -> In (da, xa) t1 -> In (db, xb) t2 ->
  20 * da < 3 * db + 4015 -> PrimFloat.leb xb xa = true.
Proof.
  intros Hok Ha Hb Hlt. unfold apart in Hok. rewrite forallb_forall in Hok.
  specialize (Hok _ Ha). rewrite forallb_forall in Hok. specialize (Hok _ Hb).
  cbn [fst snd] in Hok. apply Z.ltb_lt in Hlt. rewrite Hlt in Hok. exact Hok.
Qed.

Lemma not_negative_In (t : list (Z * PrimFloat.float)) (d : Z) (x : PrimFloat.float) :
  not_negative t = true -> In (d, x) t -> PrimFloat.leb PrimFloat.zero x = true.
Proof.
  intros Hok Hin. unfold not_negative in Hok. rewrite forallb_forall in Hok.
  exact (Hok _ Hin).
Qed.

(** The first tier, days 0 to 365, and the second, days 366 to 1095,
    checked by computation. *)
Lemma first_tier_decreasing : decreasing (bonus_table 0 366) = true.
Proof. vm_compute. reflexivity. Qed.

Lemma second_tier_decreasing : decreasing (bonus_table 366 730) = true.
Proof. vm_compute. reflexivity. Qed.

Lemma tiers_apart : apart (bonus_table 0 366) (bonus_table 366 730) = true.
Proof. vm_compute. reflexivity. Qed.

Lemma tiers_not_negative : not_negative (bonus_table 0 1096) = true.
Proof. vm_compute. reflexivity. Qed.

Lemma tier_bonus_b64_beyond (d : Z) : 1095 < d -> tier_bonus_b64 d = PrimFloat.zero.
Proof.
  intros Hd. unfold tier_bonus_b64.
  destruct (d <=? 365) eqn:E1; [apply Z.leb_le in E1; lia|].
  destruct (d <=? 1095) eqn:E2; [apply Z.leb_le in E2; lia | reflexivity].
Qed.

Lemma leb_zero_zero : PrimFloat.leb PrimFloat.zero PrimFloat.zero = true.
Proof. reflexivity. Qed.

Lemma tier_bonus_b64_not_negative (d : Z) :
  0 <= d -> PrimFloat.leb PrimFloat.zero (tier_bonus_b64 d) = true.
Proof.
  intros Hd. destruct (Z.le_gt_cases d 1095) as [Hle|Hgt].
  - apply (not_negative_In (bonus_table 0 1096) d); [exact tiers_not_negative|].
    apply bonus_table_In. lia.
  - rewrite tier_bonus_b64_beyond by exact Hgt. exact leb_zero_zero.
Qed.

(** The order of the bonuses that binary64 computes: the closer
    candidate's is not the smaller one, in the same tier, against a
    candidate beyond 1095 days, and across the two tiers when the exact
    bonuses differ. *)
Lemma tier_bonus_b64_monotone (da db : Z) :
  0 <= da <= db ->
  (db <= 365 \/ 365 < da \/ 1095 < db \/ 20 * da < 3 * db + 4015) ->
  PrimFloat.leb (tier_bonus_b64 db) (tier_bonus_b64 da) = true.
Proof.
  intros Hd Hc. destruct (Z.le_gt_cases db 1095) as [Hb|Hb].
  2:{ rewrite (tier_bonus_b64_beyond db Hb). apply tier_bonus_b64_not_negative. lia. }
  destruct (Z.le_gt_cases db 365) as [Hb1|Hb1].
  { apply (decreasing_In (bonus_table 0 366) da db);
      [exact first_tier_decreasing | apply bonus_table_In; lia
       | apply bonus_table_In; lia | lia]. }
  destruct (Z.le_gt_cases da 365) as [Ha1|Ha1].
  2:{ apply (decreasing_In (bonus_table 366 730) da db);
        [exact second_tier_decreasing | apply bonus_table_In; lia
         | apply bonus_table_In; lia | lia]. }
  apply (apart_In (bonus_table 0 366) (bonus_table 366 730) da db);
    [exact tiers_apart | apply bonus_table_In; lia | apply bonus_table_In; lia | lia].
Qed.

(** Where the exact bonuses of the two tiers are equal, rounding decides:
    362 days back gives less than 1075 days back. *)
Lemma tier_bonus_b64_tie :
  20 * 362 = 3 * 1075 + 4015
  /\ PrimFloat.ltb (tier_bonus_b64 362) (tier_bonus_b64 1075) = true.
Proof. split; [reflexivity | vm_compute; reflexivity]. Qed.

(** The step at the end of the first tier is there on binary64 too. *)
Lemma tier_bonus_b64_step :
  tier_bonus_b64 365 = PrimFloat.zero
  /\ PrimFloat.ltb PrimFloat.zero (tier_bonus_b64 366) = true.
Proof. split; vm_compute; reflexivity. Qed.

(** The binary64 mean of equal similarities need not be their value: it
    lies above 0.1 for three times 0.1, and below 0.7 for three times
    0.7. *)
Lemma mean_b64_rounding :
  PrimFloat.ltb lit_0_1 (mean_b64 [lit_0_1; lit_0_1; lit_0_1]) = true
  /\ PrimFloat.ltb (mean_b64 [lit_0_7; lit_0_7; lit_0_7]) lit_0_7 = true.
Proof. split; vm_compute; reflexivity. Qed.

End Binary64Facts.

(** ** Dedup and time weighting *)

Module DedupSpec.
Import PyStr PyList Cand Dedup PyListFacts.

Section Facts.

Variable fromisoformat : str -> option Z.
Variable policy_timestamp : option Z.

Local Abbreviation time_bonus_of := (time_bonus_of fromisoformat policy_timestamp).
Local Abbreviation attach := (attach fromisoformat policy_timestamp).
Local Abbreviation attached := (attached fromisoformat policy_timestamp).

Lemma attach_eq (h : store) (r : nat) :
  attach h r = <[ r := attached (deref h r) ]> h.
Proof. reflexivity. Qed.

Lemma attached_idem (d : chunk_dict) : attached (attached d) = attached d.
Proof. reflexivity. Qed.

Lemma group_key_attached (d : chunk_dict) : group_key (attached d) = group_key d.
Proof. reflexivity. Qed.

Lemma deref_insert (h : store) (r r' : nat) (d : chunk_dict) :
  deref (<[ r := d ]> h) r' = if decide (r = r') then d else deref h r'.
Proof.
  unfold deref. destruct (decide (r = r')) as [->|Hne].
  - now rewrite lookup_insert_eq.
  - now rewrite lookup_insert_ne.
Qed.

Lemma fold_attach_lookup (rs : list nat) (h : store) (r : nat) :
  fold_left attach rs h !! r
  = if decide (r ∈ rs) then Some (attached (deref h r)) else h !! r.
Proof.
  revert h. induction rs as [|a rs IH]; intros h; simpl.
  - destruct (decide (r ∈ [])) as [H|_]; [now apply elem_of_nil in H | reflexivity].
  - rewrite IH, attach_eq, deref_insert.
    destruct (decide (a = r)) as [->|Hne].
    + rewrite attached_idem, lookup_insert_eq.
      destruct (decide (r ∈ rs)), (decide (r ∈ r :: rs)) as [|Hn]; try reflexivity;
        elim Hn; now left.
    + rewrite lookup_insert_ne by exact Hne.
      destruct (decide (r ∈ rs)) as [Hin|Hin], (decide (r ∈ a :: rs)) as [Hin'|Hin'];
        try reflexivity.
      * elim Hin'. now right.
      * apply elem_of_cons in Hin' as [->|Hin']; [congruence | contradiction].
Qed.

Lemma fold_attach_deref (rs : list nat) (h : store) (r : nat) :
  deref (fold_left attach rs h) r
  = if decide (r ∈ rs) then attached (deref h r) else deref h r.
Proof.
  unfold deref at 1. rewrite fold_attach_lookup. now destruct (decide (r ∈ rs)).
Qed.

Lemma group_key_fold_attach (rs : list nat) (h : store) (r : nat) :
  group_key (deref (fold_left attach rs h) r) = group_key (deref h r).
Proof. rewrite fold_attach_deref. now destruct (decide (r ∈ rs)). Qed.

Lemma rerank_score_fold_attach (rs : list nat) (h : store) (r : nat) :
  rerank_score (deref (fold_left attach rs h) r) = rerank_score (deref h r).
Proof. rewrite fold_attach_deref. now destruct (decide (r ∈ rs)). Qed.

(** Writing the two fields a second time changes nothing. *)
Lemma fold_attach_fixed (rs : list nat) (h : store) :
  (forall r, r ∈ rs -> exists d, h !! r = Some d /\ attached d = d) ->
  fold_left attach rs h = h.
Proof.
  induction rs as [|a rs IH]; intros Hfix; simpl; [reflexivity|].
  destruct (Hfix a ltac:(now left)) as (d & Hd & Hdd).
  assert (Ha : attach h a = h).
  { rewrite attach_eq. unfold deref. rewrite Hd. simpl. rewrite Hdd.
    now apply insert_id. }
  rewrite Ha. apply IH. intros r Hr. apply Hfix. now right.
Qed.

End Facts.

(** *** The first loop *)

Section FirstLoop.

Variable h : store.

Local Abbreviation key_at := (key_at h).
Local Abbreviation score_at := (score_at h).
Local Abbreviation seen_inv := (seen_inv h).

Lemma seen_step_inv (l : list nat) (seen : list (pyval * pyval * nat)) (x : nat) :
  seen_inv l seen -> seen_inv (l ++ [x]) (seen_step h seen x).
Proof.
  intros (Hnd & Hent & Hcov). unfold seen_step.
  fold (key_at x). fold (score_at x).
  assert (Hset : forall (keep : bool),
             (keep = false -> dict_get seen (key_at x) = None) ->
             (forall kept, dict_get seen (key_at x) = Some kept ->
                           (score_at kept <= score_at x)%Q) ->
             seen_inv (l ++ [x]) (dict_set seen (key_at x) x)).
  { intros _ _ Hle. split; [now apply dict_set_NoDup|]. split.
    - intros k r Hin. apply elem_of_dict_set in Hin as [[= -> ->]|Hin].
      + split; [apply elem_of_app; right; now left | reflexivity].
      + destruct (Hent _ _ Hin) as [Hr Hk]. split; [|exact Hk].
        apply elem_of_app. now left.
    - intros r' Hr'. rewrite dict_get_set.
      destruct (decide (key_at x = key_at r')) as [Heq|Hne].
      + exists x. split; [reflexivity|].
        apply elem_of_app in Hr' as [Hr'|Hr'].
        * destruct (Hcov _ Hr') as (r & Hget & Hsc). rewrite <- Heq in Hget.
          eapply Qle_trans; [exact Hsc | now apply Hle].
        * apply list_elem_of_singleton in Hr' as ->. apply Qle_refl.
      + apply elem_of_app in Hr' as [Hr'|Hr'].
        * now apply Hcov.
        * apply list_elem_of_singleton in Hr' as ->. congruence. }
  destruct (dict_get seen (key_at x)) as [kept|] eqn:E.
  - fold (score_at kept). destruct (Qlt_bool (score_at kept) (score_at x)) eqn:F.
    + apply (Hset true); [discriminate|].
      intros kept' [= <-]. apply Qlt_bool_lt in F. now apply Qlt_le_weak.
    + apply Qlt_bool_ge in F. split; [exact Hnd|]. split.
      * intros k r Hin. destruct (Hent _ _ Hin) as [Hr Hk]. split; [|exact Hk].
        apply elem_of_app. now left.
      * intros r' Hr'. apply elem_of_app in Hr' as [Hr'|Hr']; [now apply Hcov|].
        apply list_elem_of_singleton in Hr' as ->. now exists kept.
  - apply (Hset false); [reflexivity | discriminate].
Qed.

Lemma fold_seen_inv (l0 l : list nat) (seen : list (pyval * pyval * nat)) :
  seen_inv l0 seen -> seen_inv (l0 ++ l) (fold_left (seen_step h) l seen).
Proof.
  revert l0 seen. induction l as [|x l IH]; intros l0 seen Hinv; simpl.
  - now rewrite app_nil_r.
  - replace (l0 ++ x :: l) with ((l0 ++ [x]) ++ l) by now rewrite <- app_assoc.
    apply IH. now apply seen_step_inv.
Qed.

Lemma seen_inv_final (l : list nat) : seen_inv l (fold_left (seen_step h) l []).
Proof.
  apply (fold_seen_inv [] l []). split; [constructor|]. split.
  - intros k r H. now apply elem_of_nil in H.
  - intros r' H. now apply elem_of_nil in H.
Qed.

Lemma seen_keys (l : list nat) (seen : list (pyval * pyval * nat)) :
  seen_inv l seen -> map key_at (dict_values seen) = map fst seen.
Proof.
  intros (_ & Hent & _). unfold dict_values. rewrite map_map.
  apply map_ext_in. intros [k r] Hin. simpl.
  apply list_elem_of_In in Hin. now apply Hent in Hin.
Qed.

(** Every kept candidate comes from the input. *)
Lemma survivors_input (l : list nat) (r : nat) : r ∈ survivors h l -> r ∈ l.
Proof.
  unfold survivors, dict_values. intros Hin.
  apply list_elem_of_fmap in Hin as ([k r'] & -> & Hin).
  destruct (seen_inv_final l) as (_ & Hent & _). now apply Hent in Hin.
Qed.

(** One kept candidate per key. *)
Lemma survivors_keys_NoDup (l : list nat) : NoDup (map key_at (survivors h l)).
Proof.
  unfold survivors. rewrite (seen_keys l) by apply seen_inv_final.
  apply seen_inv_final.
Qed.

(** Every input candidate has its group's kept candidate above it. *)
Lemma survivors_cover (l : list nat) (r' : nat) :
  r' ∈ l ->
  exists r, r ∈ survivors h l /\ key_at r = key_at r' /\ (score_at r' <= score_at r)%Q.
Proof.
  intros Hr'. destruct (seen_inv_final l) as (_ & Hent & Hcov).
  destruct (Hcov _ Hr') as (r & Hget & Hsc). exists r.
  apply dict_get_Some_in in Hget. split; [|split; [now apply Hent in Hget | exact Hsc]].
  unfold survivors, dict_values. apply list_elem_of_fmap. now exists (key_at r', r).
Qed.

Lemma NoDup_map_inj {A B : Type} (f : A -> B) (l : list A) (x y : A) :
  NoDup (map f l) -> x ∈ l -> y ∈ l -> f x = f y -> x = y.
Proof.
  induction l as [|a l IH]; simpl; intros Hnd Hx Hy Hf.
  - now apply elem_of_nil in Hx.
  - apply NoDup_cons in Hnd as [Hna Hnd].
    apply elem_of_cons in Hx as [->|Hx]; apply elem_of_cons in Hy as [->|Hy].
    + reflexivity.
    + elim Hna. rewrite Hf. now apply list_elem_of_fmap_2.
    + elim Hna. rewrite <- Hf. now apply list_elem_of_fmap_2.
    + now apply IH.
Qed.

(** The kept candidate has the highest [rerank_score] of its group. *)
Lemma survivors_highest (l : list nat) (r r' : nat) :
  r ∈ survivors h l -> r' ∈ l -> key_at r' = key_at r ->
  (score_at r' <= score_at r)%Q.
Proof.
  intros Hr Hr' Hk. destruct (survivors_cover l r' Hr') as (r2 & Hr2 & Hk2 & Hsc).
  assert (r2 = r) as ->; [|exact Hsc].
  apply (NoDup_map_inj key_at (survivors h l)); try assumption.
  - apply survivors_keys_NoDup.
  - congruence.
Qed.

(** On candidates with pairwise different keys the first loop keeps
    everything, in order. *)
Lemma fold_seen_fresh (l : list nat) (seen : list (pyval * pyval * nat)) :
  NoDup (map key_at l) ->
  (forall r, r ∈ l -> key_at r ∉ map fst seen) ->
  fold_left (seen_step h) l seen = seen ++ map (fun r => (key_at r, r)) l.
Proof.
  revert seen. induction l as [|x l IH]; intros seen Hnd Hfresh; simpl.
  - now rewrite app_nil_r.
  - apply NoDup_cons in Hnd as [Hx Hnd].
    assert (Hget : dict_get seen (key_at x) = None).
    { apply dict_get_None. apply Hfresh. now left. }
    unfold seen_step at 2. fold (key_at x). rewrite Hget.
    rewrite dict_set_new by exact Hget. rewrite IH.
    + now rewrite <- app_assoc.
    + exact Hnd.
    + intros r Hr. rewrite map_app. simpl. intros Hin.
      apply elem_of_app in Hin as [Hin|Hin].
      * revert Hin. apply Hfresh. now right.
      * apply list_elem_of_singleton in Hin. elim Hx. rewrite <- Hin.
        now apply list_elem_of_fmap_2.
Qed.

Lemma survivors_distinct (l : list nat) :
  NoDup (map key_at l) -> survivors h l = l.
Proof.
  intros Hnd. unfold survivors. rewrite fold_seen_fresh.
  - unfold dict_values. simpl. rewrite map_map. simpl. apply map_id.
  - exact Hnd.
  - intros r _ Hin. now apply elem_of_nil in Hin.
Qed.

End FirstLoop.

Lemma survivors_ext (h h' : store) (l : list nat) :
  (forall r, group_key (deref h' r) = group_key (deref h r)) ->
  (forall r, rerank_score (deref h' r) = rerank_score (deref h r)) ->
  survivors h' l = survivors h l.
Proof.
  intros Hk Hs. unfold survivors. f_equal.
  generalize (@nil (pyval * pyval * nat)).
  induction l as [|x l IH]; intros seen; simpl; [reflexivity|].
  rewrite IH. f_equal. unfold seen_step. rewrite Hk, Hs.
  destruct (dict_get seen _); [|reflexivity]. now rewrite Hs.
Qed.

(** *** The whole call *)

Section Call.

Variable fromisoformat : str -> option Z.
Variables (h : store) (chunk_results : list nat).
Variables (policy_timestamp : option Z) (top_k : Z).

Local Abbreviation out :=
  (_deduplicate_chunks fromisoformat h chunk_results policy_timestamp top_k).

Lemma store_after_eq :
  store_after out
  = fold_left (attach fromisoformat policy_timestamp) (survivors h chunk_results) h.
Proof. reflexivity. Qed.

Lemma returned_survivor (r : nat) : r ∈ returned out -> r ∈ survivors h chunk_results.
Proof.
  unfold _deduplicate_chunks. simpl. intros Hin.
  eapply elem_of_sublist in Hin; [|apply slice_to_sublist].
  unfold sort_desc in Hin. now rewrite stable_sort_perm in Hin.
Qed.

(** A kept candidate gets the two fields, and nothing else changes in its
    dictionary. *)
Lemma survivor_after (r : nat) :
  r ∈ survivors h chunk_results ->
  deref (store_after out) r
  = attached fromisoformat policy_timestamp (deref h r).
Proof.
  intros Hin. rewrite store_after_eq, fold_attach_deref.
  destruct (decide (r ∈ survivors h chunk_results)); [reflexivity | contradiction].
Qed.

Lemma other_after (r : nat) :
  r ∉ survivors h chunk_results -> store_after out !! r = h !! r.
Proof.
  intros Hin. rewrite store_after_eq, fold_attach_lookup.
  destruct (decide (r ∈ survivors h chunk_results)); [contradiction | reflexivity].
Qed.

End Call.

(** The tiers do not cross when the closer candidate is not in the last
    days of the first year while the other one is in the second tier. *)
Lemma tier_bonus_monotone (da db : Z) :
  0 <= da <= db ->
  (db <= 365 \/ 365 < da \/ 1095 < db \/ 20 * da <= 3 * db + 4015) ->
  (tier_bonus db <= tier_bonus da)%Q.
Proof.
  intros Hd Hc. unfold tier_bonus, Qdiv.
  change (/ 365)%Q with (1 # 365)%Q. change (/ 730)%Q with (1 # 730)%Q.
  assert (Hq : (inject_Z da <= inject_Z db)%Q) by (rewrite <- Zle_Qle; lia).
  assert (H0 : (0 <= inject_Z da)%Q) by (change 0%Q with (inject_Z 0); rewrite <- Zle_Qle; lia).
  destruct (da <=? 365) eqn:Ea, (db <=? 365) eqn:Eb;
    [apply Z.leb_le in Ea, Eb | apply Z.leb_le in Ea; apply Z.leb_gt in Eb
     | apply Z.leb_gt in Ea; apply Z.leb_le in Eb | apply Z.leb_gt in Ea, Eb].
  - lra.
  - assert (Ha : (inject_Z da <= 365)%Q)
      by (change 365%Q with (inject_Z 365); rewrite <- Zle_Qle; lia).
    destruct (db <=? 1095) eqn:Fb; [apply Z.leb_le in Fb | lra].
    assert (Hx : 20 * da <= 3 * db + 4015) by lia.
    assert (Hxq : (20 * inject_Z da <= 3 * inject_Z db + 4015)%Q).
    { change 20%Q with (inject_Z 20). change 3%Q with (inject_Z 3).
      change 4015%Q with (inject_Z 4015).
      rewrite <- !inject_Z_mult, <- inject_Z_plus, <- Zle_Qle. exact Hx. }
    lra.
  - lia.
  - destruct (da <=? 1095) eqn:Fa, (db <=? 1095) eqn:Fb;
      [apply Z.leb_le in Fa, Fb | apply Z.leb_le in Fa | apply Z.leb_gt in Fa; apply Z.leb_le in Fb
       | ].
    + lra.
    + assert (Ha : (inject_Z da <= 1095)%Q)
        by (change 1095%Q with (inject_Z 1095); rewrite <- Zle_Qle; lia).
      lra.
    + lia.
    + lra.
Qed.


(** *** The claims *)

(** C2. A kept candidate with a readable time stamp gets the bonus of its
    tier: [0.1 * (1 - d/365)] up to 365 days, [0.03 * (1 - (d - 365)/730)]
    up to 1095 days, [0] beyond; a candidate whose time stamp is absent,
    empty or unreadable gets [0]. *)
Theorem time_bonus_by_tier (fromisoformat : str -> option Z) (h : store)
    (chunk_results : list nat) (policy_timestamp : option Z) (top_k : Z) (r : nat) :
  r ∈ survivors h chunk_results ->
  let chunk := deref h r in
  let after :=
    deref (store_after
             (_deduplicate_chunks fromisoformat h chunk_results policy_timestamp top_k)) r in
  (forall ts date ref,
      get_str (timestamp chunk) = PyStr ts -> ts <> [] ->
      doc_date fromisoformat ts = Some date -> policy_timestamp = Some ref ->
      let days_diff := ref - date in
      (days_diff <= 365 ->
       time_bonus after = Some (0.1 * (1 - inject_Z days_diff / 365))%Q)
      /\ (365 < days_diff <= 1095 ->
          time_bonus after = Some (0.03 * (1 - (inject_Z days_diff - 365) / 730))%Q)
      /\ (1095 < days_diff -> time_bonus after = Some 0%Q))
  /\ ((forall ts, get_str (timestamp chunk) = PyStr ts -> ts <> [] ->
                  doc_date fromisoformat ts = None) ->
      time_bonus after = Some 0%Q).
Proof.
  intros Hin chunk after.
  assert (Hafter : time_bonus after
                   = Some (time_bonus_of fromisoformat policy_timestamp chunk)).
  { subst after. now rewrite survivor_after by exact Hin. }
  rewrite Hafter. clear Hafter after. unfold time_bonus_of. split.
  - intros ts date ref Hts Hne Hdate Hp. cbv zeta.
    rewrite Hts, Hp. destruct ts as [|c ts]; [congruence|]. cbn [nonempty].
    rewrite Hdate. set (days_diff := ref - date). unfold tier_bonus.
    repeat split; intros Hd.
    + apply Z.leb_le in Hd. now rewrite Hd.
    + destruct Hd as [Hd1 Hd2]. apply Z.leb_gt in Hd1. apply Z.leb_le in Hd2.
      now rewrite Hd1, Hd2.
    + assert (H1 : (days_diff <=? 365) = false) by (apply Z.leb_gt; lia).
      assert (H2 : (days_diff <=? 1095) = false) by (apply Z.leb_gt; lia).
      now rewrite H1, H2.
  - intros Hbad. destruct (get_str (timestamp chunk)) as [|ts] eqn:Hts; [reflexivity|].
    destruct policy_timestamp as [ref|]; [|reflexivity].
    destruct ts as [|c ts]; [reflexivity|]. cbn [nonempty].
    now rewrite (Hbad (c :: ts) eq_refl).
Qed.

Lemma time_bonus_by_tier_witness :
  time_bonus
    (deref (store_after
              (_deduplicate_chunks iso_date boundary_store [0; 1]%nat (Some 20089) 5))
       1%nat)
  = Some (0.03 * (1 - (inject_Z 366 - 365) / 730))%Q.
Proof.
  assert (Hin : 1%nat ∈ survivors boundary_store [0; 1]%nat)
    by (vm_compute; right; left).
  apply (proj1 (proj2 (proj1
           (time_bonus_by_tier iso_date boundary_store [0; 1]%nat (Some 20089) 5 1%nat Hin)
           (lit "2024-01-01") 19723 20089 eq_refl ltac:(discriminate) eq_refl eq_refl))).
  lia.
Defined.

(** The example of the spec: the candidate of 30 days back comes first,
    with a bonus of about 0.092; the one of 400 days back gets about
    0.029. *)
Example spec_example_order :
  let out := _deduplicate_chunks iso_date spec_store [0; 1]%nat (Some 20089) 10 in
  returned out = [1; 0]%nat
  /\ option_map Qred (time_bonus (deref (store_after out) 1%nat)) = Some (67 # 730)%Q
  /\ option_map Qred (time_bonus (deref (store_after out) 0%nat)) = Some (417 # 14600)%Q.
Proof. vm_compute. repeat split. Qed.

(** C3, as the code has it. In each (title, timestamp) group the kept
    candidate has the highest [rerank_score], an absent score counting as
    0.0 (the similarity plays no part); every group has its kept
    candidate; and every returned candidate carries
    [final_score = rerank_score + time_bonus], again with 0.0 for an
    absent score. *)
Theorem kept_candidate_and_final_score (fromisoformat : str -> option Z) (h : store)
    (chunk_results : list nat) (policy_timestamp : option Z) (top_k : Z) :
  let out := _deduplicate_chunks fromisoformat h chunk_results policy_timestamp top_k in
  (forall r, r ∈ survivors h chunk_results ->
     r ∈ chunk_results
     /\ forall r', r' ∈ chunk_results ->
          group_key (deref h r') = group_key (deref h r) ->
          (get_num (rerank_score (deref h r')) <= get_num (rerank_score (deref h r)))%Q)
  /\ (forall r', r' ∈ chunk_results ->
        exists r, r ∈ survivors h chunk_results
                  /\ group_key (deref h r) = group_key (deref h r'))
  /\ (forall r, r ∈ returned out ->
        r ∈ survivors h chunk_results
        /\ exists bonus,
             time_bonus (deref (store_after out) r) = Some bonus
             /\ final_score (deref (store_after out) r)
                = Some (get_num (rerank_score (deref h r)) + bonus)%Q).
Proof.
  intros out. split; [|split].
  - intros r Hr. split; [now apply survivors_input in Hr|].
    intros r' Hr' Hk. now apply (survivors_highest h chunk_results r r').
  - intros r' Hr'. destruct (survivors_cover h _ _ Hr') as (r & Hr & Hk & _).
    now exists r.
  - intros r Hr. apply returned_survivor in Hr. split; [exact Hr|].
    subst out. rewrite survivor_after by exact Hr.
    eexists. split; reflexivity.
Qed.

Lemma kept_candidate_and_final_score_witness :
  final_score
    (deref (store_after (_deduplicate_chunks iso_date unranked_store [0; 1]%nat (Some 20089) 5))
       0%nat)
  = Some (0 + 0.1 * (1 - inject_Z 214 / 365))%Q.
Proof.
  destruct (proj2 (proj2 (kept_candidate_and_final_score iso_date unranked_store
                            [0; 1]%nat (Some 20089) 5)) 0%nat ltac:(vm_compute; left))
    as (_ & bonus & Hb & Hf).
  rewrite Hf. vm_compute in Hb. injection Hb as <-. reflexivity.
Defined.

(** C3, as the spec has it, fails: without rerank scores the first
    candidate of the group is kept, not the more similar one, and its
    [final_score] is its time bonus alone. *)
Lemma similarity_fallback_counterexample :
  ~ (forall (h : store) (l : list nat) (pts : option Z) (k : Z) (r : nat),
       let out := _deduplicate_chunks iso_date h l pts k in
       r ∈ returned out -> rerank_score (deref h r) = None ->
       (forall r', r' ∈ l -> group_key (deref h r') = group_key (deref h r) ->
                   (get_num (similarity (deref h r')) <= get_num (similarity (deref h r)))%Q)
       /\ (get_num (final_score (deref (store_after out) r))
           == get_num (similarity (deref h r))
              + get_num (time_bonus (deref (store_after out) r)))%Q).
Proof.
  intros H.
  destruct (H unranked_store [0; 1]%nat (Some 20089) 5 0%nat
              ltac:(vm_compute; left) eq_refl) as [Hmax _].
  specialize (Hmax 1%nat ltac:(right; left) eq_refl).
  vm_compute in Hmax. now apply Hmax.
Qed.

(** C4, as the code has it. With equal rerank scores and
    [0 <= days_a <= days_b], the closer candidate does not score lower
    when the two fall into the same tier, when the farther one is beyond
    1095 days, or when [20 * days_a < 3 * days_b + 4015] (the exact
    bonus of the closer one, in the first tier, is the larger one). The
    bonuses that binary64 computes are then in the same order. When the
    exact bonuses of the two tiers are equal, rounding decides, and it
    can decide against the closer candidate ([tier_bonus_b64_tie]). *)
Theorem closer_candidate_not_lower (fromisoformat : str -> option Z) (h : store)
    (chunk_results : list nat) (top_k : Z) (a b : nat)
    (ts_a ts_b : str) (date_a date_b ref : Z) :
  let out := _deduplicate_chunks fromisoformat h chunk_results (Some ref) top_k in
  a ∈ survivors h chunk_results -> b ∈ survivors h chunk_results ->
  (get_num (rerank_score (deref h a)) == get_num (rerank_score (deref h b)))%Q ->
  get_str (timestamp (deref h a)) = PyStr ts_a -> ts_a <> [] ->
  doc_date fromisoformat ts_a = Some date_a ->
  get_str (timestamp (deref h b)) = PyStr ts_b -> ts_b <> [] ->
  doc_date fromisoformat ts_b = Some date_b ->
  0 <= ref - date_a <= ref - date_b ->
  (ref - date_b <= 365 \/ 365 < ref - date_a \/ 1095 < ref - date_b
   \/ 20 * (ref - date_a) < 3 * (ref - date_b) + 4015) ->
  (get_num (final_score (deref (store_after out) b))
   <= get_num (final_score (deref (store_after out) a)))%Q
  /\ PrimFloat.leb (Binary64.tier_bonus_b64 (ref - date_b))
       (Binary64.tier_bonus_b64 (ref - date_a)) = true.
Proof.
  intros out Ha Hb Hs Hta Hna Hda Htb Hnb Hdb Hd Hc. subst out.
  split; [|exact (Binary64Facts.tier_bonus_b64_monotone _ _ Hd Hc)].
  rewrite !survivor_after by assumption.
  assert (Hba : time_bonus_of fromisoformat (Some ref) (deref h a) = tier_bonus (ref - date_a)).
  { unfold time_bonus_of. rewrite Hta. destruct ts_a; [congruence|]. cbn [nonempty].
    now rewrite Hda. }
  assert (Hbb : time_bonus_of fromisoformat (Some ref) (deref h b) = tier_bonus (ref - date_b)).
  { unfold time_bonus_of. rewrite Htb. destruct ts_b; [congruence|]. cbn [nonempty].
    now rewrite Hdb. }
  unfold attached. cbn [final_score set_final_score get_num default]. rewrite Hba, Hbb.
  assert (Hc' : ref - date_b <= 365 \/ 365 < ref - date_a \/ 1095 < ref - date_b
                \/ 20 * (ref - date_a) <= 3 * (ref - date_b) + 4015) by lia.
  pose proof (tier_bonus_monotone _ _ Hd Hc'). unfold id. lra.
Qed.

Lemma closer_candidate_not_lower_witness :
  let out := _deduplicate_chunks iso_date boundary_store [0; 1]%nat (Some 20454) 5 in
  (get_num (final_score (deref (store_after out) 1%nat))
   <= get_num (final_score (deref (store_after out) 0%nat)))%Q
  /\ PrimFloat.leb (Binary64.tier_bonus_b64 731) (Binary64.tier_bonus_b64 730) = true.
Proof.
  apply (closer_candidate_not_lower iso_date boundary_store [0; 1]%nat 5 0%nat 1%nat
           (lit "2024-01-02") (lit "2024-01-01") 19724 19723 20454).
  - vm_compute. left.
  - vm_compute. right. left.
  - reflexivity.
  - reflexivity.
  - discriminate.
  - reflexivity.
  - reflexivity.
  - discriminate.
  - reflexivity.
  - lia.
  - lia.
Defined.

(** C4, as the spec has it, fails at the boundary of the first tier: of
    two candidates with the same rerank score, the one 365 days back gets
    no bonus and the one 366 days back gets almost 0.03. *)
Lemma closer_candidate_counterexample :
  ~ (forall (h : store) (l : list nat) (ref : Z) (k : Z) (a b : nat)
            (ts_a ts_b : str) (date_a date_b : Z),
       let out := _deduplicate_chunks iso_date h l (Some ref) k in
       a ∈ survivors h l -> b ∈ survivors h l ->
       (get_num (rerank_score (deref h a)) == get_num (rerank_score (deref h b)))%Q ->
       get_str (timestamp (deref h a)) = PyStr ts_a ->
       doc_date iso_date ts_a = Some date_a ->
       get_str (timestamp (deref h b)) = PyStr ts_b ->
       doc_date iso_date ts_b = Some date_b ->
       0 <= ref - date_a < ref - date_b ->
       (get_num (final_score (deref (store_after out) b))
        <= get_num (final_score (deref (store_after out) a)))%Q).
Proof.
  intros H.
  specialize (H boundary_store [0; 1]%nat 20089 5 0%nat 1%nat
                (lit "2024-01-02") (lit "2024-01-01") 19724 19723).
  cbv zeta in H.
  assert (Hle := H ltac:(vm_compute; left) ltac:(vm_compute; right; left)
                   ltac:(reflexivity) eq_refl eq_refl eq_refl eq_refl ltac:(lia)).
  vm_compute in Hle. now apply Hle.
Qed.


(** C5. [_deduplicate_chunks] is idempotent: for a [top_k] that is a
    count (not negative, as every caller passes it), a second call on
    the output of the first, with the same reference date and the same
    [top_k], returns the same candidates in the same order and writes
    the same values. *)
Theorem dedup_idempotent (fromisoformat : str -> option Z) (h : store)
    (chunk_results : list nat) (policy_timestamp : option Z) (top_k : Z) :
  0 <= top_k ->
  let first := _deduplicate_chunks fromisoformat h chunk_results policy_timestamp top_k in
  let second :=
    _deduplicate_chunks fromisoformat (store_after first) (returned first)
      policy_timestamp top_k in
  returned second = returned first /\ store_after second = store_after first.
Proof.
  intros Hk first second.
  set (S := survivors h chunk_results).
  set (h1 := fold_left (attach fromisoformat policy_timestamp) S h).
  set (sorted := sort_desc (fun r => get_num (final_score (deref h1 r))) S).
  set (R := slice_to sorted top_k).
  assert (HR : returned first = R) by reflexivity.
  assert (Hh1 : store_after first = h1) by reflexivity.
  assert (Hsub : forall r, r ∈ R -> r ∈ S).
  { intros r Hr. apply (returned_survivor fromisoformat h chunk_results policy_timestamp top_k).
    exact Hr. }
  assert (Hkeys : NoDup (map (key_at h) R)).
  { apply (sublist_NoDup _ (map (key_at h) sorted)).
    - unfold sorted, sort_desc. rewrite stable_sort_perm. apply survivors_keys_NoDup.
    - apply fmap_sublist. apply slice_to_sublist. }
  assert (Hsurv : survivors h1 R = R).
  { rewrite (survivors_ext h h1).
    - now apply survivors_distinct.
    - intros r. apply group_key_fold_attach.
    - intros r. apply rerank_score_fold_attach. }
  assert (Hfix : fold_left (attach fromisoformat policy_timestamp) R h1 = h1).
  { apply fold_attach_fixed. intros r Hr.
    exists (attached fromisoformat policy_timestamp (deref h r)). split; [|reflexivity].
    unfold h1. rewrite fold_attach_lookup.
    destruct (decide (r ∈ S)) as [|Hn]; [reflexivity | elim Hn; now apply Hsub]. }
  assert (Hsorted : sort_desc (fun r => get_num (final_score (deref h1 r))) R = R).
  { apply stable_sort_sorted. apply Sorted_slice_to. apply stable_sort_Sorted.
    intros x y. apply sort_desc_asym. }
  subst second. rewrite HR, Hh1.
  unfold _deduplicate_chunks. cbn [returned store_after].
  rewrite Hsurv, Hfix, Hsorted. split; [|reflexivity].
  apply slice_to_idem. exact Hk.
Qed.

Lemma dedup_idempotent_witness :
  let first := _deduplicate_chunks iso_date three_store [2; 0; 1]%nat (Some 20089) 2 in
  let second :=
    _deduplicate_chunks iso_date (store_after first) (returned first) (Some 20089) 2 in
  returned first = [0; 1]%nat
  /\ returned second = returned first /\ store_after second = store_after first.
Proof.
  split; [vm_compute; reflexivity|].
  apply (dedup_idempotent iso_date three_store [2; 0; 1]%nat (Some 20089) 2). lia.
Defined.

End DedupSpec.

(** ** The reranking pass *)

Module RerankerSpec.
Import PyStr PyList Cand Reranker PyListFacts.

Lemma frame_refl (results : list nat) (h : store) : frame results h h.
Proof. now split. Qed.

Lemma frame_write (results : list nat) (h h' : store) (r : nat) (d : chunk_dict) :
  without_rerank d = without_rerank (deref h r) ->
  frame results (<[ r := d ]> h) h' -> frame (r :: results) h h'.
Proof.
  intros Hd [Hout Hin]. split.
  - intros r' Hr'. apply not_elem_of_cons in Hr' as [Hne Hr'].
    rewrite Hout by exact Hr'. now rewrite lookup_insert_ne.
  - intros r'. rewrite Hin. unfold deref at 1.
    destruct (decide (r = r')) as [->|Hne].
    + now rewrite lookup_insert_eq.
    + now rewrite lookup_insert_ne.
Qed.

Lemma assign_default_frame (results : list nat) (h : store) (i : Z) :
  frame results h (assign_default h results i).
Proof.
  revert h i. induction results as [|r rs IH]; intros h i; simpl; [apply frame_refl|].
  eapply frame_write; [|apply IH]. reflexivity.
Qed.

Lemma assign_missing_frame (results : list nat) (h : store) (i : Z) :
  frame results h (assign_missing h results i).
Proof.
  revert h i. induction results as [|r rs IH]; intros h i; simpl; [apply frame_refl|].
  eapply frame_write; [|apply IH].
  destruct (rerank_score (deref h r)), (original_rank (deref h r)) eqn:E; try reflexivity.
  - cbn. now rewrite E.
  - cbn. now rewrite E.
Qed.

(** The frame of a loop on a shorter list is a frame of the whole. *)
Lemma frame_weaken (rs rs' : list nat) (h h' : store) :
  (forall r, r ∈ rs -> r ∈ rs') -> frame rs h h' -> frame rs' h h'.
Proof.
  intros Hsub [Hout Hin]. split; [|exact Hin].
  intros r Hr. apply Hout. intros Hr'. apply Hr. now apply Hsub.
Qed.

Lemma assign_scores_frame (results : list nat) (h : store) (i : nat) (scores : list Q) :
  frame results h (fst (assign_scores h results i scores)).
Proof.
  revert h i. induction results as [|r rs IH]; intros h i; simpl; [apply frame_refl|].
  destruct (nth_error scores i) as [s|]; simpl; [|apply frame_refl].
  eapply frame_write; [|apply IH]. reflexivity.
Qed.

Lemma assign_scores_enough (results : list nat) (h : store) (i : nat) (scores : list Q) :
  (i + length results <= length scores)%nat ->
  snd (assign_scores h results i scores) = true.
Proof.
  revert h i. induction results as [|r rs IH]; intros h i Hlen; simpl; [reflexivity|].
  simpl in Hlen. destruct (nth_error scores i) as [s|] eqn:E.
  - apply IH. lia.
  - apply nth_error_None in E. lia.
Qed.

(** A score that is set stays set, and the loop sets the score of every
    candidate it passes. *)
Lemma assign_scores_set (results : list nat) (h : store) (i : nat) (scores : list Q) :
  let h' := fst (assign_scores h results i scores) in
  (forall r, is_Some (rerank_score (deref h r)) -> is_Some (rerank_score (deref h' r)))
  /\ (snd (assign_scores h results i scores) = true ->
      forall r, r ∈ results -> is_Some (rerank_score (deref h' r))).
Proof.
  revert h i. induction results as [|r rs IH]; intros h i; simpl.
  - split; [auto|]. intros _ r Hr. now apply elem_of_nil in Hr.
  - destruct (nth_error scores i) as [s|]; simpl.
    + set (d := set_original_rank (set_rerank_score (deref h r) s) (Z.of_nat i + 1)).
      destruct (IH (<[ r := d ]> h) (S i)) as [Hkeep Hall]. split.
      * intros r' Hr'. apply Hkeep. unfold deref.
        destruct (decide (r = r')) as [->|Hne].
        -- rewrite lookup_insert_eq. simpl. eauto.
        -- now rewrite lookup_insert_ne.
      * intros Hok r' Hr'. apply elem_of_cons in Hr' as [->|Hr']; [|now apply Hall].
        apply Hkeep. unfold deref. rewrite lookup_insert_eq. simpl. eauto.
    + split; [auto | discriminate].
Qed.


Lemma rerank_frame (self : BCEReranker) (h : store) (query : str) (results : list nat)
    (top_k query_max_length passage_max_length : Z) (out : outcome) :
  rerank self h query results top_k query_max_length passage_max_length = Some out ->
  list_after out ≡ₚ results /\ frame results h (store_after out).
Proof.
  unfold rerank. destruct (enabled self); simpl.
  - destruct (bool_decide (results = [])).
    + intros [= <-]. simpl. split; [reflexivity | apply frame_refl].
    + destruct (build_pairs _ _ _ _) as [pairs|]; [|discriminate].
      destruct (predict self pairs) as [scores|].
      * pose proof (assign_scores_frame results h 0 scores) as Hf.
        destruct (assign_scores h results 0 scores) as [h' [|]]; simpl in Hf;
          intros [= <-]; simpl.
        -- split; [apply stable_sort_perm | exact Hf].
        -- split; [reflexivity|].
           pose proof (assign_missing_frame results h' 0) as [Ho Hi].
           destruct Hf as [Ho' Hi']. split.
           ++ intros r Hr. now rewrite Ho, Ho'.
           ++ intros r. now rewrite Hi, Hi'.
      * intros [= <-]. simpl. split; [reflexivity | apply assign_missing_frame].
  - intros [= <-]. simpl. split; [reflexivity | apply assign_default_frame].
Qed.

Lemma rerank_scored (self : BCEReranker) (h : store) (query : str) (results : list nat)
    (top_k query_max_length passage_max_length : Z) (out : outcome)
    (pairs : list (str * str)) (scores : list Q) :
  rerank self h query results top_k query_max_length passage_max_length = Some out ->
  enabled self = true ->
  build_pairs h (PyStr.slice_to query query_max_length) results passage_max_length
  = Some pairs ->
  predict self pairs = Some scores ->
  (length results <= length scores)%nat ->
  list_after out
  = sort_desc (fun r => get_num (rerank_score (deref (store_after out) r))) results
  /\ forall r, r ∈ results -> is_Some (rerank_score (deref (store_after out) r)).
Proof.
  unfold rerank. intros Hrun He Hpairs Hscores Hlen. rewrite He in Hrun. simpl in Hrun.
  destruct (bool_decide (results = [])) eqn:Hnil.
  - apply bool_decide_eq_true in Hnil as ->. injection Hrun as <-. simpl.
    split; [reflexivity|]. intros r Hr. now apply elem_of_nil in Hr.
  - rewrite Hpairs, Hscores in Hrun.
    pose proof (assign_scores_enough results h 0 scores Hlen) as Hok.
    pose proof (assign_scores_set results h 0 scores) as [_ Hset].
    destruct (assign_scores h results 0 scores) as [h' ok]. simpl in Hok, Hset.
    subst ok. injection Hrun as <-. simpl. split; [reflexivity | now apply Hset].
Qed.

End RerankerSpec.

(** ** What the calls leave behind *)

Module MutationSpec.
Import PyStr PyList Cand Dedup Reranker PyListFacts DedupSpec RerankerSpec.

(** C9, as the code has it. [_deduplicate_chunks] leaves the caller's
    list as it is and writes [time_bonus] and [final_score] into the
    dictionary of every kept candidate: no other dictionary and no other
    field changes. [rerank] writes only [rerank_score] and
    [original_rank], into the dictionaries of the candidates, and leaves
    in the caller's list a permutation of it; when the scoring succeeds,
    that list is sorted in place by [rerank_score], highest first, and
    every candidate has its score. *)
Theorem calls_write_only_their_fields :
  (forall (fromisoformat : str -> option Z) (h : store) (chunk_results : list nat)
          (policy_timestamp : option Z) (top_k : Z),
     let out := _deduplicate_chunks fromisoformat h chunk_results policy_timestamp top_k in
     list_after out = chunk_results
     /\ (forall r, r ∉ survivors h chunk_results -> store_after out !! r = h !! r)
     /\ (forall r, without_weights (deref (store_after out) r) = without_weights (deref h r))
     /\ (forall r, r ∈ survivors h chunk_results ->
           exists bonus,
             time_bonus (deref (store_after out) r) = Some bonus
             /\ final_score (deref (store_after out) r)
                = Some (get_num (rerank_score (deref h r)) + bonus)%Q))
  /\ (forall (self : BCEReranker) (h : store) (query : str) (results : list nat)
             (top_k query_max_length passage_max_length : Z) (out : outcome),
        rerank self h query results top_k query_max_length passage_max_length = Some out ->
        list_after out ≡ₚ results
        /\ (forall r, r ∉ results -> store_after out !! r = h !! r)
        /\ (forall r, without_rerank (deref (store_after out) r) = without_rerank (deref h r))
        /\ (forall pairs scores,
              enabled self = true ->
              build_pairs h (PyStr.slice_to query query_max_length) results passage_max_length
              = Some pairs ->
              predict self pairs = Some scores ->
              (length results <= length scores)%nat ->
              list_after out
              = sort_desc (fun r => get_num (rerank_score (deref (store_after out) r))) results
              /\ forall r, r ∈ results ->
                   is_Some (rerank_score (deref (store_after out) r)))).
Proof.
  split.
  - intros fromisoformat h chunk_results policy_timestamp top_k out.
    split; [reflexivity|]. split; [|split].
    + intros r Hr. now apply other_after.
    + intros r. subst out. rewrite store_after_eq, fold_attach_deref.
      now destruct (decide (r ∈ survivors h chunk_results)).
    + intros r Hr. subst out. rewrite survivor_after by exact Hr.
      eexists. split; reflexivity.
  - intros self h query results top_k qm pm out Hrun.
    destruct (rerank_frame _ _ _ _ _ _ _ _ Hrun) as (Hperm & Hout & Hin).
    split; [exact Hperm|]. split; [exact Hout|]. split; [exact Hin|].
    intros pairs scores He Hp Hs Hlen.
    now apply (rerank_scored self h query results top_k qm pm out pairs scores).
Qed.

Lemma calls_write_only_their_fields_witness :
  exists out,
    rerank length_reranker two_store (lit "q") [0; 1]%nat 5 512 512 = Some out
    /\ list_after out = [1; 0]%nat
    /\ list_after out ≡ₚ [0; 1]%nat
    /\ without_rerank (deref (store_after out) 0%nat) = without_rerank (deref two_store 0%nat)
    /\ time_bonus
         (deref (store_after (_deduplicate_chunks iso_date two_store [0; 1]%nat (Some 20089) 5))
            0%nat)
       = Some (0.1 * (1 - inject_Z 214 / 365))%Q.
Proof.
  eexists. split; [vm_compute; reflexivity|]. split; [reflexivity|].
  destruct (proj2 calls_write_only_their_fields length_reranker two_store (lit "q")
              [0; 1]%nat 5 512 512 _ eq_refl) as (Hperm & _ & Hin & _).
  split; [exact Hperm|]. split; [exact (Hin 0%nat)|].
  destruct (proj1 calls_write_only_their_fields iso_date two_store [0; 1]%nat
              (Some 20089) 5) as (_ & _ & _ & Hw).
  destruct (Hw 0%nat ltac:(vm_compute; left)) as (bonus & Hb & _).
  vm_compute in Hb. injection Hb as <-. vm_compute. reflexivity.
Defined.

(** C9, as the spec has it, fails for both calls: the dedup step adds two
    keys to the caller's dictionaries, and the reranker adds two more and
    reorders the caller's list. *)
Lemma calls_do_not_mutate_counterexample :
  ~ (forall (h : store) (l : list nat) (pts : option Z) (k : Z),
       store_after (_deduplicate_chunks iso_date h l pts k) = h)
  /\ ~ (forall (self : BCEReranker) (h : store) (query : str) (results : list nat)
               (k qm pm : Z) (out : outcome),
          rerank self h query results k qm pm = Some out ->
          store_after out = h /\ list_after out = results).
Proof.
  split.
  - intros H. specialize (H two_store [0; 1]%nat (Some 20089) 5).
    apply (f_equal (fun s => time_bonus (deref s 0%nat))) in H.
    vm_compute in H. discriminate H.
  - intros H.
    destruct (H length_reranker two_store (lit "q") [0; 1]%nat 5 512 512 _ eq_refl)
      as [_ Hl].
    vm_compute in Hl. discriminate Hl.
Qed.

End MutationSpec.

(** ** Multi-query search *)

Module MultiQuerySpec.
Import PyStr PyList Cand Reranker MultiQuery PyListFacts DedupSpec RerankerSpec.

Section Merge.

Variable exclude_doc_id : pyval.

Local Abbreviation merge_inv := (merge_inv exclude_doc_id).

Lemma raise_similarity_cids (all_results : list chunk_dict) (cid : pyval) (sim : Q) (i : Z) :
  map cid_of (raise_similarity all_results cid sim i) = map cid_of all_results.
Proof.
  induction all_results as [|d l IH]; simpl; [reflexivity|].
  destruct (_ && _); simpl; [reflexivity | now rewrite IH].
Qed.

(** An entry of the raised list is an old entry, or the entry of [cid]
    with the new similarity and index. *)
Lemma raise_similarity_elem (all_results : list chunk_dict) (cid : pyval)
    (sim : Q) (i : Z) (d' : chunk_dict) :
  d' ∈ raise_similarity all_results cid sim i ->
  d' ∈ all_results
  \/ (cid_of d' = cid /\ similarity d' = Some sim /\ matched_by_query_chunk d' = Some i).
Proof.
  induction all_results as [|d l IH]; simpl; [intros H; now apply elem_of_nil in H|].
  destruct (bool_decide (get_none (chunk_id d) = cid)) eqn:E; simpl.
  - apply bool_decide_eq_true in E.
    destruct (Qlt_bool (get_num (similarity d)) sim); intros H;
      apply elem_of_cons in H as [->|H].
    + right. now repeat split.
    + left. now right.
    + left. now left.
    + destruct (IH H) as [Hl|Hr]; [left; now right | now right].
  - intros H. apply elem_of_cons in H as [->|H]; [left; now left|].
    destruct (IH H) as [Hl|Hr]; [left; now right | now right].
Qed.

(** No similarity goes down. *)
Lemma raise_similarity_mono (all_results : list chunk_dict) (cid : pyval)
    (sim : Q) (i : Z) (d : chunk_dict) :
  d ∈ all_results ->
  exists d', d' ∈ raise_similarity all_results cid sim i
             /\ cid_of d' = cid_of d
             /\ (get_num (similarity d) <= get_num (similarity d'))%Q.
Proof.
  induction all_results as [|d0 l IH]; simpl; [intros H; now apply elem_of_nil in H|].
  intros H. destruct (bool_decide (get_none (chunk_id d0) = cid) && _) eqn:E.
  - apply andb_prop in E as [_ E]. apply Qlt_bool_lt in E.
    apply elem_of_cons in H as [->|H].
    + eexists. split; [now left|]. split; [reflexivity|]. simpl. now apply Qlt_le_weak.
    + exists d. split; [now right|]. split; [reflexivity | apply Qle_refl].
  - apply elem_of_cons in H as [->|H].
    + exists d0. split; [now left|]. split; [reflexivity | apply Qle_refl].
    + destruct (IH H) as (d' & Hd' & Hc & Hs). exists d'. split; [now right | now split].
Qed.

(** The entry of [cid] ends at least as similar as the new hit. *)
Lemma raise_similarity_cover (all_results : list chunk_dict) (cid : pyval)
    (sim : Q) (i : Z) :
  cid ∈ map cid_of all_results ->
  exists d', d' ∈ raise_similarity all_results cid sim i
             /\ cid_of d' = cid /\ (sim <= get_num (similarity d'))%Q.
Proof.
  induction all_results as [|d0 l IH]; simpl; [intros H; now apply elem_of_nil in H|].
  intros H. destruct (bool_decide (get_none (chunk_id d0) = cid)) eqn:E; simpl.
  - apply bool_decide_eq_true in E.
    destruct (Qlt_bool (get_num (similarity d0)) sim) eqn:F.
    + eexists. split; [now left|]. split; [exact E | apply Qle_refl].
    + apply Qlt_bool_ge in F. exists d0. split; [now left | now split].
  - apply bool_decide_eq_false in E.
    apply elem_of_cons in H as [H|H]; [now elim E|].
    destruct (IH H) as (d' & Hd' & Hc & Hs). exists d'. split; [now right | now split].
Qed.

Lemma merge_hit_inv (seen : list (nat * hit)) (st : merge_state) (i : nat) (h : hit) :
  merge_inv seen st ->
  merge_inv (seen ++ [(i, h)]) (merge_hit exclude_doc_id (Z.of_nat i) st h).
Proof.
  destruct st as [all_results chunk_id_set].
  intros (Hnd & Hset & Hsrc & Hcov). simpl in Hnd, Hset, Hsrc, Hcov.
  assert (Hsrc' : forall d, d ∈ all_results ->
            exists i0 h0, (i0, h0) ∈ seen ++ [(i, h)] /\ excluded exclude_doc_id h0 = false
                          /\ entity_chunk_id h0 = cid_of d
                          /\ similarity d = Some (similarity_of h0)
                          /\ matched_by_query_chunk d = Some (Z.of_nat i0)).
  { intros d Hd. destruct (Hsrc d Hd) as (i0 & h0 & Hin & Hrest).
    exists i0, h0. split; [apply elem_of_app; now left | exact Hrest]. }
  unfold merge_hit. destruct (excluded exclude_doc_id h) eqn:Hex.
  - (* the hit is skipped *)
    split; [exact Hnd|]. split; [exact Hset|]. split; [exact Hsrc'|].
    intros j h' Hin Hex'. apply elem_of_app in Hin as [Hin|Hin]; [now apply (Hcov j h')|].
    apply list_elem_of_singleton in Hin as [= -> ->]. congruence.
  - destruct (bool_decide (entity_chunk_id h ∈ chunk_id_set)) eqn:Hknown.
    + (* a chunk that is already there *)
      apply bool_decide_eq_true in Hknown. apply Hset in Hknown.
      split; [|split; [|split]]; simpl.
      * now rewrite raise_similarity_cids.
      * intros cid. now rewrite raise_similarity_cids.
      * intros d' Hd'. apply raise_similarity_elem in Hd' as [Hd'|(Hc & Hs & Hm)].
        -- now apply Hsrc'.
        -- exists i, h. split; [apply elem_of_app; right; now left|]. now repeat split.
      * intros j h' Hin Hex'. apply elem_of_app in Hin as [Hin|Hin].
        -- destruct (Hcov j h' Hin Hex') as (d & Hd & Hc & Hs).
           destruct (raise_similarity_mono all_results (entity_chunk_id h)
                       (similarity_of h) (Z.of_nat i) d Hd) as (d' & Hd' & Hc' & Hs').
           exists d'. split; [exact Hd'|]. split; [congruence|].
           eapply Qle_trans; eassumption.
        -- apply list_elem_of_singleton in Hin as [= -> ->].
           destruct (raise_similarity_cover all_results (entity_chunk_id h)
                       (similarity_of h) (Z.of_nat i) Hknown) as (d' & Hd' & Hc' & Hs').
           now exists d'.
    + (* a new chunk *)
      apply bool_decide_eq_false in Hknown.
      assert (Hfresh : entity_chunk_id h ∉ map cid_of all_results)
        by (intros Hin; now apply Hset in Hin).
      split; [|split; [|split]]; simpl.
      * rewrite map_app. simpl. apply NoDup_app. split; [exact Hnd|].
        split; [|apply NoDup_singleton].
        intros x Hx Hx'. apply list_elem_of_singleton in Hx' as ->. now apply Hfresh.
      * intros cid. rewrite map_app, elem_of_app, elem_of_cons, Hset. simpl.
        rewrite list_elem_of_singleton. unfold cid_of at 2. simpl. tauto.
      * intros d Hd. apply elem_of_app in Hd as [Hd|Hd]; [now apply Hsrc'|].
        apply list_elem_of_singleton in Hd as ->.
        exists i, h. split; [apply elem_of_app; right; now left|]. now repeat split.
      * intros j h' Hin Hex'. apply elem_of_app in Hin as [Hin|Hin].
        -- destruct (Hcov j h' Hin Hex') as (d & Hd & Hrest).
           exists d. split; [apply elem_of_app; now left | exact Hrest].
        -- apply list_elem_of_singleton in Hin as [= -> ->].
           exists (new_result h (Z.of_nat i)).
           split; [apply elem_of_app; right; now left|].
           split; [reflexivity | apply Qle_refl].
Qed.

Lemma fold_merge_hit_inv (i : nat) (hits : list hit) (seen : list (nat * hit))
    (st : merge_state) :
  merge_inv seen st ->
  merge_inv (seen ++ map (pair i) hits)
    (fold_left (merge_hit exclude_doc_id (Z.of_nat i)) hits st).
Proof.
  revert seen st. induction hits as [|h hits IH]; intros seen st Hinv; simpl.
  - now rewrite app_nil_r.
  - replace (seen ++ (i, h) :: map (pair i) hits)
      with ((seen ++ [(i, h)]) ++ map (pair i) hits) by now rewrite <- app_assoc.
    apply IH. now apply merge_hit_inv.
Qed.

Lemma merge_fragments_inv (i : nat) (searches : list (list (list hit)))
    (seen : list (nat * hit)) (st : merge_state) :
  merge_inv seen st ->
  merge_inv (seen ++ indexed_hits i searches)
    (merge_fragments exclude_doc_id (Z.of_nat i) searches st).
Proof.
  revert i seen st. induction searches as [|results rest IH]; intros i seen st Hinv; simpl.
  - now rewrite app_nil_r.
  - rewrite app_assoc. replace (Z.of_nat i + 1) with (Z.of_nat (S i)) by lia.
    apply IH. now apply fold_merge_hit_inv.
Qed.

(** Every entry of [all_results], as the loops leave it, is the best hit
    of its chunk, and no chunk has two entries. *)
Lemma merge_fragments_best (searches : list (list (list hit))) :
  let all_results := fst (merge_fragments exclude_doc_id 0 searches ([], [])) in
  NoDup (map cid_of all_results)
  /\ forall d, d ∈ all_results -> best_of exclude_doc_id searches d.
Proof.
  intros all_results.
  destruct (merge_fragments_inv 0 searches [] ([], [])) as (Hnd & _ & Hsrc & Hcov).
  { split; [constructor|]. split; [reflexivity|]. split.
    - intros d H. now apply elem_of_nil in H.
    - intros i h H. now apply elem_of_nil in H. }
  simpl in Hnd, Hsrc, Hcov. fold all_results in Hnd, Hsrc, Hcov.
  split; [exact Hnd|]. intros d Hd.
  destruct (Hsrc d Hd) as (i & h & Hin & Hex & Hc & Hs & Hm).
  exists i, h. repeat (split; [assumption|]).
  intros j h' Hin' Hex' Hc'.
  destruct (Hcov j h' Hin' Hex') as (d2 & Hd2 & Hc2 & Hs2).
  assert (d2 = d) as ->.
  { apply (NoDup_map_inj cid_of all_results); try assumption. congruence. }
  rewrite Hs in Hs2. exact Hs2.
Qed.

End Merge.

Lemma best_of_fields (exclude_doc_id : pyval) (searches : list (list (list hit)))
    (d d' : chunk_dict) :
  chunk_id d' = chunk_id d -> similarity d' = similarity d ->
  matched_by_query_chunk d' = matched_by_query_chunk d ->
  best_of exclude_doc_id searches d -> best_of exclude_doc_id searches d'.
Proof.
  intros Hc Hs Hm (i & h & Hin & Hex & Hcid & Hsim & Hmat & Hmax).
  exists i, h. unfold cid_of in *. rewrite Hc, Hs, Hm. now repeat split.
Qed.

Lemma best_of_without_rerank (exclude_doc_id : pyval) (searches : list (list (list hit)))
    (d d' : chunk_dict) :
  without_rerank d' = without_rerank d ->
  best_of exclude_doc_id searches d -> best_of exclude_doc_id searches d'.
Proof.
  intros H. apply best_of_fields.
  - exact (f_equal chunk_id H).
  - exact (f_equal similarity H).
  - exact (f_equal matched_by_query_chunk H).
Qed.

Lemma merged_results_best (exclude_doc_id : pyval) (searches : list (list (list hit))) :
  NoDup (map cid_of (merged_results exclude_doc_id searches))
  /\ forall d, d ∈ merged_results exclude_doc_id searches ->
               best_of exclude_doc_id searches d.
Proof.
  destruct (merge_fragments_best exclude_doc_id searches) as [Hnd Hbest].
  unfold merged_results, sort_desc. split.
  - now rewrite stable_sort_perm.
  - intros d Hd. rewrite stable_sort_perm in Hd. now apply Hbest.
Qed.

(** The store of fresh dictionaries holds the list itself. *)
Lemma deref_store_of (s : nat) (l : list chunk_dict) :
  map (deref (map_seq s l)) (seq s (length l)) = l.
Proof.
  revert s. induction l as [|x l IH]; intros s; simpl; [reflexivity|].
  f_equal.
  - unfold deref. now rewrite lookup_insert_eq.
  - transitivity (map (deref (map_seq (S s) l)) (seq (S s) (length l))); [|apply IH].
    apply map_ext_in. intros r Hr.
    apply in_seq in Hr. unfold deref. rewrite lookup_insert_ne by lia. reflexivity.
Qed.

Lemma rerank_returned_sublist (self : BCEReranker) (h : store) (query : str)
    (results : list nat) (top_k qm pm : Z) (out : outcome) :
  rerank self h query results top_k qm pm = Some out ->
  returned out `sublist_of` list_after out.
Proof.
  unfold rerank. destruct (enabled self); simpl.
  - destruct (bool_decide (results = [])).
    + intros [= <-]. simpl. apply sublist_nil_l.
    + destruct (build_pairs _ _ _ _) as [pairs|]; [|discriminate].
      destruct (predict self pairs) as [scores|].
      * destruct (assign_scores h results 0 scores) as [h' [|]];
          intros [= <-]; simpl; apply slice_to_sublist.
      * intros [= <-]. simpl. apply slice_to_sublist.
  - intros [= <-]. simpl. apply slice_to_sublist.
Qed.

(** C7. In the result of [search_chunks_multi_query] no chunk id occurs
    twice, and every entry carries the highest similarity that any
    fragment found for its chunk, with the index of a fragment that found
    it with that similarity. *)
Theorem multi_query_keeps_best_hit (enable_chunking : bool)
    (get_reranker : option BCEReranker) (query_chunks : list str)
    (searches : list (list (list hit))) (exclude_doc_id : pyval)
    (use_reranker : bool) (final_top_k : option Z) :
  let result :=
    search_chunks_multi_query enable_chunking get_reranker query_chunks searches
      exclude_doc_id use_reranker final_top_k in
  NoDup (map cid_of result)
  /\ forall d, d ∈ result ->
       exists i h,
         found searches i h
         /\ excluded exclude_doc_id h = false
         /\ entity_chunk_id h = cid_of d
         /\ similarity d = Some (similarity_of h)
         /\ matched_by_query_chunk d = Some (Z.of_nat i)
         /\ forall j h',
              found searches j h' -> excluded exclude_doc_id h' = false ->
              entity_chunk_id h' = entity_chunk_id h ->
              (similarity_of h' <= similarity_of h)%Q.
Proof.
  intros result. change (NoDup (map cid_of result)
                         /\ forall d, d ∈ result -> best_of exclude_doc_id searches d).
  subst result. unfold search_chunks_multi_query.
  assert (Hnil : NoDup (map cid_of []) /\
                 forall d, d ∈ [] -> best_of exclude_doc_id searches d).
  { split; [constructor|]. intros d H. now apply elem_of_nil in H. }
  destruct (negb enable_chunking); [exact Hnil|].
  destruct (bool_decide (query_chunks = [])); [exact Hnil|]. clear Hnil.
  destruct (merged_results_best exclude_doc_id searches) as [Hnd Hbest].
  set (all_results := merged_results exclude_doc_id searches) in *.
  assert (Hslice : forall k,
             NoDup (map cid_of (slice_to all_results k))
             /\ forall d, d ∈ slice_to all_results k -> best_of exclude_doc_id searches d).
  { intros k. pose proof (slice_to_sublist all_results k) as Hsub. split.
    - apply (sublist_NoDup _ (map cid_of all_results)); [exact Hnd|].
      now apply fmap_sublist.
    - intros d Hd. apply Hbest. now apply (elem_of_sublist _ _ _ Hd). }
  destruct (use_reranker && _ && _).
  - destruct (match get_reranker with Some _ => _ | None => _ end) as [out|] eqn:Hrun;
      [|apply Hslice].
    destruct get_reranker as [reranker|]; [|discriminate].
    destruct (rerank_frame _ _ _ _ _ _ _ _ Hrun) as (Hperm & _ & Hin).
    pose proof (rerank_returned_sublist _ _ _ _ _ _ _ _ Hrun) as Hsub.
    pose proof (deref_store_of 0 all_results) as Hstore. fold (store_of all_results) in Hstore.
    assert (Hcid : forall r, cid_of (deref (store_after out) r)
                             = cid_of (deref (store_of all_results) r)).
    { intros r. exact (f_equal cid_of (Hin r)). }
    split.
    + rewrite map_map. rewrite (map_ext _ _ Hcid).
      apply (sublist_NoDup _ (map (fun r => cid_of (deref (store_of all_results) r))
                                (list_after out))).
      * rewrite Hperm. rewrite <- map_map. rewrite Hstore. exact Hnd.
      * now apply fmap_sublist.
    + intros d Hd. apply list_elem_of_fmap in Hd as (r & -> & Hr).
      apply (best_of_without_rerank _ _ (deref (store_of all_results) r)); [apply Hin|].
      apply Hbest.
      assert (Hm : deref (store_of all_results) r
                   ∈ map (deref (store_of all_results)) (seq 0 (length all_results))).
      { apply list_elem_of_fmap_2. rewrite <- Hperm. now apply (elem_of_sublist _ _ _ Hr). }
      now rewrite Hstore in Hm.
  - destruct (negb _); [apply Hslice | now split].
Qed.


Lemma multi_query_keeps_best_hit_witness :
  let result :=
    search_chunks_multi_query true (Some length_reranker) [lit "q1"; lit "q2"]
      example_searches PyNone true (Some 2) in
  NoDup (map cid_of result)
  /\ exists d i h,
       d ∈ result
       /\ cid_of d = PyStr (lit "c1")
       /\ found example_searches i h
       /\ similarity d = Some (similarity_of h)
       /\ matched_by_query_chunk d = Some (Z.of_nat i).
Proof.
  intros result.
  destruct (multi_query_keeps_best_hit true (Some length_reranker) [lit "q1"; lit "q2"]
              example_searches PyNone true (Some 2)) as [Hnd Hbest].
  fold result in Hnd, Hbest. split; [exact Hnd|].
  assert (Hd : hd empty_dict result ∈ result) by (vm_compute; left).
  destruct (Hbest _ Hd) as (i & h & Hfound & _ & _ & Hsim & Hm & _).
  exists (hd empty_dict result), i, h.
  split; [exact Hd|]. split; [vm_compute; reflexivity|]. now repeat split.
Defined.

End MultiQuerySpec.

(** ** Merge by document *)

Module MergeSpec.
Import PyStr PyList Cand Merge PyListFacts ChunkingSpec.

Lemma total_members_app (a b : list merged_doc) :
  total_members (a ++ b) = (total_members a + total_members b)%nat.
Proof. unfold total_members. now rewrite map_app, concat_app, length_app. Qed.

Lemma members_perm (a b : list merged_doc) :
  a ≡ₚ b -> concat (map chunks a) ≡ₚ concat (map chunks b).
Proof.
  induction 1 as [|x a b _ IH|x y a|a b c _ IH1 _ IH2]; simpl.
  - reflexivity.
  - now rewrite IH.
  - solve_Permutation.
  - now rewrite IH1.
Qed.

Lemma total_members_perm (a b : list merged_doc) :
  a ≡ₚ b -> total_members a = total_members b.
Proof. intros H. unfold total_members. now rewrite (members_perm a b H). Qed.

(** *** The first loop *)

(** Appending to the group of [id] adds one candidate to the groups. *)
Lemma group_append_perm (docs_by_id : list (str * list chunk_dict)) (id : str)
    (chunk : chunk_dict) :
  concat (dict_values
            (dict_set docs_by_id id (default [] (dict_get docs_by_id id) ++ [chunk])))
  ≡ₚ concat (dict_values docs_by_id) ++ [chunk].
Proof.
  destruct (dict_get docs_by_id id) as [old|] eqn:E.
  - change (default [] (Some old)) with old.
    destruct (dict_set_values_known docs_by_id id old (old ++ [chunk]) E)
      as (l1 & l2 & -> & ->).
    rewrite !concat_app. simpl. solve_Permutation.
  - change (default [] None ++ [chunk]) with [chunk].
    rewrite dict_set_values_new by exact E. rewrite concat_app. simpl.
    reflexivity.
Qed.

Lemma group_fold_perm (input : list chunk_dict)
    (st : list (str * list chunk_dict) * list chunk_dict) :
  let st' := fold_left group_step input st in
  concat (dict_values (fst st')) ++ snd st'
  ≡ₚ (concat (dict_values (fst st)) ++ snd st) ++ input.
Proof.
  revert st. induction input as [|c input IH]; intros [g w]; simpl.
  - now rewrite app_nil_r.
  - rewrite IH. unfold group_step.
    destruct (usable_doc_id (get_none (doc_id c))) as [id|]; simpl.
    + rewrite group_append_perm. solve_Permutation.
    + solve_Permutation.
Qed.

(** The candidates set aside are those without a usable [doc_id]. *)
Lemma group_fold_without (input : list chunk_dict)
    (st : list (str * list chunk_dict) * list chunk_dict) (c : chunk_dict) :
  c ∈ snd (fold_left group_step input st)
  <-> c ∈ snd st \/ (c ∈ input /\ usable_doc_id (get_none (doc_id c)) = None).
Proof.
  revert st. induction input as [|c0 input IH]; intros [g w]; simpl.
  - split; [now left | intros [H|[H _]]; [exact H | now apply elem_of_nil in H]].
  - rewrite IH. unfold group_step.
    destruct (usable_doc_id (get_none (doc_id c0))) as [id|] eqn:E; simpl.
    + rewrite elem_of_cons. split; [intros [H|[H1 H2]]; [now left | right; split; [now right | exact H2]]|].
      intros [H|[[->|H1] H2]]; [now left | congruence | right; now split].
    + rewrite elem_of_app, list_elem_of_singleton, elem_of_cons.
      split; [intros [[H| ->]|[H1 H2]]|intros [H|[[->|H1] H2]]]; tauto.
Qed.

(** The keys of the groups are usable. *)
Lemma group_fold_keys (input : list chunk_dict)
    (st : list (str * list chunk_dict) * list chunk_dict) :
  Forall (fun id => strip id <> []) (map fst (fst st)) ->
  Forall (fun id => strip id <> []) (map fst (fst (fold_left group_step input st))).
Proof.
  revert st. induction input as [|c input IH]; intros [g w] Hg; simpl; [exact Hg|].
  apply IH. unfold group_step.
  destruct (usable_doc_id (get_none (doc_id c))) as [id|] eqn:E; simpl; [|exact Hg].
  apply List.Forall_forall. intros k Hk. apply list_elem_of_In in Hk.
  apply elem_of_dict_set_keys in Hk as [->|Hk].
  - unfold usable_doc_id in E. destruct (get_none (doc_id c)) as [|s]; [discriminate|].
    destruct (nonempty s && nonempty (strip s)) eqn:F; [|discriminate].
    injection E as <-. apply andb_prop in F as [_ F]. intros Hs. now rewrite Hs in F.
  - rewrite List.Forall_forall in Hg. apply Hg. now apply list_elem_of_In.
Qed.

(** *** One candidate per chunk id *)

Lemma unique_fold_length (l : list chunk_dict) (d : list (pyval * chunk_dict)) :
  (length (fold_left unique_step l d) <= length d + length l)%nat.
Proof.
  revert d. induction l as [|c l IH]; intros d; simpl; [lia|].
  specialize (IH (unique_step d c)). unfold unique_step in *.
  destruct (dict_get d (get_none (chunk_id c))) as [kept|] eqn:E.
  - destruct (Qlt_bool _ _); [|lia]. rewrite dict_set_length, E in IH. lia.
  - rewrite dict_set_length, E in IH. lia.
Qed.

Lemma unique_fold_fresh (l : list chunk_dict) (d : list (pyval * chunk_dict)) :
  NoDup (map cid_of l) -> (forall c, c ∈ l -> cid_of c ∉ map fst d) ->
  fold_left unique_step l d = d ++ map (fun c => (cid_of c, c)) l.
Proof.
  revert d. induction l as [|c l IH]; intros d Hnd Hdis; simpl.
  - now rewrite app_nil_r.
  - apply NoDup_cons in Hnd as [Hc Hnd].
    assert (Hget : dict_get d (cid_of c) = None) by (apply dict_get_None, Hdis; now left).
    unfold unique_step at 2. fold (cid_of c). rewrite Hget.
    rewrite dict_set_new by exact Hget.
    rewrite IH; [now rewrite <- app_assoc | exact Hnd |].
    intros c' Hc' Hin. rewrite map_app in Hin. apply elem_of_app in Hin as [Hin|Hin].
    + revert Hin. apply Hdis. now right.
    + apply list_elem_of_singleton in Hin. simpl in Hin. elim Hc. rewrite <- Hin.
      now apply list_elem_of_fmap_2.
Qed.

Lemma merge_group_length (id : str) (l : list chunk_dict) :
  (length (chunks (merge_group id l)) <= length l)%nat.
Proof.
  simpl. unfold sort_asc. rewrite stable_sort_length. unfold dict_values.
  rewrite length_map. apply (unique_fold_length l []).
Qed.

Lemma merge_group_distinct (id : str) (l : list chunk_dict) :
  NoDup (map cid_of l) -> chunks (merge_group id l) ≡ₚ l.
Proof.
  intros Hnd. simpl. unfold sort_asc. rewrite stable_sort_perm.
  rewrite unique_fold_fresh; [| exact Hnd | intros c _ H; now apply elem_of_nil in H].
  unfold dict_values. simpl. rewrite map_map. simpl. now rewrite map_id.
Qed.

(** *** The results before the second pass *)

Lemma groups_total (g : list (str * list chunk_dict)) :
  (total_members (map (fun p => merge_group (fst p) (snd p)) g)
   <= length (concat (dict_values g)))%nat.
Proof.
  unfold total_members. induction g as [|[id l] g IH]; simpl; [lia|].
  rewrite !length_app. pose proof (merge_group_length id l). simpl in *. lia.
Qed.

Lemma singletons_members (w : list chunk_dict) :
  concat (map chunks (map singleton_doc w)) = w.
Proof. induction w as [|c w IH]; simpl; [reflexivity | now rewrite IH]. Qed.

Lemma first_pass_total (input : list chunk_dict) :
  (total_members (first_pass input) <= length input)%nat.
Proof.
  unfold first_pass. pose proof (group_fold_perm input ([], [])) as Hperm.
  destruct (fold_left group_step input ([], [])) as [g w]. simpl in Hperm.
  unfold sort_desc. rewrite (total_members_perm _ _ (stable_sort_perm _ _)).
  rewrite total_members_app. pose proof (groups_total g) as Hg.
  unfold total_members at 2. rewrite singletons_members.
  apply Permutation_length in Hperm. rewrite length_app in Hperm. lia.
Qed.

(** *** The second pass *)

Lemma combine_length (id : str) (existing doc : merged_doc) :
  (length (chunks (combine id existing doc))
   <= length (chunks existing) + length (chunks doc))%nat.
Proof.
  simpl. unfold dict_values. rewrite length_map.
  etransitivity; [apply dict_update_length|].
  pose proof (dict_of_list_length (fun c => get_none (chunk_id c)) (chunks existing)).
  pose proof (dict_of_list_length (fun c => get_none (chunk_id c)) (chunks doc)). lia.
Qed.

Lemma dedup_step_total (unique_docs unique_docs' : list (str * merged_doc))
    (doc : merged_doc) :
  dedup_step unique_docs doc = Some unique_docs' ->
  (total_members (dict_values unique_docs')
   <= total_members (dict_values unique_docs) + length (chunks doc))%nat.
Proof.
  unfold dedup_step. destruct (m_doc_id doc) as [|s]; [discriminate|].
  destruct (nonempty (strip s)); [|intros [= <-]; lia].
  destruct (dict_get unique_docs (strip s)) as [existing|] eqn:E; intros [= <-].
  - destruct (dict_set_values_known unique_docs (strip s) existing
                (combine (strip s) existing doc) E) as (l1 & l2 & -> & ->).
    rewrite !total_members_app. unfold total_members. simpl. rewrite !length_app.
    pose proof (combine_length (strip s) existing doc). simpl in *. lia.
  - rewrite dict_set_values_new by exact E. rewrite total_members_app.
    unfold total_members at 2. simpl. rewrite app_nil_r. lia.
Qed.

Lemma second_pass_total (merged_docs : list merged_doc)
    (unique_docs unique_docs' : list (str * merged_doc)) :
  second_pass unique_docs merged_docs = Some unique_docs' ->
  (total_members (dict_values unique_docs')
   <= total_members (dict_values unique_docs) + total_members merged_docs)%nat.
Proof.
  revert unique_docs. induction merged_docs as [|doc rest IH]; intros ud; simpl.
  - intros [= <-]. lia.
  - destruct (dedup_step ud doc) as [ud1|] eqn:E; [|discriminate].
    intros H. apply IH in H. apply dedup_step_total in E.
    unfold total_members in *. simpl. rewrite length_app. lia.
Qed.

(** No call returns more members than it was given candidates. *)
Lemma merge_total_le (input : list chunk_dict) (docs : list merged_doc) :
  merge_chunks_by_doc_id input = Some docs ->
  (total_members docs <= length input)%nat.
Proof.
  unfold merge_chunks_by_doc_id. destruct input as [|c input]; [intros [= <-]; cbv; lia|].
  destruct (second_pass [] (first_pass (c :: input))) as [ud|] eqn:E; [|discriminate].
  intros [= <-]. unfold sort_desc. rewrite (total_members_perm _ _ (stable_sort_perm _ _)).
  apply second_pass_total in E. pose proof (first_pass_total (c :: input)).
  unfold total_members in *. simpl in *. lia.
Qed.


(** *** Candidates with pairwise different chunk ids *)

Lemma NoDup_map_perm {A B : Type} (f : A -> B) (l l' : list A) :
  l ≡ₚ l' -> NoDup (map f l) -> NoDup (map f l').
Proof. intros H. now rewrite H. Qed.

Lemma NoDup_map_app_l {A B : Type} (f : A -> B) (l1 l2 : list A) :
  NoDup (map f (l1 ++ l2)) -> NoDup (map f l1).
Proof. rewrite map_app. intros H. now apply NoDup_app in H as [H _]. Qed.

Lemma NoDup_map_app_r {A B : Type} (f : A -> B) (l1 l2 : list A) :
  NoDup (map f (l1 ++ l2)) -> NoDup (map f l2).
Proof. rewrite map_app. intros H. now apply NoDup_app in H as (_ & _ & H). Qed.

Lemma groups_members_perm (g : list (str * list chunk_dict)) :
  NoDup (map cid_of (concat (dict_values g))) ->
  concat (map chunks (map (fun p => merge_group (fst p) (snd p)) g))
  ≡ₚ concat (dict_values g).
Proof.
  induction g as [|[id l] g IH]; intros Hnd; [reflexivity|].
  change (dict_values ((id, l) :: g)) with (l :: dict_values g) in *.
  cbn [map concat fst snd] in *.
  rewrite IH by (now apply NoDup_map_app_r in Hnd).
  f_equiv. apply merge_group_distinct. now apply NoDup_map_app_l in Hnd.
Qed.

Lemma first_pass_members (input : list chunk_dict) :
  NoDup (map cid_of input) -> concat (map chunks (first_pass input)) ≡ₚ input.
Proof.
  intros Hnd. unfold first_pass. pose proof (group_fold_perm input ([], [])) as Hperm.
  destruct (fold_left group_step input ([], [])) as [g w]. simpl in Hperm.
  unfold sort_desc. rewrite (members_perm _ _ (stable_sort_perm _ _)).
  rewrite map_app, concat_app, singletons_members.
  rewrite groups_members_perm; [exact Hperm|].
  rewrite <- Hperm in Hnd. now apply NoDup_map_app_l in Hnd.
Qed.

(** Where the results of the first pass come from. *)
Lemma first_pass_origin (input : list chunk_dict) (doc : merged_doc) :
  doc ∈ first_pass input ->
  (exists id l, strip id <> [] /\ doc = merge_group id l)
  \/ (exists c, c ∈ input /\ usable_doc_id (get_none (doc_id c)) = None
                /\ doc = singleton_doc c).
Proof.
  unfold first_pass.
  pose proof (group_fold_keys input ([], []) ltac:(constructor)) as Hkeys.
  pose proof (group_fold_without input ([], [])) as Hw.
  destruct (fold_left group_step input ([], [])) as [g w]. simpl in Hkeys, Hw.
  unfold sort_desc. rewrite stable_sort_perm. intros Hin.
  apply elem_of_app in Hin as [Hin|Hin].
  - left. apply list_elem_of_fmap in Hin as ([id l] & -> & Hin). exists id, l.
    split; [|reflexivity]. rewrite List.Forall_forall in Hkeys. apply Hkeys.
    apply list_elem_of_In. apply list_elem_of_fmap. now exists (id, l).
  - right. apply list_elem_of_fmap in Hin as (c & -> & Hin). exists c.
    apply Hw in Hin as [Hin|[Hin Hu]]; [now apply elem_of_nil in Hin | now repeat split].
Qed.


Lemma combine_distinct (id : str) (existing doc : merged_doc) :
  NoDup (map cid_of (chunks existing ++ chunks doc)) ->
  chunks (combine id existing doc) = chunks existing ++ chunks doc.
Proof.
  intros Hnd. cbn [chunks combine]. fold cid_of.
  assert (He : NoDup (map cid_of (chunks existing))) by now apply NoDup_map_app_l in Hnd.
  assert (Hd : NoDup (map cid_of (chunks doc))) by now apply NoDup_map_app_r in Hnd.
  change (fun c => get_none (chunk_id c)) with cid_of.
  rewrite !dict_of_list_fresh by assumption.
  rewrite dict_update_fresh.
  - unfold dict_values. rewrite map_app, !map_map. simpl. now rewrite !map_id.
  - rewrite map_map. simpl. exact Hd.
  - intros k Hk Hk'. rewrite map_map in Hk, Hk'. simpl in Hk, Hk'.
    rewrite map_app in Hnd. apply NoDup_app in Hnd as (_ & Hdis & _).
    now apply (Hdis k).
Qed.

Lemma members_middle (l1 l2 : list merged_doc) (x : merged_doc) :
  concat (map chunks (l1 ++ x :: l2))
  = concat (map chunks l1) ++ chunks x ++ concat (map chunks l2).
Proof. now rewrite map_app, concat_app. Qed.

Lemma members_snoc (l : list merged_doc) (x : merged_doc) :
  concat (map chunks (l ++ [x])) = concat (map chunks l) ++ chunks x.
Proof. rewrite map_app, concat_app. simpl. now rewrite app_nil_r. Qed.

(** The second pass on results that it can place (a [doc_id] that is a
    string and not blank) and whose members have pairwise different
    chunk ids: it returns, and it keeps every member. *)
Lemma second_pass_members (rest : list merged_doc) (unique_docs : list (str * merged_doc)) :
  Forall (fun doc => exists s, m_doc_id doc = PyStr s /\ strip s <> []) rest ->
  NoDup (map cid_of (concat (map chunks (dict_values unique_docs))
                     ++ concat (map chunks rest))) ->
  exists unique_docs',
    second_pass unique_docs rest = Some unique_docs'
    /\ concat (map chunks (dict_values unique_docs'))
       ≡ₚ concat (map chunks (dict_values unique_docs)) ++ concat (map chunks rest).
Proof.
  intros Hgood. revert unique_docs.
  induction Hgood as [|doc rest (s & Hs & Hne) _ IH]; intros ud Hnd.
  - exists ud. split; [reflexivity | now rewrite app_nil_r].
  - change (concat (map chunks (doc :: rest)))
      with (chunks doc ++ concat (map chunks rest)) in *.
    cbn [second_pass]. unfold dedup_step. rewrite Hs.
    destruct (strip s) as [|a id'] eqn:Hid; [congruence|]. cbn [nonempty].
    set (id := a :: id') in *.
    destruct (dict_get ud id) as [existing|] eqn:E.
    + destruct (dict_set_values_known ud id existing (combine id existing doc) E)
        as (l1 & l2 & Hv & Hv').
      rewrite Hv, members_middle in Hnd.
      assert (Hcomb : chunks (combine id existing doc) = chunks existing ++ chunks doc).
      { apply combine_distinct.
        eapply (NoDup_map_app_l cid_of _ (concat (map chunks l1) ++ concat (map chunks l2)
                                          ++ concat (map chunks rest))).
        eapply NoDup_map_perm; [|exact Hnd]. solve_Permutation. }
      destruct (IH (dict_set ud id (combine id existing doc))) as (ud' & Hrun & Hperm).
      * rewrite Hv', members_middle, Hcomb.
        eapply NoDup_map_perm; [|exact Hnd]. solve_Permutation.
      * exists ud'. split; [exact Hrun|]. rewrite Hperm, Hv', Hv, !members_middle, Hcomb.
        solve_Permutation.
    + destruct (IH (dict_set ud id doc)) as (ud' & Hrun & Hperm).
      * rewrite dict_set_values_new by exact E. rewrite members_snoc.
        eapply NoDup_map_perm; [|exact Hnd]. solve_Permutation.
      * exists ud'. split; [exact Hrun|]. rewrite Hperm.
        rewrite dict_set_values_new by exact E. rewrite members_snoc.
        solve_Permutation.
Qed.

(** The example of the spec: one result, the passages in the order of
    their index, and a mean similarity of 0.6. *)
Example spec_example_merge :
  option_map
    (map (fun m => (map (fun c => get_int (chunk_index c)) (chunks m),
                    chunk_count m, Qred (avg_similarity m))))
    (merge_chunks_by_doc_id spec_input)
  = Some [([0; 1; 2; 3; 4], 5, (3 # 5)%Q)].
Proof. vm_compute. reflexivity. Qed.

(** C6, as the code has it. The groups never hold more members than the
    input has candidates; and for candidates with pairwise different
    chunk ids, each with a usable [doc_id] or a [chunk_id] that is not
    blank, the call returns and the groups hold exactly the input
    candidates, each once. *)
Theorem merge_members (input : list chunk_dict) :
  (forall docs, merge_chunks_by_doc_id input = Some docs ->
                (total_members docs <= length input)%nat)
  /\ (NoDup (map cid_of input) -> Forall placeable input ->
      exists docs,
        merge_chunks_by_doc_id input = Some docs
        /\ concat (map chunks docs) ≡ₚ input
        /\ total_members docs = length input).
Proof.
  split; [intros docs; apply merge_total_le|].
  intros Hnd Hplace.
  assert (Hgoal : exists docs, merge_chunks_by_doc_id input = Some docs
                               /\ concat (map chunks docs) ≡ₚ input).
  { unfold merge_chunks_by_doc_id. destruct input as [|c0 input0] eqn:Hinput;
      [now exists []|]. rewrite <- Hinput in *. clear Hinput c0 input0.
    destruct (second_pass_members (first_pass input) []) as (ud & Hrun & Hperm).
    - apply List.Forall_forall. intros doc Hdoc. apply list_elem_of_In in Hdoc.
      apply first_pass_origin in Hdoc as [(id & l & Hid & ->)|(c & Hc & Hu & ->)].
      + now exists id.
      + rewrite List.Forall_forall in Hplace. apply list_elem_of_In in Hc.
        exact (Hplace c Hc Hu).
    - simpl. now rewrite first_pass_members.
    - rewrite Hrun. eexists. split; [reflexivity|].
      unfold sort_desc. rewrite (members_perm _ _ (stable_sort_perm _ _)).
      rewrite Hperm. simpl. now apply first_pass_members. }
  destruct Hgoal as (docs & Hrun & Hperm). exists docs.
  split; [exact Hrun|]. split; [exact Hperm|].
  unfold total_members. now rewrite Hperm.
Qed.

Lemma merge_members_witness :
  exists docs,
    merge_chunks_by_doc_id colliding_input = Some docs
    /\ length docs = 1%nat
    /\ total_members docs = 3%nat.
Proof.
  destruct (proj2 (merge_members colliding_input)) as (docs & Hrun & _ & Htotal).
  - vm_compute. repeat constructor; intros H; repeat (apply elem_of_cons in H as [H|H]; [discriminate H|]); now apply elem_of_nil in H.
  - unfold colliding_input. repeat constructor; unfold placeable; cbn.
    + discriminate.
    + discriminate.
    + intros _. eexists. split; [reflexivity | discriminate].
  - exists docs. split; [exact Hrun|]. split; [|exact Htotal].
    vm_compute in Hrun. injection Hrun as <-. reflexivity.
Defined.

(** C6, as the spec has it, fails: two hits on the same passage count
    once. *)
Lemma merge_completeness_counterexample :
  ~ (forall input docs, merge_chunks_by_doc_id input = Some docs ->
                        total_members docs = length input).
Proof.
  intros H. specialize (H repeated_input _ eq_refl). vm_compute in H. discriminate H.
Qed.


(** *** Results with the same id *)

Lemma combine_covers (id : str) (existing doc : merged_doc) (c : chunk_dict) :
  c ∈ chunks existing \/ c ∈ chunks doc -> covers (combine id existing doc) c.
Proof.
  intros Hc. unfold covers. cbn [chunks combine].
  change (fun c => get_none (chunk_id c)) with cid_of.
  set (D := dict_update (dict_of_list cid_of (chunks existing))
                        (dict_of_list cid_of (chunks doc))).
  assert (HD : keyed cid_of D)
    by (apply keyed_dict_update; apply keyed_dict_of_list).
  assert (Hk : cid_of c ∈ map fst D).
  { apply dict_update_keys. rewrite !dict_of_list_keys.
    destruct Hc as [Hc|Hc]; [left | right]; now apply list_elem_of_fmap_2. }
  rewrite <- (keyed_values cid_of D HD) in Hk.
  apply list_elem_of_fmap in Hk as (c' & Hcid & Hc'). now exists c'.
Qed.

Lemma combine_members (id : str) (existing doc : merged_doc) (c : chunk_dict) :
  c ∈ chunks (combine id existing doc) -> c ∈ chunks existing \/ c ∈ chunks doc.
Proof.
  cbn [chunks combine]. unfold dict_values. intros Hc.
  apply list_elem_of_fmap in Hc as ([k v] & -> & Hin). simpl.
  apply elem_of_dict_update in Hin as [Hin|Hin];
    apply elem_of_dict_of_list in Hin; [now left | now right].
Qed.

Lemma combine_consistent (id : str) (existing doc : merged_doc) :
  consistent (combine id existing doc).
Proof. split; reflexivity. Qed.

Lemma combine_strip_id (s : str) (existing doc : merged_doc) :
  strip_id (combine (strip s) existing doc) = strip s.
Proof. unfold strip_id. simpl. apply strip_idem. Qed.

Lemma merge_group_consistent (id : str) (l : list chunk_dict) :
  consistent (merge_group id l).
Proof. split; reflexivity. Qed.

Lemma singleton_consistent (c : chunk_dict) : consistent (singleton_doc c).
Proof.
  split; [|reflexivity]. unfold mean_similarity, sum.
  cbn [chunks singleton_doc avg_similarity map fold_left length].
  unfold Qdiv. change (/ inject_Z (Z.of_nat 1))%Q with 1%Q. ring.
Qed.

Lemma first_pass_consistent (input : list chunk_dict) (doc : merged_doc) :
  doc ∈ first_pass input -> consistent doc.
Proof.
  intros H. apply first_pass_origin in H as [(id & l & _ & ->)|(c & _ & _ & ->)].
  - apply merge_group_consistent.
  - apply singleton_consistent.
Qed.

Lemma covers_trans (m m' : merged_doc) (c : chunk_dict) :
  covers m c -> (forall c', c' ∈ chunks m -> covers m' c') -> covers m' c.
Proof.
  intros (c1 & Hc1 & Hk1) Hall. destruct (Hall c1 Hc1) as (c2 & Hc2 & Hk2).
  exists c2. split; [exact Hc2 | congruence].
Qed.

Lemma count_id_app (k : str) (a b : list merged_doc) :
  count_id k (a ++ b) = (count_id k a + count_id k b)%nat.
Proof. unfold count_id. now rewrite List.filter_app, length_app. Qed.

Lemma count_id_elem (k : str) (seen : list merged_doc) (d : merged_doc) :
  d ∈ seen -> strip_id d = k -> (1 <= count_id k seen)%nat.
Proof.
  intros Hd Hk. apply list_elem_of_In in Hd. unfold count_id.
  assert (Hin : In d (List.filter (fun d => bool_decide (strip_id d = k)) seen)).
  { apply filter_In. split; [exact Hd | now apply bool_decide_eq_true]. }
  destruct (List.filter _ seen); [destruct Hin | simpl; lia].
Qed.

Lemma dedup_step_inv (seen : list merged_doc) (unique_docs unique_docs' : list (str * merged_doc))
    (doc : merged_doc) :
  pass_inv seen unique_docs -> consistent doc ->
  dedup_step unique_docs doc = Some unique_docs' ->
  pass_inv (seen ++ [doc]) unique_docs'.
Proof.
  intros (Hnd & Hent & Hcov & Hmem & Hcnt) Hcons. unfold dedup_step.
  destruct (m_doc_id doc) as [|s] eqn:Hs; [discriminate|].
  assert (Hid : strip_id doc = strip s) by (unfold strip_id; now rewrite Hs).
  assert (Hcov' : forall ud1,
            (forall k, k <> strip s -> dict_get ud1 k = dict_get unique_docs k) ->
            forall doc', doc' ∈ seen -> strip_id doc' <> [] -> strip_id doc' <> strip s ->
              exists m, dict_get ud1 (strip_id doc') = Some m
                        /\ forall c, c ∈ chunks doc' -> covers m c).
  { intros ud1 Hsame doc' Hd' Hne Hne'. rewrite Hsame by exact Hne'. now apply Hcov. }
  assert (Hmem' : forall k m c, (k, m) ∈ unique_docs -> c ∈ chunks m ->
            exists doc', doc' ∈ seen ++ [doc] /\ strip_id doc' = k /\ c ∈ chunks doc').
  { intros k m c Hin Hc. destruct (Hmem k m c Hin Hc) as (doc' & Hd' & Hrest).
    exists doc'. split; [apply elem_of_app; now left | exact Hrest]. }
  assert (Hcnt' : forall k m, (k, m) ∈ unique_docs ->
            m ∈ seen ++ [doc] \/ (2 <= count_id k (seen ++ [doc]))%nat).
  { intros k m Hin. rewrite count_id_app.
    destruct (Hcnt k m Hin) as [H|H]; [left; apply elem_of_app; now left | right; lia]. }
  assert (Hself : (count_id (strip s) [doc] = 1)%nat).
  { unfold count_id. simpl. rewrite Hid.
    destruct (bool_decide (strip s = strip s)) eqn:B; [reflexivity|].
    now apply bool_decide_eq_false in B. }
  destruct (nonempty (strip s)) eqn:Hne.
  - assert (Hne' : strip s <> []) by (intros E; now rewrite E in Hne).
    destruct (dict_get unique_docs (strip s)) as [existing|] eqn:E; intros [= <-].
    + (* the id is known: the two results become one *)
      pose proof (dict_get_Some_in _ _ _ E) as Hex.
      split; [now apply dict_set_NoDup|]. split; [|split; [|split]].
      * intros k m Hin. apply elem_of_dict_set in Hin as [[= -> ->]|Hin]; [|now apply Hent].
        split; [apply combine_strip_id|]. split; [exact Hne' | apply combine_consistent].
      * intros doc' Hd' Hne2. destruct (decide (strip_id doc' = strip s)) as [Heq|Hneq].
        -- rewrite Heq, dict_get_set. destruct (decide (strip s = strip s)); [|congruence].
           eexists. split; [reflexivity|]. intros c Hc.
           apply elem_of_app in Hd' as [Hd'|Hd'].
           ++ destruct (Hcov doc' Hd' Hne2) as (m & Hget & Hall).
              rewrite Heq, E in Hget. injection Hget as <-.
              apply (covers_trans existing); [now apply Hall|].
              intros c' Hc'. apply combine_covers. now left.
           ++ apply list_elem_of_singleton in Hd' as ->. apply combine_covers. now right.
        -- apply elem_of_app in Hd' as [Hd'|Hd'].
           ++ apply Hcov'; try assumption. intros k Hk. rewrite dict_get_set.
              destruct (decide (strip s = k)); [congruence | reflexivity].
           ++ apply list_elem_of_singleton in Hd' as ->. congruence.
      * intros k m c Hin Hc. apply elem_of_dict_set in Hin as [[= -> ->]|Hin];
          [|now apply (Hmem' k m)].
        apply combine_members in Hc as [Hc|Hc].
        -- destruct (Hmem _ _ c Hex Hc) as (doc' & Hd' & Hrest).
           exists doc'. split; [apply elem_of_app; now left | exact Hrest].
        -- exists doc. split; [apply elem_of_app; right; now left | now split].
      * intros k m Hin. apply elem_of_dict_set in Hin as [[= -> ->]|Hin];
          [|now apply Hcnt'].
        right. rewrite count_id_app, Hself.
        destruct (Hcnt _ _ Hex) as [Hseen|Htwo]; [|lia].
        destruct (Hent _ _ Hex) as (Hk & _).
        pose proof (count_id_elem (strip s) seen existing Hseen Hk). lia.
    + (* a new id *)
      split; [now apply dict_set_NoDup|]. split; [|split; [|split]].
      * intros k m Hin. apply elem_of_dict_set in Hin as [[= -> ->]|Hin]; [|now apply Hent].
        split; [exact Hid|]. split; [exact Hne' | exact Hcons].
      * intros doc' Hd' Hne2. destruct (decide (strip_id doc' = strip s)) as [Heq|Hneq].
        -- apply elem_of_app in Hd' as [Hd'|Hd'].
           ++ destruct (Hcov doc' Hd' Hne2) as (m & Hget & _). rewrite Heq in Hget. congruence.
           ++ apply list_elem_of_singleton in Hd' as ->.
              rewrite Heq, dict_get_set. destruct (decide (strip s = strip s)); [|congruence].
              exists doc. split; [reflexivity|]. intros c Hc. now exists c.
        -- apply elem_of_app in Hd' as [Hd'|Hd'].
           ++ apply Hcov'; try assumption. intros k Hk. rewrite dict_get_set.
              destruct (decide (strip s = k)); [congruence | reflexivity].
           ++ apply list_elem_of_singleton in Hd' as ->. congruence.
      * intros k m c Hin Hc. apply elem_of_dict_set in Hin as [[= -> ->]|Hin];
          [|now apply (Hmem' k m)].
        exists doc. split; [apply elem_of_app; right; now left | now split].
      * intros k m Hin. apply elem_of_dict_set in Hin as [[= -> ->]|Hin];
          [|now apply Hcnt'].
        left. apply elem_of_app. right. now left.
  - (* a blank id: the result is dropped *)
    assert (Hblank : strip_id doc = []).
    { rewrite Hid. destruct (strip s); [reflexivity | discriminate]. }
    intros [= <-]. split; [exact Hnd|]. split; [exact Hent|].
    split; [|split; [exact Hmem' | exact Hcnt']].
    intros doc' Hd' Hne2. apply elem_of_app in Hd' as [Hd'|Hd']; [now apply Hcov|].
    apply list_elem_of_singleton in Hd' as ->. congruence.
Qed.

Lemma second_pass_inv (rest seen : list merged_doc)
    (unique_docs unique_docs' : list (str * merged_doc)) :
  pass_inv seen unique_docs -> (forall doc, doc ∈ rest -> consistent doc) ->
  second_pass unique_docs rest = Some unique_docs' ->
  pass_inv (seen ++ rest) unique_docs'.
Proof.
  revert seen unique_docs. induction rest as [|doc rest IH]; intros seen ud Hinv Hcons; simpl.
  - intros [= <-]. now rewrite app_nil_r.
  - destruct (dedup_step ud doc) as [ud1|] eqn:E; [|discriminate]. intros Hrun.
    replace (seen ++ doc :: rest) with ((seen ++ [doc]) ++ rest) by now rewrite <- app_assoc.
    apply (IH _ ud1); [|intros d Hd; apply Hcons; now right | exact Hrun].
    apply (dedup_step_inv seen ud); [exact Hinv | apply Hcons; now left | exact E].
Qed.


(** *** Which chunks a merged result keeps *)



















Lemma mean_similarity_formula (l : list chunk_dict) :
  l <> [] ->
  mean_similarity l
  = (fold_left Qplus (map (fun c => get_num (similarity c)) l) 0
     / inject_Z (Z.of_nat (length l)))%Q.
Proof. destruct l; [congruence | reflexivity]. Qed.






End MergeSpec.


(** ** More on the chunker *)

Module ChunkerFacts.
Import PyStr Chunking ChunkingSpec ChunkBatch.


(** *** Cuts of a text *)

Lemma slice_to_firstn (text : str) (n : Z) : exists k, slice_to text n = firstn k text.
Proof. unfold slice_to. destruct (n <? 0); eauto. Qed.

Lemma slice_from_skipn (text : str) (n : Z) : exists k, slice_from text n = skipn k text.
Proof. unfold slice_from. destruct (n <? 0); eauto. Qed.

Lemma len_slice_from (text : str) (n : Z) :
  0 <= n <= len text -> len (slice_from text n) = len text - n.
Proof.
  intros Hn. unfold slice_from, len in *.
  destruct (n <? 0) eqn:E; [apply Z.ltb_lt in E; lia|].
  rewrite length_skipn. lia.
Qed.

Lemma overlap_scan_cut (truncated : str) (target_length : Z) (delims : list str) :
  exists k, overlap_scan truncated target_length delims = strip (skipn k truncated).
Proof.
  induction delims as [|d ds IH]; simpl.
  - now exists O.
  - destruct (_ && _); [|exact IH].
    destruct (slice_from_skipn truncated (find truncated d + len d)) as [k ->]. eauto.
Qed.

Lemma smart_truncate_prefix (text : str) (max_length : Z) :
  max_length < len text ->
  exists k, _smart_truncate text max_length = strip (firstn k text).
Proof.
  intros Hlong. unfold _smart_truncate. apply Z.leb_gt in Hlong. rewrite Hlong.
  set (truncated := slice_to text max_length).
  set (best_pos := if _ <? 0 then _ else _).
  destruct (0 <? best_pos).
  - destruct (slice_to_firstn text best_pos) as [k ->]. eauto.
  - destruct (4 * max_length <? 5 * rfind truncated [32%N]).
    + destruct (slice_to_firstn text (rfind truncated [32%N])) as [k ->]. eauto.
    + subst truncated. destruct (slice_to_firstn text max_length) as [k ->]. eauto.
Qed.

(** X1. [_smart_truncate] hands back a text that fits as it is; a longer
    text gives the stripped form of one of its prefixes, which carries
    no white space at either end and, for a bound that is not negative,
    respects the bound. *)
Theorem smart_truncate_cuts_a_prefix (text : str) (max_length : Z) :
  (len text <= max_length -> _smart_truncate text max_length = text)
  /\ (max_length < len text ->
      (exists k, _smart_truncate text max_length = strip (firstn k text))
      /\ strip (_smart_truncate text max_length) = _smart_truncate text max_length
      /\ (0 <= max_length -> len (_smart_truncate text max_length) <= max_length)).
Proof.
  split.
  - intros Hfit. unfold _smart_truncate. apply Z.leb_le in Hfit. now rewrite Hfit.
  - intros Hlong.
    pose proof (smart_truncate_prefix text max_length Hlong) as Hcut.
    split; [exact Hcut|]. split.
    + destruct Hcut as [k ->]. apply strip_idem.
    + intros Hpos. now apply smart_truncate_le.
Qed.

Lemma smart_truncate_cuts_a_prefix_witness :
  _smart_truncate (lit "one two") 7 = lit "one two"
  /\ len (_smart_truncate (lit "one two three four five") 12) <= 12.
Proof.
  split.
  - apply (proj1 (smart_truncate_cuts_a_prefix (lit "one two") 7)). vm_compute. discriminate.
  - apply (proj2 (smart_truncate_cuts_a_prefix (lit "one two three four five") 12)).
    + vm_compute. reflexivity.
    + lia.
Defined.

(** X2. [_extract_overlap_text] hands back a text that fits as it is; a
    longer text gives the stripped form of one of its suffixes, within
    the target length when that is not negative. *)
Theorem extract_overlap_cuts_a_suffix (text : str) (target_length : Z) :
  (len text <= target_length -> _extract_overlap_text text target_length = text)
  /\ (target_length < len text ->
      (exists k, _extract_overlap_text text target_length = strip (skipn k text))
      /\ strip (_extract_overlap_text text target_length)
         = _extract_overlap_text text target_length
      /\ (0 <= target_length ->
          len (_extract_overlap_text text target_length) <= target_length)).
Proof.
  split.
  - intros Hfit. unfold _extract_overlap_text. apply Z.leb_le in Hfit. now rewrite Hfit.
  - intros Hlong. unfold _extract_overlap_text.
    pose proof Hlong as Hgt. apply Z.leb_gt in Hgt. rewrite Hgt.
    set (truncated := slice_from text (len text - target_length)).
    destruct (overlap_scan_cut truncated target_length sentence_delimiters) as [j Hj].
    rewrite Hj. split; [|split].
    + subst truncated.
      destruct (slice_from_skipn text (len text - target_length)) as [k ->].
      exists (j + k)%nat. now rewrite skipn_skipn.
    + apply strip_idem.
    + intros Hpos.
      assert (Ht : len truncated = target_length).
      { subst truncated. rewrite len_slice_from by lia. lia. }
      pose proof (len_strip (skipn j truncated)) as Hs.
      unfold len in *. rewrite length_skipn in Hs. lia.
Qed.

Lemma extract_overlap_cuts_a_suffix_witness :
  len (_extract_overlap_text (lit "one two three four five") 9) <= 9.
Proof.
  apply (proj2 (extract_overlap_cuts_a_suffix (lit "one two three four five") 9)).
  - vm_compute. reflexivity.
  - lia.
Defined.

(** *** Paragraphs *)


Lemma factor_firstn (n : nat) (s : str) : factor (firstn n s) s.
Proof. exists [], (skipn n s). simpl. now rewrite firstn_skipn. Qed.

Lemma factor_app_l (p s pre : str) : factor p s -> factor p (pre ++ s).
Proof. intros (a & b & ->). exists (pre ++ a), b. now rewrite <- app_assoc. Qed.

Lemma factor_app_r (p s post : str) : factor p s -> factor p (s ++ post).
Proof. intros (a & b & ->). exists a, (b ++ post). now rewrite <- !app_assoc. Qed.

Lemma re_split_factor (m : str -> option nat) (capture : bool) (s : str) :
  forall skip cur pre,
    (skip <> O -> cur = []) ->
    forall p, In p (re_split m capture s skip cur) -> factor p (pre ++ rev cur ++ s).
Proof.
  induction s as [|c s IH]; intros skip cur pre Hskip p Hp.
  - simpl in Hp. destruct Hp as [<-|[]]. exists pre, []. reflexivity.
  - cbn [re_split] in Hp. destruct skip as [|k].
    + destruct (m (c :: s)) as [[|k]|] eqn:E.
      * specialize (IH O (c :: cur) pre ltac:(congruence) p Hp).
        simpl rev in IH. now rewrite <- app_assoc in IH.
      * destruct Hp as [<-|Hp]; [exists pre, (c :: s); reflexivity|].
        apply in_app_or in Hp as [Hp|Hp].
        -- destruct capture; [|destruct Hp]. destruct Hp as [<-|[]].
           rewrite app_assoc. apply factor_app_l. apply factor_firstn.
        -- destruct k as [|k].
           ++ specialize (IH O [] (pre ++ rev cur ++ [c]) ltac:(congruence) p Hp).
              simpl in IH. now rewrite <- !app_assoc in IH.
           ++ specialize (IH (S k) [] (pre ++ rev cur ++ [c]) ltac:(congruence) p Hp).
              simpl in IH. now rewrite <- !app_assoc in IH.
      * specialize (IH O (c :: cur) pre ltac:(congruence) p Hp).
        simpl rev in IH. now rewrite <- app_assoc in IH.
    + rewrite (Hskip ltac:(congruence)) in *. simpl.
      destruct k as [|k].
      * specialize (IH O [] (pre ++ [c]) ltac:(congruence) p Hp).
        simpl in IH. now rewrite <- app_assoc in IH.
      * specialize (IH (S k) [] (pre ++ [c]) ltac:(congruence) p Hp).
        simpl in IH. now rewrite <- app_assoc in IH.
Qed.

Lemma re_split_concat (m : str -> option nat) (s : str) :
  forall skip cur,
    (skip <> O -> cur = []) ->
    concat (re_split m true s skip cur) = rev cur ++ skipn skip s.
Proof.
  induction s as [|c s IH]; intros skip cur Hskip.
  - simpl. rewrite skipn_nil. now rewrite !app_nil_r.
  - cbn [re_split]. destruct skip as [|k].
    + destruct (m (c :: s)) as [[|k]|] eqn:E.
      * rewrite IH by congruence. simpl. now rewrite <- app_assoc.
      * cbn [concat app]. rewrite IH by (intros _; reflexivity).
        cbn [rev firstn skipn app]. now rewrite firstn_skipn.
      * rewrite IH by congruence. simpl. now rewrite <- app_assoc.
    + rewrite (Hskip ltac:(congruence)). rewrite IH by (intros _; reflexivity).
      reflexivity.
Qed.

Lemma merge_pairs_factor (l : list str) :
  forall p, In p (merge_pairs l) -> factor p (concat l).
Proof.
  induction l as [l IH] using (induction_ltof1 _ (@length str)). unfold ltof in IH.
  destruct l as [|a [|b rest]]; simpl; try tauto.
  intros p [<-|Hp].
  - exists [], (concat rest). simpl. now rewrite <- app_assoc.
  - rewrite app_assoc. apply factor_app_l. apply IH; [simpl; lia | exact Hp].
Qed.

(** The raw pieces from which [_split_into_paragraphs] picks. *)
Lemma raw_paragraphs_factor (text : str) (p : str) :
  In p (_split_into_paragraphs text) ->
  exists q, factor q text /\ p = strip q /\ 10 < len p.
Proof.
  unfold _split_into_paragraphs. cbv zeta.
  set (blank := re_split blank_match false text 0 []).
  set (clause := re_split clause_match true text 0 []).
  set (raw := if (length blank <? 3)%nat then _ else blank).
  assert (Hraw : forall q, In q raw -> factor q text).
  { intros q Hq. subst raw.
    assert (Hb : In q blank -> factor q text).
    { intros H. apply (re_split_factor _ _ _ O [] [] ltac:(congruence)) in H. exact H. }
    destruct (length blank <? 3)%nat; [|now apply Hb].
    destruct (length blank <? length clause)%nat; [|now apply Hb].
    destruct (merge_pairs clause) as [|a l] eqn:E; [now apply Hb|].
    rewrite <- E in Hq. apply merge_pairs_factor in Hq.
    subst clause. rewrite re_split_concat in Hq by congruence. exact Hq. }
  intros Hp. apply in_map_iff in Hp as (q & <- & Hq).
  apply filter_In in Hq as [Hq Hlen]. apply andb_prop in Hlen as [_ Hlen].
  apply Z.ltb_lt in Hlen. exists q. auto.
Qed.

(** X3. Every paragraph that [_split_into_paragraphs] returns has more
    than 10 characters, carries no white space at either end, and is the
    stripped form of a contiguous piece of the document: the splitter
    invents no text. *)
Theorem paragraphs_are_stripped_pieces (text : str) :
  Forall (fun p => 10 < len p /\ strip p = p
                   /\ exists q, factor q text /\ p = strip q)
    (_split_into_paragraphs text).
Proof.
  apply List.Forall_forall. intros p Hp.
  destruct (raw_paragraphs_factor text p Hp) as (q & Hq & -> & Hlen).
  split; [exact Hlen|]. split; [apply strip_idem|]. now exists q.
Qed.

(** *** The clause split *)


Lemma last_newline_plain (s : str) (i : nat) :
  10%N ∉ s -> last_newline s i None = None.
Proof.
  revert i. induction s as [|c s IH]; intros i Hs; simpl; [reflexivity|].
  apply not_elem_of_cons in Hs as [Hc Hs].
  destruct (isspace c); [|reflexivity].
  destruct (N.eqb_spec c 10); [congruence|]. now apply IH.
Qed.

(** No blank line starts in a text with a single line feed. *)
Lemma blank_split_single (intro rest : str) (cur : str) :
  10%N ∉ intro -> 10%N ∉ rest ->
  re_split blank_match false (intro ++ 10%N :: rest) 0 cur
  = [rev cur ++ intro ++ 10%N :: rest].
Proof.
  intros Hi Hr.
  assert (Hplain : forall s cur, 10%N ∉ s ->
            re_split blank_match false s 0 cur = [rev cur ++ s]).
  { clear. induction s as [|c s IH]; intros cur Hs; simpl.
    - now rewrite app_nil_r.
    - apply not_elem_of_cons in Hs as [Hc Hs].
      destruct (N.eqb_spec c 10); [congruence|].
      rewrite IH by exact Hs. simpl. now rewrite <- app_assoc. }
  revert cur. induction intro as [|c intro IH]; intros cur.
  - cbn [app re_split blank_match]. rewrite N.eqb_refl.
    rewrite last_newline_plain by exact Hr.
    rewrite Hplain by exact Hr. simpl. now rewrite <- app_assoc.
  - apply not_elem_of_cons in Hi as [Hc Hi].
    cbn [app re_split blank_match].
    destruct (N.eqb_spec c 10); [congruence|].
    rewrite IH by exact Hi. simpl. now rewrite <- app_assoc.
Qed.

Lemma clause_split_plain (capture : bool) (s cur : str) :
  10%N ∉ s -> re_split clause_match capture s 0 cur = [rev cur ++ s].
Proof.
  revert cur. induction s as [|c s IH]; intros cur Hs; simpl.
  - now rewrite app_nil_r.
  - apply not_elem_of_cons in Hs as [Hc Hs].
    destruct (N.eqb_spec c 10); [congruence|]. simpl.
    rewrite IH by exact Hs. simpl. now rewrite <- app_assoc.
Qed.

Lemma clause_split_intro (capture : bool) (intro rest cur : str) :
  10%N ∉ intro ->
  re_split clause_match capture (intro ++ rest) 0 cur
  = re_split clause_match capture rest 0 (rev intro ++ cur).
Proof.
  revert cur. induction intro as [|c intro IH]; intros cur Hi; [reflexivity|].
  apply not_elem_of_cons in Hi as [Hc Hi].
  cbn [app re_split clause_match].
  destruct (N.eqb_spec c 10); [congruence|]. cbn [andb].
  rewrite IH by exact Hi. simpl. now rewrite <- app_assoc.
Qed.

Lemma re_split_skip (m : str -> option nat) (capture : bool) (a b : str) :
  re_split m capture (a ++ b) (length a) [] = re_split m capture b 0 [].
Proof.
  induction a as [|c a IH]; [reflexivity|]. simpl. exact IH.
Qed.

Lemma span_run (p : N -> bool) (run rest : str) :
  Forall (fun c => p c = true) run ->
  match rest with c :: _ => p c = false | [] => True end ->
  span p (run ++ rest) = length run.
Proof.
  intros Hrun Hrest. induction Hrun as [|c run Hc _ IH]; simpl.
  - destruct rest as [|c rest]; simpl; [reflexivity|]. now rewrite Hrest.
  - now rewrite Hc, IH.
Qed.

Lemma item_mark_no_numeral (c : N) : is_item_mark c = true -> is_cn_numeral c = false.
Proof.
  unfold is_item_mark. intros H. apply orb_prop in H as [H|H];
    apply N.eqb_eq in H; subst; reflexivity.
Qed.

(** The pieces of the clause split of a text with one clause mark. *)
Lemma clause_split_one_mark (intro nums body : str) (mark : N) :
  10%N ∉ intro -> 10%N ∉ body -> nums <> [] ->
  Forall (fun c => is_cn_numeral c = true) nums -> is_item_mark mark = true ->
  re_split clause_match true (intro ++ 10%N :: nums ++ mark :: body) 0 []
  = [intro; 10%N :: nums ++ [mark]; body].
Proof.
  intros Hi Hb Hne Hnums Hmark.
  rewrite clause_split_intro by exact Hi. rewrite app_nil_r.
  cbn [re_split clause_match].
  rewrite (span_run is_cn_numeral nums (mark :: body) Hnums (item_mark_no_numeral _ Hmark)).
  rewrite N.eqb_refl.
  assert (Hpos : (0 <? length nums)%nat = true).
  { destruct nums; [congruence|]. reflexivity. }
  rewrite Hpos.
  assert (Hchar : char_is is_item_mark (nums ++ mark :: body) (length nums) = true).
  { unfold char_is. rewrite nth_error_app2 by lia. now rewrite Nat.sub_diag. }
  rewrite Hchar. cbn [andb app].
  rewrite rev_involutive. f_equal.
  assert (Hcut : firstn (S (S (length nums))) (10%N :: nums ++ mark :: body)
                 = 10%N :: nums ++ [mark]).
  { cbn [firstn]. f_equal.
    change (mark :: body) with ([mark] ++ body). rewrite app_assoc.
    replace (S (length nums)) with (length (nums ++ [mark]))
      by (rewrite length_app; simpl; lia).
    now rewrite firstn_app, Nat.sub_diag, firstn_all, app_nil_r. }
  rewrite Hcut. f_equal.
  change (mark :: body) with ([mark] ++ body). rewrite app_assoc.
  replace (S (length nums)) with (length (nums ++ [mark]))
    by (rewrite length_app; simpl; lia).
  rewrite re_split_skip. rewrite clause_split_plain by exact Hb. reflexivity.
Qed.

(** X4. A text without blank line and with one clause mark at the start
    of a line (a line feed, Chinese numerals, then [、] or [.]): the
    clause split pairs every piece with the mark that follows it, and
    the piece after the last mark has no partner. The only paragraph is
    the text up to the mark, when it has more than 10 characters; the
    text behind the mark is in no paragraph. *)
Theorem text_behind_last_clause_mark_is_dropped (intro nums body : str) (mark : N) :
  10%N ∉ intro -> 10%N ∉ body -> nums <> [] ->
  Forall (fun c => is_cn_numeral c = true) nums -> is_item_mark mark = true ->
  let head := intro ++ 10%N :: nums ++ [mark] in
  _split_into_paragraphs (head ++ body)
  = if 10 <? len (strip head) then [strip head] else [].
Proof.
  intros Hi Hb Hne Hnums Hmark head.
  assert (Htext : head ++ body = intro ++ 10%N :: nums ++ mark :: body).
  { subst head. rewrite <- app_assoc. simpl. now rewrite <- app_assoc. }
  assert (Hnl : 10%N ∉ nums ++ mark :: body).
  { intros Hin. apply elem_of_app in Hin as [Hin|Hin].
    - rewrite List.Forall_forall in Hnums. apply list_elem_of_In in Hin.
      apply Hnums in Hin. discriminate.
    - apply elem_of_cons in Hin as [Heq|Hin]; [|contradiction].
      subst mark. vm_compute in Hmark. discriminate. }
  unfold _split_into_paragraphs. rewrite Htext.
  rewrite blank_split_single by assumption.
  rewrite clause_split_one_mark by assumption.
  cbn [length Nat.ltb Nat.leb merge_pairs rev app List.filter map].
  fold head.
  destruct (10 <? len (strip head)) eqn:E.
  - assert (Hn : nonempty (strip head) = true).
    { apply Z.ltb_lt in E. destruct (strip head); [unfold len in E; simpl in E; lia|].
      reflexivity. }
    rewrite Hn. reflexivity.
  - now rewrite andb_false_r.
Qed.

Lemma text_behind_last_clause_mark_is_dropped_witness :
  _split_into_paragraphs
    ((lit "General provisions" ++ [10; 19968; 12289]%N) ++ lit "The body of clause one.")
  = [lit "General provisions" ++ [10; 19968; 12289]%N].
Proof.
  apply (text_behind_last_clause_mark_is_dropped
           (lit "General provisions") [19968%N] (lit "The body of clause one.") 12289%N).
  - vm_compute. intros H. repeat (apply elem_of_cons in H as [H|H]; [discriminate|]).
    now apply elem_of_nil in H.
  - vm_compute. intros H. repeat (apply elem_of_cons in H as [H|H]; [discriminate|]).
    now apply elem_of_nil in H.
  - discriminate.
  - repeat constructor.
  - reflexivity.
Defined.

End ChunkerFacts.

(** ** The loops of the chunker *)

Module ChunkLoopFacts.
Import PyStr Chunking ChunkingSpec ChunkBatch ChunkerFacts.

(** *** The numbering of the chunks *)


(** *** Decimal numerals *)

Lemma uint_digits_inj (u v : Decimal.uint) : uint_digits u = uint_digits v -> u = v.
Proof.
  revert v. induction u; intros v; destruct v; simpl; intros H;
    try discriminate; try reflexivity; injection H as H; f_equal; now apply IHu.
Qed.

Lemma str_of_nat_inj (i j : nat) : str_of_nat i = str_of_nat j -> i = j.
Proof.
  intros H. apply uint_digits_inj in H.
  rewrite <- (Unsigned.of_to i), <- (Unsigned.of_to j). now rewrite H.
Qed.

Section Numbering.

Variable isdecimal : N -> bool.
Variable self : PolicyDocumentChunker.
Variables (doc_id_ title_ timestamp_ industries_ : str).
Variables (investment_relevance_ report_series_ industry_policy_segments_ : str).

Local Abbreviation new_chunk :=
  (new_chunk doc_id_ title_ timestamp_ industries_
     investment_relevance_ report_series_ industry_policy_segments_).
Local Abbreviation append_chunk :=
  (append_chunk doc_id_ title_ timestamp_ industries_
     investment_relevance_ report_series_ industry_policy_segments_).
Local Abbreviation split_long :=
  (split_long self doc_id_ title_ timestamp_ industries_
     investment_relevance_ report_series_ industry_policy_segments_).
Local Abbreviation restart_buffer :=
  (restart_buffer self).
Local Abbreviation paragraph_step :=
  (paragraph_step isdecimal self doc_id_ title_ timestamp_ industries_
     investment_relevance_ report_series_ industry_policy_segments_).
Local Abbreviation paragraph_loop :=
  (paragraph_loop isdecimal self doc_id_ title_ timestamp_ industries_
     investment_relevance_ report_series_ industry_policy_segments_).
Local Abbreviation last_flush :=
  (last_flush self doc_id_ title_ timestamp_ industries_
     investment_relevance_ report_series_ industry_policy_segments_).
Local Abbreviation chunk_paragraphs :=
  (chunk_paragraphs isdecimal self doc_id_ title_ timestamp_ industries_
     investment_relevance_ report_series_ industry_policy_segments_).
Local Abbreviation counted :=
  (counted doc_id_ title_ timestamp_ industries_
     investment_relevance_ report_series_ industry_policy_segments_).
Local Abbreviation numbered :=
  (numbered doc_id_ title_ timestamp_ industries_
     investment_relevance_ report_series_ industry_policy_segments_).

(** **** The numbering *)

Lemma append_chunk_counted (st : loop_state) (kind : chunk_type) (text : str) :
  counted st -> counted (append_chunk st kind text).
Proof.
  intros [Hidx Hnum]. split; simpl.
  - rewrite length_app. simpl. lia.
  - intros i c Hi. apply lookup_app_Some in Hi as [Hi|[Hlen Hi]].
    + now apply Hnum.
    + apply list_lookup_singleton_Some in Hi as [Hi <-]. simpl.
      replace i with (chunk_idx st) by lia. reflexivity.
Qed.

Lemma split_long_counted (fuel : nat) (remaining : str) (st st' : loop_state) :
  counted st -> split_long fuel remaining st = Some st' -> counted st'.
Proof.
  revert remaining st. induction fuel as [|fuel IH]; intros remaining st Hc; [discriminate|].
  cbn [Chunking.split_long]. destruct (0 <? len remaining); [|now intros [= <-]].
  destruct (len remaining <=? absolute_max self).
  - apply IH. destruct (nonempty remaining); [now apply append_chunk_counted | exact Hc].
  - apply IH. destruct (nonempty _); [now apply append_chunk_counted | exact Hc].
Qed.

Lemma paragraph_step_counted (fuel : nat) (para : str) (st st' : loop_state) :
  counted st -> paragraph_step fuel st para = Some st' -> counted st'.
Proof.
  intros Hc. unfold Chunking.paragraph_step.
  destruct (absolute_max self <? len para).
  - apply split_long_counted.
    destruct (bool_decide (current_chunk_parts st = [])); [exact Hc|].
    exact (append_chunk_counted st _ _ Hc).
  - intros [= <-].
    set (s1 := if (_ && negb (bool_decide (current_chunk_parts st = [])))%bool
               then Chunking.restart_buffer self _ _ para else set_buffer st _ _).
    assert (Hs : counted s1).
    { subst s1. destruct (_ && negb (bool_decide (current_chunk_parts st = []))).
      - unfold Chunking.restart_buffer.
        destruct (_ && _); [destruct (nonempty _)|];
          exact (append_chunk_counted st _ _ Hc).
      - exact Hc. }
    clearbody s1.
    destruct (chunk_size_max self <? current_chunk_size s1);
      [exact (append_chunk_counted s1 _ _ Hs) | exact Hs].
Qed.

Lemma paragraph_loop_counted (fuel : nat) (paragraphs : list str) (st st' : loop_state) :
  counted st -> paragraph_loop fuel st paragraphs = Some st' -> counted st'.
Proof.
  revert st. induction paragraphs as [|p ps IH]; intros st Hc; simpl.
  - now intros [= <-].
  - destruct (paragraph_step fuel st p) as [st1|] eqn:E; [|discriminate].
    apply IH. now apply (paragraph_step_counted fuel p st).
Qed.

Lemma final_check_numbered (l : list DocumentChunk) :
  numbered l -> numbered (map (final_check self) l).
Proof.
  intros Hnum i c Hi. rewrite list_lookup_fmap in Hi.
  destruct (l !! i) as [c0|] eqn:E; [|discriminate]. injection Hi as <-.
  specialize (Hnum i c0 E). unfold final_check.
  destruct (absolute_max self <? len (content c0)); [|exact Hnum].
  rewrite Hnum. reflexivity.
Qed.

Lemma chunk_paragraphs_numbered (fuel : nat) (paragraphs : list str) (cs : list DocumentChunk) :
  chunk_paragraphs fuel paragraphs = Some cs -> numbered cs.
Proof.
  unfold Chunking.chunk_paragraphs.
  destruct (paragraph_loop fuel initial_state paragraphs) as [st|] eqn:E; [|discriminate].
  intros [= <-]. apply final_check_numbered.
  assert (Hc : counted st).
  { apply (paragraph_loop_counted fuel paragraphs initial_state); [|exact E].
    split; [reflexivity|]. intros i c Hi. discriminate. }
  unfold Chunking.last_flush. destruct (bool_decide _); [apply Hc|].
  apply (append_chunk_counted st _ _ Hc).
Qed.

Lemma numbered_ids_NoDup (l : list DocumentChunk) : numbered l -> NoDup (map chunk_id l).
Proof.
  intros Hnum. apply NoDup_alt. intros i j x Hi Hj.
  rewrite list_lookup_fmap in Hi, Hj.
  destruct (l !! i) as [ci|] eqn:Ei; [|discriminate].
  destruct (l !! j) as [cj|] eqn:Ej; [|discriminate].
  injection Hi as Hi. injection Hj as Hj.
  rewrite (Hnum i ci Ei) in Hi. rewrite (Hnum j cj Ej) in Hj.
  unfold Chunking.new_chunk in Hi, Hj. cbn [chunk_id] in Hi, Hj.
  rewrite <- Hj in Hi. apply app_inv_head in Hi. apply app_inv_head in Hi.
  now apply str_of_nat_inj.
Qed.

End Numbering.

(** X5. The chunks that [chunk_document] returns are numbered from 0 in
    the order of the list; the identifier of chunk [i] is the document
    identifier, ["_chunk_"] and the decimal numeral of [i], so that the
    identifiers of one document are pairwise different; and every chunk
    carries the document identifier and the metadata of the call, the
    title and the list of industries cut to 500 characters, the time
    stamp to 150. *)
Theorem chunks_are_numbered (isdecimal : N -> bool) (self : PolicyDocumentChunker)
    (fuel : nat) (doc_id title text timestamp industries : str)
    (investment_relevance report_series industry_policy_segments : str)
    (cs : list DocumentChunk) :
  chunk_document isdecimal self fuel doc_id title text timestamp industries
    investment_relevance report_series industry_policy_segments = Some cs ->
  (forall i c, cs !! i = Some c ->
     chunk_index c = Z.of_nat i
     /\ chunk_id c = doc_id ++ lit "_chunk_" ++ str_of_nat i
     /\ Chunking.doc_id c = doc_id
     /\ Chunking.title c = slice_to title 500
     /\ Chunking.timestamp c = slice_to timestamp 150
     /\ Chunking.industries c = slice_to industries 500
     /\ Chunking.investment_relevance c = investment_relevance
     /\ Chunking.report_series c = report_series
     /\ Chunking.industry_policy_segments c = industry_policy_segments)
  /\ NoDup (map chunk_id cs).
Proof.
  unfold chunk_document. intros Hrun.
  apply chunk_paragraphs_numbered in Hrun. split.
  - intros i c Hi. rewrite (Hrun i c Hi). simpl. repeat split.
  - now apply numbered_ids_NoDup in Hrun.
Qed.

Lemma chunks_are_numbered_witness :
  exists cs,
    chunk_document ascii_digit small_chunker 100 (lit "doc") (lit "t") small_text
      [] [] [] [] [] = Some cs
    /\ NoDup (map chunk_id cs).
Proof.
  eexists. split; [vm_compute; reflexivity|].
  apply (chunks_are_numbered ascii_digit small_chunker 100 (lit "doc") (lit "t")
           small_text [] [] [] [] []).
  vm_compute. reflexivity.
Defined.

(** *** The contents of the chunks *)


Lemma solid_nonempty (s : str) : solid s -> s <> [].
Proof. intros [_ H]. now apply ends_solid_nonempty. Qed.

Lemma solid_strip (s : str) : solid s -> strip s = s.
Proof.
  intros [Hs He]. unfold strip. rewrite lstrip_solid by exact Hs. now apply rstrip_solid.
Qed.

Lemma strip_is_solid (s : str) : strip s <> [] -> solid (strip s).
Proof. apply strip_solid. Qed.

Lemma join_solid (sep : str) (parts : list str) :
  parts <> [] -> Forall solid parts -> solid (join sep parts).
Proof.
  intros Hne Hall. induction Hall as [|p ps Hp Hps IH]; [congruence|].
  destruct ps as [|q ps]; [exact Hp|].
  specialize (IH ltac:(discriminate)).
  change (join sep (p :: q :: ps)) with (p ++ sep ++ join sep (q :: ps)).
  destruct Hp as [Hs He]. split.
  - pose proof (ends_solid_nonempty p He) as Hn.
    destruct p as [|c p]; [congruence|]. exact Hs.
  - destruct IH as [_ (w & c & Hw & Hc)]. rewrite Hw.
    exists (p ++ sep ++ w), c. split; [|exact Hc]. now rewrite <- !app_assoc.
Qed.

Lemma smart_truncate_solid (text : str) (max_length : Z) :
  0 < max_length -> solid text -> solid (_smart_truncate text max_length).
Proof.
  intros HM Hs. destruct (Z.le_gt_cases (len text) max_length) as [Hfit|Hlong].
  - unfold _smart_truncate. apply Z.leb_le in Hfit. now rewrite Hfit.
  - pose proof (smart_truncate_nonempty text max_length HM Hlong (proj1 Hs)) as Hne.
    destruct (smart_truncate_prefix text max_length Hlong) as [k Hk].
    rewrite Hk in *. now apply strip_is_solid.
Qed.

Lemma extract_overlap_solid (text : str) (target_length : Z) :
  solid text -> _extract_overlap_text text target_length <> [] ->
  solid (_extract_overlap_text text target_length).
Proof.
  intros Hs. unfold _extract_overlap_text.
  destruct (len text <=? target_length); [intros _; exact Hs|].
  destruct (overlap_scan_cut (slice_from text (len text - target_length)) target_length
              sentence_delimiters) as [k ->].
  apply strip_is_solid.
Qed.

Lemma last_in {A : Type} (l : list A) (d : A) : l <> [] -> In (List.last l d) l.
Proof.
  induction l as [|x l IH]; [congruence|]. intros _.
  destruct l as [|y l]; [now left|]. right. apply IH. discriminate.
Qed.

Section Contents.

Variable isdecimal : N -> bool.
Variable self : PolicyDocumentChunker.
Variables (doc_id_ title_ timestamp_ industries_ : str).
Variables (investment_relevance_ report_series_ industry_policy_segments_ : str).

Local Abbreviation append_chunk :=
  (append_chunk doc_id_ title_ timestamp_ industries_
     investment_relevance_ report_series_ industry_policy_segments_).
Local Abbreviation split_long :=
  (split_long self doc_id_ title_ timestamp_ industries_
     investment_relevance_ report_series_ industry_policy_segments_).
Local Abbreviation paragraph_step :=
  (paragraph_step isdecimal self doc_id_ title_ timestamp_ industries_
     investment_relevance_ report_series_ industry_policy_segments_).
Local Abbreviation paragraph_loop :=
  (paragraph_loop isdecimal self doc_id_ title_ timestamp_ industries_
     investment_relevance_ report_series_ industry_policy_segments_).
Local Abbreviation last_flush :=
  (last_flush self doc_id_ title_ timestamp_ industries_
     investment_relevance_ report_series_ industry_policy_segments_).
Local Abbreviation chunk_paragraphs :=
  (chunk_paragraphs isdecimal self doc_id_ title_ timestamp_ industries_
     investment_relevance_ report_series_ industry_policy_segments_).

Hypothesis positive : 0 < absolute_max self.

Lemma append_chunk_solid (st : loop_state) (kind : chunk_type) (text : str) :
  solid_state st -> solid text -> solid_state (append_chunk st kind text).
Proof.
  intros [Hp Hc] Ht. split; simpl; [exact Hp|].
  apply Forall_app. split; [exact Hc|]. constructor; [exact Ht | constructor].
Qed.

Lemma set_buffer_solid (st : loop_state) (parts : list str) (size : Z) :
  solid_state st -> Forall solid parts -> solid_state (set_buffer st parts size).
Proof. intros [_ Hc] Hp. split; [exact Hp | exact Hc]. Qed.

Lemma buffer_content_solid (st : loop_state) :
  solid_state st -> current_chunk_parts st <> [] -> solid (buffer_content self st).
Proof.
  intros [Hp _] Hne. unfold buffer_content.
  apply smart_truncate_solid; [exact positive|]. now apply join_solid.
Qed.

Lemma flush_solid (st : loop_state) (kind : chunk_type) :
  solid_state st -> current_chunk_parts st <> [] ->
  solid_state (append_chunk st kind (buffer_content self st)).
Proof.
  intros Hs Hne. apply append_chunk_solid; [exact Hs|]. now apply buffer_content_solid.
Qed.

Lemma split_long_solid (fuel : nat) (remaining : str) (st st' : loop_state) :
  solid_state st -> starts_solid remaining -> (remaining = [] \/ ends_solid remaining) ->
  split_long fuel remaining st = Some st' -> solid_state st'.
Proof.
  revert remaining st. induction fuel as [|fuel IH]; intros remaining st Hst Hs He;
    [discriminate|].
  cbn [Chunking.split_long]. destruct (0 <? len remaining) eqn:Hpos; [|now intros [= <-]].
  apply Z.ltb_lt in Hpos.
  assert (Hne : remaining <> []).
  { intros ->. unfold len in Hpos. simpl in Hpos. lia. }
  destruct He as [He|He]; [congruence|].
  destruct (len remaining <=? absolute_max self) eqn:E.
  - apply IH; [|exact I|now left].
    destruct (nonempty remaining); [|exact Hst].
    apply append_chunk_solid; [exact Hst | now split].
  - apply Z.leb_gt in E.
    pose proof (smart_truncate_solid remaining _ positive (conj Hs He)) as Hcut.
    apply IH.
    + destruct (nonempty _); [|exact Hst]. now apply append_chunk_solid.
    + apply lstrip_starts_solid.
    + right. unfold slice_from.
      pose proof (len_nonneg (_smart_truncate remaining (absolute_max self))) as Hp.
      pose proof (smart_truncate_lt remaining (absolute_max self) E Hne) as Hlt.
      destruct (_ <? 0) eqn:F; [apply Z.ltb_lt in F; lia|].
      apply ends_solid_suffix; [exact He|]. unfold len in *. lia.
Qed.

Lemma restart_buffer_solid (st : loop_state) (parts : list str) (para : str) :
  solid_state st -> Forall solid parts -> solid para ->
  solid_state (restart_buffer self st parts para).
Proof.
  intros Hst Hparts Hpara. unfold restart_buffer.
  assert (Hone : solid_state (set_buffer st [para] (len para))).
  { apply set_buffer_solid; [exact Hst|]. now constructor. }
  destruct ((0 <? overlap self) && negb (bool_decide (parts = []))) eqn:E; [|exact Hone].
  apply andb_prop in E as [_ E]. apply negb_true_iff in E. apply bool_decide_eq_false in E.
  assert (Hlast : solid (List.last parts [])).
  { rewrite List.Forall_forall in Hparts. apply Hparts. now apply last_in. }
  set (overlap_text := if overlap self <? len (List.last parts []) then _ else _).
  destruct (nonempty overlap_text) eqn:F; [|exact Hone].
  apply set_buffer_solid; [exact Hst|].
  constructor; [|now constructor].
  subst overlap_text. destruct (overlap self <? len (List.last parts [])); [|exact Hlast].
  apply extract_overlap_solid; [exact Hlast|]. intros Habs. now rewrite Habs in F.
Qed.

Lemma paragraph_step_solid (fuel : nat) (para : str) (st st' : loop_state) :
  solid_state st -> solid para ->
  paragraph_step fuel st para = Some st' -> solid_state st'.
Proof.
  intros Hst Hpara. unfold Chunking.paragraph_step.
  destruct (absolute_max self <? len para).
  - apply split_long_solid; [|exact (proj1 Hpara)|right; exact (proj2 Hpara)].
    destruct (bool_decide (current_chunk_parts st = [])) eqn:E; [exact Hst|].
    apply bool_decide_eq_false in E.
    apply set_buffer_solid; [|constructor]. now apply flush_solid.
  - intros [= <-].
    set (s1 := if (_ && negb (bool_decide (current_chunk_parts st = [])))%bool
               then Chunking.restart_buffer self _ _ para else set_buffer st _ _).
    assert (Hs : solid_state s1 /\ current_chunk_parts s1 <> []).
    { subst s1.
      destruct (_ && negb (bool_decide (current_chunk_parts st = []))) eqn:E.
      - apply andb_prop in E as [_ E]. apply negb_true_iff in E.
        apply bool_decide_eq_false in E. split.
        + apply restart_buffer_solid; [|exact (proj1 Hst)|exact Hpara].
          now apply flush_solid.
        + unfold Chunking.restart_buffer.
          destruct (_ && _); [destruct (nonempty _)|]; discriminate.
      - split.
        + apply set_buffer_solid; [exact Hst|]. apply Forall_app. split; [exact (proj1 Hst)|].
          now constructor.
        + simpl. now destruct (current_chunk_parts st). }
    clearbody s1. destruct Hs as [Hs Hne].
    destruct (chunk_size_max self <? current_chunk_size s1); [|exact Hs].
    apply set_buffer_solid; [|constructor]. now apply flush_solid.
Qed.

Lemma paragraph_loop_solid (fuel : nat) (paragraphs : list str) (st st' : loop_state) :
  solid_state st -> Forall solid paragraphs ->
  paragraph_loop fuel st paragraphs = Some st' -> solid_state st'.
Proof.
  intros Hst Hall. revert st Hst.
  induction Hall as [|p ps Hp _ IH]; intros st Hst; simpl.
  - now intros [= <-].
  - destruct (paragraph_step fuel st p) as [st1|] eqn:E; [|discriminate].
    apply IH. now apply (paragraph_step_solid fuel p st).
Qed.

Lemma chunk_paragraphs_solid (fuel : nat) (paragraphs : list str) (cs : list DocumentChunk) :
  Forall solid paragraphs ->
  chunk_paragraphs fuel paragraphs = Some cs ->
  Forall (fun c => solid (content c)) cs.
Proof.
  intros Hall Hrun.
  destruct (paragraph_loop fuel initial_state paragraphs) as [st|] eqn:E.
  - rewrite (final_check_defensive isdecimal self doc_id_ title_ timestamp_ industries_
               investment_relevance_ report_series_ industry_policy_segments_
               fuel paragraphs st ltac:(lia) E) in Hrun.
    injection Hrun as <-.
    assert (Hst : solid_state st).
    { apply (paragraph_loop_solid fuel paragraphs initial_state); [|exact Hall|exact E].
      split; constructor. }
    unfold Chunking.last_flush.
    destruct (bool_decide (current_chunk_parts st = [])) eqn:F; [exact (proj2 Hst)|].
    apply bool_decide_eq_false in F. exact (proj2 (flush_solid st _ Hst F)).
  - unfold Chunking.chunk_paragraphs in Hrun. rewrite E in Hrun. discriminate.
Qed.

End Contents.

Lemma paragraphs_solid (text : str) : Forall solid (_split_into_paragraphs text).
Proof. exact (split_paragraphs_solid text). Qed.

(** X6. With a positive [absolute_max], no chunk that [chunk_document]
    returns is empty, and none starts or ends with white space: its
    content is its own stripped form. *)
Theorem chunks_are_never_blank (isdecimal : N -> bool) (self : PolicyDocumentChunker)
    (fuel : nat) (doc_id title text timestamp industries : str)
    (investment_relevance report_series industry_policy_segments : str)
    (cs : list DocumentChunk) :
  0 < absolute_max self ->
  chunk_document isdecimal self fuel doc_id title text timestamp industries
    investment_relevance report_series industry_policy_segments = Some cs ->
  Forall (fun c => content c <> [] /\ strip (content c) = content c) cs.
Proof.
  intros HM Hrun. unfold chunk_document in Hrun.
  apply chunk_paragraphs_solid in Hrun; [|exact HM|apply paragraphs_solid].
  apply List.Forall_forall. intros c Hc.
  rewrite List.Forall_forall in Hrun. specialize (Hrun c Hc). split.
  - now apply solid_nonempty.
  - now apply solid_strip.
Qed.

Lemma chunks_are_never_blank_witness :
  exists cs,
    chunk_document ascii_digit small_chunker 100 (lit "doc") (lit "t") small_text
      [] [] [] [] [] = Some cs
    /\ Forall (fun c => content c <> [] /\ strip (content c) = content c) cs.
Proof.
  eexists. split; [vm_compute; reflexivity|].
  apply (chunks_are_never_blank ascii_digit small_chunker 100 (lit "doc") (lit "t")
           small_text [] [] [] [] []).
  - reflexivity.
  - vm_compute. reflexivity.
Defined.

(** *** Termination *)


Lemma smart_truncate_zero (text : str) : text <> [] -> _smart_truncate text 0 = [].
Proof.
  intros Hne. pose proof (smart_truncate_le text 0 ltac:(lia)) as H.
  destruct (_smart_truncate text 0); [reflexivity|].
  unfold len in H. simpl in H. lia.
Qed.

Section Termination.

Variable isdecimal : N -> bool.
Variable self : PolicyDocumentChunker.
Variables (doc_id_ title_ timestamp_ industries_ : str).
Variables (investment_relevance_ report_series_ industry_policy_segments_ : str).

Local Abbreviation split_long :=
  (split_long self doc_id_ title_ timestamp_ industries_
     investment_relevance_ report_series_ industry_policy_segments_).
Local Abbreviation paragraph_loop :=
  (paragraph_loop isdecimal self doc_id_ title_ timestamp_ industries_
     investment_relevance_ report_series_ industry_policy_segments_).

(** With [absolute_max = 0] the cut is empty and [remaining] stays as it
    is. *)
Lemma split_long_stuck (fuel : nat) (remaining : str) (st : loop_state) :
  absolute_max self = 0 -> remaining <> [] -> starts_solid remaining ->
  split_long fuel remaining st = None.
Proof.
  intros HM Hne Hs. revert st. induction fuel as [|fuel IH]; intros st; [reflexivity|].
  cbn [Chunking.split_long].
  assert (Hpos : 0 < len remaining).
  { destruct remaining; [congruence|]. unfold len. simpl. lia. }
  pose proof Hpos as Hp. apply Z.ltb_lt in Hp. rewrite Hp.
  destruct (len remaining <=? absolute_max self) eqn:E; [apply Z.leb_le in E; lia|].
  rewrite HM, smart_truncate_zero by exact Hne.
  change (len []) with 0. unfold slice_from. simpl. rewrite lstrip_solid by exact Hs.
  apply IH.
Qed.

Lemma paragraph_loop_never_ends (fuel : nat) (p : str) (ps : list str) :
  absolute_max self <= 0 -> solid p ->
  paragraph_loop fuel initial_state (p :: ps) = None.
Proof.
  intros HM [Hs He].
  destruct (Z.eq_dec (absolute_max self) 0) as [H0|Hneg].
  - simpl. unfold Chunking.paragraph_step.
    pose proof (ends_solid_nonempty p He) as Hne.
    assert (Hlong : (absolute_max self <? len p) = true).
    { apply Z.ltb_lt. destruct p; [congruence|]. unfold len. simpl. lia. }
    rewrite Hlong. simpl. now rewrite split_long_stuck.
  - apply paragraph_loop_diverges; [lia | exact He].
Qed.

End Termination.

(** X7. [chunk_document] returns exactly when [absolute_max] is positive
    or the document has no paragraph: with [absolute_max <= 0] the
    inner [while] loop on the first paragraph never empties
    [remaining], whatever the number of iterations it is given. *)
Theorem chunk_document_returns_iff (isdecimal : N -> bool) (self : PolicyDocumentChunker)
    (doc_id title text timestamp industries : str)
    (investment_relevance report_series industry_policy_segments : str) :
  (exists fuel,
      is_Some (chunk_document isdecimal self fuel doc_id title text timestamp industries
                 investment_relevance report_series industry_policy_segments))
  <-> (0 < absolute_max self \/ _split_into_paragraphs text = []).
Proof.
  unfold chunk_document, chunk_paragraphs.
  pose proof (split_paragraphs_solid text) as Hsolid.
  split.
  - intros [fuel Hrun].
    destruct (Z.lt_ge_cases 0 (absolute_max self)) as [Hpos|Hle]; [now left|right].
    destruct (_split_into_paragraphs text) as [|p ps]; [reflexivity|].
    apply Forall_inv in Hsolid.
    rewrite paragraph_loop_never_ends in Hrun by (lia || assumption).
    now destruct Hrun.
  - intros [HM|Hnone].
    + set (ps := _split_into_paragraphs text) in *.
      exists (S (list_max (map (@length N) ps))).
      assert (Hall : Forall (fun p => starts_solid p
                            /\ (length p < S (list_max (map (@length N) ps)))%nat) ps).
      { apply List.Forall_forall. intros p Hp. split.
        - rewrite List.Forall_forall in Hsolid. now apply Hsolid.
        - pose proof (proj1 (list_max_le (map (@length N) ps) _) (le_n _)) as Hmax.
          rewrite List.Forall_forall in Hmax.
          specialize (Hmax (length p) (in_map _ _ _ Hp)). lia. }
      destruct (paragraph_loop_total isdecimal self doc_id (slice_to title 500)
                  (slice_to timestamp 150) (slice_to industries 500)
                  investment_relevance report_series industry_policy_segments
                  _ ps initial_state HM Hall)
        as [st ->].
      eauto.
    + exists O. rewrite Hnone. simpl. eauto.
Qed.

Lemma chunk_document_returns_iff_witness :
  exists fuel,
    is_Some (chunk_document ascii_digit small_chunker fuel (lit "doc") (lit "t")
               small_text [] [] [] [] []).
Proof.
  apply (proj2 (chunk_document_returns_iff ascii_digit small_chunker (lit "doc") (lit "t")
                  small_text [] [] [] [] [])).
  left. reflexivity.
Defined.

End ChunkLoopFacts.

(** ** The batch entry point *)

Module BatchFacts.
Import PyStr PyList Chunking ChunkingSpec ChunkBatch PyListFacts.


Section Batch.

Variable isdecimal : N -> bool.
Variable chunker : PolicyDocumentChunker.

(** The chunks of one complete document. *)
Local Abbreviation chunked fuel id title content :=
  (chunk_document isdecimal chunker fuel id title content [] [] [] [] []).

Lemma batch_loop_get (fuel : nat) (documents : list document) :
  forall r0 result,
    batch_loop isdecimal chunker fuel documents r0 = Returned result ->
    forall id cs,
      dict_get result id = Some cs <->
      (exists l1 doc l2 title content,
          documents = l1 ++ doc :: l2
          /\ doc_id_key doc = Some id /\ title_key doc = Some title
          /\ content_key doc = Some content
          /\ Forall (fun d => doc_id_key d <> Some id) l2
          /\ chunked fuel id title content = Some cs)
      \/ (Forall (fun d => doc_id_key d <> Some id) documents
          /\ dict_get r0 id = Some cs).
Proof.
  induction documents as [|doc rest IH]; intros r0 result Hrun id cs.
  - injection Hrun as <-. split.
    + intros H. right. split; [constructor | exact H].
    + intros [(l1 & doc & l2 & _ & _ & Habs & _)|[_ H]]; [|exact H].
      now destruct l1.
  - cbn [batch_loop] in Hrun.
    destruct (doc_id_key doc) as [did|] eqn:Hid; [|discriminate].
    destruct (title_key doc) as [title|] eqn:Ht; [|discriminate].
    destruct (content_key doc) as [content|] eqn:Hc; [|discriminate].
    destruct (chunked fuel did title content) as [chunks|] eqn:Hch; [|discriminate].
    rewrite (IH _ _ Hrun id cs). rewrite dict_get_set. split.
    + intros [(l1 & d & l2 & t & c & -> & H1 & H2 & H3 & H4 & H5)|[Hall Hget]].
      * left. exists (doc :: l1), d, l2, t, c. repeat split; assumption.
      * destruct (decide (did = id)) as [->|Hne].
        -- injection Hget as <-. left. exists [], doc, rest, title, content.
           repeat split; assumption.
        -- right. split; [|exact Hget]. constructor; [|exact Hall]. congruence.
    + intros [(l1 & d & l2 & t & c & Hsplit & H1 & H2 & H3 & H4 & H5)|[Hall Hget]].
      * destruct l1 as [|d0 l1]; simpl in Hsplit; injection Hsplit as <- ->.
        -- right. split; [exact H4|].
           assert (did = id) by congruence. subst did.
           assert (title = t) by congruence. assert (content = c) by congruence. subst.
           destruct (decide (id = id)); congruence.
        -- left. exists l1, d, l2, t, c. repeat split; assumption.
      * right. apply Forall_cons in Hall as [Hd Hall]. split; [exact Hall|].
        destruct (decide (did = id)); [congruence | exact Hget].
Qed.

Lemma batch_loop_keys (fuel : nat) (documents : list document) :
  forall r0 result,
    batch_loop isdecimal chunker fuel documents r0 = Returned result ->
    NoDup (map fst r0) -> NoDup (map fst result).
Proof.
  induction documents as [|doc rest IH]; intros r0 result Hrun Hnd.
  - now injection Hrun as <-.
  - cbn [batch_loop] in Hrun.
    destruct (doc_id_key doc) as [did|]; [|discriminate].
    destruct (title_key doc) as [title|]; [|discriminate].
    destruct (content_key doc) as [content|]; [|discriminate].
    destruct (chunked fuel did title content) as [chunks|]; [|discriminate].
    apply (IH _ _ Hrun). now apply dict_set_NoDup.
Qed.

Lemma chunked_total (fuel : nat) (id title content : str) :
  0 < absolute_max chunker ->
  Forall (fun p => (length p < fuel)%nat) (_split_into_paragraphs content) ->
  is_Some (chunked fuel id title content).
Proof.
  intros HM Hfuel. unfold chunk_document, chunk_paragraphs.
  pose proof (split_paragraphs_solid content) as Hsolid.
  assert (Hall : Forall (fun p => starts_solid p /\ (length p < fuel)%nat)
                   (_split_into_paragraphs content)).
  { rewrite List.Forall_forall in *. intros p Hp. split; [now apply Hsolid | now apply Hfuel]. }
  destruct (paragraph_loop_total isdecimal chunker id (PyStr.slice_to title 500)
              (PyStr.slice_to [] 150) (PyStr.slice_to [] 500) [] [] []
              fuel _ initial_state HM Hall) as [st ->].
  eauto.
Qed.

Lemma batch_loop_total (fuel : nat) (documents : list document) :
  0 < absolute_max chunker -> Forall complete documents -> enough fuel documents ->
  forall r0, exists result, batch_loop isdecimal chunker fuel documents r0 = Returned result.
Proof.
  intros HM Hall Hfuel. induction Hall as [|doc rest Hdoc _ IH]; intros r0; simpl; [eauto|].
  apply Forall_cons in Hfuel as [Hf Hfuel].
  destruct Hdoc as ([did ->] & [title ->] & [content Hc]). rewrite Hc.
  destruct (chunked_total fuel did title content HM (Hf _ Hc)) as [chunks ->].
  now apply IH.
Qed.

Lemma batch_loop_key_error (fuel : nat) (l1 l2 : list document) (doc : document) :
  0 < absolute_max chunker -> Forall complete l1 -> ~ complete doc -> enough fuel l1 ->
  forall r0, batch_loop isdecimal chunker fuel (l1 ++ doc :: l2) r0 = KeyError.
Proof.
  intros HM Hall Hbad Hfuel. induction Hall as [|d rest Hd _ IH]; intros r0; simpl.
  - destruct (doc_id_key doc) eqn:E1; [|reflexivity].
    destruct (title_key doc) eqn:E2; [|reflexivity].
    destruct (content_key doc) eqn:E3; [|reflexivity].
    elim Hbad. unfold complete. rewrite E1, E2, E3. eauto.
  - apply Forall_cons in Hfuel as [Hf Hfuel].
    destruct Hd as ([did ->] & [title ->] & [content Hc]). rewrite Hc.
    destruct (chunked_total fuel did title content HM (Hf _ Hc)) as [chunks ->].
    now apply IH.
Qed.

End Batch.

(** The longest paragraph of a batch bounds the fuel that it needs. *)
Lemma enough_exists (documents : list document) : exists fuel, enough fuel documents.
Proof.
  induction documents as [|doc rest [fuel IH]].
  - exists O. constructor.
  - set (ps := match content_key doc with
               | Some content => _split_into_paragraphs content
               | None => []
               end).
    exists (Nat.max fuel (S (list_max (map (@length N) ps)))). constructor.
    + intros content Hc. subst ps. rewrite Hc.
      apply List.Forall_forall. intros p Hp.
      pose proof (proj1 (list_max_le (map (@length N) (_split_into_paragraphs content)) _)
                    (le_n _)) as Hmax.
      rewrite List.Forall_forall in Hmax.
      specialize (Hmax (length p) (in_map _ _ _ Hp)). lia.
    + unfold enough in *. rewrite List.Forall_forall in *. intros d Hd content Hc.
      specialize (IH d Hd content Hc). rewrite List.Forall_forall in *.
      intros p Hp. specialize (IH p Hp). lia.
Qed.

Lemma complete_dec (doc : document) : {complete doc} + {~ complete doc}.
Proof.
  unfold complete.
  destruct (doc_id_key doc); [|right; intros ([? ?] & _); discriminate].
  destruct (title_key doc); [|right; intros (_ & [? ?] & _); discriminate].
  destruct (content_key doc); [|right; intros (_ & _ & [? ?]); discriminate].
  left. eauto.
Qed.

Lemma first_incomplete (documents : list document) :
  ~ Forall complete documents ->
  exists l1 doc l2, documents = l1 ++ doc :: l2 /\ Forall complete l1 /\ ~ complete doc.
Proof.
  induction documents as [|d rest IH]; intros Hbad; [elim Hbad; constructor|].
  destruct (complete_dec d) as [Hd|Hd].
  - destruct IH as (l1 & doc & l2 & -> & Hl1 & Hdoc).
    + intros Hall. apply Hbad. now constructor.
    + exists (d :: l1), doc, l2. repeat split; [now constructor | exact Hdoc].
  - exists [], d, rest. repeat split; [constructor | exact Hd].
Qed.

(** X8. What [chunk_documents_batch] returns is keyed by document
    identifier, one entry per identifier: the entry of an identifier is
    what [chunk_document] gives for the last document of the batch that
    carries it, with the title and the content of that document and
    empty metadata; earlier documents with the same identifier leave no
    trace. *)
Theorem batch_keeps_last_document_per_id (isdecimal : N -> bool) (fuel : nat)
    (documents : list document) (chunker : option PolicyDocumentChunker)
    (result : list (str * list DocumentChunk)) :
  chunk_documents_batch isdecimal fuel documents chunker = Returned result ->
  NoDup (map fst result)
  /\ forall id cs,
       dict_get result id = Some cs <->
       exists l1 doc l2 title content,
         documents = l1 ++ doc :: l2
         /\ doc_id_key doc = Some id /\ title_key doc = Some title
         /\ content_key doc = Some content
         /\ Forall (fun d => doc_id_key d <> Some id) l2
         /\ chunk_document isdecimal (default default_chunker chunker) fuel
              id title content [] [] [] [] [] = Some cs.
Proof.
  unfold chunk_documents_batch. intros Hrun. split.
  - apply (batch_loop_keys _ _ _ _ _ _ Hrun). constructor.
  - intros id cs. rewrite (batch_loop_get _ _ _ _ _ _ Hrun id cs). split.
    + intros [H|[_ H]]; [exact H | discriminate].
    + intros H. now left.
Qed.

Lemma batch_keeps_last_document_per_id_witness :
  exists result,
    chunk_documents_batch ascii_digit 100
      [ {| doc_id_key := Some (lit "doc"); title_key := Some (lit "first");
           content_key := Some small_text |};
        {| doc_id_key := Some (lit "doc"); title_key := Some (lit "second");
           content_key := Some (lit "A single short paragraph.") |} ]
      (Some small_chunker) = Returned result
    /\ NoDup (map fst result).
Proof.
  eexists. split; [vm_compute; reflexivity|].
  apply (batch_keeps_last_document_per_id ascii_digit 100
           [ {| doc_id_key := Some (lit "doc"); title_key := Some (lit "first");
                content_key := Some small_text |};
             {| doc_id_key := Some (lit "doc"); title_key := Some (lit "second");
                content_key := Some (lit "A single short paragraph.") |} ]
           (Some small_chunker)).
  vm_compute. reflexivity.
Defined.

Lemma batch_loop_complete (isdecimal : N -> bool) (chunker : PolicyDocumentChunker)
    (fuel : nat) (documents : list document) :
  forall r0 result,
    batch_loop isdecimal chunker fuel documents r0 = Returned result ->
    Forall complete documents.
Proof.
  induction documents as [|doc rest IH]; intros r0 result Hrun; [constructor|].
  cbn [batch_loop] in Hrun.
  destruct (doc_id_key doc) as [did|] eqn:Hid; [|discriminate].
  destruct (title_key doc) as [title|] eqn:Ht; [|discriminate].
  destruct (content_key doc) as [content|] eqn:Hc; [|discriminate].
  destruct (chunk_document _ _ _ _ _ _ _ _ _ _ _) as [chunks|]; [|discriminate].
  constructor; [|exact (IH _ _ Hrun)].
  unfold complete. rewrite Hid, Ht, Hc. eauto.
Qed.

(** X9. With a chunker whose [absolute_max] is positive (the default
    one has 1200), [chunk_documents_batch] returns exactly when every
    document of the batch has the keys ['doc_id'], ['title'] and
    ['content']; a batch with a document that lacks one of them ends in
    a [KeyError], after the documents before it have been chunked. *)
Theorem batch_raises_on_missing_key (isdecimal : N -> bool)
    (documents : list document) (chunker : option PolicyDocumentChunker) :
  0 < absolute_max (default default_chunker chunker) ->
  ((exists fuel result,
       chunk_documents_batch isdecimal fuel documents chunker = Returned result)
   <-> Forall complete documents)
  /\ (~ Forall complete documents ->
      exists fuel, chunk_documents_batch isdecimal fuel documents chunker = KeyError).
Proof.
  intros HM. unfold chunk_documents_batch.
  destruct (enough_exists documents) as [fuel Hfuel]. split; [split|].
  - intros (f & result & Hrun). exact (batch_loop_complete _ _ _ _ _ _ Hrun).
  - intros Hall. exists fuel. now apply batch_loop_total.
  - intros Hbad. apply first_incomplete in Hbad as (l1 & doc & l2 & -> & Hl1 & Hdoc).
    exists fuel. apply batch_loop_key_error; try assumption.
    unfold enough in *. now apply Forall_app in Hfuel as [Hfuel _].
Qed.

Lemma batch_raises_on_missing_key_witness :
  exists fuel,
    chunk_documents_batch ascii_digit fuel
      [ {| doc_id_key := Some (lit "doc"); title_key := None;
           content_key := Some small_text |} ] None = KeyError.
Proof.
  apply (batch_raises_on_missing_key ascii_digit
           [ {| doc_id_key := Some (lit "doc"); title_key := None;
                content_key := Some small_text |} ] None).
  - reflexivity.
  - intros Hall. apply Forall_inv in Hall. destruct Hall as (_ & [t Ht] & _). discriminate.
Defined.

End BatchFacts.

(** ** The byte limit of the stored fields *)

Module Utf8Facts.
Import PyStr Utf8.

Ltac divmod c :=
  pose proof (N.div_mod c 64 ltac:(discriminate));
  pose proof (N.mod_lt c 64 ltac:(discriminate));
  pose proof (N.div_mod (c / 64) 64 ltac:(discriminate));
  pose proof (N.mod_lt (c / 64) 64 ltac:(discriminate));
  pose proof (N.div_mod c 4096 ltac:(discriminate));
  pose proof (N.mod_lt c 4096 ltac:(discriminate));
  pose proof (N.div_mod (c / 4096) 64 ltac:(discriminate));
  pose proof (N.mod_lt (c / 4096) 64 ltac:(discriminate));
  pose proof (N.div_mod c 262144 ltac:(discriminate));
  pose proof (N.mod_lt c 262144 ltac:(discriminate));
  set (q6 := (c / 64)%N) in *; set (r6 := (c mod 64)%N) in *;
  set (m6 := (q6 mod 64)%N) in *; set (q12 := (c / 4096)%N) in *;
  set (m12 := (q12 mod 64)%N) in *; set (q18 := (c / 262144)%N) in *;
  set (r12 := (c mod 4096)%N) in *; set (r18 := (c mod 262144)%N) in *;
  set (qq6 := (q6 / 64)%N) in *; set (qq12 := (q12 / 64)%N) in *;
  clearbody r18 r12 q18 m12 qq12 q12 m6 qq6 r6 q6.

Ltac decide_tests :=
  repeat match goal with
         | |- context [N.leb ?a ?b] => destruct (N.leb_spec a b); try lia
         | |- context [N.ltb ?a ?b] => destruct (N.ltb_spec a b); try lia
         | |- context [N.eqb ?a ?b] => destruct (N.eqb_spec a b); try lia
         end.

Ltac run_decoder :=
  repeat (progress (cbn [app decode_from decode_step andb orb]; decide_tests)).

(** Reading the bytes of one character gives the character and leaves
    the decoder between two characters. *)
Lemma decode_char (c : N) (bs tail : bytes) :
  encode_char c = Some bs ->
  decode_from Start (bs ++ tail) = option_map (cons c) (decode_from Start tail).
Proof.
  unfold encode_char. divmod c.
  destruct (N.ltb_spec c 128).
  { intros [= <-]. run_decoder. now destruct (decode_from Start tail). }
  destruct (N.ltb_spec c 2048).
  { intros [= <-]. run_decoder.
    destruct (decode_from Start tail); [|reflexivity]. cbn. f_equal. f_equal. lia. }
  destruct ((55296 <=? c)%N && (c <=? 57343)%N) eqn:Es; [discriminate|].
  assert (Hs : (c < 55296 \/ 57343 < c)%N).
  { apply andb_false_iff in Es as [Es|Es]; apply N.leb_gt in Es; lia. }
  clear Es.
  destruct (N.ltb_spec c 65536).
  { intros [= <-]. run_decoder;
      (destruct (decode_from Start tail); [|reflexivity]); cbn; f_equal; f_equal; lia. }
  destruct (N.leb_spec c 1114111); [|discriminate].
  intros [= <-]. run_decoder;
    (destruct (decode_from Start tail); [|reflexivity]); cbn; f_equal; f_equal; lia.
Qed.

(** A byte string that stops inside a character does not decode. *)
Lemma decode_inside (c : N) (bs : bytes) (n : nat) :
  encode_char c = Some bs -> (0 < n < length bs)%nat ->
  decode_from Start (firstn n bs) = None.
Proof.
  unfold encode_char. divmod c.
  destruct (N.ltb_spec c 128).
  { intros [= <-] Hn. simpl in Hn. lia. }
  destruct (N.ltb_spec c 2048).
  { intros [= <-] Hn. simpl in Hn. destruct n as [|[|n]]; try lia.
    cbn [firstn]. run_decoder. reflexivity. }
  destruct ((55296 <=? c)%N && (c <=? 57343)%N) eqn:Es; [discriminate|].
  assert (Hs : (c < 55296 \/ 57343 < c)%N).
  { apply andb_false_iff in Es as [Es|Es]; apply N.leb_gt in Es; lia. }
  clear Es.
  destruct (N.ltb_spec c 65536).
  { intros [= <-] Hn. simpl in Hn. destruct n as [|[|[|n]]]; try lia;
      cbn [firstn]; run_decoder; reflexivity. }
  destruct (N.leb_spec c 1114111); [|discriminate].
  intros [= <-] Hn. simpl in Hn. destruct n as [|[|[|[|n]]]]; try lia;
    cbn [firstn]; run_decoder; reflexivity.
Qed.

Lemma encode_char_width (c : N) (bs : bytes) :
  encode_char c = Some bs -> (1 <= length bs <= 4)%nat.
Proof.
  unfold encode_char.
  repeat match goal with |- context [if ?b then _ else _] => destruct b end;
    intros [= <-]; simpl; lia.
Qed.

(** Decoding undoes encoding. *)
Lemma decode_encode (s : str) (b : bytes) : encode s = Some b -> decode b = Some s.
Proof.
  unfold decode. revert b. induction s as [|c s IH]; intros b; simpl.
  - now intros [= <-].
  - destruct (encode_char c) as [bc|] eqn:Ec; [|discriminate].
    destruct (encode s) as [bs|]; [|discriminate]. intros [= <-].
    rewrite (decode_char c bc bs Ec). now rewrite (IH bs eq_refl).
Qed.

Lemma encode_app (s1 s2 : str) :
  encode (s1 ++ s2)
  = match encode s1, encode s2 with
    | Some b1, Some b2 => Some (b1 ++ b2)
    | _, _ => None
    end.
Proof.
  induction s1 as [|c s1 IH]; simpl.
  - now destruct (encode s2).
  - rewrite IH. destruct (encode_char c); [|reflexivity].
    destruct (encode s1); [|reflexivity]. destruct (encode s2); [|reflexivity].
    now rewrite app_assoc.
Qed.

(** The prefixes of an encoded text that decode are the encodings of the
    prefixes of the text. *)
Lemma decode_prefix (s : str) (b : bytes) (n : nat) :
  encode s = Some b -> (n <= length b)%nat ->
  forall r, decode (firstn n b) = Some r <->
            exists k, r = firstn k s
                      /\ exists br, encode (firstn k s) = Some br /\ length br = n.
Proof.
  unfold decode. revert b n. induction s as [|c s IH]; intros b n; simpl.
  - intros [= <-] Hn r. simpl in Hn. replace n with O by lia. simpl. split.
    + intros [= <-]. exists O. split; [reflexivity|]. now exists [].
    + intros (k & -> & _). now rewrite firstn_nil.
  - destruct (encode_char c) as [bc|] eqn:Ec; [|discriminate].
    destruct (encode s) as [bs|] eqn:Es; [|discriminate]. intros [= <-] Hn r.
    pose proof (encode_char_width c bc Ec) as Hw.
    destruct (Nat.eq_dec n 0%nat) as [->|Hn0].
    { simpl. split.
      - intros [= <-]. exists O. split; [reflexivity|]. now exists [].
      - intros (k & -> & br & Hbr & Hlen). destruct k as [|k]; [reflexivity|].
        simpl in Hbr. rewrite Ec in Hbr.
        destruct (encode (firstn k s)); [|discriminate]. injection Hbr as <-.
        rewrite length_app in Hlen. lia. }
    destruct (Nat.lt_ge_cases n (length bc)) as [Hlt|Hge].
    + rewrite firstn_app. replace (n - length bc)%nat with O by lia.
      simpl. rewrite app_nil_r. rewrite (decode_inside c bc n Ec) by lia. split.
      * discriminate.
      * intros (k & -> & br & Hbr & Hlen). destruct k as [|k].
        -- simpl in Hbr. injection Hbr as <-. simpl in Hlen. lia.
        -- simpl in Hbr. rewrite Ec in Hbr.
           destruct (encode (firstn k s)); [|discriminate]. injection Hbr as <-.
           rewrite length_app in Hlen. lia.
    + rewrite firstn_app, firstn_all2 by lia.
      rewrite (decode_char c bc _ Ec). rewrite length_app in Hn.
      specialize (IH bs (n - length bc)%nat eq_refl ltac:(lia)). split.
      * destruct (decode_from Start (firstn (n - length bc) bs)) as [r'|] eqn:Er;
          [|discriminate].
        intros [= <-]. destruct (proj1 (IH r') eq_refl) as (k & -> & br & Hbr & Hlen).
        exists (S k). split; [reflexivity|]. simpl. rewrite Ec, Hbr.
        eexists. split; [reflexivity|]. rewrite length_app. lia.
      * intros (k & -> & br & Hbr & Hlen). destruct k as [|k].
        -- simpl in Hbr. injection Hbr as <-. simpl in Hlen. lia.
        -- simpl in Hbr. rewrite Ec in Hbr.
           destruct (encode (firstn k s)) as [bk|] eqn:Ek; [|discriminate].
           injection Hbr as <-. rewrite length_app in Hlen.
           rewrite (proj2 (IH (firstn k s))); [reflexivity|].
           exists k. split; [reflexivity|]. exists bk. split; [exact Ek | lia].
Qed.

Lemma encode_firstn (s : str) (b : bytes) (k : nat) :
  encode s = Some b -> exists br, encode (firstn k s) = Some br /\ (length br <= length b)%nat.
Proof.
  intros Hs. rewrite <- (firstn_skipn k s) in Hs. rewrite encode_app in Hs.
  destruct (encode (firstn k s)) as [br|]; [|discriminate].
  destruct (encode (skipn k s)) as [bt|]; [|discriminate]. injection Hs as <-.
  exists br. split; [reflexivity|]. rewrite length_app. lia.
Qed.

(** What the loop of [_truncate_utf8] finds: the longest prefix of the
    text whose encoding has at most [cut] bytes. *)
Lemma cut_loop_longest (s : str) (b : bytes) (cut : nat) :
  encode s = Some b -> (cut <= length b)%nat ->
  exists k br,
    cut_loop b cut = firstn k s
    /\ encode (firstn k s) = Some br /\ (length br <= cut)%nat
    /\ forall k' br', encode (firstn k' s) = Some br' -> (length br' <= cut)%nat ->
                      (length br' <= length br)%nat.
Proof.
  intros Hs. induction cut as [|cut IH]; intros Hcut.
  - exists O, []. simpl. repeat split; lia.
  - cbn [cut_loop]. destruct (decode (firstn (S cut) b)) as [r|] eqn:Ed.
    + apply (decode_prefix s b (S cut) Hs Hcut) in Ed as (k & -> & br & Hbr & Hlen).
      exists k, br. repeat split; try assumption; lia.
    + destruct (IH ltac:(lia)) as (k & br & Hk & Hbr & Hlen & Hmax).
      exists k, br. repeat split; try assumption; try lia.
      intros k' br' Hbr' Hlen'.
      destruct (Nat.eq_dec (length br') (S cut)) as [Heq|Hne].
      * assert (Hsome : decode (firstn (S cut) b) = Some (firstn k' s)).
        { apply (decode_prefix s b (S cut) Hs Hcut). exists k'. split; [reflexivity|].
          now exists br'. }
        congruence.
      * apply (Hmax k' br' Hbr'). lia.
Qed.

(** X10. For a text that can be encoded, [_truncate_utf8] returns a
    prefix of the text, the text itself when its encoding fits in
    [max_bytes]; the encoding of the result never exceeds a
    [max_bytes] that is not negative, no character is cut in two, and
    no prefix with a longer encoding would have fitted. *)
Theorem truncate_utf8_longest_prefix (s : str) (b : bytes) (max_bytes : Z) :
  encode s = Some b ->
  exists k br,
    _truncate_utf8 (Some s) max_bytes = Some (firstn k s)
    /\ encode (firstn k s) = Some br
    /\ (len b <= max_bytes -> firstn k s = s)
    /\ (0 <= max_bytes -> len br <= max_bytes)
    /\ (forall k' br', encode (firstn k' s) = Some br' -> len br' <= max_bytes ->
                       len br' <= len br).
Proof.
  intros Hs. unfold _truncate_utf8. cbv zeta.
  change (default [] (Some s)) with s. rewrite Hs.
  destruct (len b <=? max_bytes) eqn:Hfit.
  - apply Z.leb_le in Hfit. exists (length s), b. rewrite firstn_all.
    repeat split; try assumption; try lia.
    intros k' br' Hbr' _. destruct (encode_firstn s b k' Hs) as (br & Hbr & Hle).
    assert (br' = br) by congruence. subst. unfold len. lia.
  - apply Z.leb_gt in Hfit.
    destruct (cut_loop_longest s b (Z.to_nat max_bytes) Hs) as (k & br & Hk & Hbr & Hlen & Hmax).
    { unfold len in Hfit. lia. }
    exists k, br. rewrite Hk. repeat split; try assumption; unfold len in *; try lia.
    intros k' br' Hbr' Hle.
    specialize (Hmax k' br' Hbr'). lia.
Qed.

Lemma truncate_utf8_longest_prefix_witness :
  exists k br,
    _truncate_utf8 (Some [20013; 25991; 97; 128512]%N) 8
    = Some (firstn k [20013; 25991; 97; 128512]%N)
    /\ encode (firstn k [20013; 25991; 97; 128512]%N) = Some br
    /\ (len [228; 184; 173; 230; 150; 135; 97; 240; 159; 152; 128]%N <= 8 ->
        firstn k [20013; 25991; 97; 128512]%N = [20013; 25991; 97; 128512]%N)
    /\ (0 <= 8 -> len br <= 8)
    /\ (forall k' br',
          encode (firstn k' [20013; 25991; 97; 128512]%N) = Some br' ->
          len br' <= 8 -> len br' <= len br).
Proof.
  apply (truncate_utf8_longest_prefix [20013; 25991; 97; 128512]%N
           [228; 184; 173; 230; 150; 135; 97; 240; 159; 152; 128]%N 8).
  reflexivity.
Defined.

End Utf8Facts.

(** ** Ranked lists, and more on the reranking pass *)

Module RankingFacts.
Import PyStr PyList Cand PyListFacts.

(** *** Lists in decreasing order of a score *)

Lemma in_order_desc {A : Type} (key : A -> Q) (l : list A) :
  Sorted (in_order (fun y x => Qlt_bool (key x) (key y))) l ->
  StronglySorted (fun a b => (key b <= key a)%Q) l.
Proof.
  intros H. apply Sorted_StronglySorted.
  - intros a b c Hab Hbc. now apply (Qle_trans _ (key b)).
  - induction H as [|x l Hl IH Hhd]; constructor; [exact IH|].
    destruct Hhd as [|y l' Hxy]; constructor.
    unfold in_order in Hxy. now apply Qlt_bool_ge in Hxy.
Qed.

Lemma sort_desc_descending {A : Type} (key : A -> Q) (l : list A) :
  StronglySorted (fun a b => (key b <= key a)%Q) (sort_desc key l).
Proof.
  apply in_order_desc. apply stable_sort_Sorted. intros x y. apply sort_desc_asym.
Qed.

Lemma StronglySorted_sublist {A : Type} (R : A -> A -> Prop) (l l' : list A) :
  l' `sublist_of` l -> StronglySorted R l -> StronglySorted R l'.
Proof.
  intros Hsub Hs. revert l' Hsub. induction Hs as [|x l Hl IH Hx]; intros l' Hsub.
  - apply sublist_nil_r in Hsub as ->. constructor.
  - apply sublist_cons_r in Hsub as [Hsub|(l'' & -> & Hsub)]; [now apply IH|].
    constructor; [now apply IH|].
    apply List.Forall_forall. intros y Hy. rewrite List.Forall_forall in Hx. apply Hx.
    apply list_elem_of_In. apply list_elem_of_In in Hy. now apply (elem_of_sublist _ _ _ Hy).
Qed.

Lemma slice_to_descending {A : Type} (key : A -> Q) (l : list A) (n : Z) :
  StronglySorted (fun a b => (key b <= key a)%Q) (slice_to (sort_desc key l) n).
Proof.
  apply (StronglySorted_sublist _ (sort_desc key l));
    [apply slice_to_sublist | apply sort_desc_descending].
Qed.

Lemma length_slice_to {A : Type} (l : list A) (n : Z) :
  0 <= n -> Z.of_nat (length (slice_to l n)) = Z.min n (Z.of_nat (length l)).
Proof.
  intros Hn. rewrite slice_to_nonneg by exact Hn. rewrite length_firstn. lia.
Qed.

Lemma elem_of_slice_to {A : Type} (l : list A) (n : Z) (x : A) :
  x ∈ slice_to l n -> x ∈ l.
Proof. intros H. exact (elem_of_sublist _ _ _ H (slice_to_sublist l n)). Qed.

End RankingFacts.

Module RerankerFacts.
Import PyStr PyList Cand Reranker PyListFacts RerankerSpec RankingFacts.

Lemma deref_insert_eq (h : store) (r : nat) (d : chunk_dict) : deref (<[ r := d ]> h) r = d.
Proof. unfold deref. now rewrite lookup_insert_eq. Qed.

Lemma deref_outside (results : list nat) (h h' : store) (r : nat) :
  frame results h h' -> r ∉ results -> deref h' r = deref h r.
Proof. intros [Hout _] Hr. unfold deref. now rewrite Hout. Qed.

(** The scores and the ranks that the loops write, candidate by
    candidate, when no dictionary occurs twice in the list. *)
Lemma assign_scores_values (results : list nat) (scores : list Q) :
  forall h i, NoDup results ->
    snd (assign_scores h results i scores) = true ->
    forall j r, results !! j = Some r ->
      let d := deref (fst (assign_scores h results i scores)) r in
      rerank_score d = nth_error scores (i + j)
      /\ original_rank d = Some (Z.of_nat (i + j) + 1).
Proof.
  induction results as [|x rs IH]; intros h i Hnd Hok j r Hj; [discriminate|].
  apply NoDup_cons in Hnd as [Hx Hnd]. cbn [assign_scores] in *.
  destruct (nth_error scores i) as [s|] eqn:Es; [|discriminate].
  set (dx := set_original_rank (set_rerank_score (deref h x) s) (Z.of_nat i + 1)) in *.
  destruct j as [|j]; simpl in Hj.
  - injection Hj as <-.
    rewrite (deref_outside rs (<[ x := dx ]> h) _ x (assign_scores_frame _ _ _ _) Hx).
    rewrite deref_insert_eq. subst dx. simpl. rewrite Nat.add_0_r. now split.
  - replace (i + S j)%nat with (S i + j)%nat by lia.
    exact (IH (<[ x := dx ]> h) (S i) Hnd Hok j r Hj).
Qed.

Lemma assign_default_values (results : list nat) :
  forall h i, NoDup results ->
    forall j r, results !! j = Some r ->
      let d := deref (assign_default h results i) r in
      rerank_score d = Some 0%Q /\ original_rank d = Some (i + Z.of_nat j + 1).
Proof.
  induction results as [|x rs IH]; intros h i Hnd j r Hj; [discriminate|].
  apply NoDup_cons in Hnd as [Hx Hnd]. cbn [assign_default].
  set (dx := set_original_rank (set_rerank_score (deref h x) 0%Q) (i + 1)).
  destruct j as [|j]; simpl in Hj.
  - injection Hj as <-.
    rewrite (deref_outside rs (<[ x := dx ]> h) _ x (assign_default_frame _ _ _) Hx).
    rewrite deref_insert_eq. subst dx. simpl. split; [reflexivity|]. f_equal. lia.
  - destruct (IH (<[ x := dx ]> h) (i + 1) Hnd j r Hj) as [H1 H2]. split; [exact H1|].
    rewrite H2. f_equal. lia.
Qed.

Lemma assign_missing_values (results : list nat) :
  forall h i, NoDup results ->
    forall j r, results !! j = Some r ->
      let d := deref (assign_missing h results i) r in
      rerank_score d = Some (get_num (rerank_score (deref h r)))
      /\ original_rank d
         = Some (default (i + Z.of_nat j + 1) (original_rank (deref h r))).
Proof.
  induction results as [|x rs IH]; intros h i Hnd j r Hj; [discriminate|].
  apply NoDup_cons in Hnd as [Hx Hnd]. cbn [assign_missing].
  set (d1 := match rerank_score (deref h x) with
             | Some _ => deref h x
             | None => set_rerank_score (deref h x) 0%Q
             end).
  set (dx := match original_rank d1 with
             | Some _ => d1
             | None => set_original_rank d1 (i + 1)
             end).
  destruct j as [|j]; simpl in Hj.
  - injection Hj as <-.
    rewrite (deref_outside rs (<[ x := dx ]> h) _ x (assign_missing_frame _ _ _) Hx).
    rewrite deref_insert_eq. subst dx d1.
    destruct (rerank_score (deref h x)) as [s|] eqn:Es;
      destruct (original_rank (deref h x)) as [k|] eqn:Ek; simpl;
      rewrite ?Es, ?Ek; simpl; rewrite ?Es, ?Ek; split; try reflexivity; f_equal; lia.
  - assert (Hr : r ∈ rs) by (apply list_elem_of_lookup; eauto).
    assert (Hne : x <> r) by (intros ->; contradiction).
    destruct (IH (<[ x := dx ]> h) (i + 1) Hnd j r Hj) as [H1 H2].
    unfold deref at 2 in H1. unfold deref at 2 in H2.
    rewrite lookup_insert_ne in H1, H2 by exact Hne. split; [exact H1|].
    rewrite H2. f_equal. fold (deref h r).
    destruct (original_rank (deref h r)); simpl; lia.
Qed.

(** X11. When the model scores every pair, [rerank] writes into each
    candidate the score of its pair and its 1-based position in the
    list it was given, sorts the caller's list by decreasing score, and
    returns the first [top_k] of that order (the candidates are distinct
    dictionaries). *)
Theorem rerank_orders_by_score (self : BCEReranker) (h : store) (query : str)
    (results : list nat) (top_k qm pm : Z) (pairs : list (str * str)) (scores : list Q) :
  enabled self = true -> NoDup results ->
  build_pairs h (PyStr.slice_to query qm) results pm = Some pairs ->
  predict self pairs = Some scores ->
  (length results <= length scores)%nat ->
  exists out,
    rerank self h query results top_k qm pm = Some out
    /\ list_after out ≡ₚ results
    /\ StronglySorted
         (fun a b => (get_num (rerank_score (deref (store_after out) b))
                      <= get_num (rerank_score (deref (store_after out) a)))%Q)
         (list_after out)
    /\ returned out = slice_to (list_after out) top_k
    /\ forall j r, results !! j = Some r ->
         rerank_score (deref (store_after out) r) = nth_error scores j
         /\ original_rank (deref (store_after out) r) = Some (Z.of_nat j + 1).
Proof.
  intros He Hnd Hpairs Hscores Hlen. unfold rerank. rewrite He. cbn [negb].
  destruct (bool_decide (results = [])) eqn:Hnil.
  - apply bool_decide_eq_true in Hnil as ->. eexists. split; [reflexivity|].
    cbn [list_after returned store_after]. repeat split; try constructor.
    + unfold slice_to. destruct (top_k <? 0); symmetry; apply firstn_nil.
    + discriminate.
    + discriminate.
  - rewrite Hpairs, Hscores.
    pose proof (assign_scores_enough results h 0 scores Hlen) as Hok.
    pose proof (assign_scores_values results scores h 0 Hnd Hok) as Hval.
    destruct (assign_scores h results 0 scores) as [h' ok]. simpl in Hok, Hval. subst ok.
    eexists. split; [reflexivity|]. cbn [list_after returned store_after].
    split; [apply stable_sort_perm|]. split; [apply sort_desc_descending|].
    split; [reflexivity|]. exact Hval.
Qed.

Lemma rerank_orders_by_score_witness :
  exists out,
    rerank length_reranker two_store (lit "query") [0%nat; 1%nat] 1 512 512 = Some out
    /\ returned out = [1%nat].
Proof.
  destruct (rerank_orders_by_score length_reranker two_store (lit "query")
              [0%nat; 1%nat] 1 512 512
              [(lit "query", lit "a"); (lit "query", lit "bb")] [1%Q; 2%Q])
    as (out & Hrun & _ & _ & Hret & _).
  - reflexivity.
  - repeat constructor; intros H; repeat (apply elem_of_cons in H as [H|H]; [discriminate|]);
      now apply elem_of_nil in H.
  - reflexivity.
  - reflexivity.
  - simpl. lia.
  - exists out. split; [exact Hrun|]. rewrite Hret.
    vm_compute in Hrun. injection Hrun as <-. reflexivity.
Defined.

(** X12. When the reranker is disabled, or the model raises, [rerank]
    leaves the order of the list as it is and returns its first [top_k]
    candidates. A disabled reranker writes the score 0.0 and the
    position into every candidate; after a failure of the model a
    candidate keeps the score and the rank it had, and gets 0.0 and its
    position where it had none. *)
Theorem rerank_fallback_keeps_order (self : BCEReranker) (h : store) (query : str)
    (results : list nat) (top_k qm pm : Z) :
  NoDup results ->
  (enabled self = false ->
   exists out,
     rerank self h query results top_k qm pm = Some out
     /\ list_after out = results /\ returned out = slice_to results top_k
     /\ forall j r, results !! j = Some r ->
          rerank_score (deref (store_after out) r) = Some 0%Q
          /\ original_rank (deref (store_after out) r) = Some (Z.of_nat j + 1))
  /\ (enabled self = true ->
      forall pairs,
        build_pairs h (PyStr.slice_to query qm) results pm = Some pairs ->
        predict self pairs = None ->
        exists out,
          rerank self h query results top_k qm pm = Some out
          /\ list_after out = results /\ returned out = slice_to results top_k
          /\ forall j r, results !! j = Some r ->
               rerank_score (deref (store_after out) r)
               = Some (get_num (rerank_score (deref h r)))
               /\ original_rank (deref (store_after out) r)
                  = Some (default (Z.of_nat j + 1) (original_rank (deref h r)))).
Proof.
  intros Hnd. unfold rerank. split.
  - intros ->. cbn [negb]. eexists. split; [reflexivity|].
    cbn [list_after returned store_after]. repeat split.
    + now destruct (assign_default_values results h 0 Hnd j r H).
    + destruct (assign_default_values results h 0 Hnd j r H) as [_ ->]. f_equal; lia.
  - intros -> pairs Hpairs Hfail. cbn [negb].
    destruct (bool_decide (results = [])) eqn:Hnil.
    + apply bool_decide_eq_true in Hnil as ->. eexists. split; [reflexivity|].
      cbn [list_after returned store_after]. repeat split; try discriminate.
      unfold slice_to. destruct (top_k <? 0); symmetry; apply firstn_nil.
    + rewrite Hpairs, Hfail. eexists. split; [reflexivity|].
      cbn [list_after returned store_after]. repeat split.
      * now destruct (assign_missing_values results h 0 Hnd j r H).
      * destruct (assign_missing_values results h 0 Hnd j r H) as [_ ->]. reflexivity.
Qed.

Lemma rerank_fallback_keeps_order_witness :
  exists out,
    rerank {| enabled := false; predict := fun _ => None |} two_store (lit "query")
      [0%nat; 1%nat] 1 512 512 = Some out
    /\ returned out = [0%nat].
Proof.
  destruct (rerank_fallback_keeps_order {| enabled := false; predict := fun _ => None |}
              two_store (lit "query") [0%nat; 1%nat] 1 512 512) as [Hoff _].
  - repeat constructor; intros H; repeat (apply elem_of_cons in H as [H|H]; [discriminate|]);
      now apply elem_of_nil in H.
  - destruct (Hoff eq_refl) as (out & Hrun & _ & Hret & _).
    exists out. split; [exact Hrun | exact Hret].
Defined.

End RerankerFacts.

(** ** More on the dedup and the time weighting *)

Module DedupFacts.
Import PyStr PyList Cand Dedup PyListFacts DedupSpec RankingFacts.

(** The bonus of a tier is never negative; it stays within 0.1 for a
    document that is not dated after the reference, and exceeds 0.1 for
    one that is. *)
Lemma tier_bonus_range (days_diff : Z) :
  (0 <= tier_bonus days_diff)%Q
  /\ (0 <= days_diff -> (tier_bonus days_diff <= 0.1)%Q)
  /\ (days_diff < 0 -> (0.1 < tier_bonus days_diff)%Q).
Proof.
  unfold tier_bonus, Qdiv.
  change (/ 365)%Q with (1 # 365)%Q. change (/ 730)%Q with (1 # 730)%Q.
  destruct (days_diff <=? 365) eqn:Ea; [apply Z.leb_le in Ea | apply Z.leb_gt in Ea].
  - assert (Ha : (inject_Z days_diff <= 365)%Q)
      by (change 365%Q with (inject_Z 365); rewrite <- Zle_Qle; lia).
    split; [lra|]. split; intros Hd.
    + assert (H0 : (0 <= inject_Z days_diff)%Q)
        by (change 0%Q with (inject_Z 0); rewrite <- Zle_Qle; lia).
      lra.
    + assert (H0 : (inject_Z days_diff < 0)%Q)
        by (change 0%Q with (inject_Z 0); rewrite <- Zlt_Qlt; lia).
      lra.
  - assert (Ha : (365 < inject_Z days_diff)%Q)
      by (change 365%Q with (inject_Z 365); rewrite <- Zlt_Qlt; lia).
    destruct (days_diff <=? 1095) eqn:Eb; [apply Z.leb_le in Eb | apply Z.leb_gt in Eb].
    + assert (Hb : (inject_Z days_diff <= 1095)%Q)
        by (change 1095%Q with (inject_Z 1095); rewrite <- Zle_Qle; lia).
      split; [lra|]. split; intros Hd; [lra | lia].
    + split; [lra|]. split; intros Hd; [lra | lia].
Qed.

(** The order, the keys and the number of the returned candidates. *)
Lemma returned_descending (fromisoformat : str -> option Z) (h : store)
    (chunk_results : list nat) (policy_timestamp : option Z) (top_k : Z) :
  let out := _deduplicate_chunks fromisoformat h chunk_results policy_timestamp top_k in
  StronglySorted
    (fun a b => (get_num (final_score (deref (store_after out) b))
                 <= get_num (final_score (deref (store_after out) a)))%Q)
    (returned out).
Proof. intros out. unfold out, _deduplicate_chunks. cbn [returned]. apply slice_to_descending. Qed.

Lemma returned_keys_NoDup (fromisoformat : str -> option Z) (h : store)
    (chunk_results : list nat) (policy_timestamp : option Z) (top_k : Z) :
  let out := _deduplicate_chunks fromisoformat h chunk_results policy_timestamp top_k in
  NoDup (map (fun r => group_key (deref (store_after out) r)) (returned out)).
Proof.
  intros out. set (S := survivors h chunk_results).
  assert (Hret : returned out
                 = slice_to (sort_desc (fun r => get_num (final_score (deref (store_after out) r))) S)
                     top_k) by reflexivity.
  rewrite (map_ext _ (key_at h)).
  - apply (sublist_NoDup _ (map (key_at h) (sort_desc
             (fun r => get_num (final_score (deref (store_after out) r))) S))).
    + unfold sort_desc. rewrite stable_sort_perm. apply survivors_keys_NoDup.
    + apply fmap_sublist. rewrite Hret. apply slice_to_sublist.
  - intros r. unfold out. rewrite store_after_eq. apply group_key_fold_attach.
Qed.

Lemma survivors_length (h : store) (chunk_results : list nat) :
  (length (survivors h chunk_results) <= length chunk_results)%nat.
Proof.
  apply submseteq_length. apply NoDup_submseteq.
  - apply (NoDup_fmap_1 (key_at h)). apply survivors_keys_NoDup.
  - intros r Hr. now apply (survivors_input h).
Qed.

(** X13. The candidates that [_deduplicate_chunks] returns are in
    decreasing order of [final_score], carry pairwise different
    (title, timestamp) keys, come from the list it was given, and are at
    most [top_k] when [top_k] is not negative; with a [top_k] that is at
    least the number of candidates, every (title, timestamp) key of the
    input is represented. *)
Theorem dedup_output_is_ranked (fromisoformat : str -> option Z) (h : store)
    (chunk_results : list nat) (policy_timestamp : option Z) (top_k : Z) :
  let out := _deduplicate_chunks fromisoformat h chunk_results policy_timestamp top_k in
  StronglySorted
    (fun a b => (get_num (final_score (deref (store_after out) b))
                 <= get_num (final_score (deref (store_after out) a)))%Q)
    (returned out)
  /\ NoDup (map (fun r => group_key (deref (store_after out) r)) (returned out))
  /\ (forall r, r ∈ returned out -> r ∈ chunk_results)
  /\ (0 <= top_k -> Z.of_nat (length (returned out)) <= top_k)
  /\ (Z.of_nat (length chunk_results) <= top_k ->
      forall r', r' ∈ chunk_results ->
        exists r, r ∈ returned out
                  /\ group_key (deref h r) = group_key (deref h r')).
Proof.
  intros out.
  set (S := survivors h chunk_results).
  assert (Hret : returned out
                 = slice_to (sort_desc (fun r => get_num (final_score (deref (store_after out) r))) S)
                     top_k) by reflexivity.
  pose proof (survivors_length h chunk_results) as Hlen. fold S in Hlen.
  split; [|split; [|split; [|split]]].
  - apply returned_descending.
  - apply returned_keys_NoDup.
  - intros r Hr. apply (survivors_input h). now apply returned_survivor in Hr.
  - intros Hk. rewrite Hret, length_slice_to by exact Hk. lia.
  - intros Hk r' Hr'. destruct (survivors_cover h _ _ Hr') as (r & Hr & Hkey & _).
    exists r. split; [|exact Hkey].
    rewrite Hret, slice_to_nonneg by lia. rewrite firstn_all2.
    + unfold sort_desc. now rewrite stable_sort_perm.
    + unfold sort_desc. rewrite stable_sort_length. fold S. lia.
Qed.

Lemma dedup_output_is_ranked_witness :
  let out := _deduplicate_chunks iso_date three_store [0%nat; 1%nat; 2%nat] (Some 20089) 2 in
  Z.of_nat (length (returned out)) <= 2.
Proof.
  intros out.
  apply (dedup_output_is_ranked iso_date three_store [0%nat; 1%nat; 2%nat] (Some 20089) 2).
  lia.
Defined.

(** X14. The time bonus that [_deduplicate_chunks] writes is never
    negative, so that no [final_score] lies below the [rerank_score] it
    was computed from. For a candidate with a readable time stamp, the
    bonus is at most 0.1 when the document is not dated after the
    reference date, and more than 0.1 when it is: the first formula has
    no lower bound on [days_diff]. *)
Theorem time_bonus_is_never_negative (fromisoformat : str -> option Z) (h : store)
    (chunk_results : list nat) (policy_timestamp : option Z) (top_k : Z) (r : nat) :
  r ∈ survivors h chunk_results ->
  let chunk := deref h r in
  let after :=
    deref (store_after
             (_deduplicate_chunks fromisoformat h chunk_results policy_timestamp top_k)) r in
  exists bonus,
    time_bonus after = Some bonus
    /\ (0 <= bonus)%Q
    /\ (get_num (rerank_score chunk) <= get_num (final_score after))%Q
    /\ forall ts date ref,
         get_str (timestamp chunk) = PyStr ts -> ts <> [] ->
         doc_date fromisoformat ts = Some date -> policy_timestamp = Some ref ->
         (date <= ref -> (bonus <= 0.1)%Q) /\ (ref < date -> (0.1 < bonus)%Q).
Proof.
  intros Hin chunk after.
  assert (Hafter : after = attached fromisoformat policy_timestamp chunk).
  { subst after chunk. now apply survivor_after. }
  exists (time_bonus_of fromisoformat policy_timestamp chunk).
  assert (Hpos : (0 <= time_bonus_of fromisoformat policy_timestamp chunk)%Q).
  { unfold time_bonus_of. destruct (get_str (timestamp chunk)) as [|ts]; [lra|].
    destruct policy_timestamp as [ref|]; [|lra].
    destruct (nonempty ts); [|lra].
    destruct (doc_date fromisoformat ts) as [date|]; [|lra].
    apply tier_bonus_range. }
  split; [now rewrite Hafter|]. split; [exact Hpos|]. split.
  - rewrite Hafter. cbn. lra.
  - intros ts date ref Hts Hne Hdate Href. unfold time_bonus_of.
    rewrite Hts, Href. destruct ts as [|c ts]; [congruence|]. cbn [nonempty].
    rewrite Hdate. destruct (tier_bonus_range (ref - date)) as (_ & Hle & Hgt).
    split; intros Hd; [apply Hle | apply Hgt]; lia.
Qed.

Lemma time_bonus_is_never_negative_witness :
  let after :=
    deref (store_after
             (_deduplicate_chunks iso_date three_store [0%nat; 1%nat; 2%nat]
                (Some 20089) 2)) 0%nat in
  exists bonus, time_bonus after = Some bonus /\ (0 <= bonus)%Q.
Proof.
  intros after.
  destruct (time_bonus_is_never_negative iso_date three_store [0%nat; 1%nat; 2%nat]
              (Some 20089) 2 0%nat) as (bonus & Hb & Hpos & _).
  - vm_compute. left.
  - exists bonus. split; [exact Hb | exact Hpos].
Defined.

End DedupFacts.

(** ** More on the multi-query search *)

Module MultiQueryFacts.
Import PyStr PyList Cand Reranker MultiQuery Retrieval.
Import PyListFacts RerankerSpec MultiQuerySpec RankingFacts.

(** The similarity of a hit lies between 0 and 1. *)
Lemma similarity_of_unit (h : hit) : unit_score (similarity_of h).
Proof.
  unfold unit_score, similarity_of. cbv zeta.
  set (c := (1 - distance h * distance h / 2)%Q).
  destruct (Qlt_bool c 1) eqn:E1.
  - apply Qlt_bool_lt in E1. destruct (Qlt_bool 0 c) eqn:E2.
    + apply Qlt_bool_lt in E2. lra.
    + lra.
  - destruct (Qlt_bool 0 1) eqn:E2; lra.
Qed.

(** A hit that is not excluded does not belong to the excluded
    document. *)
Lemma not_excluded_doc (exclude_doc_id : pyval) (h : hit) :
  excluded exclude_doc_id h = false -> truthy exclude_doc_id = true ->
  entity_doc_id h <> exclude_doc_id.
Proof.
  unfold excluded. intros Hex Ht. rewrite Ht in Hex. simpl in Hex.
  now apply bool_decide_eq_false in Hex.
Qed.

Lemma stored_fields_without_rerank (d d' : chunk_dict) (h : hit) :
  without_rerank d' = without_rerank d -> stored_fields d h -> stored_fields d' h.
Proof.
  intros H (H1 & H2 & H3 & H4 & H5 & H6 & H7 & H8). unfold stored_fields.
  rewrite <- H1, <- H2, <- H3, <- H4, <- H5, <- H6, <- H7, <- H8.
  repeat split.
  - exact (f_equal chunk_id H).
  - exact (f_equal doc_id H).
  - exact (f_equal content H).
  - exact (f_equal chunk_index H).
  - exact (f_equal chunk_type H).
  - exact (f_equal title H).
  - exact (f_equal timestamp H).
  - exact (f_equal industries H).
Qed.

Section Merge.

Variable exclude_doc_id : pyval.

Lemma raise_similarity_fields (all_results : list chunk_dict) (cid : pyval) (sim : Q)
    (i : Z) (d' : chunk_dict) :
  d' ∈ raise_similarity all_results cid sim i ->
  exists d, d ∈ all_results /\ forall h, stored_fields d h -> stored_fields d' h.
Proof.
  induction all_results as [|d l IH]; simpl; [intros H; now apply elem_of_nil in H|].
  destruct (_ && _); intros H; apply elem_of_cons in H as [->|H].
  - exists d. split; [now left|]. intros h Hf. exact Hf.
  - exists d'. split; [now right|]. intros h Hf. exact Hf.
  - exists d. split; [now left|]. intros h Hf. exact Hf.
  - destruct (IH H) as (d0 & Hd0 & Hf). exists d0. split; [now right | exact Hf].
Qed.

Lemma merge_hit_fields (seen : list (nat * hit)) (st : merge_state) (i : nat) (h : hit) :
  fields_inv exclude_doc_id seen st ->
  fields_inv exclude_doc_id (seen ++ [(i, h)])
    (merge_hit exclude_doc_id (Z.of_nat i) st h).
Proof.
  destruct st as [all_results chunk_id_set]. intros Hinv.
  assert (Hold : forall d, d ∈ all_results ->
            exists j h0, (j, h0) ∈ seen ++ [(i, h)]
                         /\ excluded exclude_doc_id h0 = false /\ stored_fields d h0).
  { intros d Hd. destruct (Hinv d Hd) as (j & h0 & Hin & Hex & Hf).
    exists j, h0. split; [apply elem_of_app; now left | now split]. }
  unfold merge_hit. destruct (excluded exclude_doc_id h) eqn:Hex; [exact Hold|].
  destruct (bool_decide (entity_chunk_id h ∈ chunk_id_set)); intros d Hd; simpl in Hd.
  - apply raise_similarity_fields in Hd as (d0 & Hd0 & Hf).
    destruct (Hold d0 Hd0) as (j & h0 & Hin & Hex0 & Hf0).
    exists j, h0. split; [exact Hin|]. split; [exact Hex0|]. now apply Hf.
  - apply elem_of_app in Hd as [Hd|Hd]; [now apply Hold|].
    apply list_elem_of_singleton in Hd as ->. exists i, h.
    split; [apply elem_of_app; right; now left|]. split; [exact Hex|].
    repeat split.
Qed.

Lemma fold_merge_hit_fields (i : nat) (hits : list hit) (seen : list (nat * hit))
    (st : merge_state) :
  fields_inv exclude_doc_id seen st ->
  fields_inv exclude_doc_id (seen ++ map (pair i) hits)
    (fold_left (merge_hit exclude_doc_id (Z.of_nat i)) hits st).
Proof.
  revert seen st. induction hits as [|h hits IH]; intros seen st Hinv; simpl.
  - now rewrite app_nil_r.
  - replace (seen ++ (i, h) :: map (pair i) hits)
      with ((seen ++ [(i, h)]) ++ map (pair i) hits) by now rewrite <- app_assoc.
    apply IH. now apply merge_hit_fields.
Qed.

Lemma merge_fragments_fields (i : nat) (searches : list (list (list hit)))
    (seen : list (nat * hit)) (st : merge_state) :
  fields_inv exclude_doc_id seen st ->
  fields_inv exclude_doc_id (seen ++ indexed_hits i searches)
    (merge_fragments exclude_doc_id (Z.of_nat i) searches st).
Proof.
  revert i seen st. induction searches as [|results rest IH]; intros i seen st Hinv; simpl.
  - now rewrite app_nil_r.
  - rewrite app_assoc. replace (Z.of_nat i + 1) with (Z.of_nat (S i)) by lia.
    apply IH. now apply fold_merge_hit_fields.
Qed.

Lemma merged_results_fields (searches : list (list (list hit))) (d : chunk_dict) :
  d ∈ merged_results exclude_doc_id searches ->
  exists i h, found searches i h /\ excluded exclude_doc_id h = false
              /\ stored_fields d h.
Proof.
  unfold merged_results, sort_desc. rewrite stable_sort_perm. intros Hd.
  apply (merge_fragments_fields 0 searches [] ([], [])); [|exact Hd].
  intros d0 H. now apply elem_of_nil in H.
Qed.

(** Every hit that is not excluded has its chunk in the merged list. *)
Lemma merged_results_cover (searches : list (list (list hit))) (i : nat) (h : hit) :
  found searches i h -> excluded exclude_doc_id h = false ->
  exists d, d ∈ merged_results exclude_doc_id searches /\ cid_of d = entity_chunk_id h.
Proof.
  intros Hfound Hex.
  destruct (merge_fragments_inv exclude_doc_id 0 searches [] ([], [])) as (_ & _ & _ & Hcov).
  { split; [constructor|]. split; [reflexivity|]. split.
    - intros d H. now apply elem_of_nil in H.
    - intros j h' H. now apply elem_of_nil in H. }
  destruct (Hcov i h Hfound Hex) as (d & Hd & Hc & _). exists d. split; [|exact Hc].
  unfold merged_results, sort_desc. now rewrite stable_sort_perm.
Qed.

End Merge.

(** *** Lists that went through the reranker *)

(** The dictionaries that come back from a reranking of fresh
    dictionaries are those that went in, up to the two rerank fields. *)
Lemma reranked_elem (self : BCEReranker) (query : str) (l : list chunk_dict)
    (top_k qm pm : Z) (out : outcome) (d : chunk_dict) :
  rerank self (store_of l) query (seq 0 (length l)) top_k qm pm = Some out ->
  d ∈ map (deref (store_after out)) (returned out) ->
  exists d0, d0 ∈ l /\ without_rerank d = without_rerank d0.
Proof.
  intros Hrun Hd.
  destruct (rerank_frame _ _ _ _ _ _ _ _ Hrun) as (Hperm & _ & Hin).
  pose proof (rerank_returned_sublist _ _ _ _ _ _ _ _ Hrun) as Hsub.
  apply list_elem_of_fmap in Hd as (r & -> & Hr).
  exists (deref (store_of l) r). split; [|apply Hin].
  pose proof (deref_store_of 0 l) as Hstore. fold (store_of l) in Hstore.
  assert (Hm : deref (store_of l) r ∈ map (deref (store_of l)) (seq 0 (length l))).
  { apply list_elem_of_fmap_2. rewrite <- Hperm. now apply (elem_of_sublist _ _ _ Hr). }
  now rewrite Hstore in Hm.
Qed.

Lemma rerank_returned_length (self : BCEReranker) (h : store) (query : str)
    (results : list nat) (top_k qm pm : Z) (out : outcome) :
  rerank self h query results top_k qm pm = Some out ->
  0 <= top_k -> Z.of_nat (length (returned out)) <= top_k.
Proof.
  intros Hrun Hk.
  assert (Hslice : forall l : list nat, Z.of_nat (length (slice_to l top_k)) <= top_k).
  { intros l. rewrite length_slice_to by exact Hk. lia. }
  unfold rerank in Hrun. destruct (enabled self); simpl in Hrun.
  - destruct (bool_decide (results = [])).
    + injection Hrun as <-. simpl. lia.
    + destruct (build_pairs _ _ _ _) as [pairs|]; [|discriminate].
      destruct (predict self pairs) as [scores|].
      * destruct (assign_scores h results 0 scores) as [h' [|]];
          injection Hrun as <-; simpl; apply Hslice.
      * injection Hrun as <-. simpl. apply Hslice.
  - injection Hrun as <-. simpl. apply Hslice.
Qed.

(** Every entry of the result is an entry of the merged list, up to the
    two rerank fields. *)
Lemma result_from_merged (enable_chunking : bool)
    (get_reranker : option BCEReranker) (query_chunks : list str)
    (searches : list (list (list hit))) (exclude_doc_id : pyval)
    (use_reranker : bool) (final_top_k : option Z) (d : chunk_dict) :
  d ∈ search_chunks_multi_query enable_chunking get_reranker query_chunks searches
        exclude_doc_id use_reranker final_top_k ->
  exists d0, d0 ∈ merged_results exclude_doc_id searches
             /\ without_rerank d = without_rerank d0.
Proof.
  unfold search_chunks_multi_query.
  destruct (negb enable_chunking); [intros H; now apply elem_of_nil in H|].
  destruct (bool_decide (query_chunks = [])); [intros H; now apply elem_of_nil in H|].
  set (all_results := merged_results exclude_doc_id searches).
  assert (Hslice : forall k, d ∈ slice_to all_results k ->
             exists d0, d0 ∈ all_results /\ without_rerank d = without_rerank d0).
  { intros k Hd. exists d. split; [now apply elem_of_slice_to in Hd | reflexivity]. }
  destruct (use_reranker && _ && _).
  - destruct (match get_reranker with Some _ => _ | None => _ end) as [out|] eqn:Hrun;
      [|apply Hslice].
    destruct get_reranker as [reranker|]; [|discriminate].
    intros Hd. exact (reranked_elem reranker _ all_results _ _ _ out d Hrun Hd).
  - destruct (negb _); [apply Hslice|]. intros Hd. now exists d.
Qed.

(** X15. Every entry of the result of [search_chunks_multi_query] carries
    the stored fields (identifiers, content, title, time stamp, ...) of a
    hit that some fragment found and that does not belong to the
    excluded document, and a similarity between 0 and 1; so no entry
    has the excluded [doc_id]. *)
Theorem multi_query_results_are_hits (enable_chunking : bool)
    (get_reranker : option BCEReranker) (query_chunks : list str)
    (searches : list (list (list hit))) (exclude_doc_id : pyval)
    (use_reranker : bool) (final_top_k : option Z) (d : chunk_dict) :
  d ∈ search_chunks_multi_query enable_chunking get_reranker query_chunks searches
        exclude_doc_id use_reranker final_top_k ->
  (exists i h, found searches i h /\ excluded exclude_doc_id h = false
               /\ stored_fields d h)
  /\ (exists q, similarity d = Some q /\ unit_score q)
  /\ (truthy exclude_doc_id = true -> doc_id d <> Some exclude_doc_id).
Proof.
  intros Hd. apply result_from_merged in Hd as (d0 & Hd0 & Heq).
  destruct (merged_results_fields exclude_doc_id searches d0 Hd0) as (i & h & Hfound & Hex & Hf).
  apply (stored_fields_without_rerank d0 d h Heq) in Hf.
  split; [now exists i, h|]. split.
  - destruct (merged_results_best exclude_doc_id searches) as [_ Hbest].
    destruct (Hbest d0 Hd0) as (j & h' & _ & _ & _ & Hsim & _).
    exists (similarity_of h'). split; [|apply similarity_of_unit].
    rewrite <- Hsim. exact (f_equal similarity Heq).
  - intros Ht. destruct Hf as (_ & Hdoc & _). rewrite Hdoc. intros [= Habs].
    now apply (not_excluded_doc exclude_doc_id h Hex Ht).
Qed.

Lemma multi_query_results_are_hits_witness :
  exists d,
    d ∈ search_chunks_multi_query true (Some length_reranker) [lit "q1"; lit "q2"]
          example_searches (PyStr (lit "d2")) true (Some 2)
    /\ doc_id d <> Some (PyStr (lit "d2")).
Proof.
  destruct (search_chunks_multi_query true (Some length_reranker) [lit "q1"; lit "q2"]
              example_searches (PyStr (lit "d2")) true (Some 2)) as [|d l] eqn:E;
    [vm_compute in E; discriminate|].
  exists d. split; [left|].
  apply (multi_query_results_are_hits true (Some length_reranker) [lit "q1"; lit "q2"]
           example_searches (PyStr (lit "d2")) true (Some 2) d); [rewrite E; left | reflexivity].
Defined.

(** X16. The result of [search_chunks_multi_query] has at most
    [final_top_k] entries when that is positive. Without the reranker it
    is in decreasing order of similarity. With no [final_top_k] (or 0)
    nothing is cut: the chunk of every hit that is not excluded is in
    the result. And the result is empty when the chunk search is
    disabled or no query fragment is given. *)
Theorem multi_query_result_shape (enable_chunking : bool)
    (get_reranker : option BCEReranker) (query_chunks : list str)
    (searches : list (list (list hit))) (exclude_doc_id : pyval)
    (use_reranker : bool) (final_top_k : option Z) :
  let result :=
    search_chunks_multi_query enable_chunking get_reranker query_chunks searches
      exclude_doc_id use_reranker final_top_k in
  (forall k, final_top_k = Some k -> 0 < k -> Z.of_nat (length result) <= k)
  /\ (use_reranker = false ->
      StronglySorted
        (fun a b => (get_num (similarity b) <= get_num (similarity a))%Q) result)
  /\ (enable_chunking = true -> query_chunks <> [] ->
      final_top_k = None \/ final_top_k = Some 0 ->
      forall i h, found searches i h -> excluded exclude_doc_id h = false ->
        exists d, d ∈ result /\ cid_of d = entity_chunk_id h)
  /\ (enable_chunking = false \/ query_chunks = [] -> result = []).
Proof.
  intros result. subst result. unfold search_chunks_multi_query.
  set (all_results := merged_results exclude_doc_id searches).
  split; [|split; [|split]].
  - intros k -> Hk. change (default 0 (Some k)) with k.
    destruct (negb enable_chunking); [simpl; lia|].
    destruct (bool_decide (query_chunks = [])); [simpl; lia|].
    assert (Hslice : Z.of_nat (length (slice_to all_results k)) <= k).
    { rewrite length_slice_to by lia. lia. }
    destruct (use_reranker && _ && _).
    + destruct (match get_reranker with Some _ => _ | None => _ end) as [out|] eqn:Hrun;
        [|exact Hslice].
      destruct get_reranker as [reranker|]; [|discriminate].
      rewrite length_map. apply (rerank_returned_length _ _ _ _ _ _ _ _ Hrun). lia.
    + destruct (negb (k =? 0)) eqn:E; [exact Hslice|].
      apply negb_false_iff in E. apply Z.eqb_eq in E. lia.
  - intros ->. cbn [andb].
    destruct (negb enable_chunking); [constructor|].
    destruct (bool_decide (query_chunks = [])); [constructor|].
    destruct (negb _); [apply slice_to_descending | apply sort_desc_descending].
  - intros -> Hq Hk i h Hfound Hex. cbn [negb].
    destruct (bool_decide (query_chunks = [])) eqn:E;
      [apply bool_decide_eq_true in E; contradiction|].
    assert (Hzero : negb (default 0 final_top_k =? 0) = false).
    { destruct Hk as [->| ->]; reflexivity. }
    rewrite Hzero, andb_false_r. cbn [andb].
    exact (merged_results_cover exclude_doc_id searches i h Hfound Hex).
  - intros [->| ->]; [reflexivity|].
    destruct (negb enable_chunking); reflexivity.
Qed.

Lemma multi_query_result_shape_witness :
  Z.of_nat (length (search_chunks_multi_query true (Some length_reranker)
                      [lit "q1"; lit "q2"] example_searches PyNone true (Some 2))) <= 2.
Proof.
  apply (proj1 (multi_query_result_shape true (Some length_reranker) [lit "q1"; lit "q2"]
                  example_searches PyNone true (Some 2)) 2); [reflexivity | lia].
Defined.

End MultiQueryFacts.

(** ** The single-query search *)

Module SearchFacts.
Import PyStr PyList Cand Reranker MultiQuery Dedup Retrieval.
Import PyListFacts RerankerSpec MultiQuerySpec RankingFacts MultiQueryFacts.

Section SearchChunks.

Variable fromisoformat : str -> option Z.

Lemma formatted_hit_fields (h : hit) : stored_fields (formatted_hit h) h.
Proof. repeat split. Qed.

(** Every entry of the result is the dictionary of a hit that passed the
    two tests, up to the two rerank fields. *)
Lemma search_chunks_from_hits (enable_chunking : bool)
    (get_reranker : option BCEReranker) (query_text : str) (results : list (list hit))
    (top_k : Z) (rerank_top_k : option Z) (exclude_doc_id exclude_title : pyval)
    (exclude_timestamp : timestamp_arg) (use_reranker : bool) (d : chunk_dict) :
  d ∈ search_chunks fromisoformat enable_chunking get_reranker query_text results
        top_k rerank_top_k exclude_doc_id exclude_title exclude_timestamp use_reranker ->
  exists h, h ∈ concat results
            /\ kept_hit fromisoformat exclude_doc_id exclude_title
                 (exclude_date fromisoformat exclude_title exclude_timestamp) h = true
            /\ without_rerank d = without_rerank (formatted_hit h).
Proof.
  unfold search_chunks.
  destruct (negb enable_chunking); [intros H; now apply elem_of_nil in H|].
  cbv zeta.
  set (final_top_k := if use_reranker then _ else _).
  set (keep := kept_hit fromisoformat exclude_doc_id exclude_title _).
  set (formatted_results := map formatted_hit (List.filter keep (concat results))).
  assert (Hall : forall d0, d0 ∈ formatted_results ->
            exists h, h ∈ concat results /\ keep h = true /\ d0 = formatted_hit h).
  { intros d0 Hd0. apply list_elem_of_fmap in Hd0 as (h & -> & Hh).
    apply list_elem_of_In in Hh. apply filter_In in Hh as [Hh Hk].
    exists h. split; [now apply list_elem_of_In | now split]. }
  assert (Hslice : forall k, d ∈ slice_to formatted_results k ->
            exists h, h ∈ concat results /\ keep h = true
                      /\ without_rerank d = without_rerank (formatted_hit h)).
  { intros k Hd. apply elem_of_slice_to in Hd.
    destruct (Hall d Hd) as (h & Hh & Hk & ->). now exists h. }
  destruct (use_reranker && _).
  - destruct (match get_reranker with Some _ => _ | None => _ end) as [out|] eqn:Hrun;
      [|apply Hslice].
    destruct get_reranker as [reranker|]; [|discriminate].
    intros Hd.
    destruct (reranked_elem reranker _ formatted_results _ _ _ out d Hrun Hd)
      as (d0 & Hd0 & Heq).
    destruct (Hall d0 Hd0) as (h & Hh & Hk & ->). now exists h.
  - apply Hslice.
Qed.

(** A hit that the second test lets through is not of the excluded
    title and date. *)
Lemma other_policy_date (exclude_title : pyval) (exclude_timestamp : timestamp_arg)
    (h : hit) (day : Z) (ts : str) (date : Z) :
  same_policy fromisoformat exclude_title
    (exclude_date fromisoformat exclude_title exclude_timestamp) h = false ->
  exclude_date fromisoformat exclude_title exclude_timestamp = Some day ->
  entity_title h = exclude_title -> entity_timestamp h = PyStr ts -> ts <> [] ->
  doc_date fromisoformat ts = Some date -> date <> day.
Proof.
  intros Hsame Hday Htitle Hts Hne Hdate ->.
  unfold same_policy in Hsame. rewrite Hday in Hsame.
  assert (Htruthy : truthy exclude_title = true).
  { unfold exclude_date in Hday. now destruct (truthy exclude_title). }
  rewrite Htruthy, Htitle, Hts, Hdate, Z.eqb_refl in Hsame.
  rewrite bool_decide_eq_true_2 in Hsame by reflexivity.
  destruct ts; [congruence | discriminate].
Qed.

End SearchChunks.

(** X17. Every entry of the result of [search_chunks] carries the stored
    fields of a hit of the store and a similarity between 0 and 1. No
    entry has the excluded [doc_id]; and when a title and a time stamp
    to exclude are given and the time stamp can be read, no entry has
    that title together with a time stamp of the same date. The result
    has at most [final_top_k] entries ([rerank_top_k], or [top_k] when
    that is not given or the reranker is not used) when that number is
    not negative, and it is empty when the chunk search is disabled. *)
Theorem search_chunks_excludes_the_policy (fromisoformat : str -> option Z)
    (enable_chunking : bool)
    (get_reranker : option BCEReranker) (query_text : str) (results : list (list hit))
    (top_k : Z) (rerank_top_k : option Z) (exclude_doc_id exclude_title : pyval)
    (exclude_timestamp : timestamp_arg) (use_reranker : bool) :
  let result :=
    search_chunks fromisoformat enable_chunking get_reranker query_text results
      top_k rerank_top_k exclude_doc_id exclude_title exclude_timestamp use_reranker in
  let final_top_k := if use_reranker then default top_k rerank_top_k else top_k in
  (forall d, d ∈ result ->
     (exists h, h ∈ concat results /\ stored_fields d h
                /\ similarity d = Some (similarity_of h))
     /\ (exists q, similarity d = Some q /\ unit_score q)
     /\ (truthy exclude_doc_id = true -> doc_id d <> Some exclude_doc_id)
     /\ (forall day ts date,
           exclude_date fromisoformat exclude_title exclude_timestamp = Some day ->
           title d = Some exclude_title ->
           timestamp d = Some (PyStr ts) -> ts <> [] ->
           doc_date fromisoformat ts = Some date -> date <> day))
  /\ (0 <= final_top_k -> Z.of_nat (length result) <= final_top_k)
  /\ (enable_chunking = false -> result = []).
Proof.
  intros result final_top_k. split; [|split].
  - intros d Hd. subst result.
    apply search_chunks_from_hits in Hd as (h & Hh & Hk & Heq).
    pose proof (stored_fields_without_rerank (formatted_hit h) d h Heq
                  (formatted_hit_fields h)) as Hf.
    assert (Hsim : similarity d = Some (similarity_of h))
      by exact (f_equal similarity Heq).
    unfold kept_hit in Hk. apply andb_prop in Hk as [Hex Hsame].
    apply negb_true_iff in Hex, Hsame.
    split; [now exists h|]. split; [|split].
    + exists (similarity_of h). split; [exact Hsim | apply similarity_of_unit].
    + intros Ht. destruct Hf as (_ & Hdoc & _). rewrite Hdoc. intros [= Habs].
      now apply (not_excluded_doc exclude_doc_id h Hex Ht).
    + intros day ts date Hday Htitle Hts Hne Hdate.
      destruct Hf as (_ & _ & _ & _ & _ & Hti & Htm & _).
      rewrite Hti in Htitle. rewrite Htm in Hts. injection Htitle as Htitle.
      injection Hts as Hts.
      exact (other_policy_date fromisoformat exclude_title exclude_timestamp h day ts date
               Hsame Hday Htitle Hts Hne Hdate).
  - intros Hk. subst result. unfold search_chunks.
    destruct (negb enable_chunking); [simpl; lia|]. cbv zeta. fold final_top_k.
    set (formatted_results := map formatted_hit _).
    assert (Hslice : Z.of_nat (length (slice_to formatted_results final_top_k))
                     <= final_top_k).
    { rewrite length_slice_to by lia. lia. }
    destruct (use_reranker && _); [|exact Hslice].
    destruct (match get_reranker with Some _ => _ | None => _ end) as [out|] eqn:Hrun;
      [|exact Hslice].
    destruct get_reranker as [reranker|]; [|discriminate].
    rewrite length_map. now apply (rerank_returned_length _ _ _ _ _ _ _ _ Hrun).
  - intros ->. reflexivity.
Qed.

Lemma search_chunks_excludes_the_policy_witness :
  Z.of_nat (length (search_chunks iso_date true (Some length_reranker) (lit "q")
                      (concat example_searches) 3 (Some 2) (PyStr (lit "d2")) PyNone
                      NoTimestamp true)) <= 2.
Proof.
  apply (search_chunks_excludes_the_policy iso_date true (Some length_reranker) (lit "q")
           (concat example_searches) 3 (Some 2) (PyStr (lit "d2")) PyNone NoTimestamp
           true).
  simpl. lia.
Defined.

End SearchFacts.

(** ** More on the merge by document *)

Module MergeFacts.
Import PyStr PyList Cand Merge.
Import PyListFacts MergeSpec RankingFacts.

(** *** Where the members come from *)

Lemma unique_fold_elem (l : list chunk_dict) (d : list (pyval * chunk_dict))
    (kv : pyval * chunk_dict) :
  kv ∈ fold_left unique_step l d -> kv ∈ d \/ snd kv ∈ l.
Proof.
  revert d. induction l as [|c l IH]; intros d; simpl; [now left|].
  intros H. apply IH in H as [H|H]; [|right; now right].
  unfold unique_step in H.
  destruct (dict_get d (get_none (chunk_id c))) as [kept|].
  - destruct (Qlt_bool _ _); [|now left].
    apply elem_of_dict_set in H as [->|H]; [right; now left | now left].
  - apply elem_of_dict_set in H as [->|H]; [right; now left | now left].
Qed.

Lemma merge_group_members (id : str) (l : list chunk_dict) (c : chunk_dict) :
  c ∈ chunks (merge_group id l) -> c ∈ l.
Proof.
  cbn [chunks merge_group]. unfold sort_asc. rewrite stable_sort_perm.
  unfold dict_values. intros H. apply list_elem_of_fmap in H as (kv & -> & H).
  apply unique_fold_elem in H as [H|H]; [now apply elem_of_nil in H | exact H].
Qed.

Lemma unique_fold_grows (l : list chunk_dict) (d : list (pyval * chunk_dict)) :
  (length d <= length (fold_left unique_step l d))%nat
  /\ (l <> [] -> (1 <= length (fold_left unique_step l d))%nat).
Proof.
  revert d. induction l as [|c l IH]; intros d; simpl; [split; [lia | congruence]|].
  assert (Hstep : (length d <= length (unique_step d c))%nat
                  /\ (1 <= length (unique_step d c))%nat).
  { unfold unique_step. destruct (dict_get d (get_none (chunk_id c))) as [kept|] eqn:E.
    - assert (1 <= length d)%nat.
      { apply dict_get_Some_in in E. destruct d; [now apply elem_of_nil in E | simpl; lia]. }
      destruct (Qlt_bool _ _); [rewrite dict_set_length, E|]; lia.
    - rewrite dict_set_length, E. lia. }
  destruct (IH (unique_step d c)) as [IH1 _]. split; [lia | intros _; lia].
Qed.

Lemma merge_group_nonempty (id : str) (l : list chunk_dict) :
  l <> [] -> chunks (merge_group id l) <> [].
Proof.
  intros Hl. cbn [chunks merge_group]. intros Habs.
  apply (f_equal (@length chunk_dict)) in Habs.
  unfold sort_asc in Habs. rewrite stable_sort_length in Habs.
  unfold dict_values in Habs. rewrite length_map in Habs.
  destruct (unique_fold_grows l []) as [_ H]. specialize (H Hl). simpl in Habs. lia.
Qed.

(** Every group holds a candidate, and only candidates of the input. *)
Lemma group_fold_groups (input : list chunk_dict)
    (st : list (str * list chunk_dict) * list chunk_dict) :
  Forall (fun g => snd g <> []) (fst st) ->
  Forall (fun g => snd g <> []) (fst (fold_left group_step input st)).
Proof.
  revert st. induction input as [|c input IH]; intros [g w] Hg; simpl; [exact Hg|].
  apply IH. unfold group_step.
  destruct (usable_doc_id (get_none (doc_id c))) as [id|]; simpl; [|exact Hg].
  apply List.Forall_forall. intros kv Hkv. apply list_elem_of_In in Hkv.
  apply elem_of_dict_set in Hkv as [->|Hkv].
  - simpl. now destruct (default [] (dict_get g id)).
  - rewrite List.Forall_forall in Hg. apply Hg. now apply list_elem_of_In.
Qed.

Lemma first_pass_members_known (input : list chunk_dict) (doc : merged_doc) :
  doc ∈ first_pass input ->
  chunks doc <> [] /\ m_similarity doc = avg_similarity doc
  /\ forall c, c ∈ chunks doc -> c ∈ input.
Proof.
  unfold first_pass.
  pose proof (group_fold_perm input ([], [])) as Hperm.
  pose proof (group_fold_groups input ([], []) ltac:(constructor)) as Hne.
  pose proof (group_fold_without input ([], [])) as Hw.
  destruct (fold_left group_step input ([], [])) as [g w]. simpl in Hperm, Hne, Hw.
  unfold sort_desc. rewrite stable_sort_perm. intros Hin.
  apply elem_of_app in Hin as [Hin|Hin].
  - apply list_elem_of_fmap in Hin as ([id l] & -> & Hin). simpl fst. simpl snd.
    split; [|split; [reflexivity|]].
    + apply merge_group_nonempty. rewrite List.Forall_forall in Hne.
      apply list_elem_of_In in Hin. exact (Hne _ Hin).
    + intros c Hc. apply merge_group_members in Hc.
      rewrite <- Hperm. apply elem_of_app. left.
      apply list_elem_of_In. apply in_concat. exists l. split.
      * apply list_elem_of_In. unfold dict_values. apply list_elem_of_fmap.
        now exists (id, l).
      * now apply list_elem_of_In.
  - apply list_elem_of_fmap in Hin as (c & -> & Hin).
    split; [discriminate|]. split; [reflexivity|].
    intros c' Hc'. apply list_elem_of_singleton in Hc' as ->.
    apply Hw in Hin as [Hin|[Hin _]]; [now apply elem_of_nil in Hin | exact Hin].
Qed.

(** *** What the second pass keeps of each result *)

Lemma combine_nonempty (id : str) (existing doc : merged_doc) :
  chunks existing <> [] -> chunks (combine id existing doc) <> [].
Proof.
  intros Hne Habs.
  destruct (chunks existing) as [|c0 l0] eqn:E; [congruence|].
  assert (Hc : covers (combine id existing doc) c0).
  { apply combine_covers. left. rewrite E. now left. }
  destruct Hc as (c' & Hc' & _). rewrite Habs in Hc'. now apply elem_of_nil in Hc'.
Qed.

Lemma dedup_step_shape (P : merged_doc -> Prop)
    (unique_docs unique_docs' : list (str * merged_doc)) (doc : merged_doc) :
  (forall id existing, P existing -> P (combine id existing doc)) ->
  Forall P (dict_values unique_docs) -> P doc ->
  dedup_step unique_docs doc = Some unique_docs' ->
  Forall P (dict_values unique_docs').
Proof.
  intros Hcomb Hall Hdoc. unfold dedup_step.
  destruct (m_doc_id doc) as [|s]; [discriminate|].
  destruct (nonempty (strip s)); [|now intros [= <-]].
  assert (Hset : forall v, P v -> Forall P (dict_values (dict_set unique_docs (strip s) v))).
  { intros v Hv. apply List.Forall_forall. intros m Hm. unfold dict_values in Hm.
    apply list_elem_of_In, list_elem_of_fmap in Hm as (kv & -> & Hkv).
    apply elem_of_dict_set in Hkv as [->|Hkv]; [exact Hv|].
    rewrite List.Forall_forall in Hall. apply Hall.
    apply list_elem_of_In. unfold dict_values. now apply list_elem_of_fmap_2. }
  destruct (dict_get unique_docs (strip s)) as [existing|] eqn:E; intros [= <-].
  - apply Hset. apply Hcomb. rewrite List.Forall_forall in Hall. apply Hall.
    apply list_elem_of_In. unfold dict_values. apply list_elem_of_fmap.
    exists (strip s, existing). split; [reflexivity | now apply dict_get_Some_in].
  - now apply Hset.
Qed.

Lemma second_pass_shape (P : merged_doc -> Prop) (merged_docs : list merged_doc) :
  (forall id existing doc, P existing -> P (combine id existing doc)) ->
  forall unique_docs unique_docs',
    Forall P (dict_values unique_docs) -> Forall P merged_docs ->
    second_pass unique_docs merged_docs = Some unique_docs' ->
    Forall P (dict_values unique_docs').
Proof.
  intros Hcomb. induction merged_docs as [|doc rest IH]; intros ud ud' Hud Hall; simpl.
  - now intros [= <-].
  - destruct (dedup_step ud doc) as [ud1|] eqn:E; [|discriminate].
    apply Forall_cons in Hall as [Hdoc Hall]. apply IH; [|exact Hall].
    apply (dedup_step_shape P ud ud1 doc); auto.
Qed.

(** *** Means *)

Lemma sum_between (lo hi : Q) (l : list Q) (a : Q) :
  Forall (fun x => (lo <= x <= hi)%Q) l ->
  (a + inject_Z (Z.of_nat (length l)) * lo <= fold_left Qplus l a
   <= a + inject_Z (Z.of_nat (length l)) * hi)%Q.
Proof.
  intros Hall. revert a. induction Hall as [|x l Hx _ IH]; intros a.
  - cbn [fold_left length]. change (inject_Z (Z.of_nat 0)) with 0%Q. split; lra.
  - cbn [fold_left length]. specialize (IH (a + x)%Q).
    rewrite Nat2Z.inj_succ. unfold Z.succ. rewrite inject_Z_plus.
    change (inject_Z 1) with 1%Q.
    set (n := inject_Z (Z.of_nat (length l))) in *.
    assert (Hn : (0 <= n)%Q).
    { subst n. change 0%Q with (inject_Z 0). rewrite <- Zle_Qle. lia. }
    destruct IH, Hx. split; nra.
Qed.

Lemma mean_similarity_between (lo hi : Q) (l : list chunk_dict) :
  l <> [] -> Forall (fun c => (lo <= get_num (similarity c) <= hi)%Q) l ->
  (lo <= mean_similarity l <= hi)%Q.
Proof.
  intros Hne Hall. unfold mean_similarity. destruct l as [|c l]; [congruence|].
  set (xs := map (fun c => get_num (similarity c)) (c :: l)).
  assert (Hxs : Forall (fun x => (lo <= x <= hi)%Q) xs).
  { subst xs. apply List.Forall_forall. intros x Hx. apply in_map_iff in Hx as (c' & <- & Hc').
    rewrite List.Forall_forall in Hall. now apply Hall. }
  pose proof (sum_between lo hi xs 0 Hxs) as Hsum.
  assert (Hlen : length xs = length (c :: l)) by (subst xs; apply length_map).
  rewrite Hlen in Hsum. unfold sum.
  set (n := inject_Z (Z.of_nat (length (c :: l)))) in *.
  assert (Hn : (0 < n)%Q).
  { subst n. change 0%Q with (inject_Z 0). rewrite <- Zlt_Qlt. simpl. lia. }
  split.
  - apply Qle_shift_div_l; [exact Hn|]. lra.
  - apply Qle_shift_div_r; [exact Hn|]. lra.
Qed.

(** What every returned document is made of. *)
Lemma merge_result_members (input : list chunk_dict) (docs : list merged_doc)
    (m : merged_doc) :
  merge_chunks_by_doc_id input = Some docs -> m ∈ docs ->
  chunks m <> [] /\ (forall c, c ∈ chunks m -> c ∈ input)
  /\ consistent m /\ m_similarity m = avg_similarity m.
Proof.
  unfold merge_chunks_by_doc_id. destruct input as [|c0 input0].
  { intros [= <-] Hm. now apply elem_of_nil in Hm. }
  set (input := c0 :: input0).
  destruct (second_pass [] (first_pass input)) as [ud|] eqn:E; [|discriminate].
  intros [= <-] Hm. unfold sort_desc in Hm. rewrite stable_sort_perm in Hm.
  assert (Hinv : pass_inv ([] ++ first_pass input) ud).
  { apply (second_pass_inv _ [] []);
      [|intros doc Hdoc; exact (first_pass_consistent input doc Hdoc)|exact E].
    split; [constructor|].
    repeat split; intros;
      try match goal with H : _ ∈ [] |- _ => now apply elem_of_nil in H end. }
  simpl in Hinv. destruct Hinv as (_ & Hcons & _ & Hfrom & _).
  assert (Hshape : Forall (fun m => chunks m <> [] /\ m_similarity m = avg_similarity m)
                     (dict_values ud)).
  { apply (second_pass_shape _ (first_pass input)) with (unique_docs := []);
      [| constructor | | exact E].
    - intros id existing doc [Hne _]. split; [now apply combine_nonempty | reflexivity].
    - apply List.Forall_forall. intros doc Hdoc. apply list_elem_of_In in Hdoc.
      destruct (first_pass_members_known input doc Hdoc) as (H1 & H2 & _). now split. }
  rewrite List.Forall_forall in Hshape.
  destruct (Hshape m ltac:(now apply list_elem_of_In)) as [Hne Hsim].
  unfold dict_values in Hm. apply list_elem_of_fmap in Hm as ([k m'] & -> & Hkm). simpl in *.
  destruct (Hcons k m' Hkm) as (_ & _ & Hc).
  split; [exact Hne|]. split; [|now split].
  intros c Hc'. destruct (Hfrom k m' c Hkm Hc') as (doc & Hdoc & _ & Hcd).
  destruct (first_pass_members_known input doc Hdoc) as (_ & _ & Hall). now apply Hall.
Qed.

Lemma merge_result_sorted (input : list chunk_dict) (docs : list merged_doc) :
  merge_chunks_by_doc_id input = Some docs ->
  StronglySorted (fun a b => (avg_similarity b <= avg_similarity a)%Q) docs.
Proof.
  unfold merge_chunks_by_doc_id. destruct input as [|c0 input0].
  { intros [= <-]. constructor. }
  destruct (second_pass [] _) as [ud|]; [|discriminate].
  intros [= <-]. apply sort_desc_descending.
Qed.

(** X18. The documents that [merge_chunks_by_doc_id] returns are in
    decreasing order of [avg_similarity]. Each has at least one member,
    all its members are candidates of the input, its [chunk_count] is
    the number of its members, and its [avg_similarity] (and its
    [similarity]) is the sum of their similarities divided by their
    number, the formula of the code read over the rationals. *)
Theorem merged_docs_are_ranked (input : list chunk_dict) (docs : list merged_doc) :
  merge_chunks_by_doc_id input = Some docs ->
  StronglySorted (fun a b => (avg_similarity b <= avg_similarity a)%Q) docs
  /\ forall m, m ∈ docs ->
       chunks m <> []
       /\ (forall c, c ∈ chunks m -> c ∈ input)
       /\ chunk_count m = Z.of_nat (length (chunks m))
       /\ (avg_similarity m
           == fold_left Qplus (map (fun c => get_num (similarity c)) (chunks m)) 0
              / inject_Z (Z.of_nat (length (chunks m))))%Q
       /\ m_similarity m = avg_similarity m.
Proof.
  intros Hrun. split; [exact (merge_result_sorted input docs Hrun)|].
  intros m Hm.
  destruct (merge_result_members input docs m Hrun Hm) as (Hne & Hmem & [Havg Hcount] & Hsim).
  split; [exact Hne|]. split; [exact Hmem|]. split; [exact Hcount|].
  split; [|exact Hsim].
  rewrite Havg, (mean_similarity_formula _ Hne). reflexivity.
Qed.

Lemma merged_docs_are_ranked_witness :
  exists docs,
    merge_chunks_by_doc_id spec_input = Some docs
    /\ StronglySorted (fun a b => (avg_similarity b <= avg_similarity a)%Q) docs.
Proof.
  eexists. split; [vm_compute; reflexivity|].
  apply (merged_docs_are_ranked spec_input). vm_compute. reflexivity.
Defined.

End MergeFacts.

(** ** The retrieval agent *)

Module AgentFacts.
Import PyStr PyList Cand Reranker MultiQuery Dedup Merge Retrieval.
Import PyListFacts RerankerSpec MultiQuerySpec MergeSpec RankingFacts MultiQueryFacts
  SearchFacts MergeFacts.

Lemma filter_sublist {A : Type} (f : A -> bool) (l : list A) :
  List.filter f l `sublist_of` l.
Proof.
  induction l as [|x l IH]; simpl; [constructor|].
  destruct (f x); [now apply sublist_skip | now apply sublist_cons].
Qed.

Section Agent.

Variable fromisoformat : str -> option Z.
Variable vector_db : MilvusVectorDatabase.

(** The similarities that the database hands to the agent. *)
Lemma database_results_unit (query_text : option str) (query_chunks : list str)
    (top_k : Z) (exclude_doc_id : pyval) (use_reranker : bool)
    (results : list chunk_dict) (r : chunk_dict) :
  database_results fromisoformat vector_db query_text query_chunks top_k exclude_doc_id
    use_reranker = Some results ->
  r ∈ results -> exists q, similarity r = Some q /\ unit_score q.
Proof.
  unfold database_results.
  destruct (negb (enable_chunking vector_db)).
  { intros [= <-] Hr. now apply elem_of_nil in Hr. }
  destruct query_chunks as [|q0 rest].
  - destruct (collection_search vector_db _ top_k) as [hits|]; [|discriminate].
    intros [= <-] Hr.
    apply search_chunks_from_hits in Hr as (h & _ & _ & Heq).
    exists (similarity_of h). split; [exact (f_equal similarity Heq)|].
    apply similarity_of_unit.
  - destruct (search_all vector_db (q0 :: rest) top_k) as [searches|]; [|discriminate].
    intros [= <-] Hr.
    apply result_from_merged in Hr as (d0 & Hd0 & Heq).
    destruct (merged_results_best exclude_doc_id searches) as [_ Hbest].
    destruct (Hbest d0 Hd0) as (j & h' & _ & _ & _ & Hsim & _).
    exists (similarity_of h'). split; [|apply similarity_of_unit].
    rewrite <- Hsim. exact (f_equal similarity Heq).
Qed.

(** The dictionaries that [search_chunks_by_similarity] returns. *)
Lemma similarity_results_shape (query_text : option str) (query_chunks : list str)
    (top_k : Z) (exclude_doc_id : pyval) (use_reranker : bool)
    (rag_results : list chunk_dict) (c : chunk_dict) :
  search_chunks_by_similarity fromisoformat vector_db query_text query_chunks top_k
    exclude_doc_id use_reranker = Some rag_results ->
  c ∈ rag_results ->
  unit_score (get_num (similarity c))
  /\ rerank_score c = None /\ original_rank c = None
  /\ (truthy exclude_doc_id = true -> doc_id c <> Some exclude_doc_id)
  /\ source c = Some (PyStr (if bool_decide (query_chunks <> [])
                             then lit "chunk_similarity_fine_grained"
                             else lit "chunk_similarity")).
Proof.
  unfold search_chunks_by_similarity.
  destruct (database_results _ _ _ _ _ _ _) as [results|] eqn:E; [|discriminate].
  intros [= <-] Hc. apply list_elem_of_fmap in Hc as (r & -> & Hr).
  apply list_elem_of_In, filter_In in Hr as [Hr Hkeep]. apply list_elem_of_In in Hr.
  destruct (database_results_unit _ _ _ _ _ _ r E Hr) as (q & Hq & Hunit).
  split; [cbn [format_result similarity]; now rewrite Hq|].
  split; [reflexivity|]. split; [reflexivity|]. split; [|reflexivity].
  intros Ht. cbn [format_result doc_id]. intros [= Habs].
  apply negb_true_iff in Hkeep. unfold is_excluded in Hkeep. rewrite Ht in Hkeep.
  simpl in Hkeep. now apply bool_decide_eq_false in Hkeep.
Qed.

End Agent.

(** X19. A [search_enhanced] that returns gives at most [top_k]
    documents (for a [top_k] that is not negative) in decreasing order
    of [avg_similarity]. No document has the excluded [doc_id], and none
    of its chunks has; every document has a chunk, an [avg_similarity]
    between 0 and 1, and chunks without [rerank_score]: the scores of
    the reranker do not leave [search_chunks_by_similarity]. With the
    chunk search disabled the result is the empty list. *)
Theorem search_enhanced_documents (fromisoformat : str -> option Z)
    (vector_db : MilvusVectorDatabase) (query_text : option str)
    (query_chunks : list str) (top_k : Z) (exclude_doc_id : pyval) (use_reranker : bool) :
  (enable_chunking vector_db = false ->
   search_enhanced fromisoformat vector_db query_text query_chunks top_k exclude_doc_id
     use_reranker = Some [])
  /\ forall docs,
       search_enhanced fromisoformat vector_db query_text query_chunks top_k
         exclude_doc_id use_reranker = Some docs ->
       (0 <= top_k -> Z.of_nat (length docs) <= top_k)
       /\ StronglySorted (fun a b => (avg_similarity b <= avg_similarity a)%Q) docs
       /\ forall m, m ∈ docs ->
            chunks m <> [] /\ unit_score (avg_similarity m)
            /\ (truthy exclude_doc_id = true -> m_doc_id m <> exclude_doc_id)
            /\ forall c, c ∈ chunks m ->
                 rerank_score c = None
                 /\ (truthy exclude_doc_id = true -> doc_id c <> Some exclude_doc_id).
Proof.
  split.
  { intros Hoff. unfold search_enhanced, search_chunks_by_similarity, database_results.
    rewrite Hoff. simpl. unfold slice_to. now destruct (truthy exclude_doc_id), (top_k <? 0); rewrite ?firstn_nil. }
  intros docs. unfold search_enhanced.
  destruct (search_chunks_by_similarity _ _ _ _ _ _ _) as [rag_results|] eqn:Es;
    [|discriminate].
  destruct (merge_chunks_by_doc_id rag_results) as [merged_docs|] eqn:Em; [|discriminate].
  set (kept := if truthy exclude_doc_id then _ else merged_docs).
  intros [= <-].
  assert (Hsub : kept `sublist_of` merged_docs).
  { subst kept. destruct (truthy exclude_doc_id); [apply filter_sublist | reflexivity]. }
  split; [intros Hk; rewrite length_slice_to by exact Hk; lia|].
  split.
  { apply (StronglySorted_sublist _ merged_docs);
      [|exact (merge_result_sorted rag_results merged_docs Em)].
    etransitivity; [apply slice_to_sublist | exact Hsub]. }
  intros m Hm. apply elem_of_slice_to in Hm.
  assert (Hm' : m ∈ merged_docs) by exact (elem_of_sublist _ _ _ Hm Hsub).
  destruct (merge_result_members rag_results merged_docs m Em Hm')
    as (Hne & Hmem & [Havg _] & _).
  assert (Hshape := similarity_results_shape fromisoformat vector_db query_text
                      query_chunks (top_k * 2) exclude_doc_id use_reranker rag_results).
  split; [exact Hne|]. split; [|split].
  - unfold unit_score. rewrite Havg. apply mean_similarity_between; [exact Hne|].
    apply List.Forall_forall. intros c Hc. apply list_elem_of_In in Hc.
    now apply (Hshape c Es (Hmem c Hc)).
  - intros Ht. subst kept. rewrite Ht in Hm.
    apply list_elem_of_In, filter_In in Hm as [_ Hkeep].
    apply negb_true_iff in Hkeep. now apply bool_decide_eq_false in Hkeep.
  - intros c Hc. destruct (Hshape c Es (Hmem c Hc)) as (_ & Hrr & _ & Hdoc & _).
    now split.
Qed.

Lemma search_enhanced_documents_witness :
  exists docs,
    search_enhanced iso_date example_db (Some (lit "q")) [] 1 (PyStr (lit "d2")) true
    = Some docs
    /\ Z.of_nat (length docs) <= 1.
Proof.
  eexists. split; [vm_compute; reflexivity|].
  apply (search_enhanced_documents iso_date example_db (Some (lit "q")) [] 1
           (PyStr (lit "d2")) true); [vm_compute; reflexivity | lia].
Defined.

End AgentFacts.

(** ** The search of the novelty agent *)

Module NoveltyFacts.
Import PyStr PyList Cand Reranker MultiQuery Dedup Retrieval Novelty.
Import PyListFacts DedupSpec MultiQuerySpec RankingFacts DedupFacts MultiQueryFacts
  SearchFacts.

Lemma StronglySorted_map {A B : Type} (R : B -> B -> Prop) (f : A -> B) (l : list A) :
  StronglySorted (fun a b => R (f a) (f b)) l -> StronglySorted R (map f l).
Proof.
  induction 1 as [|x l _ IH Hx]; simpl; constructor; [exact IH|].
  apply List.Forall_forall. intros y Hy. apply in_map_iff in Hy as (a & <- & Ha).
  rewrite List.Forall_forall in Hx. now apply Hx.
Qed.

Lemma deref_store_of_elem (l : list chunk_dict) (r : nat) :
  r ∈ seq 0 (length l) -> deref (store_of l) r ∈ l.
Proof.
  intros Hr. rewrite <- (deref_store_of 0 l) at 2.
  apply list_elem_of_fmap. now exists r.
Qed.

Section Novelty.

Variable fromisoformat : str -> option Z.
Variable search_within_window : str -> Z -> option (list (list hit)).

(** A returned candidate is a candidate of the search with the two
    fields of the weighting attached. *)
Lemma deduplicated_elem (chunk_results : list chunk_dict) (policy_timestamp : option Z)
    (top_k : Z) (d : chunk_dict) :
  let out :=
    _deduplicate_chunks fromisoformat (store_of chunk_results)
      (seq 0 (length chunk_results)) policy_timestamp top_k in
  d ∈ map (deref (store_after out)) (returned out) ->
  exists d0, d0 ∈ chunk_results /\ d = attached fromisoformat policy_timestamp d0.
Proof.
  intros out Hd. apply list_elem_of_fmap in Hd as (r & -> & Hr).
  apply returned_survivor in Hr.
  exists (deref (store_of chunk_results) r). split.
  - apply deref_store_of_elem. now apply (survivors_input (store_of chunk_results)).
  - now apply survivor_after.
Qed.

End Novelty.

(** X20. [_search_by_dimension] never returns the policy it searches
    for: no returned candidate has the [doc_id] of the segment, and none
    has its title together with a time stamp of the segment's date. The
    returned candidates have pairwise different (title, timestamp) keys,
    are in decreasing order of [final_score], which is the rerank score
    plus the time bonus, and are at most [top_k] (when that is not
    negative) and at most 50. Without a vector database, or when the
    search raises, the result is the empty list. *)
Theorem dimension_search_excludes_the_segment (fromisoformat : str -> option Z)
    (vector_db : option MilvusVectorDatabase)
    (search_within_window : str -> Z -> option (list (list hit)))
    (segment : PolicySegment.t) (topic : str) (dimension : Dimension.t) (top_k : Z) :
  let result :=
    _search_by_dimension fromisoformat vector_db search_within_window segment topic
      dimension top_k in
  (forall d, d ∈ result ->
     (PolicySegment.doc_id segment <> [] ->
      doc_id d <> Some (PyStr (PolicySegment.doc_id segment)))
     /\ (forall ts date,
           PolicySegment.title segment <> [] ->
           title d = Some (PyStr (PolicySegment.title segment)) ->
           timestamp d = Some (PyStr ts) -> ts <> [] ->
           doc_date fromisoformat ts = Some date ->
           date <> PolicySegment.timestamp segment)
     /\ exists bonus,
          time_bonus d = Some bonus
          /\ final_score d = Some (get_num (rerank_score d) + bonus)%Q)
  /\ NoDup (map group_key result)
  /\ StronglySorted
       (fun a b => (get_num (final_score b) <= get_num (final_score a))%Q) result
  /\ (0 <= top_k -> Z.of_nat (length result) <= top_k)
  /\ Z.of_nat (length result) <= 50
  /\ (vector_db = None -> result = [])
  /\ ((forall query_text, search_within_window query_text 300 = None) -> result = []).
Proof.
  intros result. unfold _search_by_dimension in result.
  destruct vector_db as [db|].
  2:{ subst result. repeat split; try (intros; now apply elem_of_nil in H);
        try constructor; simpl; intros; try lia;
        match goal with H : _ ∈ [] |- _ => now apply elem_of_nil in H | _ => idtac end. }
  cbv zeta in result.
  set (query_text := topic ++ _) in result.
  destruct (dimension_hits fromisoformat search_within_window db segment query_text)
    as [chunk_results|] eqn:Ehits.
  2:{ subst result. repeat split; try constructor; simpl; intros; try lia;
        match goal with H : _ ∈ [] |- _ => now apply elem_of_nil in H | _ => idtac end. }
  set (policy := Some (PolicySegment.timestamp segment)) in result.
  set (h := store_of chunk_results) in result.
  set (refs := seq 0 (length chunk_results)) in result.
  set (out := _deduplicate_chunks fromisoformat h refs policy top_k) in result.
  assert (Hlen50 : Z.of_nat (length chunk_results) <= 50).
  { unfold dimension_hits in Ehits. destruct (negb (enable_chunking db)).
    - injection Ehits as <-. simpl. lia.
    - destruct (search_within_window query_text 300) as [results|]; [|discriminate].
      injection Ehits as <-. unfold search_chunks. cbn [negb default]. cbv zeta.
      set (formatted_results := map formatted_hit _).
      assert (Hslice : Z.of_nat (length (slice_to formatted_results 50)) <= 50).
      { rewrite length_slice_to by lia. lia. }
      destruct (true && _); [|exact Hslice].
      destruct (match get_reranker db with Some _ => _ | None => _ end) as [o|] eqn:Hrun;
        [|exact Hslice].
      destruct (get_reranker db) as [reranker|]; [|discriminate].
      rewrite length_map. apply (rerank_returned_length _ _ _ _ _ _ _ _ Hrun). cbn. lia. }
  assert (Hsurv : (length (returned out) <= length chunk_results)%nat).
  { transitivity (length (survivors h refs)).
    - unfold out, _deduplicate_chunks. cbn [returned].
      etransitivity; [apply sublist_length, slice_to_sublist|].
      unfold sort_desc. now rewrite stable_sort_length.
    - etransitivity; [apply survivors_length|]. unfold refs. now rewrite length_seq. }
  split; [|split; [|split; [|split; [|split; [|split]]]]].
  - intros d Hd. subst result.
    apply (deduplicated_elem fromisoformat chunk_results policy top_k d) in Hd
      as (d0 & Hd0 & ->).
    assert (Hfrom : exists hit0,
               kept_hit fromisoformat (PyStr (PolicySegment.doc_id segment))
                 (PyStr (PolicySegment.title segment))
                 (exclude_date fromisoformat (PyStr (PolicySegment.title segment))
                    (Datetime (PolicySegment.timestamp segment))) hit0 = true
               /\ stored_fields d0 hit0).
    { unfold dimension_hits in Ehits. destruct (negb (enable_chunking db)).
      - injection Ehits as <-. now apply elem_of_nil in Hd0.
      - destruct (search_within_window query_text 300) as [results|]; [|discriminate].
        injection Ehits as <-.
        apply search_chunks_from_hits in Hd0 as (hit0 & _ & Hk & Heq).
        exists hit0. split; [exact Hk|].
        exact (stored_fields_without_rerank (formatted_hit hit0) d0 hit0 Heq
                 (formatted_hit_fields hit0)). }
    destruct Hfrom as (hit0 & Hk & Hf).
    unfold kept_hit in Hk. apply andb_prop in Hk as [Hex Hsame].
    apply negb_true_iff in Hex, Hsame.
    destruct Hf as (_ & Hdoc & _ & _ & _ & Hti & Htm & _).
    split; [|split].
    + intros Hne. change (doc_id (attached fromisoformat policy d0)) with (doc_id d0).
      rewrite Hdoc. intros [= Habs].
      apply (not_excluded_doc _ hit0 Hex); [|exact Habs].
      simpl. now destruct (PolicySegment.doc_id segment).
    + intros ts date Hne.
      change (title (attached fromisoformat policy d0)) with (title d0).
      change (timestamp (attached fromisoformat policy d0)) with (timestamp d0).
      rewrite Hti, Htm. intros [= Htitle] [= Hts] Hts_ne Hdate.
      apply (other_policy_date fromisoformat (PyStr (PolicySegment.title segment))
               (Datetime (PolicySegment.timestamp segment)) hit0 _ ts date Hsame);
        try assumption.
      unfold exclude_date. simpl. now destruct (PolicySegment.title segment).
    + exists (time_bonus_of fromisoformat policy d0). split; reflexivity.
  - subst result. rewrite map_map. apply returned_keys_NoDup.
  - subst result.
    apply (StronglySorted_map
             (fun a b => (get_num (final_score b) <= get_num (final_score a))%Q)).
    apply returned_descending.
  - intros Hk. subst result. rewrite length_map.
    unfold out, _deduplicate_chunks. cbn [returned]. rewrite length_slice_to by exact Hk. lia.
  - subst result. rewrite length_map. lia.
  - discriminate.
  - intros Hq. subst result.
    unfold dimension_hits in Ehits. destruct (negb (enable_chunking db)).
    + injection Ehits as <-. destruct (returned out) as [|r l]; [reflexivity|].
      cbn [length] in Hsurv. lia.
    + rewrite Hq in Ehits. discriminate.
Qed.

Lemma dimension_search_excludes_the_segment_witness :
  exists d,
    d ∈ _search_by_dimension iso_date (Some example_db) (collection_search example_db)
          example_segment (lit "topic") example_dimension 5
    /\ doc_id d <> Some (PyStr (lit "d2")).
Proof.
  destruct (_search_by_dimension iso_date (Some example_db) (collection_search example_db)
              example_segment (lit "topic") example_dimension 5) as [|d l] eqn:E;
    [vm_compute in E; discriminate|].
  exists d. split; [left|].
  apply (dimension_search_excludes_the_segment iso_date (Some example_db)
           (collection_search example_db) example_segment (lit "topic")
           example_dimension 5); [rewrite E; left | discriminate].
Defined.

End NoveltyFacts.

(** ** The stored fields of a chunk *)

Module IngestFacts.
Import PyStr Utf8 Ingest Utf8Facts.

(** A text has at most as many characters as its encoding has bytes. *)
Lemma chars_le_bytes (s : str) (b : bytes) : encode s = Some b -> len s <= len b.
Proof.
  unfold len. revert b. induction s as [|c s IH]; intros b; simpl.
  - intros [= <-]. simpl. lia.
  - destruct (encode_char c) as [bc|] eqn:Ec; [|discriminate].
    destruct (encode s) as [bs|]; [|discriminate]. intros [= <-].
    apply encode_char_width in Ec. specialize (IH bs eq_refl).
    rewrite length_app. lia.
Qed.

(** What [_truncate_utf8] returns for a limit that is not negative. *)
Lemma truncate_utf8_fits (value : option str) (b : bytes) (max_bytes : Z) :
  encode (default [] value) = Some b -> 0 <= max_bytes ->
  exists k br,
    _truncate_utf8 value max_bytes = Some (firstn k (default [] value))
    /\ encode (firstn k (default [] value)) = Some br /\ len br <= max_bytes
    /\ (len b <= max_bytes -> firstn k (default [] value) = default [] value)
    /\ (max_bytes < len b -> (k < length (default [] value))%nat).
Proof.
  intros Hs Hmax. unfold _truncate_utf8. cbv zeta. set (s := default [] value) in *.
  rewrite Hs. destruct (len b <=? max_bytes) eqn:Hfit.
  - apply Z.leb_le in Hfit. exists (length s), b. rewrite firstn_all.
    repeat split; try assumption; lia.
  - apply Z.leb_gt in Hfit.
    destruct (cut_loop_longest s b (Z.to_nat max_bytes) Hs) as (k & br & Hk & Hbr & Hlen & _).
    { unfold len in Hfit. lia. }
    exists (Nat.min k (length s)), br.
    assert (Hmin : firstn (Nat.min k (length s)) s = firstn k s).
    { destruct (Nat.le_ge_cases k (length s)) as [H|H].
      - now rewrite Nat.min_l.
      - rewrite Nat.min_r, firstn_all by exact H. symmetry. now apply firstn_all2. }
    rewrite Hmin, Hk. split; [reflexivity|]. split; [exact Hbr|].
    split; [unfold len; lia|]. split; [lia|]. intros _.
    destruct (Nat.lt_ge_cases k (length s)) as [H|H]; [lia|].
    rewrite firstn_all2 in Hbr by exact H. assert (br = b) by congruence. subst br.
    unfold len in Hfit. lia.
Qed.

Lemma fold_max_bound (lens : list Z) (a max_len : Z) :
  a <= max_len -> Forall (fun n => n <= max_len) lens ->
  fold_left Z.max lens a <= max_len.
Proof.
  revert a. induction lens as [|n lens IH]; intros a Ha Hall; simpl; [exact Ha|].
  apply Forall_cons in Hall as [Hn Hall]. apply IH; [lia | exact Hall].
Qed.

(** A column whose items fit by bytes passes both checks unchanged. *)
Lemma char_pass_fitting (field : list str) (max_len : Z) :
  0 <= max_len -> Forall (fun item => len item <= max_len) field ->
  char_pass field max_len = field.
Proof.
  intros Hmax Hall. unfold char_pass. cbv zeta.
  assert (Hle : default 0 (longest field) <= max_len).
  { destruct field as [|item rest]; simpl; [exact Hmax|].
    apply Forall_cons in Hall as [Hi Hall]. apply fold_max_bound; [exact Hi|].
    apply List.Forall_forall. intros n Hn. apply in_map_iff in Hn as (s & <- & Hs).
    rewrite List.Forall_forall in Hall. now apply Hall. }
  destruct (max_len <? _) eqn:E; [apply Z.ltb_lt in E; lia | reflexivity].
Qed.

Lemma byte_pass_fitting (field : list str) (max_allowed : Z) :
  Forall (fun item => exists b, encode item = Some b /\ len b <= max_allowed) field ->
  byte_pass field max_allowed = Some field.
Proof.
  intros Hall. unfold byte_pass.
  assert (Hlens : exists lengths,
             mapM (fun item => option_map len (encode item)) field = Some lengths
             /\ Forall2 (fun item n => n <= max_allowed) field lengths).
  { induction Hall as [|item rest (b & Hb & Hle) _ (lengths & Hm & Hf)].
    - exists []. split; [reflexivity | constructor].
    - exists (len b :: lengths). split; [|now constructor].
      apply mapM_Some. constructor; [now rewrite Hb|]. now apply mapM_Some in Hm. }
  destruct Hlens as (lengths & -> & Hf). clear Hall.
  induction Hf as [|item n rest lengths Hn _ IH]; [reflexivity|].
  cbn [byte_loop]. destruct (max_allowed <? n) eqn:E; [apply Z.ltb_lt in E; lia|].
  now rewrite IH.
Qed.

Lemma truncated_column (values : list (option str)) (max_bytes : Z) (field : list str) :
  0 <= max_bytes ->
  mapM (fun value => _truncate_utf8 value max_bytes) values = Some field ->
  Forall2 (fun value s => cut_to max_bytes (default [] value) s) values field.
Proof.
  intros Hmax Hm. apply mapM_Some in Hm.
  eapply Forall2_impl; [exact Hm|]. intros value s Hs. cbn beta in Hs.
  destruct (encode (default [] value)) as [b|] eqn:Eb.
  2:{ unfold _truncate_utf8 in Hs. cbv zeta in Hs. rewrite Eb in Hs. discriminate. }
  destruct (truncate_utf8_fits value b max_bytes Eb Hmax)
    as (k & bs & Hk & Hbs & Hle & Hfit & Hcut).
  rewrite Hk in Hs. injection Hs as <-.
  exists k, b, bs. repeat split; try assumption; try reflexivity.
  intros Hlong. specialize (Hcut Hlong). unfold len. rewrite length_firstn. lia.
Qed.

Lemma checks_change_nothing (values : list (option str)) (max_bytes : Z) :
  values <> [] -> 0 <= max_bytes ->
  varchar_field values max_bytes
  = mapM (fun value => _truncate_utf8 value max_bytes) values.
Proof.
  intros Hne Hmax. unfold varchar_field.
  destruct (mapM (fun value => _truncate_utf8 value max_bytes) values)
    as [field|] eqn:Em; [|reflexivity].
  pose proof (truncated_column values max_bytes field Hmax Em) as Hcut. cbv zeta.
  assert (Hfit : Forall (fun item => exists b, encode item = Some b /\ len b <= max_bytes)
                   field).
  { apply List.Forall_forall. intros item Hitem. apply list_elem_of_In in Hitem.
    destruct (proj1 (list_elem_of_lookup _ _) Hitem) as [i Hi].
    destruct (Forall2_lookup_r _ _ _ _ _ Hcut Hi)
      as (value & _ & k & b & bs & _ & _ & Hbs & Hle & _).
    now exists bs. }
  rewrite char_pass_fitting; [|exact Hmax|].
  - destruct field as [|item rest].
    + apply Forall2_nil_inv_r in Hcut. contradiction.
    + cbn [longest]. now apply byte_pass_fitting.
  - eapply List.Forall_impl; [|exact Hfit]. intros item (b & Hb & Hle).
    pose proof (chars_le_bytes item b Hb). lia.
Qed.

Lemma encodable_column (values : list (option str)) (max_bytes : Z) :
  0 <= max_bytes ->
  Forall (fun value => is_Some (encode (default [] value))) values ->
  is_Some (mapM (fun value => _truncate_utf8 value max_bytes) values).
Proof.
  intros Hmax Hall. apply mapM_is_Some.
  eapply List.Forall_impl; [|exact Hall]. intros value [b Hb]. cbn.
  destruct (truncate_utf8_fits value b max_bytes Hb Hmax) as (k & bs & Hk & _).
  rewrite Hk. eexists. reflexivity.
Qed.

(** The text that is embedded: the first 450 characters. *)
Lemma chunk_text_firstn (content : str) : chunk_text content = firstn 450 content.
Proof.
  unfold chunk_text, limited_content, MAX_CHUNK_LEN, slice_to.
  change (450 <? 0) with false. cbv iota. change (Z.to_nat 450) with 450%nat.
  destruct (450 <? len content); [|reflexivity].
  rewrite firstn_firstn. now rewrite Nat.min_id.
Qed.

Lemma limited_content_text (content : str) : limited_content content = chunk_text content.
Proof.
  rewrite chunk_text_firstn. unfold limited_content, MAX_CHUNK_LEN, slice_to.
  change (450 <? 0) with false. cbv iota. change (Z.to_nat 450) with 450%nat.
  destruct (450 <? len content) eqn:E; [reflexivity|].
  apply Z.ltb_ge in E. symmetry. apply firstn_all2. unfold len in E. lia.
Qed.

(** X21. A VARCHAR column of at least one chunk, with a limit that is
    not negative, is inserted exactly as [_truncate_utf8] built it: the
    check by characters and the check by bytes that follow change
    nothing. Every stored value is a prefix of the chunk's value with
    whole characters only, and its encoding fits the limit; a value
    whose encoding fits is stored unchanged, a longer one loses
    characters. The column exists as soon as every value can be
    encoded. *)
Theorem varchar_field_is_byte_truncation (values : list (option str)) (max_bytes : Z) :
  values <> [] -> 0 <= max_bytes ->
  varchar_field values max_bytes
  = mapM (fun value => _truncate_utf8 value max_bytes) values
  /\ (Forall (fun value => is_Some (encode (default [] value))) values ->
      is_Some (varchar_field values max_bytes))
  /\ forall stored,
       varchar_field values max_bytes = Some stored ->
       Forall2
         (fun value s =>
            exists k b bs,
              encode (default [] value) = Some b
              /\ s = firstn k (default [] value)
              /\ encode s = Some bs /\ len bs <= max_bytes
              /\ (len b <= max_bytes -> s = default [] value)
              /\ (max_bytes < len b -> len s < len (default [] value)))
         values stored.
Proof.
  intros Hne Hmax.
  pose proof (checks_change_nothing values max_bytes Hne Hmax) as Hsame.
  split; [exact Hsame|]. split.
  - intros Hall. rewrite Hsame. now apply encodable_column.
  - intros stored Hs. rewrite Hsame in Hs.
    exact (truncated_column values max_bytes stored Hmax Hs).
Qed.

Lemma varchar_field_is_byte_truncation_witness :
  varchar_field [Some [20013; 25991; 97; 128512]%N; None] 8
  = mapM (fun value => _truncate_utf8 value 8) [Some [20013; 25991; 97; 128512]%N; None].
Proof.
  apply (varchar_field_is_byte_truncation [Some [20013; 25991; 97; 128512]%N; None] 8);
    [discriminate | lia].
Defined.

(** X22. The [content] that is stored for a chunk is a prefix of the
    text whose embedding is stored with it, the first 450 characters of
    the chunk: it is that text when the text has at most 450 bytes, and
    otherwise a shorter text, the longest prefix with whole characters
    that has at most 450 bytes. *)
Theorem stored_content_is_cut_by_bytes (contents : list str) :
  contents <> [] ->
  Forall (fun content => is_Some (encode content)) contents ->
  exists stored,
    content_field contents = Some stored
    /\ Forall2
         (fun content s =>
            chunk_text content = firstn 450 content
            /\ exists k bt bs,
                 encode (chunk_text content) = Some bt
                 /\ s = firstn k (chunk_text content)
                 /\ encode s = Some bs /\ len bs <= 450
                 /\ (len bt <= 450 -> s = chunk_text content)
                 /\ (450 < len bt -> len s < len (chunk_text content)))
         contents stored.
Proof.
  intros Hne Hall. unfold content_field.
  set (values := map (fun content => Some (limited_content content)) contents).
  assert (Hvalues : values <> []) by (subst values; now destruct contents).
  rewrite (checks_change_nothing values 450 Hvalues) by lia.
  destruct (encodable_column values 450) as [stored Hstored]; [lia| |].
  { subst values. apply List.Forall_forall. intros value Hv.
    apply in_map_iff in Hv as (content & <- & Hc).
    rewrite List.Forall_forall in Hall. destruct (Hall content Hc) as [b Hb].
    change (default [] (Some (limited_content content))) with (limited_content content).
    rewrite limited_content_text, chunk_text_firstn.
    destruct (encode_firstn content b 450 Hb) as (br & Hbr & _). now exists br. }
  exists stored. split; [exact Hstored|].
  pose proof (truncated_column values 450 stored ltac:(lia) Hstored) as Hcut.
  subst values.
  apply (proj1 (Forall2_fmap_l (fun content => Some (limited_content content))
                  (fun value s => cut_to 450 (default [] value) s) contents stored))
    in Hcut.
  eapply Forall2_impl; [exact Hcut|]. intros content s Hs. cbn in Hs.
  rewrite limited_content_text in Hs. split; [apply chunk_text_firstn | exact Hs].
Qed.

Lemma stored_content_is_cut_by_bytes_witness :
  exists stored,
    content_field [repeat 20013%N 151; lit "short"] = Some stored
    /\ map len stored = [150; 5].
Proof.
  destruct (stored_content_is_cut_by_bytes [repeat 20013%N 151; lit "short"])
    as (stored & Hrun & _).
  - discriminate.
  - repeat constructor; vm_compute; eexists; reflexivity.
  - exists stored. split; [exact Hrun|].
    vm_compute in Hrun. injection Hrun as <-. vm_compute. reflexivity.
Defined.

(** *** The insertion in batches *)

Section Insert.

Variable cell : Type.
Variable insert : list (list cell) -> bool.

Lemma slice_between_next (column : list cell) (k : nat) (total_chunks : Z) :
  total_chunks = Z.of_nat (length column) ->
  let i := Z.of_nat k * CHUNK_INSERT_BATCH in
  firstn (500 * k) column
    ++ slice_between column i (Z.min (i + CHUNK_INSERT_BATCH) total_chunks)
  = firstn (500 * S k) column.
Proof.
  intros Htotal i. unfold slice_between, CHUNK_INSERT_BATCH in *.
  replace (Z.to_nat i) with (500 * k)%nat by (subst i; lia).
  assert (Hend : firstn (Z.to_nat (Z.min (i + 500) total_chunks)) column
                 = firstn (500 * S k) column).
  { destruct (Z.le_ge_cases (i + 500) total_chunks) as [H|H].
    - rewrite Z.min_l by exact H. f_equal. subst i. lia.
    - rewrite Z.min_r by lia. rewrite !firstn_all2; [reflexivity| |]; subst i; lia. }
  rewrite Hend.
  rewrite <- (firstn_skipn (500 * k) (firstn (500 * S k) column)) at 2.
  f_equal. rewrite firstn_firstn. f_equal. lia.
Qed.

Lemma length_slice_between (column : list cell) (k : nat) (total_chunks : Z) :
  total_chunks = Z.of_nat (length column) ->
  Z.of_nat k * CHUNK_INSERT_BATCH < total_chunks ->
  let i := Z.of_nat k * CHUNK_INSERT_BATCH in
  (1 <= length (slice_between column i (Z.min (i + CHUNK_INSERT_BATCH) total_chunks))
   <= 500)%nat.
Proof.
  intros Htotal Hlt i. unfold slice_between, CHUNK_INSERT_BATCH in *.
  rewrite length_skipn, length_firstn. subst i. lia.
Qed.

Lemma column_of_snoc (c : nat) (inserted : list (list (list cell)))
    (batch_entities : list (list cell)) :
  column_of cell c (inserted ++ [batch_entities])
  = column_of cell c inserted ++ default [] (batch_entities !! c).
Proof.
  unfold column_of. rewrite map_app, concat_app. simpl. now rewrite app_nil_r.
Qed.

(** What the loop keeps: after [k] accepted batches every column of the
    collection is the first [500 * k] values of the column. *)
Lemma insert_loop_prefix (entities : list (list cell)) (total_chunks : Z) (m : nat) :
  (forall column, column ∈ entities -> total_chunks = Z.of_nat (length column)) ->
  forall (k : nat) (inserted : list (list (list cell))),
    length inserted = k ->
    (forall j, (j < k + m)%nat -> Z.of_nat j * CHUNK_INSERT_BATCH < total_chunks) ->
    (forall c column, entities !! c = Some column ->
       column_of cell c inserted = firstn (500 * k) column) ->
    Forall (Forall (fun column => (1 <= length column <= 500)%nat)) inserted ->
    let starts := map (fun j => Z.of_nat j * CHUNK_INSERT_BATCH) (seq k m) in
    let result := insert_loop cell insert entities total_chunks starts inserted in
    (forall c column, entities !! c = Some column ->
       column_of cell c (fst result) = firstn (500 * length (fst result)) column)
    /\ Forall (Forall (fun column => (1 <= length column <= 500)%nat)) (fst result)
    /\ (length (fst result) <= k + m)%nat
    /\ (snd result = true -> length (fst result) = (k + m)%nat)
    /\ (snd result = false ->
        (length (fst result) < k + m)%nat
        /\ let i := Z.of_nat (length (fst result)) * CHUNK_INSERT_BATCH in
           insert (map (fun column =>
                          slice_between column i
                            (Z.min (i + CHUNK_INSERT_BATCH) total_chunks))
                     entities) = false).
Proof.
  intros Hsame. induction m as [|m IH]; intros k inserted Hk Hless Hinv Hsizes.
  - cbn [seq map insert_loop fst snd]. rewrite Hk.
    split; [exact Hinv|]. split; [exact Hsizes|]. split; [lia|].
    split; [intros _; lia | discriminate].
  - cbn [seq map insert_loop]. cbv zeta.
    set (i := Z.of_nat k * CHUNK_INSERT_BATCH).
    set (batch_entities := map _ entities).
    destruct (insert batch_entities) eqn:Eins.
    + specialize (IH (S k) (inserted ++ [batch_entities])).
      cbv zeta in IH. replace (k + S m)%nat with (S k + m)%nat by lia.
      apply IH.
      * rewrite length_app. simpl. lia.
      * intros j Hj. apply Hless. lia.
      * intros c column Hc. rewrite column_of_snoc, (Hinv c column Hc).
        subst batch_entities. rewrite list_lookup_fmap, Hc.
        change (default [] (Some ?x)) with x. cbn [fmap option_fmap option_map].
        apply slice_between_next. apply Hsame. now apply list_elem_of_lookup_2 in Hc.
      * apply Forall_app. split; [exact Hsizes|]. constructor; [|constructor].
        subst batch_entities. apply List.Forall_forall. intros b Hb.
        apply in_map_iff in Hb as (column & <- & Hcol).
        apply length_slice_between.
        -- apply Hsame. now apply list_elem_of_In.
        -- apply Hless. lia.
    + cbn [fst snd]. rewrite Hk.
      split; [exact Hinv|]. split; [exact Hsizes|]. split; [lia|].
      split; [discriminate|]. intros _. split; [lia | exact Eins].
Qed.

End Insert.

(** X23. [_add_chunk_level] hands the chunks to the collection in
    batches of at most 500, in order and without gap: after the loop
    every column of the collection is a prefix of the column of
    [entities], the same number of values for every column, a multiple
    of 500 unless the column is complete. When no insertion raises,
    every column is complete; when one raises, the batches before it
    stay inserted and the batch that was refused is the next one. *)
Theorem batches_insert_a_prefix (cell : Type) (insert : list (list cell) -> bool)
    (entities : list (list cell)) (total_chunks : nat) :
  entities <> [] ->
  (forall column, column ∈ entities -> length column = total_chunks) ->
  exists inserted ok,
    insert_batches cell insert entities = Some (inserted, ok)
    /\ (forall c column, entities !! c = Some column ->
          column_of cell c inserted = firstn (500 * length inserted) column)
    /\ Forall (Forall (fun column => (1 <= length column <= 500)%nat)) inserted
    /\ (ok = true ->
        forall c column, entities !! c = Some column -> column_of cell c inserted = column)
    /\ (ok = false ->
        (500 * length inserted < total_chunks)%nat
        /\ let i := Z.of_nat (500 * length inserted) in
           insert (map (fun column =>
                          slice_between column i (Z.min (i + 500) (Z.of_nat total_chunks)))
                     entities) = false).
Proof.
  intros Hne Hsame. destruct entities as [|column0 rest]; [congruence|].
  unfold insert_batches. cbv zeta.
  assert (H0 : length column0 = total_chunks) by (apply Hsame; now left).
  rewrite H0. set (T := Z.of_nat total_chunks).
  set (entities := column0 :: rest) in *.
  unfold batch_starts. set (m := Z.to_nat ((T + CHUNK_INSERT_BATCH - 1) / CHUNK_INSERT_BATCH)).
  assert (Hm : forall j, (j < m)%nat -> Z.of_nat j * CHUNK_INSERT_BATCH < T).
  { intros j Hj. subst m. unfold CHUNK_INSERT_BATCH in *.
    assert (Z.of_nat j < (T + 500 - 1) / 500) by lia.
    pose proof (Z.div_mod (T + 500 - 1) 500 ltac:(lia)).
    pose proof (Z.mod_pos_bound (T + 500 - 1) 500 ltac:(lia)). lia. }
  assert (Hm' : T <= Z.of_nat m * 500).
  { subst m. unfold CHUNK_INSERT_BATCH.
    pose proof (Z.div_mod (T + 500 - 1) 500 ltac:(lia)).
    pose proof (Z.mod_pos_bound (T + 500 - 1) 500 ltac:(lia)).
    assert (0 <= (T + 500 - 1) / 500) by (apply Z.div_pos; subst T; lia). lia. }
  destruct (insert_loop_prefix cell insert entities T m) with (k := 0%nat) (inserted := @nil (list (list cell)))
    as (Hcols & Hsizes & Hle & Hok & Hfail).
  - intros column Hc. subst T. now rewrite (Hsame column Hc).
  - reflexivity.
  - intros j Hj. apply Hm. lia.
  - intros c column _. reflexivity.
  - constructor.
  - cbv zeta in Hcols, Hsizes, Hle, Hok, Hfail.
    destruct (insert_loop cell insert entities T _ []) as [inserted ok].
    cbn [fst snd] in Hcols, Hsizes, Hle, Hok, Hfail.
    exists inserted, ok. split; [reflexivity|]. split; [exact Hcols|].
    split; [exact Hsizes|]. split.
    + intros -> c column Hc. rewrite (Hcols c column Hc). apply firstn_all2.
      rewrite (Hsame column); [|now apply list_elem_of_lookup_2 in Hc].
      rewrite (Hok eq_refl). subst T. lia.
    + intros ->. destruct (Hfail eq_refl) as [Hlt Hins].
      unfold CHUNK_INSERT_BATCH in Hins.
      replace (Z.of_nat (500 * length inserted)) with (Z.of_nat (length inserted) * 500) by lia.
      split; [|exact Hins].
      specialize (Hm _ Hlt). unfold CHUNK_INSERT_BATCH in Hm. subst T. lia.
Qed.

Lemma batches_insert_a_prefix_witness :
  exists inserted,
    insert_batches nat (fun batch_entities => true) [seq 0 1201; seq 7 1201]
    = Some (inserted, true)
    /\ column_of nat 1 inserted = seq 7 1201.
Proof.
  destruct (batches_insert_a_prefix nat (fun batch_entities => true)
              [seq 0 1201; seq 7 1201] 1201) as (inserted & ok & Hrun & _ & _ & Hok & Hfail).
  - discriminate.
  - intros column Hc. repeat (apply elem_of_cons in Hc as [->|Hc]; [apply length_seq|]).
    now apply elem_of_nil in Hc.
  - destruct ok.
    + exists inserted. split; [exact Hrun|]. now apply Hok.
    + destruct (Hfail eq_refl) as [_ Habs]. discriminate Habs.
Defined.

End IngestFacts.

(** ** The full text of a stored document *)

Module FullContentFacts.
Import PyStr PyList Cand FullContent PyListFacts.

(** *** Lists in strict order *)

Lemma strict_order_unique {A : Type} (key : A -> Z) (l1 l2 : list A) :
  StronglySorted (fun a b => key a < key b) l1 ->
  StronglySorted (fun a b => key a < key b) l2 ->
  l1 ≡ₚ l2 -> l1 = l2.
Proof.
  intros H1. revert l2. induction H1 as [|a l1 Hs1 IH Ha]; intros l2 H2 Hperm.
  - now apply Permutation_nil_l in Hperm.
  - destruct H2 as [|b l2 Hs2 Hb].
    + now apply Permutation_nil_r in Hperm.
    + assert (Hab : a = b).
      { assert (Hin_a : a ∈ b :: l2) by (rewrite <- Hperm; now left).
        assert (Hin_b : b ∈ a :: l1) by (rewrite Hperm; now left).
        apply elem_of_cons in Hin_a as [?|Hin_a]; [assumption|].
        apply elem_of_cons in Hin_b as [?|Hin_b]; [congruence|].
        rewrite List.Forall_forall in Ha, Hb.
        apply list_elem_of_In in Hin_a, Hin_b.
        specialize (Ha b Hin_b). specialize (Hb a Hin_a). lia. }
      subst b. f_equal. apply IH; [exact Hs2|].
      now apply Permutation_cons_inv in Hperm.
Qed.

Lemma sort_asc_strict {A : Type} (key : A -> Z) (l : list A) :
  NoDup (map key l) ->
  StronglySorted (fun a b => key a < key b) (sort_asc key l).
Proof.
  intros Hnd. unfold sort_asc.
  set (precedes := fun y x : A => key y <? key x).
  assert (Hle : StronglySorted (fun a b => key a <= key b) (stable_sort precedes l)).
  { apply Sorted_StronglySorted.
    - intros a b c Hab Hbc. lia.
    - assert (Hs : Sorted (in_order precedes) (stable_sort precedes l)).
      { apply stable_sort_Sorted. intros x y. unfold precedes. intros H.
        apply Z.ltb_lt in H. apply Z.ltb_ge. lia. }
      induction Hs as [|x s Hs IH Hhd]; constructor; [exact IH|].
      destruct Hhd as [|y s' Hxy]; constructor.
      unfold in_order, precedes in Hxy. now apply Z.ltb_ge in Hxy. }
  assert (Hnd' : NoDup (map key (stable_sort precedes l))).
  { now rewrite (stable_sort_perm precedes l). }
  induction Hle as [|a s Hs IH Ha]; [constructor|].
  cbn [map] in Hnd'. apply NoDup_cons in Hnd' as [Hnotin Hnd'].
  constructor; [now apply IH|].
  apply List.Forall_forall. intros b Hb. rewrite List.Forall_forall in Ha.
  specialize (Ha b Hb). assert (key a <> key b); [|lia].
  intros Heq. apply Hnotin. rewrite Heq. apply list_elem_of_In. now apply in_map.
Qed.

(** Sorting by pairwise different indices forgets the order of the
    rows. *)
Lemma sort_asc_perm {A : Type} (key : A -> Z) (l1 l2 : list A) :
  l1 ≡ₚ l2 -> NoDup (map key l1) -> sort_asc key l1 = sort_asc key l2.
Proof.
  intros Hperm Hnd. apply (strict_order_unique key).
  - now apply sort_asc_strict.
  - apply sort_asc_strict. now rewrite <- Hperm.
  - unfold sort_asc. now rewrite !stable_sort_perm.
Qed.

Lemma fold_left_ext_fun {A B : Type} (f g : A -> B -> A) (l : list B) (a : A) :
  (forall a b, f a b = g a b) -> fold_left f l a = fold_left g l a.
Proof.
  intros H. revert a. induction l as [|b l IH]; intros a; simpl; [reflexivity|].
  now rewrite H, IH.
Qed.

(** X24. [get_full_document_content] does not depend on the order in
    which the collection returns the rows of a document, as long as
    their [chunk_index] are pairwise different: two collections whose
    answers hold the same rows give the same text, and so the same
    dictionary of [get_documents_full_content]. Without [doc_id] and
    without both [title] and [timestamp], the text is empty and the
    collection is not asked. *)
Theorem full_content_ignores_row_order (query query' : str -> option (list Row.t)) :
  (forall expr, same_rows (query expr) (query' expr)) ->
  (forall doc_id title timestamp,
     get_full_document_content query doc_id title timestamp
     = get_full_document_content query' doc_id title timestamp)
  /\ (forall doc_ids title_timestamp_pairs,
        get_documents_full_content query doc_ids title_timestamp_pairs
        = get_documents_full_content query' doc_ids title_timestamp_pairs)
  /\ (forall title timestamp,
        truthy title && truthy timestamp = false ->
        get_full_document_content query PyNone title timestamp = []).
Proof.
  intros Hsame.
  assert (Hone : forall doc_id title timestamp,
             get_full_document_content query doc_id title timestamp
             = get_full_document_content query' doc_id title timestamp).
  { intros doc_id title timestamp. unfold get_full_document_content.
    destruct (negb (truthy doc_id) && negb (truthy title && truthy timestamp));
      [reflexivity|].
    cbv zeta. set (expr := if truthy doc_id then _ else _).
    specialize (Hsame expr). unfold same_rows in Hsame.
    destruct (query expr) as [results|], (query' expr) as [results'|];
      try contradiction; [|reflexivity].
    destruct Hsame as [Hperm Hnd].
    destruct results as [|r results].
    { apply Permutation_nil_l in Hperm. now subst results'. }
    destruct results' as [|r' results'].
    { now apply Permutation_nil_r in Hperm. }
    unfold joined_contents. cbv zeta.
    now rewrite (sort_asc_perm _ _ _ Hperm Hnd). }
  split; [exact Hone|]. split.
  - intros doc_ids pairs. unfold get_documents_full_content. cbv zeta.
    rewrite (fold_left_ext_fun _
               (fun result doc_id =>
                  add_content result doc_id
                    (get_full_document_content query' (PyStr doc_id) PyNone PyNone)))
      by (intros; now rewrite Hone).
    apply fold_left_ext_fun. intros result pair. now rewrite Hone.
  - intros title timestamp Hnone. unfold get_full_document_content.
    cbn [truthy negb andb]. now rewrite Hnone.
Qed.

Lemma full_content_ignores_row_order_witness :
  get_full_document_content (fun _ => Some example_rows) (PyStr (lit "doc_1")) PyNone PyNone
  = get_full_document_content (fun _ => Some (rev example_rows)) (PyStr (lit "doc_1"))
      PyNone PyNone.
Proof.
  apply (full_content_ignores_row_order (fun _ => Some example_rows)
           (fun _ => Some (rev example_rows))).
  intros expr. split; [apply Permutation_rev|].
  change (NoDup [2; 0; 1]).
  repeat constructor; intros H; repeat (apply elem_of_cons in H as [H|H]; [discriminate|]);
    now apply elem_of_nil in H.
Defined.

End FullContentFacts.

(** ** The document-level searches *)

Module DocSearchFacts.
Import PyStr PyList Cand MultiQuery DocSearch PyListFacts.

(** What the loop of [search_by_doc] returns: the first hit that is not
    skipped. *)
Lemma by_doc_loop_first (doc_id_ : str) (top_k : Z) (exclude_self : bool)
    (hits : list hit) (similar_docs l : list similar_doc) :
  by_doc_loop doc_id_ top_k exclude_self hits similar_docs = ReturnsList l ->
  exists skipped h rest,
    hits = skipped ++ h :: rest
    /\ Forall (fun h' => entity_doc_id h' = PyStr doc_id_) skipped
    /\ (exclude_self = true -> entity_doc_id h <> PyStr doc_id_)
    /\ l = PyList.slice_to (similar_docs ++ [by_doc_of h]) top_k.
Proof.
  induction hits as [|h hits IH]; cbn [by_doc_loop]; [discriminate|].
  destruct (exclude_self && bool_decide (entity_doc_id h = PyStr doc_id_)) eqn:Eskip.
  - intros Hrun. destruct (IH Hrun) as (skipped & h' & rest & -> & Hall & Hother & Hl).
    exists (h :: skipped), h', rest. split; [reflexivity|]. split; [|now split].
    constructor; [|exact Hall].
    apply andb_prop in Eskip as [_ Hself]. now apply bool_decide_eq_true in Hself.
  - destruct (Qeq_bool (1 + distance h) 0); [discriminate|]. intros [= <-].
    exists [], h, hits. split; [reflexivity|]. split; [constructor|].
    split; [|reflexivity]. intros ->. cbn [andb] in Eskip.
    now apply bool_decide_eq_false in Eskip.
Qed.

Lemma by_doc_loop_none (doc_id_ : str) (top_k : Z) (exclude_self : bool)
    (hits : list hit) (similar_docs : list similar_doc) :
  by_doc_loop doc_id_ top_k exclude_self hits similar_docs = ReturnsNone ->
  Forall (fun h => entity_doc_id h = PyStr doc_id_) hits
  /\ (hits <> [] -> exclude_self = true).
Proof.
  induction hits as [|h hits IH]; cbn [by_doc_loop]; [now split|].
  destruct (exclude_self && bool_decide (entity_doc_id h = PyStr doc_id_)) eqn:Eskip.
  - intros Hrun. apply andb_prop in Eskip as [Hex Hself].
    apply bool_decide_eq_true in Hself. destruct (IH Hrun) as [Hall _].
    split; [now constructor | now intros _].
  - now destruct (Qeq_bool (1 + distance h) 0).
Qed.

Lemma length_slice_one {A : Type} (x : A) (top_k : Z) :
  (length (PyList.slice_to [x] top_k) <= 1)%nat
  /\ (PyList.slice_to [x] top_k <> [] -> 1 <= top_k /\ PyList.slice_to [x] top_k = [x]).
Proof.
  unfold PyList.slice_to. destruct (top_k <? 0) eqn:E.
  - apply Z.ltb_lt in E. replace (Z.to_nat (Z.of_nat (length [x]) + top_k)) with 0%nat
      by (simpl; lia).
    simpl. split; [lia | congruence].
  - apply Z.ltb_ge in E. destruct (Z.to_nat top_k) as [|n] eqn:En.
    + simpl. split; [lia | congruence].
    + cbn [firstn]. rewrite firstn_nil. split; [simpl; lia|]. intros _. split; [lia | reflexivity].
Qed.

Lemma slice_one {A : Type} (x : A) (top_k : Z) :
  PyList.slice_to [x] top_k = if 1 <=? top_k then [x] else [].
Proof.
  destruct (length_slice_one x top_k) as [Hlen Hone].
  destruct (1 <=? top_k) eqn:E.
  - apply Z.leb_le in E. unfold PyList.slice_to.
    replace (top_k <? 0) with false by (symmetry; apply Z.ltb_ge; lia).
    destruct (Z.to_nat top_k) as [|n] eqn:En; [lia|]. cbn [firstn]. now rewrite firstn_nil.
  - apply Z.leb_gt in E. destruct (PyList.slice_to [x] top_k) as [|y l] eqn:Es; [reflexivity|].
    destruct Hone as [Hk _]; [discriminate | lia].
Qed.

Lemma by_doc_loop_skip (doc_id_ : str) (top_k : Z) (skipped hits : list hit)
    (similar_docs : list similar_doc) :
  Forall (fun h => entity_doc_id h = PyStr doc_id_) skipped ->
  by_doc_loop doc_id_ top_k true (skipped ++ hits) similar_docs
  = by_doc_loop doc_id_ top_k true hits similar_docs.
Proof.
  induction 1 as [|h skipped Hh _ IH]; [reflexivity|].
  cbn [app by_doc_loop andb]. now rewrite bool_decide_eq_true_2.
Qed.

(** X25. [search_similar] returns at most one document, whatever [top_k]
    is and however many hits the collection finds: the [return] stands
    in the body of the loop over the hits, so the list holds the first
    hit only. With a query text that is not empty (a segment always
    gives one) and an embedding of it, the call returns the list of the
    first hit when the collection finds hits, and returns [None], not a
    list, when it finds none; without a query text it returns the empty
    list. Conversely a list that is returned is empty only without a
    query text and else holds the first hit of a search, and [None] is
    returned only after a search without hits. *)
Theorem search_similar_returns_one_document (embedding : Type)
    (encode_query : str -> option embedding)
    (collection_search : embedding -> Z -> option str -> option (list (list hit)))
    (query_text : option str) (query_segment : option PolicySegment.t) (top_k : Z)
    (where_filter : option str * option str) :
  let text :=
    match query_segment with
    | Some segment => segment_query_text segment
    | None => default [] query_text
    end in
  let ending :=
    search_similar embedding encode_query collection_search query_text query_segment
      top_k where_filter in
  (text = [] -> ending = ReturnsList [])
  /\ (forall query_embedding more,
        text <> [] -> encode_query text = Some query_embedding ->
        collection_search query_embedding top_k (filter_expr where_filter)
        = Some ([] :: more) ->
        ending = ReturnsNone)
  /\ (forall query_embedding h rest more,
        text <> [] -> encode_query text = Some query_embedding ->
        collection_search query_embedding top_k (filter_expr where_filter)
        = Some ((h :: rest) :: more) ->
        ending = ReturnsList [similar_of h])
  /\ (forall segment, query_segment = Some segment -> text <> [])
  /\ (forall similar_docs,
     ending = ReturnsList similar_docs ->
     (length similar_docs <= 1)%nat
     /\ (similar_docs = [] -> query_segment = None /\ default [] query_text = [])
     /\ forall d, d ∈ similar_docs ->
          exists query_embedding h rest more,
            collection_search query_embedding top_k (filter_expr where_filter)
            = Some ((h :: rest) :: more)
            /\ d = similar_of h)
  /\ (ending = ReturnsNone ->
      exists query_embedding more,
        collection_search query_embedding top_k (filter_expr where_filter)
        = Some ([] :: more)).
Proof.
  intros text ending. subst ending. unfold search_similar. cbv zeta. fold text.
  assert (Hseg : forall segment, query_segment = Some segment -> text <> []).
  { intros segment ->. subst text. unfold segment_query_text. cbv zeta.
    destruct (PolicySegment.title segment); discriminate. }
  assert (Htext : nonempty text = false -> query_segment = None /\ default [] query_text = []).
  { intros H. assert (Hnil : text = []) by (now destruct text).
    destruct query_segment as [segment|]; [now elim (Hseg segment)|].
    split; [reflexivity | exact Hnil]. }
  split; [intros ->; reflexivity|].
  split.
  { intros e more Hne He Hs. destruct text as [|x text']; [congruence|].
    cbn [nonempty negb]. now rewrite He, Hs. }
  split.
  { intros e h rest more Hne He Hs. destruct text as [|x text']; [congruence|].
    cbn [nonempty negb]. now rewrite He, Hs. }
  split; [exact Hseg|].
  destruct (nonempty text) eqn:Ene; cbn [negb].
  2:{ split; [|discriminate]. intros l [= <-]. split; [simpl; lia|]. split.
      - intros _. now apply Htext.
      - intros d Hd. now apply elem_of_nil in Hd. }
  destruct (encode_query text) as [query_embedding|]; [|split; discriminate].
  destruct (collection_search query_embedding top_k (filter_expr where_filter))
    as [[|hits more]|] eqn:Es; try (split; discriminate).
  destruct hits as [|h rest]; cbn [similar_loop app].
  - split; [discriminate|]. intros _. now exists query_embedding, more.
  - split; [|discriminate]. intros l [= <-]. split; [simpl; lia|]. split; [discriminate|].
    intros d Hd. apply list_elem_of_singleton in Hd as ->.
    now exists query_embedding, h, rest, more.
Qed.

Lemma search_similar_returns_one_document_witness :
  search_similar unit example_encoder example_collection (Some (lit "subsidy")) None 20
    (None, None)
  = ReturnsList [similar_of (example_hit "c2" "d1" 0.5)]
  /\ search_similar unit example_encoder (fun _ _ _ => Some [[]]) (Some (lit "subsidy"))
       None 20 (None, None)
     = ReturnsNone.
Proof.
  split.
  - refine (proj1 (proj2 (proj2
      (search_similar_returns_one_document unit example_encoder example_collection
         (Some (lit "subsidy")) None 20 (None, None)))) tt _ _ _ _ eq_refl eq_refl).
    discriminate.
  - refine (proj1 (proj2
      (search_similar_returns_one_document unit example_encoder (fun _ _ _ => Some [[]])
         (Some (lit "subsidy")) None 20 (None, None))) tt [] _ eq_refl eq_refl).
    discriminate.
Defined.

(** X26. [search_by_doc] returns at most one document, whatever [top_k]
    is: the first hit that is not skipped, since the [return] stands in
    the body of the loop. It returns the empty list when the query of
    the collection finds no row of the document. With a row and a
    search that returns, it returns [None], not a list, when there is no
    hit, and when [exclude_self] is set and every hit is on the queried
    document; and for the first hit that is not skipped (with
    [exclude_self] the first one on another document, without it the
    first hit, be it on the queried document) whose distance is not -1
    it returns the list of that hit for [top_k >= 1], the empty list
    otherwise. Conversely a document returned comes from such a hit,
    and [None] is returned only in the two cases named. *)
Theorem search_by_doc_returns_one_document (embedding : Type)
    (collection_query : str -> option (list embedding))
    (collection_search : embedding -> Z -> option str -> option (list (list hit)))
    (doc_id_ : str) (top_k : Z) (exclude_self : bool) :
  let ending :=
    search_by_doc embedding collection_query collection_search doc_id_ top_k exclude_self in
  let limit := top_k + (if exclude_self then 1 else 0) in
  let expr := lit "doc_id == " ++ [34%N] ++ doc_id_ ++ [34%N] in
  (collection_query expr = Some [] -> ending = ReturnsList [])
  /\ (forall query_embedding rows hits more,
        collection_query expr = Some (query_embedding :: rows) ->
        collection_search query_embedding limit None = Some (hits :: more) ->
        hits = []
        \/ (exclude_self = true
            /\ Forall (fun h => entity_doc_id h = PyStr doc_id_) hits) ->
        ending = ReturnsNone)
  /\ (forall query_embedding rows skipped h rest more,
        collection_query expr = Some (query_embedding :: rows) ->
        collection_search query_embedding limit None
        = Some ((skipped ++ h :: rest) :: more) ->
        (if exclude_self
         then Forall (fun h' => entity_doc_id h' = PyStr doc_id_) skipped
              /\ entity_doc_id h <> PyStr doc_id_
         else skipped = []) ->
        ~ (1 + distance h == 0)%Q ->
        ending = ReturnsList (if 1 <=? top_k then [by_doc_of h] else []))
  /\ (forall similar_docs,
     ending = ReturnsList similar_docs ->
     (length similar_docs <= 1)%nat
     /\ forall d, d ∈ similar_docs ->
          1 <= top_k
          /\ (exclude_self = true -> doc_id d <> PyStr doc_id_)
          /\ exists query_embedding skipped h rest more,
               collection_search query_embedding limit None
               = Some ((skipped ++ h :: rest) :: more)
               /\ Forall (fun h' => entity_doc_id h' = PyStr doc_id_) skipped
               /\ d = by_doc_of h)
  /\ (ending = ReturnsNone ->
      exists query_embedding hits more,
        collection_search query_embedding limit None = Some (hits :: more)
        /\ Forall (fun h => entity_doc_id h = PyStr doc_id_) hits
        /\ (hits <> [] -> exclude_self = true)).
Proof.
  intros ending limit expr. subst ending. unfold search_by_doc. fold limit. fold expr.
  split; [now intros ->|].
  split.
  { intros e rows hits more -> -> [->|[-> Hall]]; [reflexivity|].
    rewrite <- (app_nil_r hits). now rewrite by_doc_loop_skip. }
  split.
  { intros e rows skipped h rest more -> -> Hskip Hdist.
    assert (Hq : Qeq_bool (1 + distance h) 0 = false).
    { destruct (Qeq_bool (1 + distance h) 0) eqn:E; [|reflexivity].
      now apply Qeq_bool_iff in E. }
    destruct exclude_self.
    - destruct Hskip as [Hall Hother]. rewrite by_doc_loop_skip by exact Hall.
      cbn [by_doc_loop andb app]. rewrite bool_decide_eq_false_2 by exact Hother.
      rewrite Hq. now rewrite slice_one.
    - subst skipped. cbn [by_doc_loop andb app]. rewrite Hq. now rewrite slice_one. }
  destruct (collection_query expr) as [[|query_embedding rows]|].
  - split; [|discriminate]. intros l [= <-]. split; [simpl; lia|].
    intros d Hd. now apply elem_of_nil in Hd.
  - destruct (collection_search query_embedding limit None) as [[|hits more]|] eqn:Es;
      try (split; discriminate).
    split.
    + intros l Hrun. apply by_doc_loop_first in Hrun as (skipped & h & rest & -> & Hall & Hother & ->).
      cbn [app]. destruct (length_slice_one (by_doc_of h) top_k) as [Hlen Hone].
      split; [exact Hlen|]. intros d Hd.
      assert (Hne : PyList.slice_to [by_doc_of h] top_k <> []).
      { intros Habs. rewrite Habs in Hd. now apply elem_of_nil in Hd. }
      destruct (Hone Hne) as [Hk Heq]. rewrite Heq in Hd.
      apply list_elem_of_singleton in Hd as ->.
      split; [exact Hk|]. split; [exact Hother|].
      now exists query_embedding, skipped, h, rest, more.
    + intros Hrun. apply by_doc_loop_none in Hrun as [Hall Hex].
      now exists query_embedding, hits, more.
  - split; discriminate.
Qed.

Lemma search_by_doc_returns_one_document_witness :
  search_by_doc unit (fun _ => Some [tt]) example_collection (lit "d1") 5 true
  = ReturnsList [by_doc_of (example_hit "c3" "d2" 1.2)]
  /\ search_by_doc unit (fun _ => Some [tt]) example_collection (lit "d1") 5 false
     = ReturnsList [by_doc_of (example_hit "c2" "d1" 0.5)]
  /\ search_by_doc unit (fun _ => Some [tt])
       (fun _ _ _ => Some [[example_hit "c2" "d1" 0.5; example_hit "c1" "d1" 1]])
       (lit "d1") 5 true
     = ReturnsNone.
Proof.
  split; [|split].
  - refine (proj1 (proj2 (proj2
      (search_by_doc_returns_one_document unit (fun _ => Some [tt]) example_collection
         (lit "d1") 5 true))) tt []
      [example_hit "c2" "d1" 0.5; example_hit "c1" "d1" 1] (example_hit "c3" "d2" 1.2) []
      [] eq_refl eq_refl _ _).
    + split; [repeat constructor | discriminate].
    + discriminate.
  - refine (proj1 (proj2 (proj2
      (search_by_doc_returns_one_document unit (fun _ => Some [tt]) example_collection
         (lit "d1") 5 false))) tt [] [] (example_hit "c2" "d1" 0.5)
      [example_hit "c1" "d1" 1; example_hit "c3" "d2" 1.2] [] eq_refl eq_refl eq_refl _).
    discriminate.
  - refine (proj1 (proj2
      (search_by_doc_returns_one_document unit (fun _ => Some [tt])
         (fun _ _ _ => Some [[example_hit "c2" "d1" 0.5; example_hit "c1" "d1" 1]])
         (lit "d1") 5 true)) tt []
      [example_hit "c2" "d1" 0.5; example_hit "c1" "d1" 1] [] eq_refl eq_refl _).
    right. split; [reflexivity | repeat constructor].
Defined.

End DocSearchFacts.
